(* ===== verification/_CoqProject ===== *)
-Q . S2P
Prelude.v
CFloat.v
CString.v
Streams.v
KernelDriver.v
KernelCollectors.v
Messages.v
NetStats.v
EbpfLoader.v
CpuMonitors.v
ProcMonitors.v
DeviceMonitors.v
HostMonitors.v
ServiceMonitors.v
ManagerConfig.v
Dispatcher.v
Grpc.v
Collector.v
QueryDispatch.v
Pools.v
Guards.v
ScoreCache.v
HostManager.v
GrpcServer.v
Pusher.v
Logs.v
MysqlWriter.v
HostThreads.v
QueryRecords.v
QueryManager.v
PreparedStatements.v
Storage.v
Sql.v
SqlServer.v
QueryService.v
ScopeTests.v
StressOptions.v
StressStats.v
StressThreads.v
StressSearch.v
StressSamples.v
SimulatedWorkers.v
LoadTools.v
WorkerTests.v
ManagerMain.v
Lifetimes.v
Isolation.v
