(* ===== verification/Prelude.v ===== *)
(** * A verification of the monitor system

    The repository is a monitor of Linux hosts.  A worker runs on each host: two
    kernel modules and an eBPF program collect counters, monitors turn them and
    the files of [/proc] into a message, and a pusher sends it over gRPC.  A
    manager receives the messages of all workers, checks who sent them, scores
    the hosts, stores the samples in MySQL through a queue and a connection pool,
    and answers queries from the stored rows and a Redis cache.

    ** The parts and their files

    Worker:
    - [KernelDriver] (the life cycle) and [KernelCollectors] (its two instances):
      [src/worker/src/kmod/CpuStatCollector.c] and [SoftirqCollector.c].  The
      state is the ledger of what the module holds and the table it shares with
      user space; loading, refreshing, mapping and unloading are functions, the
      timer that fires while the module unloads is a step relation.
    - [NetStats]: [src/worker/src/ebpf/net_stats.bpf.c], one packet at a time and
      as interleaved steps of several CPUs, and the monitor that reads the
      counters ([NetEbpfMonitor.cpp]).  The BPF map is a class with laws.
    - [EbpfLoader]: loading, attaching and cleaning up that program; libbpf is a
      class with laws.
    - [CpuMonitors]: [CpuStatMonitor.cpp], [CpuLoadMonitor.cpp] and
      [CpuSoftirqMonitor.cpp], readers of the kernel modules' tables.
    - [Streams]: the input streams of the C++ library, as the readers use them.
    - [ProcMonitors]: [ReadFile.cpp] and [MemMonitor.cpp].
    - [DeviceMonitors]: [NetMonitor.cpp] and [DiskMonitor.cpp].
    - [HostMonitors]: [HostInfoMonitor.cpp] and [UserMonitor.cpp].
    - [ServiceMonitors]: [RedisMonitor.cpp] and [MysqlMonitor.cpp].
    - [Collector]: [MetricCollector.cpp] over the interface [MonitorInter.h], a
      class with laws that every monitor is an instance of, and
      [GrpcManagerImpl.cpp].
    - [Pusher]: [main.cpp] and [MonitorPusher.cpp], and what becomes of a push whose
      stub is the manager's service.
    - [Logs]: the lines that a push and the worker's [main] print, and the
      verbose log of [HostManager::onDataReceived].
    - [Messages]: the records of [src/proto].

    Manager:
    - [ManagerConfig]: the configuration from the environment.
    - [Dispatcher] and [QueryDispatch]: [ManagerDispatcher.cpp] and
      [ManagerDispatcher.h]; the queues ([folly::MPMCQueue], a class with laws),
      the ingest workers and the query workers as step relations whose steps are
      the accesses to shared variables.
    - [Pools]: [MysqlConnectionPool.cpp] and [RedisConnectionPool.cpp]; a step
      is one critical section of a pool's mutex.  [Guards]: the objects that hold
      a pooled connection, which refine the threads of [Pools].  [ScoreCache]: the
      class [RedisCache] over the pool; the Redis server is a class with laws, and
      may execute a command after its call has thrown.
    - [GrpcServer], [Grpc]: the service that receives the messages.
    - [HostManager]: admission of workers, the score, the write queue, stale and
      best hosts ([HostManager.cpp] up to the writing).
    - [MysqlWriter]: [HostManager::writeToMysql], the statements of one sample.
    - [HostThreads]: [HostManager::start], [stop] and the threads in between, with
      a record of the samples written, abandoned and dropped.
    - [QueryRecords] and [QueryManager]: [QueryManager.cpp], from the cells of a
      row to records, statistics and pages.  [PreparedStatements]: running one
      statement, call by call.
    - [QueryService]: the gRPC handlers and the cache of the latest scores.
    - [Storage]: the writer's statements against the reader's columns, with the
      ranges that the schema gives the integer columns.
    - [ManagerMain]: [main.cpp], the components together, and the write path
      from a push to a row.  [Lifetimes]: the end of [main] -- the threads that
      are joined and the destructors, in their order -- and the thread that prints
      the metrics.
    - [Sql]: the statements of the queries as syntax whose rendering is the text
      of the code, and the rows they select; MySQL is a class with laws, of which
      [SqlServer] is an instance that reads the statements back.
    - [Isolation]: the write path, the queries and their handlers over one server.

    Test and load programs:
    - [ScopeTests]: [src/tests/manager_scope_tests.cpp] run on the model.
    - [StressOptions] (the command line), [StressStats] (what a run records and
      its verdict), [StressThreads] (the threads of a run, as a step relation),
      [StressSearch] (the search for the highest load, and [main]) and
      [StressSamples] (the messages it pushes):
      [src/tests/manager_stress_test.cpp].
    - [SimulatedWorkers]: [src/tests/simulated_workers_push.cpp]; the random
      generator is an argument.
    - [LoadTools]: the requests of these two programs, and what the services of
      the manager answer.
    - [WorkerTests]: the programs of [src/worker/test].

    Shared: this file (notations, tactics, machine integers, small lemmas),
    [CFloat] (the C++ floating-point types) and [CString] (number parsing and
    printing of the C and C++ libraries).

    ** How the code is modelled

    A function of the code is a function of the model with the same name; a
    member function takes and returns the state of its object.  Threads that
    share state are a step relation over their program points, and the
    invariants hold in every state that [rtc] of the relation reaches.  An
    integer is a [Z] with its wrap-around written out; [float] and [double] are
    the Standard Library's executable IEEE formats.  Undefined behaviour and
    exceptions are results ([option], [res]), never left out.  What is not in the
    repository is an argument: the answers of MySQL, Redis and the kernel, the
    escape function of the MySQL client, the printing of floating-point numbers,
    clocks, the hash function, [std::sort].  What the code relies on is a named
    hypothesis or a law of a class, with a witness that instantiates it.

    ** What the theorems show

    - Isolation of tenants, from end to end: samples of workers registered
      outside a scope change no answer of the queries of that scope and no
      reply of the gRPC handlers ([tenants_are_isolated]).  Its parts: every query stays in the caller's scope
      ([queries_stay_in_scope]); whatever the components do, a row is stored only
      under the registration of the worker that pushed it
      ([stored_rows_are_registered], [admitted_scope_is_registered]); no text of a
      worker can change the shape of a statement ([statements_keep_their_shape]);
      the keys of the cache ([cache_key_separates_scopes], with the limit that
      [cached_scores_cross_tenants] exhibits, the one way around the isolation:
      a handler that answers from the cache asks no query).
    - Composition: the monitors of a build gather what each gives alone
      ([collect_all_gathers]); a push arrives ([push_arrives]).
    - Concurrency: order and loss of samples ([ingest_fifo], [ingest_drain],
      [write_queue_conserves], [writers_account]), stopping ([stop_drains],
      [pusher_stop_terminates], [metrics_thread_ends]), no thread that outlives
      an object it uses ([shutdown_safe], [shutdown_needs_stop]), the number of query workers
      ([query_worker_count]), exclusive connections ([pool_exclusive],
      [guards_own_entries], [redis_pool_no_leak]), unloading a kernel module while
      its timer fires ([collectors_unload_safe]), the traffic counters on several
      CPUs ([bpf_never_overcounts]).
    - Functional behaviour on every branch: the refinements [bpf_counts_exact],
      [collectors_shared_view], [net_ebpf_update_spec], [cpu_stat_update_spec],
      [prepared_rows_refine]; the monitors against the formats they read
      ([net_monitor_reads], [mem_monitor_reads], [disk_history_equiv],
      [disk_lines_read_back], [redis_targets_read_back], [redis_info_read_back],
      [mysql_targets_read_back], [username_found]); the handlers
      [detail_handler_answers], [detail_handlers_serve_pages], [set_monitor_info_outcomes],
      [submit_query_outcomes], [admission_outcome]; [cluster_stats_spec],
      [anomaly_pages_partition], [best_host_maximal], [stored_counters_read_back],
      [read_insert_text], [metrics_log_read_back]; the tests of the repository
      pass ([scope_tests_pass]).
    - The load programs: a run counts what it measured
      ([run_accounts_for_requests]), its threads start together and are joined
      before their results are read ([run_is_synchronized]), requests keep their
      distance ([requests_are_paced]), percentiles stay inside the vector
      ([percentile_defined]); the searches end with a load that passed
      ([find_max_single_maximal], [find_max_mixed_passed]); the samples are
      plausible, differ by host and grow ([stress_samples_in_range],
      [stress_hosts_differ], [stress_counters_grow]); accepted options are in
      range ([accepted_options]); a finite number of rounds ends
      ([simulated_workers_end]).  Against this manager neither program succeeds
      ([stress_test_never_passes], with the one exception
      [refused_calls_pass_at_rate_zero]; [simulated_workers_are_refused]).
    - The test programs of the worker agree with the code they test
      ([test_user_agrees], [kmod_tests_print_cpus]), and leave the same filters
      behind ([net_test_leaves_filters]).
    - Bounds, errors and resources: [score_in_range], [disk_rates_nonneg],
      [redis_update_spec], [mysql_update_spec], [manager_config_wf],
      [collectors_mmap_bounded], [collectors_init_all_or_nothing],
      [ebpf_construct_all_or_nothing], [mysql_handles_released],
      [cache_bounded_staleness], [cache_returns_connection].
    - Where the code does not do what it means to, a theorem states the exact
      behaviour: [mysql_pool_leaks], [network_rates_exchanged],
      [query_pool_limits_race], [ingest_lost_at_stop], [bpf_lost_update],
      [cpu_stat_idle_counter_wraps], [full_scores_report_zero],
      [cpu_load_reads_cpu_name], [page_offset_overflow], [counter_reset_rates],
      [manager_config_max_below_min], [samples_overtake],
      [tied_rows_can_be_missed], [late_set_overwrites], [large_error_counts_are_clipped],
      [failed_command_counted_twice], [ebpf_filters_left_behind],
      [net_monitor_reset_rate], [net_monitors_disagree],
      [mem_monitor_missing_field], [host_info_is_frozen],
      [lone_master_is_replicated], [unregistered_message_is_served],
      [received_log_forged], [positive_int_can_be_negative],
      [simulated_rounds_overflow], [report_needs_small_indexes],
      [test_misses_empty_shell].

    ** Bounds

    The loops of the manager and of the kernel code are structural over the
    table, the list of rows or the entries they walk.  The loops over the words
    and lines of a text take the length of the text as fuel, and lemmas state
    that it is enough: [getlines_pieces] for the lines of a stream,
    [read_words_line_words] for the words of a line, [read_meminfo_print] for
    the lines of [/proc/meminfo].  The searches of the stress test have 32 turns,
    enough for any [int] ([find_max_single_maximal] has a result); the rounds of a
    simulated worker take a number of turns, and [simulated_workers_end] says how
    many are enough.  The bounds of the code itself (256 CPUs in the
    kernel's tables, 128 in the reader's, 64 interfaces, 4096 bytes of a cell,
    queue and pool capacities) are written as the code has them.

    ** What is not modelled

    The messages on standard error of the pools, the writer and the query manager,
    which nothing reads; the way the logs of several threads interleave; the
    layout of the lines that the load and test programs print, whose figures are
    modelled; a thread that the system cannot create; generated files (the types
    of the kernel and the skeleton of the eBPF program); the other languages of
    the repository (agent service, gateway, web).  How MySQL projects, aggregates,
    sorts and limits the rows that a condition selects is the server's.  The ingest worker of [ManagerMain] runs [onDataReceived] as
    one step: its critical sections guard disjoint fields, and samples of one
    host stay on one shard.  The pools' [stop] closes connections only after the
    guards are gone: an assumption on its caller, which the end of [main] meets
    ([shutdown_safe]). *)

From Stdlib Require Export ZArith Lia Bool.
From stdpp Require Export base gmap strings list sorting relations.

#[export] Set Default Goal Selector "!".

(** ** Scopes and notations *)

Declare Scope monitor_scope.
Delimit Scope monitor_scope with mon.

(** String literals are the bytes of a [std::string]. *)
Notation "s +++ t" := (String.append s t)
  (at level 60, right associativity) : monitor_scope.

#[global] Open Scope string_scope.
#[global] Open Scope list_scope.
#[global] Open Scope Z_scope.
#[global] Open Scope monitor_scope.

(** ** Machine integers

    A [w]-bit machine integer is a [Z]; the conversions below are what a cast
    or an overflowing unsigned operation does to it. *)

Definition u32_wrap (z : Z) : Z := z mod 2 ^ 32.
Definition u64_wrap (z : Z) : Z := z mod 2 ^ 64.
Definition i32_wrap (z : Z) : Z := (z + 2 ^ 31) mod 2 ^ 32 - 2 ^ 31.
Definition i64_wrap (z : Z) : Z := (z + 2 ^ 63) mod 2 ^ 64 - 2 ^ 63.

Definition INT_MAX : Z := 2 ^ 31 - 1.
Definition INT_MIN : Z := - 2 ^ 31.
Definition LONG_MAX : Z := 2 ^ 63 - 1.
Definition LONG_MIN : Z := - 2 ^ 63.
Definition ULLONG_MAX : Z := 2 ^ 64 - 1.

(** Signed 32-bit arithmetic of C++: [None] is undefined behaviour. *)
Definition i32_checked (z : Z) : option Z :=
  if (INT_MIN <=? z) && (z <=? INT_MAX) then Some z else None.

Definition u64_add (a b : Z) : Z := u64_wrap (a + b).
Definition u64_sub (a b : Z) : Z := u64_wrap (a - b).

(** ** Results of code that may throw or be undefined *)

Inductive res (A : Type) :=
| Done (a : A)
| Throws            (* a C++ exception leaves the function *)
| Undefined.        (* signed overflow, an access out of bounds, an unset variable *)
Arguments Done {A} a.
Arguments Throws {A}.
Arguments Undefined {A}.

#[export] Instance res_ret : MRet res := fun A a => Done a.
#[export] Instance res_bind : MBind res := fun A B f x =>
  match x with Done a => f a | Throws => Throws | Undefined => Undefined end.

(** A [std::optional]-like parse that throws when it fails, and checked [int]
    arithmetic. *)
Definition or_throw {A} (o : option A) : res A :=
  match o with Some a => Done a | None => Throws end.
Definition or_undefined {A} (o : option A) : res A :=
  match o with Some a => Done a | None => Undefined end.

(** ** Tactics *)

(** Split every [if] and [match] on a boolean or option that blocks the goal. *)
Ltac break_if :=
  match goal with
  | |- context [ if ?b then _ else _ ] => destruct b eqn:?
  | H : context [ if ?b then _ else _ ] |- _ => destruct b eqn:?
  end.

Ltac break_match :=
  match goal with
  | |- context [ match ?x with _ => _ end ] => destruct x eqn:?
  | H : context [ match ?x with _ => _ end ] |- _ => destruct x eqn:?
  end.

(** Turn boolean comparisons of the code into propositions and finish. *)
Ltac to_props :=
  repeat match goal with
  | H : _ && _ = true |- _ => apply andb_true_iff in H; destruct H
  | H : _ || _ = false |- _ => apply orb_false_iff in H; destruct H
  | H : negb _ = true |- _ => apply negb_true_iff in H
  | H : negb _ = false |- _ => apply negb_false_iff in H
  | H : (_ <? _) = true |- _ => apply Z.ltb_lt in H
  | H : (_ <? _) = false |- _ => apply Z.ltb_ge in H
  | H : (_ <=? _) = true |- _ => apply Z.leb_le in H
  | H : (_ <=? _) = false |- _ => apply Z.leb_gt in H
  | H : (_ =? _) = true |- _ => apply Z.eqb_eq in H
  | H : (_ =? _) = false |- _ => apply Z.eqb_neq in H
  end.

Ltac wrap_unfold := unfold u32_wrap, u64_wrap, i32_wrap, i64_wrap, INT_MAX,
  INT_MIN, LONG_MAX, LONG_MIN, ULLONG_MAX in *.

(** Goals about the range of a wrapped integer. *)
Ltac wrap_lia :=
  wrap_unfold; Z.to_euclidean_division_equations; lia.

(** ** Lemmas on machine integers *)

Create HintDb monitor.

Lemma u64_wrap_range z : 0 <= u64_wrap z < 2 ^ 64.
Proof. wrap_lia. Qed.

Lemma u32_wrap_range z : 0 <= u32_wrap z < 2 ^ 32.
Proof. wrap_lia. Qed.

Lemma i32_wrap_range z : INT_MIN <= i32_wrap z <= INT_MAX.
Proof. wrap_lia. Qed.

Lemma u64_wrap_small z : 0 <= z < 2 ^ 64 -> u64_wrap z = z.
Proof. intros; unfold u64_wrap; apply Z.mod_small; lia. Qed.

Lemma u64_add_wrap a b : u64_add (u64_wrap a) b = u64_wrap (a + b).
Proof. unfold u64_add, u64_wrap. apply Zplus_mod_idemp_l. Qed.

Lemma u64_add_wraps a b : u64_add (u64_wrap a) (u64_wrap b) = u64_wrap (a + b).
Proof. unfold u64_add, u64_wrap. by rewrite <- Zplus_mod. Qed.

Lemma i32_wrap_small z : INT_MIN <= z <= INT_MAX -> i32_wrap z = z.
Proof. intros; wrap_lia. Qed.

Lemma i64_wrap_small z : LONG_MIN <= z <= LONG_MAX -> i64_wrap z = z.
Proof. intros; wrap_lia. Qed.

Lemma i32_checked_Some z r :
  i32_checked z = Some r <-> r = z /\ INT_MIN <= z <= INT_MAX.
Proof.
  unfold i32_checked; break_if.
  - to_props. split; [intros [= <-]; auto | intros [-> _]; auto].
  - split; [discriminate | intros [-> ?]]. wrap_unfold; lia.
Qed.

#[export] Hint Resolve u64_wrap_range u32_wrap_range i32_wrap_range : monitor.

(** ** Lemmas on lists *)

Lemma elem_of_insert_inv {A} (l : list A) i x y : y ∈ <[i := x]> l -> y = x \/ y ∈ l.
Proof.
  intros (j & Hj)%list_elem_of_lookup_1. apply list_lookup_insert_Some in Hj as [(_ & -> & _)|(_ & Hj)].
  - by left.
  - right. by eapply list_elem_of_lookup_2.
Qed.

(** ** Invariants of step relations *)

Lemma rtc_invariant {A} (R : A -> A -> Prop) (P : A -> Prop) x y :
  (forall a b, P a -> R a b -> P b) -> P x -> rtc R x y -> P y.
Proof. intros Hstep Hx Hr. induction Hr; eauto. Qed.

Lemma omap_cons_app {A B} (f : A -> option B) x l :
  omap f (x :: l) = option_list (f x) ++ omap f l.
Proof. cbn. by destruct (f x). Qed.

(** A buffer that is large enough holds the whole text. *)
Lemma substring_all (s : string) n : (String.length s <= n)%nat -> String.substring 0 n s = s.
Proof.
  revert n. induction s as [|c s IH]; intros [|n] H; cbn in *; try done; [lia|].
  f_equal. apply IH. lia.
Qed.

(** A list with one element apart: what [omap] and a sum make of it, before and
    after that element is replaced. *)
Definition others {A} (i : nat) (l : list A) : list A := take i l ++ drop (S i) l.

Lemma others_perm {A} (l : list A) i x : l !! i = Some x -> l ≡ₚ x :: others i l.
Proof.
  intros H. rewrite <- (take_drop_middle l i x H) at 1. unfold others.
  by rewrite Permutation_middle.
Qed.

Lemma others_insert_perm {A} (l : list A) i x y : l !! i = Some x -> <[i := y]> l ≡ₚ y :: others i l.
Proof.
  intros H. rewrite insert_take_drop by (by eapply lookup_lt_Some). unfold others.
  by rewrite Permutation_middle.
Qed.

#[export] Instance omap_perm {A B} (f : A -> option B) : Proper ((≡ₚ) ==> (≡ₚ)) (omap f).
Proof.
  intros l l' H. induction H; rewrite ?omap_cons_app; [done|by f_equiv| |by etrans].
  rewrite !app_assoc. f_equiv. apply Permutation_app_comm.
Qed.

Lemma sum_others {A} (f : A -> nat) l i x :
  l !! i = Some x -> sum_list_with f l = (f x + sum_list_with f (others i l))%nat.
Proof. intros H. by rewrite (others_perm l i x H) at 1. Qed.

Lemma sum_others_insert {A} (f : A -> nat) l i x y :
  l !! i = Some x -> sum_list_with f (<[i := y]> l) = (f y + sum_list_with f (others i l))%nat.
Proof. intros H. by rewrite (others_insert_perm l i x y H). Qed.

(** ** Strings *)

Lemma append_cons a s t : String a s +++ t = String a (s +++ t).
Proof. done. Qed.

Lemma append_nil_l s : "" +++ s = s.
Proof. done. Qed.

Lemma append_assoc (a b c : string) : (a +++ b) +++ c = a +++ (b +++ c).
Proof. induction a as [|x a IH]; [done|]. by rewrite !append_cons, IH. Qed.

Lemma append_nil_r (a : string) : a +++ "" = a.
Proof. induction a as [|x a IH]; [done|]. by rewrite append_cons, IH. Qed.

Lemma length_append s t : String.length (s +++ t) = (String.length s + String.length t)%nat.
Proof. induction s as [|a s IH]; [done|]. rewrite append_cons. cbn. by rewrite IH. Qed.

Lemma append_cancel_r s1 : forall s2 t, s1 +++ t = s2 +++ t -> s1 = s2.
Proof.
  induction s1 as [|a s1 IH]; intros [|b s2] t H; rewrite ?append_cons in H; try done.
  - apply (f_equal String.length) in H. cbn in H. rewrite !length_append in H. cbn in H. lia.
  - apply (f_equal String.length) in H. cbn in H. rewrite !length_append in H. cbn in H. lia.
  - injection H as -> H. by rewrite (IH _ _ H).
Qed.

(** ** Loops that keep the previous sample of each name

    Each turn makes a message from what the store holds under the name of the
    element, and puts the element in the store. *)
Section Sampling.
Context {E S L M : Type}.
Variables (name : E -> string) (look : S -> string -> L) (put : S -> E -> S) (msg : L -> E -> M).
Variable turn : S * list M -> E -> S * list M.
Hypothesis turn_eq : forall s out e, turn (s, out) e = (put s e, out ++ [msg (look s (name e)) e]).
Hypothesis look_put : forall s e n, n <> name e -> look (put s e) n = look s n.

Lemma foldl_sampling es : forall s out,
  NoDup (map name es) ->
  foldl turn (s, out) es = (foldl put s es, out ++ map (fun e => msg (look s (name e)) e) es).
Proof using turn_eq look_put.
  induction es as [|e es IH]; intros s out Hnd; cbn; [by rewrite app_nil_r|].
  cbn in Hnd. apply NoDup_cons in Hnd as [Hni Hnd].
  rewrite turn_eq, IH by done. f_equal.
  rewrite <- app_assoc. cbn. do 2 f_equal. apply map_ext_in. intros x Hx%list_elem_of_In.
  rewrite look_put; [done|]. intros Heq. apply Hni. rewrite <- Heq. by apply list_elem_of_fmap_2.
Qed.
End Sampling.
