(* ===== verification/CFloat.v ===== *)
(** * CFloat: the C++ types [float] and [double]

    Both types are IEEE 754 binary formats rounded to nearest, ties to even.
    The model is the Standard Library's executable specification [spec_float]
    at 24 and 53 bits, so a definition that uses it evaluates to the bits the
    program computes (up to the payload of a NaN).  The comparison of the
    specification is shown to be a total order away from NaN. *)

From S2P Require Import Prelude.
From Stdlib Require Export SpecFloat.

(** ** Operations of the two formats *)

Definition f32 : Type := spec_float.
Definition f64 : Type := spec_float.

Definition f32_add : f32 -> f32 -> f32 := SFadd 24 128.
Definition f32_sub : f32 -> f32 -> f32 := SFsub 24 128.
Definition f32_mul : f32 -> f32 -> f32 := SFmul 24 128.
Definition f32_div : f32 -> f32 -> f32 := SFdiv 24 128.

Definition f64_add : f64 -> f64 -> f64 := SFadd 53 1024.
Definition f64_sub : f64 -> f64 -> f64 := SFsub 53 1024.
Definition f64_mul : f64 -> f64 -> f64 := SFmul 53 1024.
Definition f64_div : f64 -> f64 -> f64 := SFdiv 53 1024.

(** Comparison operators; every one is false on a NaN, [!=] is true. *)
Definition flt (x y : spec_float) : bool := SFltb x y.
Definition fgt (x y : spec_float) : bool := SFltb y x.
Definition fle (x y : spec_float) : bool := SFleb x y.
Definition feq (x y : spec_float) : bool := SFeqb x y.

Definition fzero : spec_float := S754_zero false.

Definition is_nan (x : spec_float) : bool :=
  match x with S754_nan => true | _ => false end.

(** ** Conversions *)

Definition f32_of_Z (z : Z) : f32 := binary_normalize 24 128 z 0 false.
Definition f64_of_Z (z : Z) : f64 := binary_normalize 53 1024 z 0 false.

(** [static_cast<float>] of a [double], and the promotion back. *)
Definition f32_of_f64 (x : f64) : f32 :=
  match x with S754_finite s m e => binary_round 24 128 s m e | _ => x end.
Definition f64_of_f32 (x : f32) : f64 :=
  match x with S754_finite s m e => binary_round 53 1024 s m e | _ => x end.

(** Truncation towards zero; [None] for a NaN or an infinity. *)
Definition f_trunc (x : spec_float) : option Z :=
  match x with
  | S754_zero _ => Some 0
  | S754_finite s m e =>
      let a := if 0 <=? e then Zpos m * 2 ^ e else Zpos m / 2 ^ (- e) in
      Some (if s then - a else a)
  | _ => None
  end.

(** A conversion to an integer type is undefined outside the type's range. *)
Definition f_to_u64 (x : spec_float) : option Z :=
  z ← f_trunc x; if (0 <=? z) && (z <? 2 ^ 64) then Some z else None.
Definition f_to_i64 (x : spec_float) : option Z :=
  z ← f_trunc x; if (LONG_MIN <=? z) && (z <=? LONG_MAX) then Some z else None.

(** A decimal literal [n/d] of the source, rounded as the compiler does. *)
Definition f32_lit (n d : positive) : f32 :=
  SFdiv 24 128 (S754_finite false n 0) (S754_finite false d 0).
Definition f64_lit (n d : positive) : f64 :=
  SFdiv 53 1024 (S754_finite false n 0) (S754_finite false d 0).

(** The [float] whose object representation is the 32-bit word [w]. *)
Definition f32_of_bits (w : Z) : f32 :=
  let s := Z.testbit w 31 in
  let e := Z.land (Z.shiftr w 23) 255 in
  let m := Z.land w (2 ^ 23 - 1) in
  if e =? 255 then (if m =? 0 then S754_infinity s else S754_nan)
  else if e =? 0 then
    match m with Zpos p => S754_finite s p (-149) | _ => S754_zero s end
  else
    match m + 2 ^ 23 with
    | Zpos p => S754_finite s p (e - 150)
    | _ => S754_zero s
    end.

(** ** The order of the comparison operators *)

(** The sort key of a number: class, exponent, mantissa; a NaN has none. *)
Definition sf_key (x : spec_float) : option (Z * Z * Z) :=
  match x with
  | S754_nan => None
  | S754_infinity true => Some (-2, 0, 0)
  | S754_finite true m e => Some (-1, - e, Zneg m)
  | S754_zero _ => Some (0, 0, 0)
  | S754_finite false m e => Some (1, e, Zpos m)
  | S754_infinity false => Some (2, 0, 0)
  end.

Definition key_compare (a b : Z * Z * Z) : comparison :=
  match a.1.1 ?= b.1.1 with
  | Eq => match a.1.2 ?= b.1.2 with Eq => a.2 ?= b.2 | c => c end
  | c => c
  end.

Lemma SFcompare_key x y :
  SFcompare x y =
    match sf_key x, sf_key y with
    | Some a, Some b => Some (key_compare a b)
    | _, _ => None
    end.
Proof.
  destruct x as [sx|sx| |sx mx ex], y as [sy|sy| |sy my ey];
    try destruct sx; try destruct sy; try reflexivity.
  cbn. unfold key_compare; cbn. rewrite Z.compare_opp.
  by destruct (Z.compare_spec ex ey), (Z.compare_spec ey ex); try lia.
Qed.

Lemma sf_key_nan x : sf_key x = None <-> is_nan x = true.
Proof. destruct x as [|[]| |[]]; split; done. Qed.

Lemma sf_key_some x : is_nan x = false -> exists k, sf_key x = Some k.
Proof. destruct x as [|[]| |[]]; try discriminate; eauto. Qed.

Lemma key_compare_antisym a b : key_compare b a = CompOpp (key_compare a b).
Proof.
  unfold key_compare.
  rewrite (Z.compare_antisym a.1.1), (Z.compare_antisym a.1.2), (Z.compare_antisym a.2).
  by destruct (a.1.1 ?= b.1.1), (a.1.2 ?= b.1.2), (a.2 ?= b.2).
Qed.

Lemma key_compare_Eq a b : key_compare a b = Eq <-> a = b.
Proof.
  unfold key_compare. destruct a as [[a1 a2] a3], b as [[b1 b2] b3]; cbn.
  destruct (Z.compare_spec a1 b1), (Z.compare_spec a2 b2), (Z.compare_spec a3 b3);
    split; intros; simplify_eq; try done; lia.
Qed.

Lemma key_compare_Lt a b :
  key_compare a b = Lt <->
  a.1.1 < b.1.1 \/ (a.1.1 = b.1.1 /\ (a.1.2 < b.1.2 \/ (a.1.2 = b.1.2 /\ a.2 < b.2))).
Proof.
  unfold key_compare.
  destruct (Z.compare_spec a.1.1 b.1.1), (Z.compare_spec a.1.2 b.1.2),
    (Z.compare_spec a.2 b.2); split; intros; try done; lia.
Qed.

Lemma key_lt_trans a b c :
  key_compare a b = Lt -> key_compare b c = Lt -> key_compare a c = Lt.
Proof. rewrite !key_compare_Lt; lia. Qed.

(** Every comparison lemma below is decided on the keys. *)
Ltac fcmp :=
  unfold flt, fgt, fle, feq, SFltb, SFleb, SFeqb in *; rewrite ?SFcompare_key in *;
  repeat match goal with
  | H : context [ match sf_key ?x with _ => _ end ] |- _ => destruct (sf_key x) eqn:?
  | |- context [ match sf_key ?x with _ => _ end ] => destruct (sf_key x) eqn:?
  end; try discriminate; try done.

Lemma flt_irrefl x : flt x x = false.
Proof. fcmp. by rewrite (proj2 (key_compare_Eq _ _) eq_refl). Qed.

Lemma flt_trans x y z : flt x y = true -> flt y z = true -> flt x z = true.
Proof.
  intros H1 H2. fcmp. repeat break_match; simplify_eq; try done;
  match goal with
  | A : key_compare ?a ?b = Lt, B : key_compare ?b ?c = Lt, C : key_compare ?a ?c = _ |- _ =>
      rewrite (key_lt_trans a b c A B) in C; discriminate
  end.
Qed.

Lemma flt_not_nan x y : flt x y = true -> is_nan x = false /\ is_nan y = false.
Proof.
  intros H; split; apply not_true_is_false; intros E; apply sf_key_nan in E;
    unfold flt, SFltb in H; rewrite SFcompare_key, E in H; try done.
  by destruct (sf_key x).
Qed.

(** On numbers [<=] is the negation of the opposite [<]. *)
Lemma fle_not_flt x y :
  fle x y = negb (flt y x) && negb (is_nan x) && negb (is_nan y).
Proof.
  unfold fle, flt, SFleb, SFltb. rewrite !SFcompare_key.
  destruct (is_nan x) eqn:Ex.
  - apply sf_key_nan in Ex. rewrite Ex. by rewrite andb_false_r.
  - destruct (is_nan y) eqn:Ey.
    + apply sf_key_nan in Ey. rewrite Ey, andb_false_r. by destruct (sf_key x).
    + destruct (sf_key_some x Ex) as [a Ha], (sf_key_some y Ey) as [b Hb].
      rewrite Ha, Hb, (key_compare_antisym a b). by destruct (key_compare a b).
Qed.

Lemma fle_refl x : is_nan x = false -> fle x x = true.
Proof. intros H. by rewrite fle_not_flt, flt_irrefl, H. Qed.

Lemma flt_fle x y : flt x y = true -> fle x y = true.
Proof. intros H. fcmp. by destruct (key_compare _ _). Qed.

Lemma key_le_trans a b c :
  key_compare a b <> Gt -> key_compare b c <> Gt -> key_compare a c <> Gt.
Proof.
  destruct (key_compare a b) eqn:E1; intros H1; [| |done].
  - apply key_compare_Eq in E1 as ->. done.
  - destruct (key_compare b c) eqn:E2; intros H2; [| |done].
    + apply key_compare_Eq in E2 as <-. by rewrite E1.
    + by rewrite (key_lt_trans _ _ _ E1 E2).
Qed.

Lemma fle_key x y :
  fle x y = true <->
  exists a b, sf_key x = Some a /\ sf_key y = Some b /\ key_compare a b <> Gt.
Proof.
  unfold fle, SFleb. rewrite SFcompare_key.
  destruct (sf_key x) as [a|], (sf_key y) as [b|];
    try (split; [discriminate | intros (?&?&?&?&?); discriminate]).
  destruct (key_compare a b) eqn:E; split; intros H; try done;
    try (exists a, b; by rewrite E).
  destruct H as (?&?&?&?&?); simplify_eq; congruence.
Qed.

Lemma fle_trans x y z : fle x y = true -> fle y z = true -> fle x z = true.
Proof.
  rewrite !fle_key. intros (a&b&?&?&?) (b'&c&?&?&?); simplify_eq.
  exists a, c; eauto using key_le_trans.
Qed.

Lemma fle_not_nan x y : fle x y = true -> is_nan x = false /\ is_nan y = false.
Proof.
  rewrite fle_not_flt. intros H. apply andb_true_iff in H as [H H2].
  apply andb_true_iff in H as [_ H1]. by rewrite negb_true_iff in H1, H2.
Qed.

Lemma flt_fle_false x y : fle x y = true -> flt y x = false.
Proof. rewrite fle_not_flt. by destruct (flt y x). Qed.

Lemma not_flt_fle x y :
  is_nan x = false -> is_nan y = false -> flt x y = false -> fle y x = true.
Proof. intros Hx Hy H. by rewrite fle_not_flt, H, Hx, Hy. Qed.

#[export] Hint Resolve fle_refl flt_fle fle_trans flt_trans : monitor.

(** ** Signs and NaNs through the operations *)

(** [x] is not a NaN and carries the sign [s]. *)
Definition has_sign (s : bool) (x : spec_float) : bool :=
  match x with
  | S754_zero s' | S754_infinity s' | S754_finite s' _ _ => Bool.eqb s s'
  | S754_nan => false
  end.

(** Not a NaN and not below zero (a negative zero is allowed). *)
Definition nonneg (x : spec_float) : bool :=
  match x with
  | S754_zero _ | S754_infinity false | S754_finite false _ _ => true
  | _ => false
  end.

Definition is_finite (x : spec_float) : bool :=
  match x with S754_zero _ | S754_finite _ _ _ => true | _ => false end.

Lemma has_sign_not_nan s x : has_sign s x = true -> is_nan x = false.
Proof. by destruct x. Qed.

Lemma nonneg_not_nan x : nonneg x = true -> is_nan x = false.
Proof. by destruct x as [|[]| |[]]. Qed.

Lemma has_sign_nonneg x : has_sign false x = true -> nonneg x = true.
Proof. by destruct x as [|[]| |[]]. Qed.

Section Signs.
Variables prec emax : Z.

Lemma iter_pos_inv {A} (P : A -> Prop) (f : A -> A) p x :
  (forall y, P y -> P (f y)) -> P x -> P (iter_pos f p x).
Proof. intros Hf; revert x; induction p; cbn; auto. Qed.

Lemma shr_1_nonneg r : 0 <= shr_m r -> 0 <= shr_m (shr_1 r).
Proof. destruct r as [m b1 b2]. destruct m as [|[p|p|]|[p|p|]]; cbn; lia. Qed.

Lemma shr_fexp_nonneg m e l : 0 <= m -> 0 <= shr_m (fst (shr_fexp prec emax m e l)).
Proof.
  intros Hm. unfold shr_fexp, shr.
  assert (Hr : 0 <= shr_m (shr_record_of_loc m l)) by (destruct l as [|[]]; done).
  destruct (_ - e); cbn; try done.
  apply (iter_pos_inv (fun r => 0 <= shr_m r)); auto using shr_1_nonneg.
Qed.

Lemma round_nearest_even_nonneg m l : 0 <= m -> 0 <= round_nearest_even m l.
Proof. intros Hm. destruct l as [|[]]; cbn; try lia. destruct (Z.even m); lia. Qed.

Lemma binary_round_aux_sign s m e l :
  0 <= m -> has_sign s (binary_round_aux prec emax s m e l) = true.
Proof.
  intros Hm. unfold binary_round_aux.
  pose proof (shr_fexp_nonneg m e l Hm) as H1.
  destruct (shr_fexp prec emax m e l) as [r1 e1]. cbn in H1.
  pose proof (shr_fexp_nonneg _ e1 loc_Exact
    (round_nearest_even_nonneg (shr_m r1) (loc_of_shr_record r1) H1)) as H2.
  destruct (shr_fexp prec emax _ e1 loc_Exact) as [r2 e2]. cbn in H2.
  destruct (shr_m r2) as [|p|p]; [|destruct (_ <=? _)|lia]; cbn; by destruct s.
Qed.

Lemma binary_round_sign s m e : has_sign s (binary_round prec emax s m e) = true.
Proof.
  unfold binary_round. destruct (shl_align _ _ _) as [mz ez].
  apply binary_round_aux_sign. lia.
Qed.

Lemma binary_normalize_not_nan m e s : is_nan (binary_normalize prec emax m e s) = false.
Proof.
  destruct m; [done| |]; cbn; eapply has_sign_not_nan, binary_round_sign.
Qed.

Lemma SFdiv_core_nonneg m1 e1 m2 e2 :
  0 <= fst (fst (SFdiv_core_binary prec emax (Zpos m1) e1 (Zpos m2) e2)).
Proof.
  unfold SFdiv_core_binary. set (s := _ - _ - _).
  assert (H : 0 <= match s with Z0 => Zpos m1 | Zpos _ => Z.shiftl (Zpos m1) s | Zneg _ => 0 end)
    by (destruct s; [lia|apply Z.shiftl_nonneg; lia|lia]).
  pose proof (Z.div_pos _ (Zpos m2) H ltac:(lia)) as Hq.
  unfold Z.div in Hq. destruct (Z.div_eucl _ _) as [q r]. done.
Qed.

(** A non-NaN number over a finite nonzero one. *)
Lemma SFdiv_not_nan x s m e :
  is_nan x = false -> is_nan (SFdiv prec emax x (S754_finite s m e)) = false.
Proof.
  destruct x as [s'|s'| |s' m' e']; intros H; try done. cbn [SFdiv].
  pose proof (SFdiv_core_nonneg m' e' m e) as Hq.
  destruct (SFdiv_core_binary _ _ _ _ _ _) as [[q eq] l]. cbn in Hq.
  by eapply has_sign_not_nan, binary_round_aux_sign.
Qed.

(** A finite number minus a non-NaN one. *)
Lemma SFsub_not_nan x y :
  is_finite x = true -> is_nan y = false -> is_nan (SFsub prec emax x y) = false.
Proof.
  destruct x as [[]| | |s m e], y as [[]|[]| |s' m' e']; intros; try done;
    apply binary_normalize_not_nan.
Qed.

Lemma SFmul_nonneg x y :
  nonneg x = true -> nonneg y = true -> is_finite x = true -> is_finite y = true ->
  nonneg (SFmul prec emax x y) = true.
Proof.
  destruct x as [|[]| |[] m e], y as [|[]| |[] m' e']; intros; try done.
  apply has_sign_nonneg. cbn. apply binary_round_aux_sign. lia.
Qed.

Lemma SFadd_nonneg x y :
  nonneg x = true -> nonneg y = true -> nonneg (SFadd prec emax x y) = true.
Proof.
  destruct x as [[]|[]| |[] m e], y as [[]|[]| |[] m' e']; intros; try done.
  apply has_sign_nonneg. cbn. apply binary_round_sign.
Qed.
(** A factor or a divisor that is finite and above zero keeps the sign. *)
Lemma SFmul_nonneg_pos x m e :
  nonneg x = true -> nonneg (SFmul prec emax x (S754_finite false m e)) = true.
Proof.
  destruct x as [|[]| |[] m' e']; intros; try done.
  apply has_sign_nonneg. cbn. apply binary_round_aux_sign. lia.
Qed.

Lemma SFmul_pos_nonneg m e y :
  nonneg y = true -> nonneg (SFmul prec emax (S754_finite false m e) y) = true.
Proof.
  destruct y as [|[]| |[] m' e']; intros; try done.
  apply has_sign_nonneg. cbn. apply binary_round_aux_sign. lia.
Qed.

Lemma SFdiv_nonneg_pos x m e :
  nonneg x = true -> nonneg (SFdiv prec emax x (S754_finite false m e)) = true.
Proof.
  destruct x as [|[]| |[] m' e']; intros; try done.
  apply has_sign_nonneg. cbn [SFdiv].
  pose proof (SFdiv_core_nonneg m' e' m e) as Hq.
  destruct (SFdiv_core_binary _ _ _ _ _ _) as [[q eq] l]. cbn in Hq.
  by apply binary_round_aux_sign.
Qed.
End Signs.

Lemma f64_of_f32_not_nan x : is_nan x = false -> is_nan (f64_of_f32 x) = false.
Proof.
  unfold f64_of_f32. destruct x; try done. intros _. cbn.
  by eapply has_sign_not_nan, binary_round_sign.
Qed.

(** What is not below zero, by the comparison. *)
Lemma not_flt_zero_nonneg x : is_nan x = false -> flt x fzero = false -> nonneg x = true.
Proof. destruct x as [|[]| |[]]; done. Qed.

Lemma nonneg_fle_zero x : nonneg x = true -> fle fzero x = true.
Proof. destruct x as [|[]| |[]]; done. Qed.

(** ** Finite results

    The rounding of a [double] to the nearest stays finite when the mantissa
    and the exponent are far from the limits of the format. *)

Lemma digits2_pos_lower p : 2 ^ (Zpos (digits2_pos p) - 1) <= Zpos p.
Proof.
  induction p as [p IH|p IH|]; cbn [digits2_pos]; [| |done];
    rewrite Pos2Z.inj_succ, Z.sub_1_r, Z.pred_succ;
    (replace (Zpos (digits2_pos p)) with (Zpos (digits2_pos p) - 1 + 1) by lia);
    rewrite Z.pow_add_r by lia; lia.
Qed.

Lemma digits2_pos_bound p k : Zpos p < 2 ^ k -> Zpos (digits2_pos p) <= k.
Proof.
  intros Hk. pose proof (digits2_pos_lower p).
  destruct (Z.le_gt_cases (Zpos (digits2_pos p)) k) as [|Hgt]; [done|].
  assert (2 ^ k <= 2 ^ (Zpos (digits2_pos p) - 1)) by (apply Z.pow_le_mono_r; lia). lia.
Qed.

Lemma digits2_pos_upper p : Zpos p < 2 ^ Zpos (digits2_pos p).
Proof.
  induction p as [p IH|p IH|]; cbn [digits2_pos]; [| |done];
    rewrite Pos2Z.inj_succ, Z.pow_succ_r by lia; lia.
Qed.

Lemma Zdigits2_bound m k : 0 <= m < 2 ^ k -> 0 <= k -> 0 <= Zdigits2 m <= k.
Proof.
  intros [Hm Hk] H0. destruct m as [|p|p]; cbn [Zdigits2]; [lia| |lia].
  pose proof (digits2_pos_bound _ _ Hk). lia.
Qed.

Lemma shr_1_le m r : 0 <= shr_m r <= m -> 0 <= shr_m (shr_1 r) <= m.
Proof. destruct r as [n b1 b2]. destruct n as [|[p|p|]|[p|p|]]; cbn; lia. Qed.

Lemma shr_fexp_bounds m e l k r e' :
  0 <= m < 2 ^ k -> 0 <= k -> -1000 <= e -> shr_fexp 53 1024 m e l = (r, e') ->
  0 <= shr_m r <= m /\ e <= e' <= e + k.
Proof.
  intros Hm Hk He. pose proof (Zdigits2_bound m k Hm Hk) as Hd.
  assert (Hr : 0 <= shr_m (shr_record_of_loc m l) <= m) by (destruct l as [|[]]; cbn; lia).
  assert (Hf : fexp 53 1024 (Zdigits2 m + e) - e <= k) by (unfold fexp, emin; lia).
  unfold shr_fexp, shr. destruct (_ - e) as [|n|n]; intros [= <- <-]; [lia| |lia].
  split; [|lia]. apply (iter_pos_inv (fun r => 0 <= shr_m r <= m)); auto using shr_1_le.
Qed.

Lemma round_nearest_even_le m l : 0 <= m -> 0 <= round_nearest_even m l <= m + 1.
Proof. intros Hm. destruct l as [|[]]; cbn; try lia. destruct (Z.even m); lia. Qed.

(** A finite number whose mantissa is below [2 ^ k] and whose exponent is in
    a range. *)
Definition within (k lo hi : Z) (x : spec_float) : Prop :=
  match x with
  | S754_zero _ => True
  | S754_finite _ m e => Zpos m < 2 ^ k /\ lo <= e <= hi
  | _ => False
  end.

Lemma within_finite k lo hi x : within k lo hi x -> is_finite x = true.
Proof. by destruct x. Qed.

Lemma binary_round_aux_within s m e l k :
  0 <= m < 2 ^ k -> 0 <= k <= 300 -> -1000 <= e <= 300 ->
  within (k + 1) e (e + 2 * k + 1) (binary_round_aux 53 1024 s m e l).
Proof.
  intros Hm Hk He. unfold binary_round_aux.
  destruct (shr_fexp 53 1024 m e l) as [r1 e1] eqn:E1.
  apply (shr_fexp_bounds _ _ _ k) in E1 as [H1 He1]; [|lia..].
  pose proof (round_nearest_even_le (shr_m r1) (loc_of_shr_record r1) ltac:(lia)) as H2.
  destruct (shr_fexp 53 1024 _ e1 loc_Exact) as [r2 e2] eqn:E2.
  assert (Hp : 2 ^ (k + 1) = 2 ^ k * 2) by (rewrite Z.pow_add_r by lia; lia).
  apply (shr_fexp_bounds _ _ _ (k + 1)) in E2 as [H3 He2]; [|lia..].
  destruct (shr_m r2) as [|p|p]; [done| |lia].
  rewrite (proj2 (Z.leb_le _ _)) by lia. cbn. lia.
Qed.

Lemma pos_iter_xO m d : Zpos (Pos.iter xO m d) = Zpos m * 2 ^ Zpos d.
Proof.
  induction d as [|d IH] using Pos.peano_ind; [cbn; lia|].
  rewrite Pos.iter_succ, Pos2Z.inj_succ, Z.pow_succ_r by lia. lia.
Qed.

Lemma binary_round_within s m e k :
  Zpos m < 2 ^ k -> 53 <= k <= 300 -> -300 <= e <= 300 ->
  within (k + 1) (e - 53) (e + 2 * k + 1) (binary_round 53 1024 s m e).
Proof.
  intros Hm Hk He. unfold binary_round, shl_align.
  set (d := Zpos (digits2_pos m)).
  assert (Hd : 1 <= d <= k) by (pose proof (digits2_pos_bound m k Hm); unfold d in *; lia).
  assert (Hf : fexp 53 1024 (d + e) = d + e - 53) by (unfold fexp, emin; lia).
  rewrite Hf. destruct (d + e - 53 - e) as [|n|n] eqn:En.
  1,2: pose proof (binary_round_aux_within s (Zpos m) e loc_Exact k ltac:(lia) ltac:(lia)
                     ltac:(lia)) as H;
       destruct (binary_round_aux _ _ _ _ _ _); cbn in *; lia.
  assert (Hmz : Zpos (Pos.iter xO m n) < 2 ^ k).
  { rewrite pos_iter_xO. pose proof (digits2_pos_upper m) as Hu. fold d in Hu.
    apply Z.lt_le_trans with (2 ^ d * 2 ^ Zpos n); [apply Z.mul_lt_mono_pos_r; lia|].
    rewrite <- Z.pow_add_r by lia. apply Z.pow_le_mono_r; lia. }
  pose proof (binary_round_aux_within s _ (d + e - 53) loc_Exact k (conj (Pos2Z.is_nonneg _) Hmz)
                ltac:(lia) ltac:(lia)) as H.
  destruct (binary_round_aux _ _ _ _ _ _); cbn in *; lia.
Qed.

Lemma binary_normalize_within z e k b :
  Z.abs z < 2 ^ k -> 53 <= k <= 300 -> -300 <= e <= 300 ->
  within (k + 1) (e - 53) (e + 2 * k + 1) (binary_normalize 53 1024 z e b).
Proof. intros. destruct z; [done|apply binary_round_within..]; lia. Qed.

(** A [double] made from an integer of 64 bits. *)
Definition of_word (x : f64) : Prop := within 65 (-53) 129 x.

Lemma of_word_f64_of_Z z : - 2 ^ 64 < z < 2 ^ 64 -> of_word (f64_of_Z z).
Proof. intros Hz. apply (binary_normalize_within z 0 64); lia. Qed.

Lemma of_word_finite x : of_word x -> is_finite x = true.
Proof. apply within_finite. Qed.

Lemma shl_align_bounds m e e' :
  -53 <= e' <= e -> e <= 129 -> Zpos m < 2 ^ 65 ->
  Zpos (fst (shl_align m e e')) < 2 ^ 247.
Proof.
  intros He Hm Hp. unfold shl_align. destruct (e' - e) as [|n|n] eqn:En; cbn [fst].
  1,2: apply Z.lt_le_trans with (2 ^ 65); [lia|apply Z.pow_le_mono_r; lia].
  rewrite pos_iter_xO. apply Z.lt_le_trans with (2 ^ 65 * 2 ^ Zpos n).
  - apply Z.mul_lt_mono_pos_r; lia.
  - rewrite <- Z.pow_add_r by lia. apply Z.pow_le_mono_r; lia.
Qed.

(** The constants of the program's rates. *)
Lemma f64_of_Z_nonneg z : 0 <= z -> nonneg (f64_of_Z z) = true.
Proof. intros Hz. destruct z; [done| |lia]. apply has_sign_nonneg, binary_round_sign. Qed.

(** The rounding of a number above zero is above zero unless it underflows. *)
Lemma shr_1_div r : 0 <= shr_m r -> shr_m (shr_1 r) = shr_m r / 2.
Proof.
  intros Hr. destruct r as [n b1 b2]. cbn in Hr.
  destruct n as [|[p|p|]|p]; cbn [shr_1 shr_m]; [done| | |done|lia].
  - rewrite Pos2Z.inj_xI. apply (Z.div_unique _ 2 (Zpos p) 1); lia.
  - rewrite Pos2Z.inj_xO. apply (Z.div_unique _ 2 (Zpos p) 0); lia.
Qed.

Lemma iter_shr_1_div p : forall r, 0 <= shr_m r -> shr_m (iter_pos shr_1 p r) = shr_m r / 2 ^ Zpos p.
Proof.
  assert (Hn : forall q r, 0 <= shr_m r -> 0 <= shr_m (iter_pos shr_1 q r))
    by (intros; apply (iter_pos_inv (fun r => 0 <= shr_m r)); auto using shr_1_nonneg).
  induction p as [p IH|p IH|]; intros r Hr; cbn [iter_pos]; [| |by apply shr_1_div].
  - rewrite !IH, shr_1_div by auto using shr_1_nonneg.
    rewrite !Z.div_div by lia. f_equal.
    replace (Zpos p~1) with (1 + Zpos p + Zpos p) by lia. rewrite !Z.pow_add_r by lia. ring.
  - rewrite !IH by auto. rewrite Z.div_div, <- Z.pow_add_r by lia. f_equal. f_equal. lia.
Qed.

Lemma shr_fexp_positive m e l r e' :
  0 < m -> -1000 <= e -> shr_fexp 53 1024 m e l = (r, e') -> 0 < shr_m r /\ e <= e'.
Proof.
  intros Hm He. destruct m as [|p|p]; [lia| |lia]. unfold shr_fexp, shr.
  assert (Hr : shr_m (shr_record_of_loc (Zpos p) l) = Zpos p) by (by destruct l as [|[]]).
  pose proof (digits2_pos_lower p) as Hlow. cbn [Zdigits2].
  destruct (fexp 53 1024 _ - e) as [|n|n] eqn:En; intros [= <- <-]; [lia| |lia].
  split; [|lia]. rewrite iter_shr_1_div, Hr by lia.
  assert (Hn : Zpos n <= Zpos (digits2_pos p) - 1) by (unfold fexp, emin in En; lia).
  apply Z.div_str_pos. split; [lia|].
  apply Z.le_trans with (2 ^ (Zpos (digits2_pos p) - 1)); [apply Z.pow_le_mono_r; lia|done].
Qed.

Lemma round_nearest_even_ge m l : m <= round_nearest_even m l.
Proof. destruct l as [|[]]; cbn; try lia. destruct (Z.even m); lia. Qed.

Lemma binary_round_aux_positive m e l :
  0 < m -> -1000 <= e -> fgt (binary_round_aux 53 1024 false m e l) fzero = true.
Proof.
  intros Hm He. unfold binary_round_aux.
  destruct (shr_fexp 53 1024 m e l) as [r1 e1] eqn:E1.
  apply shr_fexp_positive in E1 as [H1 He1]; [|lia..].
  pose proof (round_nearest_even_ge (shr_m r1) (loc_of_shr_record r1)).
  destruct (shr_fexp 53 1024 _ e1 loc_Exact) as [r2 e2] eqn:E2.
  apply shr_fexp_positive in E2 as [H2 He2]; [|lia..].
  destruct (shr_m r2) as [|p|p]; [lia| |lia]. by destruct (_ <=? _).
Qed.

Lemma f64_mul_positive m1 e1 m2 e2 :
  -1000 <= e1 + e2 -> fgt (f64_mul (S754_finite false m1 e1) (S754_finite false m2 e2)) fzero = true.
Proof. intros He. apply binary_round_aux_positive; [done|lia]. Qed.

(** The difference of two such numbers. *)
Definition of_difference (x : f64) : Prop := within 249 (-106) 700 x.

Lemma f64_sub_words x y : of_word x -> of_word y -> of_difference (f64_sub x y).
Proof.
  unfold of_word, of_difference, f64_sub.
  destruct x as [s1| | |s1 m1 e1], y as [s2| | |s2 m2 e2]; cbn [within]; try done; intros H1 H2.
  { by destruct s1, s2. }
  1,2: cbn; split; [|lia].
  1,2: apply Z.lt_trans with (2 ^ 65); [lia|done].
  cbn [SFsub]. set (ez := Z.min e1 e2).
  pose proof (shl_align_bounds m1 e1 ez ltac:(lia) ltac:(lia) ltac:(lia)) as B1.
  pose proof (shl_align_bounds m2 e2 ez ltac:(lia) ltac:(lia) ltac:(lia)) as B2.
  assert (H : within (248 + 1) (ez - 53) (ez + 2 * 248 + 1)
    (binary_normalize 53 1024 (cond_Zopp s1 (Zpos (fst (shl_align m1 e1 ez))) -
       cond_Zopp s2 (Zpos (fst (shl_align m2 e2 ez)))) ez false)).
  { apply binary_normalize_within; [|lia..].
    change (2 ^ 248) with (2 ^ 247 + 2 ^ 247). unfold cond_Zopp. destruct s1, s2; lia. }
  destruct (binary_normalize _ _ _ _ _); cbn in H |- *; lia.
Qed.

(** A finite number that is not below zero, over a number above zero. *)
Lemma f64_div_nonneg x y :
  nonneg x = true -> is_finite x = true -> fgt y fzero = true -> nonneg (f64_div x y) = true.
Proof.
  intros Hx Hf Hp. destruct y as [|[]| |[] m e]; try done; [|by apply SFdiv_nonneg_pos].
  by destruct x as [|[]| |[]].
Qed.

Lemma SFmul_not_nan prec emax x s m e :
  is_nan x = false -> is_nan (SFmul prec emax x (S754_finite s m e)) = false.
Proof.
  destruct x as [s'|s'| |s' m' e']; intros H; try done. cbn [SFmul].
  by eapply has_sign_not_nan, binary_round_aux_sign.
Qed.

(** A positive integer of 64 bits is a positive number. *)
Lemma f64_of_Z_positive z :
  0 < z < 2 ^ 64 -> exists m e, f64_of_Z z = S754_finite false m e.
Proof.
  intros Hz. pose proof (of_word_finite _ (of_word_f64_of_Z z ltac:(lia))) as Hf.
  assert (Hp : fgt (f64_of_Z z) fzero = true).
  { destruct z as [|p|p]; [lia| |lia]. unfold f64_of_Z. cbn [binary_normalize].
    unfold binary_round, shl_align.
    assert (H53 : fexp 53 1024 (Zpos (digits2_pos p) + 0) >= -1000)
      by (unfold fexp, emin; lia).
    destruct (fexp 53 1024 _ - 0) as [|n|n] eqn:En; apply binary_round_aux_positive; lia. }
  destruct (f64_of_Z z) as [| | |[] m e]; try done. eauto.
Qed.

(** ** Bounds by an integer

    Rounding to the nearest does not cross an integer of 53 bits. *)

(** A number from 0 to [n] whose exponent is from [lo] to 0. *)
Definition at_most (n lo : Z) (x : spec_float) : Prop :=
  match x with
  | S754_zero _ => 0 <= n
  | S754_finite false m e => lo <= e <= 0 /\ Zpos m <= n * 2 ^ (- e)
  | _ => False
  end.

Lemma iter_shr_1_exact p : forall k, 0 <= k ->
  iter_pos shr_1 p (Build_shr_record (k * 2 ^ Zpos p) false false) = Build_shr_record k false false.
Proof.
  assert (H1 : forall k, 0 <= k -> shr_1 (Build_shr_record (k * 2) false false) = Build_shr_record k false false).
  { intros [|k|k] Hk; [done| |lia]. by replace (Zpos k * 2) with (Zpos k~0) by lia. }
  induction p as [p IH|p IH|]; intros k Hk; cbn [iter_pos].
  - replace (k * 2 ^ Zpos p~1) with (k * 2 ^ Zpos p * 2 ^ Zpos p * 2).
    + rewrite H1, !IH; [done|lia..].
    + replace (Zpos p~1) with (Zpos p + Zpos p + 1) by lia. rewrite !Z.pow_add_r by lia. ring.
  - replace (k * 2 ^ Zpos p~0) with (k * 2 ^ Zpos p * 2 ^ Zpos p).
    + rewrite !IH; [done|lia..].
    + replace (Zpos p~0) with (Zpos p + Zpos p) by lia. rewrite !Z.pow_add_r by lia. ring.
  - by rewrite H1.
Qed.

(** The rounded quotient of a shift is at most what the number is at most. *)
Lemma shifted_round_le m p N r :
  0 <= m <= N * 2 ^ Zpos p ->
  r = iter_pos shr_1 p (shr_record_of_loc m loc_Exact) ->
  0 <= round_nearest_even (shr_m r) (loc_of_shr_record r) <= N.
Proof.
  intros Hm ->. assert (HN : 0 <= N) by nia.
  destruct (Z.eq_dec m (N * 2 ^ Zpos p)) as [->|Hne].
  - change (shr_record_of_loc _ loc_Exact) with (Build_shr_record (N * 2 ^ Zpos p) false false).
    rewrite iter_shr_1_exact by done. cbn. lia.
  - set (r := iter_pos shr_1 p _).
    assert (Hr : shr_m r = m / 2 ^ Zpos p) by (by unfold r; rewrite iter_shr_1_div by (cbn; lia)).
    pose proof (Z.div_lt_upper_bound m (2 ^ Zpos p) N ltac:(lia) ltac:(lia)).
    pose proof (Z.div_pos m (2 ^ Zpos p) ltac:(lia) ltac:(lia)).
    pose proof (round_nearest_even_le (shr_m r) (loc_of_shr_record r) ltac:(lia)). lia.
Qed.

Lemma pow_split a b : a <= 0 -> 0 <= b -> a + b <= 0 -> 2 ^ (- a) = 2 ^ (- (a + b)) * 2 ^ b.
Proof. intros. rewrite <- Z.pow_add_r by lia. f_equal. lia. Qed.

(** The first rounding step: mantissa and exponent are still at most [n]. *)
Lemma first_round_le m e n r e1 :
  0 < m <= n * 2 ^ (- e) -> -1000 <= e <= 0 -> n < 2 ^ 53 ->
  shr_fexp 53 1024 m e loc_Exact = (r, e1) ->
  e <= e1 <= 0 /\ 0 <= round_nearest_even (shr_m r) (loc_of_shr_record r) <= n * 2 ^ (- e1).
Proof.
  intros Hm He Hn. destruct m as [|p|p]; [lia| |lia].
  assert (Hp : Zpos (digits2_pos p) <= 53 - e).
  { apply digits2_pos_bound. replace (53 - e) with (53 + - e) by lia. rewrite Z.pow_add_r by lia.
    apply Z.le_lt_trans with (n * 2 ^ - e); [lia|]. apply Z.mul_lt_mono_pos_r; [lia|done]. }
  unfold shr_fexp, shr. cbn [Zdigits2].
  assert (Hf : fexp 53 1024 (Zpos (digits2_pos p) + e) <= 0) by (unfold fexp, emin; lia).
  destruct (fexp _ _ _ - e) as [|d|d] eqn:Ed; intros [= <- <-].
  1,3: by split; [lia|cbn; lia].
  split; [lia|]. eapply (shifted_round_le (Zpos p) d); [|done].
  rewrite <- Z.mul_assoc, <- pow_split by lia. lia.
Qed.

Lemma binary_round_aux_at_most m e n :
  0 < m <= n * 2 ^ (- e) -> -900 <= e <= 0 -> n < 2 ^ 53 ->
  at_most n e (binary_round_aux 53 1024 false m e loc_Exact).
Proof.
  intros Hm He Hn. assert (H0 : 0 < n) by nia. unfold binary_round_aux.
  destruct (shr_fexp 53 1024 m e loc_Exact) as [r1 e1] eqn:E1.
  apply (first_round_le _ _ n) in E1 as [He1 Hq]; [|lia..].
  set (q := round_nearest_even _ _) in *.
  destruct (shr_fexp 53 1024 q e1 loc_Exact) as [r2 e2] eqn:E2.
  destruct (Z.eq_dec q 0) as [Hz|Hz].
  { rewrite Hz in E2.
    apply (shr_fexp_bounds 0 e1 loc_Exact 1) in E2 as [H2 _]; [|lia..].
    replace (shr_m r2) with 0 by lia. cbn. lia. }
  assert (Hr2 : shr_m r2 * 2 ^ (e2 - e1) <= q /\ 0 < shr_m r2 /\ e1 <= e2 <= 0).
  { pose proof E2 as E3. apply shr_fexp_positive in E3 as [H2 _]; [|lia..].
    pose proof E2 as E4. apply (first_round_le _ _ n) in E4 as [H4 _]; [|lia..].
    split; [|lia]. unfold shr_fexp, shr in E2.
    destruct (fexp _ _ _ - e1) as [|d|d] eqn:Ed; injection E2 as <- <-.
    1,3: rewrite Z.sub_diag; cbn; lia.
    rewrite iter_shr_1_div by (cbn; lia).
    replace (e1 + Zpos d - e1) with (Zpos d) by lia. change (shr_m _) with q.
    rewrite Z.mul_comm. apply Z.mul_div_le. lia. }
  destruct Hr2 as (H2 & H3 & H4). destruct (shr_m r2) as [|p|p]; [lia| |lia].
  rewrite (proj2 (Z.leb_le e2 _)) by lia. cbn [at_most].
  split; [lia|].
  assert (Hs : 2 ^ (- e1) = 2 ^ (- e2) * 2 ^ (e2 - e1)).
  { rewrite <- Z.pow_add_r by lia. f_equal. lia. }
  rewrite Hs, Z.mul_assoc in Hq.
  apply (Z.mul_le_mono_pos_r _ _ (2 ^ (e2 - e1))); [lia|]. lia.
Qed.

Lemma f64_of_Z_at_most n : 0 <= n < 2 ^ 53 -> at_most n (-60) (f64_of_Z n).
Proof.
  intros Hn. destruct n as [|p|p]; [done| |lia]. unfold f64_of_Z, binary_normalize, binary_round, shl_align.
  pose proof (digits2_pos_bound p 53 ltac:(lia)) as Hd.
  assert (Hf : -53 <= fexp 53 1024 (Zpos (digits2_pos p) + 0) <= 0) by (unfold fexp, emin; lia).
  assert (Hw : forall e x, -60 <= e -> at_most (Zpos p) e x -> at_most (Zpos p) (-60) x).
  { intros e x He Hx. destruct x as [| | |[] m e']; cbn in *; try done. lia. }
  destruct (fexp _ _ _ - 0) as [|d|d] eqn:Ed; (eapply Hw; [|apply binary_round_aux_at_most]); try lia.
  rewrite pos_iter_xO. replace (- (fexp 53 1024 (Zpos (digits2_pos p) + 0))) with (Zpos d) by lia. lia.
Qed.

Lemma f64_mul_at_most n lo lo' x y :
  at_most n lo x -> at_most 1 lo' y -> -900 <= lo + lo' -> n < 2 ^ 53 ->
  at_most n (lo + lo') (f64_mul x y).
Proof.
  destruct x as [| | |[] m e], y as [| | |[] m' e']; cbn [at_most]; try done; intros Hx Hy Hl Hn;
    [|].
  { cbn. assert (0 < 2 ^ (- e)) by (apply Z.pow_pos_nonneg; lia). nia. }
  assert (H : at_most n (e + e') (f64_mul (S754_finite false m e) (S754_finite false m' e'))).
  { apply binary_round_aux_at_most; [|lia..].
    rewrite Pos2Z.inj_mul, Z.opp_add_distr, Z.pow_add_r by lia. split; [lia|].
    transitivity (n * 2 ^ (- e) * (1 * 2 ^ (- e'))); [apply Z.mul_le_mono_nonneg; lia|lia]. }
  destruct (f64_mul _ _) as [| | |[] q e'']; cbn in *; try done. lia.
Qed.
