(* ===== verification/CString.v ===== *)
(** * CString: the string and number parsing of the C and C++ libraries

    [std::string] and C strings are [string]s of bytes.  The functions here are
    the ones the program calls: [strtol], [strtod], [strtoul], [stoi], [stoll], [stoull],
    [stod], [atoi], [atof], [std::to_string], [tolower], and the conversion of a fixed
    size [char] array to a [std::string].  Parsing functions that throw return
    [None]. *)

From S2P Require Import Prelude CFloat.
From Stdlib Require Import Ascii DecimalString DecimalPos DecimalZ.


(** ** Characters *)

Definition code (c : ascii) : Z := Z.of_N (N_of_ascii c).

Definition is_digit (c : ascii) : bool := (48 <=? code c) && (code c <=? 57).
Definition is_space (c : ascii) : bool :=
  (code c =? 32) || ((9 <=? code c) && (code c <=? 13)).

Definition tolower (c : ascii) : ascii :=
  if (65 <=? code c) && (code c <=? 90)
  then ascii_of_N (N_of_ascii c + 32) else c.

Fixpoint str_map (f : ascii -> ascii) (s : string) : string :=
  match s with
  | EmptyString => EmptyString
  | String c r => String (f c) (str_map f r)
  end.

Fixpoint str_all (p : ascii -> bool) (s : string) : bool :=
  match s with
  | EmptyString => true
  | String c r => p c && str_all p r
  end.

Definition is_empty (s : string) : bool :=
  match s with EmptyString => true | _ => false end.

(** [s.find(p) != npos]. *)
Definition contains (p s : string) : bool :=
  match String.index 0 p s with Some _ => true | None => false end.

(** The double quote, which a string literal cannot hold. *)
Definition dquote : string := String (ascii_of_nat 34) EmptyString.

(** ** Integers to text *)

Definition to_string (z : Z) : string := NilZero.string_of_int (Z.to_int z).

(** ** Text to integers *)

Fixpoint skip_spaces (s : string) : string :=
  match s with
  | String c r => if is_space c then skip_spaces r else s
  | EmptyString => EmptyString
  end.

(** The longest run of digits: its value, and what follows it. *)
Fixpoint read_digits (acc : Z) (s : string) : Z * string :=
  match s with
  | String c r =>
      if is_digit c then read_digits (acc * 10 + (code c - 48)) r else (acc, s)
  | EmptyString => (acc, EmptyString)
  end.

Definition starts_digit (s : string) : bool :=
  match s with String c _ => is_digit c | EmptyString => false end.

(** An optional sign; the boolean is true for a minus. *)
Definition read_sign (s : string) : bool * string :=
  match s with
  | String c r =>
      if code c =? 45 then (true, r) else if code c =? 43 then (false, r) else (false, s)
  | EmptyString => (false, s)
  end.

(** The subject sequence of the [strto*] functions in base 10: sign, magnitude
    and the rest of the text; [None] when there is no digit ([end == value]). *)
Definition read_integer (s : string) : option (bool * Z * string) :=
  let '(neg, r) := read_sign (skip_spaces s) in
  if starts_digit r then let '(n, rest) := read_digits 0 r in Some (neg, n, rest)
  else None.

Definition strtol (s : string) : option (Z * string) :=
  '(neg, n, rest) ← read_integer s;
  let v := if (neg : bool) then - n else n in
  Some (Z.max LONG_MIN (Z.min LONG_MAX v), rest).

Definition strtoul (s : string) : option (Z * string) :=
  '(neg, n, rest) ← read_integer s;
  Some (if ULLONG_MAX <? n then ULLONG_MAX
        else if (neg : bool) then u64_wrap (- n) else n, rest).

(** [std::stoi], [std::stoll], [std::stoull]: [None] is an exception
    ([invalid_argument] or [out_of_range]); trailing text is ignored. *)
Definition stoll (s : string) : option Z :=
  '(neg, n, _) ← read_integer s;
  let v := if (neg : bool) then - n else n in
  if (LONG_MIN <=? v) && (v <=? LONG_MAX) then Some v else None.

Definition stoi (s : string) : option Z :=
  '(neg, n, _) ← read_integer s;
  let v := if (neg : bool) then - n else n in
  if (INT_MIN <=? v) && (v <=? INT_MAX) then Some v else None.

Definition stoull (s : string) : option Z :=
  '(neg, n, _) ← read_integer s;
  if ULLONG_MAX <? n then None
  else Some (if (neg : bool) then u64_wrap (- n) else n).

(** [std::atoi] is [(int) strtol(s)]; 0 when nothing can be read. *)
Definition atoi (s : string) : Z :=
  match strtol s with Some (v, _) => i32_wrap v | None => 0 end.

(** ** Text to floating point *)

(** The fraction digits after a decimal point: value and number of digits are
    folded into the mantissa and the decimal exponent. *)
Fixpoint read_fraction (acc : Z) (scale : Z) (s : string) : Z * Z * string :=
  match s with
  | String c r =>
      if is_digit c then read_fraction (acc * 10 + (code c - 48)) (scale + 1) r
      else (acc, scale, s)
  | EmptyString => (acc, scale, EmptyString)
  end.

Definition read_exponent (s : string) : Z :=
  match s with
  | String c r =>
      if (code c =? 101) || (code c =? 69) then
        let '(neg, r') := read_sign r in
        if starts_digit r' then
          let '(n, _) := read_digits 0 r' in if (neg : bool) then - n else n
        else 0
      else 0
  | EmptyString => 0
  end.

(** [m * 10^e], correctly rounded to a [double]. *)
Definition f64_of_decimal (neg : bool) (m e : Z) : f64 :=
  match m with
  | Zpos p =>
      if 0 <=? e then
        match Zpos p * 10 ^ e with
        | Zpos q => binary_round 53 1024 neg q 0
        | _ => S754_zero neg
        end
      else
        match 10 ^ (- e) with
        | Zpos d => SFdiv 53 1024 (S754_finite neg p 0) (S754_finite false d 0)
        | _ => S754_nan
        end
  | _ => S754_zero neg
  end.

(** [std::atof] on decimal text and on the words for infinity and NaN; text
    that is not a number gives 0.  (Hexadecimal floats, which MySQL never
    returns, are read as their leading 0.) *)
Definition atof (s : string) : f64 :=
  let '(neg, r) := read_sign (skip_spaces s) in
  let low := str_map tolower r in
  if String.prefix "inf" low then S754_infinity neg
  else if String.prefix "nan" low then S754_nan
  else
    let '(ip, r1) := read_digits 0 r in
    let '(m, scale, r2) :=
      match r1 with
      | String c r' => if code c =? 46 then read_fraction ip 0 r' else (ip, 0, r1)
      | EmptyString => (ip, 0, r1)
      end in
    if starts_digit r || (0 <? scale) then f64_of_decimal neg m (read_exponent r2 - scale)
    else fzero.

(** [std::stod]: [None] when it throws, because there is no number or because
    [strtod] reports a range error: an overflow, or an inexact result below the
    normal numbers. *)
Definition range_error (m e : Z) (x : f64) : bool :=
  match x with
  | S754_infinity _ => true
  | S754_zero _ => 0 <? m
  | S754_finite _ p e' =>
      (Zpos (digits2_pos p) <? 53) &&
      negb (m * 10 ^ Z.max e 0 * 2 ^ Z.max (- e') 0 =? Zpos p * 2 ^ Z.max e' 0 * 10 ^ Z.max (- e) 0)
  | S754_nan => false
  end.

Definition stod (s : string) : option f64 :=
  let '(neg, r) := read_sign (skip_spaces s) in
  let low := str_map tolower r in
  if String.prefix "inf" low then Some (S754_infinity neg)
  else if String.prefix "nan" low then Some S754_nan
  else
    let '(ip, r1) := read_digits 0 r in
    let '(m, scale, r2) :=
      match r1 with
      | String c r' => if code c =? 46 then read_fraction ip 0 r' else (ip, 0, r1)
      | EmptyString => (ip, 0, r1)
      end in
    if starts_digit r || (0 <? scale) then
      let e := read_exponent r2 - scale in
      let x := f64_of_decimal neg m e in
      if range_error m e x then None else Some x
    else None.

(** ** [std::strtod], with the end of what it read *)

Fixpoint str_drop (n : nat) (s : string) : string :=
  match n, s with
  | S n, String _ r => str_drop n r
  | _, _ => s
  end.

(** The rest of the text after a decimal exponent, if there is one. *)
Definition after_exponent (s : string) : string :=
  match s with
  | String c r =>
      if (code c =? 101) || (code c =? 69) then
        let r' := (read_sign r).2 in
        if starts_digit r' then (read_digits 0 r').2 else s
      else s
  | EmptyString => s
  end.

(** The characters in parentheses that may follow a NaN. *)
Fixpoint after_payload (s : string) : option string :=
  match s with
  | String c r =>
      if code c =? 41 then Some r
      else if is_digit c || ((97 <=? code (tolower c)) && (code (tolower c) <=? 122)) || (code c =? 95)
      then after_payload r else None
  | EmptyString => None
  end.

Definition after_nan (s : string) : string :=
  match s with
  | String c r => if code c =? 40 then default s (after_payload r) else s
  | EmptyString => s
  end.

Definition hex_digit (c : ascii) : option Z :=
  let n := code (tolower c) in
  if is_digit c then Some (n - 48)
  else if (97 <=? n) && (n <=? 102) then Some (n - 87) else None.

(** Hexadecimal digits: the value, how many there are, and the rest. *)
Fixpoint read_hex (acc count : Z) (s : string) : Z * Z * string :=
  match s with
  | String c r =>
      match hex_digit c with
      | Some d => read_hex (acc * 16 + d) (count + 1) r
      | None => (acc, count, s)
      end
  | EmptyString => (acc, count, s)
  end.

Definition read_binary_exponent (s : string) : Z * string :=
  match s with
  | String c r =>
      if code (tolower c) =? 112 then
        let '(neg, r') := read_sign r in
        if starts_digit r' then
          let '(n, rest) := read_digits 0 r' in (if (neg : bool) then - n else n, rest)
        else (0, s)
      else (0, s)
  | EmptyString => (0, s)
  end.

(** What follows [0x]; [None] when there is no digit, and only the 0 is read. *)
Definition strtod_hex (neg : bool) (s : string) : option (f64 * string) :=
  let '(ip, n, r1) := read_hex 0 0 s in
  let '(m, scale, r2) :=
    match r1 with
    | String c r' =>
        if code c =? 46 then read_hex ip 0 r' else (ip, 0, r1)
    | EmptyString => (ip, 0, r1)
    end in
  if 0 <? n + scale then
    let '(e, rest) := read_binary_exponent r2 in
    Some (match m with
          | Zpos p => binary_round 53 1024 neg p (e - 4 * scale)
          | _ => S754_zero neg
          end, rest)
  else None.

Definition strtod_decimal (neg : bool) (s : string) : option (f64 * string) :=
  let '(ip, r1) := read_digits 0 s in
  let '(m, scale, r2) :=
    match r1 with
    | String c r' => if code c =? 46 then read_fraction ip 0 r' else (ip, 0, r1)
    | EmptyString => (ip, 0, r1)
    end in
  if starts_digit s || (0 <? scale)
  then Some (f64_of_decimal neg m (read_exponent r2 - scale), after_exponent r2)
  else None.

(** [None] when there is no number ([end == value]). *)
Definition strtod (s : string) : option (f64 * string) :=
  let '(neg, r) := read_sign (skip_spaces s) in
  let low := str_map tolower r in
  if String.prefix "infinity" low then Some (S754_infinity neg, str_drop 8 r)
  else if String.prefix "inf" low then Some (S754_infinity neg, str_drop 3 r)
  else if String.prefix "nan" low then Some (S754_nan, after_nan (str_drop 3 r))
  else if String.prefix "0x" low then
    match strtod_hex neg (str_drop 2 r) with
    | Some x => Some x
    | None => Some (S754_zero neg, str_drop 1 r)
    end
  else strtod_decimal neg r.

(** The environment: [std::getenv] from names to values. *)
Definition environment : Type := string -> option string.

(** ** [char] arrays

    A [char] array is a list of byte values; the [std::string] made from it
    stops at the first NUL. *)

Definition char_of (b : Z) : ascii := ascii_of_N (Z.to_N b).

Fixpoint c_str (l : list Z) : string :=
  match l with
  | [] => EmptyString
  | b :: r => if b =? 0 then EmptyString else String (char_of b) (c_str r)
  end.

Fixpoint bytes_of (s : string) : list Z :=
  match s with
  | EmptyString => []
  | String c r => code c :: bytes_of r
  end.

(** [snprintf(buf, sizeof(buf), ...)] of the formatted text [s]: at most
    [size - 1] bytes, then a NUL; the bytes after it keep their value. *)
Definition snprintf_into (buf : list Z) (s : string) : list Z :=
  let out := take (length buf - 1) (bytes_of s) ++ [0] in
  out ++ drop (length out) buf.

(** ** Lemmas *)

Lemma code_range c : 0 <= code c < 256.
Proof. unfold code. pose proof (N_ascii_bounded c). lia. Qed.

Lemma char_of_code c : char_of (code c) = c.
Proof. unfold char_of, code. by rewrite N2Z.id, ascii_N_embedding. Qed.

Lemma is_empty_false s : is_empty s = false <-> s <> "".
Proof. by destruct s. Qed.

(** A string with no NUL byte. *)
Definition nul_free (s : string) : bool := str_all (fun c => negb (code c =? 0)) s.

Lemma c_str_app s l : nul_free s = true -> c_str (bytes_of s ++ 0 :: l) = s.
Proof.
  induction s as [|c s IH]; [done|]. cbn. intros H.
  apply andb_true_iff in H as [H1 H2]. apply negb_true_iff in H1. rewrite H1.
  by rewrite char_of_code, IH.
Qed.

Lemma bytes_of_length s : length (bytes_of s) = String.length s.
Proof. induction s; cbn; congruence. Qed.

Lemma c_str_snprintf buf s :
  nul_free s = true -> (String.length s < length buf)%nat ->
  c_str (snprintf_into buf s) = s.
Proof.
  intros Hs Hl. unfold snprintf_into.
  rewrite take_ge by (rewrite bytes_of_length; lia).
  rewrite <- app_assoc; cbn [app]. by apply c_str_app.
Qed.

Lemma snprintf_into_length buf s :
  (0 < length buf)%nat -> length (snprintf_into buf s) = length buf.
Proof.
  intros H. unfold snprintf_into.
  assert (H' : (length (take (length buf - 1) (bytes_of s) ++ [0%Z])%list <= length buf)%nat).
  { rewrite List.length_app, length_take; cbn. lia. }
  rewrite List.length_app, length_drop. lia.
Qed.

Lemma read_digits_nonneg acc s : 0 <= acc -> 0 <= (read_digits acc s).1.
Proof.
  revert acc; induction s as [|c s IH]; intros acc H; cbn; [done|].
  destruct (is_digit c) eqn:E; [|done].
  unfold is_digit in E; to_props. apply IH; lia.
Qed.

Lemma strtol_range s v r : strtol s = Some (v, r) -> LONG_MIN <= v <= LONG_MAX.
Proof.
  unfold strtol. destruct (read_integer s) as [[[neg n] rest]|]; cbn; [|done].
  intros [= <- _]. wrap_unfold; lia.
Qed.

#[export] Hint Resolve c_str_snprintf strtol_range : monitor.

(** ** Reading back a printed number *)

Lemma read_digits_acc d : forall p,
  read_digits (Zpos p) (NilEmpty.string_of_uint d) = (Zpos (Pos.of_uint_acc d p), "").
Proof.
  induction d; intros p; cbn -[Z.mul]; [done|..];
    rewrite <- IHd; apply (f_equal (fun n => read_digits n _)); unfold code; cbn -[Z.mul]; lia.
Qed.

Lemma read_digits_uint d :
  read_digits 0 (NilEmpty.string_of_uint d) = (Z.of_N (Pos.of_uint d), "").
Proof. induction d; try done; apply read_digits_acc. Qed.

Lemma starts_digit_uint d :
  d <> Decimal.Nil -> starts_digit (NilEmpty.string_of_uint d) = true.
Proof. by destruct d. Qed.

Lemma read_integer_to_string z :
  0 <= z -> read_integer (to_string z) = Some (false, z, "").
Proof.
  intros Hz. unfold read_integer, to_string.
  pose proof (DecimalZ.of_to z) as Hof.
  destruct (Z.to_int z) as [d|d] eqn:Ed.
  2: { destruct z; cbn in Ed; congruence || lia. }
  assert (Hd : d <> Decimal.Nil).
  { intros ->. destruct z as [|p|p]; [done| |lia]. cbn in Ed. injection Ed.
    apply DecimalPos.Unsigned.to_uint_nonnil. }
  assert (Hs : read_sign (skip_spaces (NilZero.string_of_int (Decimal.Pos d))) =
               (false, NilEmpty.string_of_uint d)) by (destruct d; done).
  rewrite Hs, starts_digit_uint, read_digits_uint by done. by rewrite <- Hof.
Qed.

Lemma strtoul_to_string z : 0 <= z <= ULLONG_MAX -> strtoul (to_string z) = Some (z, "").
Proof.
  intros Hz. unfold strtoul. rewrite read_integer_to_string by lia. cbn [mbind option_bind].
  by rewrite (proj2 (Z.ltb_ge _ _)) by lia.
Qed.

Lemma atoi_to_string z : 0 <= z <= INT_MAX -> atoi (to_string z) = z.
Proof.
  intros Hz. unfold atoi, strtol. rewrite read_integer_to_string by lia. cbn [mbind option_bind].
  wrap_unfold. rewrite Z.min_r, Z.max_r by lia. apply i32_wrap_small. wrap_unfold. lia.
Qed.

Lemma stoll_to_string z : 0 <= z <= LONG_MAX -> stoll (to_string z) = Some z.
Proof.
  intros Hz. unfold stoll. rewrite read_integer_to_string by lia. cbn [mbind option_bind].
  rewrite (proj2 (Z.leb_le _ _)) by (wrap_unfold; lia). by rewrite (proj2 (Z.leb_le _ _)) by lia.
Qed.

(** The characters of a printed number. *)
Lemma str_all_uint p d :
  (forall c, is_digit c = true -> p c = true) -> str_all p (NilEmpty.string_of_uint d) = true.
Proof. intros Hp. induction d; cbn [NilEmpty.string_of_uint str_all]; rewrite ?Hp; done. Qed.

Lemma to_string_uint z :
  exists neg d, d <> Decimal.Nil /\
    to_string z = (if neg : bool then "-" else "") +++ NilEmpty.string_of_uint d.
Proof.
  unfold to_string. destruct (Z.to_int z) as [d|d]; [exists false|exists true];
    (exists (match d with Decimal.Nil => Decimal.D0 Decimal.Nil | _ => d end)); split;
    by destruct d.
Qed.

Lemma str_all_to_string p z :
  p "-"%char = true -> (forall c, is_digit c = true -> p c = true) ->
  str_all p (to_string z) = true.
Proof.
  intros H1 Hp. destruct (to_string_uint z) as ([] & d & _ & ->); [|by apply str_all_uint].
  change (p "-"%char && str_all p (NilEmpty.string_of_uint d) = true).
  by rewrite H1, str_all_uint.
Qed.

Lemma to_string_ne z : to_string z <> "".
Proof. destruct (to_string_uint z) as ([] & d & Hd & ->); by destruct d. Qed.

(** A number of [n] bits has at most [n] digits. *)
Lemma nb_digits_double u :
  (Decimal.nb_digits (Decimal.Little.double u) <= S (Decimal.nb_digits u))%nat /\
  (Decimal.nb_digits (Decimal.Little.succ_double u) <= S (Decimal.nb_digits u))%nat.
Proof. induction u as [|u IH|u IH|u IH|u IH|u IH|u IH|u IH|u IH|u IH|u IH]; cbn; lia. Qed.

Lemma length_string_of_uint d : String.length (NilEmpty.string_of_uint d) = Decimal.nb_digits d.
Proof. induction d; cbn; by f_equal. Qed.

Lemma length_to_string p : (String.length (to_string (Zpos p)) <= Pos.size_nat p)%nat.
Proof.
  assert (H : (Decimal.nb_digits (Pos.to_uint p) <= Pos.size_nat p)%nat).
  { unfold Pos.to_uint. rewrite DecimalFacts.nb_digits_rev.
    induction p as [p IH|p IH|]; cbn [Pos.to_little_uint Pos.size_nat];
      [pose proof (proj2 (nb_digits_double (Pos.to_little_uint p)))
      |pose proof (proj1 (nb_digits_double (Pos.to_little_uint p)))|]; cbn; lia. }
  unfold to_string. cbn [Z.to_int]. unfold NilZero.string_of_int.
  pose proof (DecimalPos.Unsigned.to_uint_nonnil p) as Hn. unfold NilZero.string_of_uint.
  destruct (Pos.to_uint p) eqn:E; [done|..]; by rewrite length_string_of_uint.
Qed.

Lemma length_int_to_string n : 0 <= n <= INT_MAX -> (String.length (to_string n) <= 32)%nat.
Proof.
  intros [H0 Hn]. destruct n as [|p|p]; [cbn; lia| |by destruct H0].
  assert (Hp : (p < 2147483648)%positive).
  { apply Pos.lt_nle. intros H%Pos2Z.pos_le_pos. apply (Z.lt_irrefl INT_MAX).
    by apply (Z.lt_le_trans _ 2147483648), (Z.le_trans _ (Z.pos p)). }
  assert (E : Pos.size_nat 2147483648 = 32%nat) by reflexivity.
  transitivity (Pos.size_nat p); [apply length_to_string|].
  rewrite <- E. by apply Pos.size_nat_monotone.
Qed.

(** A natural number is printed as digits, which [read_digits] reads back. *)
Lemma to_string_digits z :
  0 <= z -> starts_digit (to_string z) = true /\ read_digits 0 (to_string z) = (z, "").
Proof.
  intros Hz. pose proof (read_integer_to_string z Hz) as H. unfold read_integer in H.
  destruct (to_string_uint z) as ([] & d & Hd & E); rewrite E in *.
  - assert (Hs : read_sign (skip_spaces ("-" +++ NilEmpty.string_of_uint d)) =
                 (true, NilEmpty.string_of_uint d)) by done.
    rewrite Hs, starts_digit_uint in H by done. by destruct (read_digits 0 _).
  - change ("" +++ NilEmpty.string_of_uint d) with (NilEmpty.string_of_uint d) in *.
    rewrite starts_digit_uint by done. split; [done|].
    assert (Hs : read_sign (skip_spaces (NilEmpty.string_of_uint d)) =
                 (false, NilEmpty.string_of_uint d)) by (by destruct d).
    rewrite Hs, starts_digit_uint in H by done. destruct (read_digits 0 _). by simplify_eq.
Qed.

Lemma read_digits_app s t : forall acc n,
  starts_digit t = false -> read_digits acc s = (n, "") -> read_digits acc (s +++ t) = (n, t).
Proof.
  induction s as [|c s IH]; intros acc n Ht H.
  - injection H as <-. change ("" +++ t) with t. destruct t as [|c t]; [done|]. cbn in Ht |- *. by rewrite Ht.
  - rewrite append_cons. cbn [read_digits] in *. destruct (is_digit c); [|done]. by apply IH.
Qed.

Lemma str_all_app p s t : str_all p (s +++ t) = str_all p s && str_all p t.
Proof.
  induction s as [|c s IH]; [done|]. rewrite append_cons. cbn [str_all]. by rewrite IH, andb_assoc.
Qed.
