(* ===== verification/Streams.v ===== *)
(** * Streams: the input streams of the C++ library

    [std::istringstream] and [std::ifstream] as the program reads them: the
    text that is left and the two flags, the extraction of a word, of an
    [int] and of a [uint64_t], and [std::getline].  A read that leaves its
    variable untouched, because the stream had failed before, gives no value. *)

From S2P Require Import Prelude CString.
From Stdlib Require Import Ascii.

(** ** The stream *)

Record istream := mk_istream { text : string; eof : bool; fail : bool }.

Definition istringstream (s : string) : istream := mk_istream s false false.

(** The sentry of a formatted read: it fails on a stream that is not good, and
    when only white space is left. *)
Definition sentry (s : istream) : bool * istream :=
  if eof s || fail s then (false, mk_istream (text s) (eof s) true)
  else
    match skip_spaces (text s) with
    | EmptyString => (false, mk_istream "" true true)
    | r => (true, mk_istream r false false)
    end.

(** The longest prefix without white space, and the rest. *)
Fixpoint take_word (s : string) : string * string :=
  match s with
  | String c r =>
      if is_space c then ("", s) else let '(w, rest) := take_word r in (String c w, rest)
  | EmptyString => ("", "")
  end.

(** [s >> word]. *)
Definition get_word (s : istream) : option string * istream :=
  let '(good, s) := sentry s in
  if good then
    let '(w, rest) := take_word (text s) in (Some w, mk_istream rest (is_empty rest) false)
  else (None, s).

(** [s >> n] for an integer type: digits after an optional sign; 0 when there
    is none, and the nearest value of the type when the number does not fit,
    each with the fail bit. *)
Definition get_integer (convert : bool -> Z -> Z * bool) (s : istream) : option Z * istream :=
  let '(good, s) := sentry s in
  if good then
    let '(neg, r) := read_sign (text s) in
    if starts_digit r then
      let '(n, rest) := read_digits 0 r in
      let '(v, fits) := convert neg n in
      (Some v, mk_istream rest (is_empty rest) (negb fits))
    else (Some 0, mk_istream r (is_empty r) true)
  else (None, s).

Definition convert_u64 (neg : bool) (n : Z) : Z * bool :=
  if ULLONG_MAX <? n then (ULLONG_MAX, false) else (if neg then u64_wrap (- n) else n, true).

Definition convert_int (neg : bool) (n : Z) : Z * bool :=
  let v := if neg then - n else n in
  if v <? INT_MIN then (INT_MIN, false)
  else if INT_MAX <? v then (INT_MAX, false) else (v, true).

Definition get_u64 : istream -> option Z * istream := get_integer convert_u64.
Definition get_int : istream -> option Z * istream := get_integer convert_int.

(** The text up to the delimiter, and what follows it if there is one. *)
Fixpoint split_at (d : ascii) (s : string) : string * option string :=
  match s with
  | EmptyString => ("", None)
  | String c r =>
      if Ascii.eqb c d then ("", Some r)
      else let '(l, rest) := split_at d r in (String c l, rest)
  end.

(** [std::getline(s, line, d)]. *)
Definition getline (d : ascii) (s : istream) : option string * istream :=
  if eof s || fail s then (None, mk_istream (text s) (eof s) true)
  else
    match split_at d (text s) with
    | (l, Some rest) => (Some l, mk_istream rest false false)
    | (l, None) => (Some l, mk_istream "" true (is_empty l))
    end.

Definition newline : ascii := ascii_of_nat 10.

(** [while (std::getline(s, line, d)) lines.push_back(line)]; [None] when the
    fuel is not enough. *)
Fixpoint getlines (fuel : nat) (d : ascii) (s : istream) : option (list string) :=
  match fuel with
  | O => None
  | S fuel =>
      let '(l, s) := getline d s in
      if fail s then Some []
      else rest ← getlines fuel d s; Some (default "" l :: rest)
  end.

(** The lines such a loop sees: the pieces between delimiters, without an empty
    last one. *)
Fixpoint pieces (d : ascii) (s : string) : list string :=
  match s with
  | EmptyString => []
  | String c r =>
      if Ascii.eqb c d then "" :: pieces d r
      else match pieces d r with [] => [String c ""] | l :: rest => String c l :: rest end
  end.

(** [if (s.back() == d) s.pop_back()] for a text that is not empty. *)
Fixpoint pop_back_if (d : ascii) (s : string) : string :=
  match s with
  | EmptyString => ""
  | String c EmptyString => if Ascii.eqb c d then "" else s
  | String c r => String c (pop_back_if d r)
  end.

(** Texts with a delimiter between them. *)
Fixpoint join (d : ascii) (ls : list string) : string :=
  match ls with
  | [] => ""
  | [l] => l
  | l :: ls => l +++ String d (join d ls)
  end.

(** ** The loop over the lines *)

Lemma split_at_shorter d s l rest :
  split_at d s = (l, Some rest) -> (String.length rest < String.length s)%nat.
Proof.
  revert l rest. induction s as [|c s IH]; intros l rest; cbn; [done|].
  destruct (Ascii.eqb c d); [intros [= _ <-]; lia|].
  destruct (split_at d s) as [l' rest']. intros [= _ ->]. specialize (IH _ _ eq_refl). lia.
Qed.

Lemma pieces_split_at d s :
  pieces d s = match split_at d s with
               | (l, Some rest) => l :: pieces d rest
               | (l, None) => if is_empty l then [] else [l]
               end.
Proof.
  induction s as [|c s IH]; [done|]. cbn. destruct (Ascii.eqb c d); [done|].
  rewrite IH. destruct (split_at d s) as [l [rest|]]; [done|]. by destruct l.
Qed.

(** With more fuel than characters the loop ends, with the pieces. *)
Lemma getlines_pieces d fuel s :
  (String.length s < fuel)%nat -> getlines fuel d (istringstream s) = Some (pieces d s).
Proof.
  revert s. induction fuel as [|fuel IH]; intros s Hf; [lia|].
  rewrite pieces_split_at. cbn [getlines]. unfold getline, istringstream. cbn [eof fail text].
  destruct (split_at d s) as [l [rest|]] eqn:E; cbn [fail].
  - pose proof (split_at_shorter _ _ _ _ E).
    specialize (IH rest ltac:(lia)). unfold istringstream in IH. cbn. by rewrite IH.
  - cbn. destruct (is_empty l) eqn:El; [done|]. destruct fuel; [|done].
    destruct s; [by injection E as <-|cbn in Hf; lia].
Qed.

Lemma split_at_app d l rest :
  str_all (fun c => negb (Ascii.eqb c d)) l = true ->
  split_at d (l +++ String d rest) = (l, Some rest).
Proof.
  induction l as [|c l IH]; intros H.
  - change ("" +++ String d rest) with (String d rest). cbn [split_at]. by rewrite Ascii.eqb_refl.
  - apply andb_true_iff in H as [H1 H2]. apply negb_true_iff in H1.
    rewrite append_cons. cbn [split_at]. by rewrite H1, IH.
Qed.

(** Texts made of lines that are all ended. *)
Definition unlines (d : ascii) (ls : list string) : string :=
  foldr (fun l t => l +++ String d t) "" ls.

Lemma pieces_unlines d ls :
  Forall (fun l => str_all (fun c => negb (Ascii.eqb c d)) l = true) ls ->
  pieces d (unlines d ls) = ls.
Proof.
  induction 1 as [|l ls Hl _ IH]; [done|]. cbn [unlines foldr].
  rewrite pieces_split_at, split_at_app by done. by fold (unlines d ls); rewrite IH.
Qed.

(** ** Text in columns *)

(** [n] blanks before a text. *)
Fixpoint blanks (n : nat) (s : string) : string :=
  match n with O => s | S n => String " " (blanks n s) end.

(** A text that begins with white space, or is empty: where a word ends. *)
Definition at_break (s : string) : bool :=
  match s with String c _ => is_space c | EmptyString => true end.

Definition no_space (s : string) : bool := str_all (fun c => negb (is_space c)) s.

(** Numbers, each after at least one blank. *)
Fixpoint columns (vs : list (nat * Z)) (t : string) : string :=
  match vs with
  | [] => t
  | (p, v) :: vs => String " " (blanks p (to_string v +++ columns vs t))
  end.

Definition after (rest : string) : istream := mk_istream rest (is_empty rest) false.

Lemma digit_not_space c : is_digit c = true -> negb (is_space c) = true.
Proof.
  unfold is_digit, is_space. intros H. to_props. apply negb_true_iff, orb_false_iff.
  split; [by apply Z.eqb_neq; lia|]. apply andb_false_iff. right. apply Z.leb_gt. lia.
Qed.

Lemma no_space_to_string z : no_space (to_string z) = true.
Proof. apply str_all_to_string; [done|apply digit_not_space]. Qed.

Lemma skip_spaces_blanks n s : skip_spaces (blanks n s) = skip_spaces s.
Proof. by induction n. Qed.

Lemma at_break_not_digit t : at_break t = true -> starts_digit t = false.
Proof.
  destruct t as [|c t]; [done|]. cbn. intros Hs. apply not_true_is_false. intros Hd.
  apply digit_not_space in Hd. by rewrite Hs in Hd.
Qed.

Lemma at_break_columns vs t : at_break t = true -> at_break (columns vs t) = true.
Proof. by destruct vs as [|[p v] vs]. Qed.

Lemma take_word_app w t :
  no_space w = true -> at_break t = true -> take_word (w +++ t) = (w, t).
Proof.
  intros Hw Ht. induction w as [|c w IH].
  - change ("" +++ t) with t. destruct t as [|c t]; [done|]. cbn in Ht |- *. by rewrite Ht.
  - cbn in Hw. apply andb_true_iff in Hw as [Hc Hw]. apply negb_true_iff in Hc.
    rewrite append_cons. cbn [take_word]. by rewrite Hc, IH.
Qed.

Lemma skip_spaces_app w t :
  w <> "" -> no_space w = true -> skip_spaces (w +++ t) = w +++ t.
Proof.
  destruct w as [|c w]; [done|]. intros _ H. cbn in H. apply andb_true_iff in H as [Hc _].
  apply negb_true_iff in Hc. rewrite append_cons. cbn [skip_spaces]. by rewrite Hc.
Qed.

Lemma sentry_app n w t :
  w <> "" -> no_space w = true ->
  sentry (istringstream (blanks n (w +++ t))) = (true, istringstream (w +++ t)).
Proof.
  intros Hne Hw. unfold sentry, istringstream. cbn [eof fail text orb].
  rewrite skip_spaces_blanks, skip_spaces_app by done. by destruct w.
Qed.

Lemma get_word_app n w t :
  w <> "" -> no_space w = true -> at_break t = true ->
  get_word (istringstream (blanks n (w +++ t))) = (Some w, after t).
Proof.
  intros Hne Hw Ht. unfold get_word. rewrite sentry_app by done. cbn [text istringstream].
  by rewrite take_word_app.
Qed.

Lemma get_integer_app convert n z t :
  0 <= z -> at_break t = true -> (convert false z).2 = true ->
  get_integer convert (istringstream (blanks n (to_string z +++ t))) =
    (Some (convert false z).1, after t).
Proof.
  intros Hz Ht Hc. destruct (to_string_digits z Hz) as [Hd Hr].
  unfold get_integer. rewrite sentry_app by (apply to_string_ne || apply no_space_to_string).
  cbn [text istringstream].
  assert (Hs : read_sign (to_string z +++ t) = (false, to_string z +++ t)).
  { destruct (to_string z) as [|c s]; [done|]. cbn in Hd. rewrite append_cons. cbn.
    unfold is_digit in Hd. to_props.
    rewrite (proj2 (Z.eqb_neq _ _)), (proj2 (Z.eqb_neq _ _)) by lia. done. }
  assert (Hd' : starts_digit (to_string z +++ t) = true) by (by destruct (to_string z)).
  rewrite Hs, Hd', (read_digits_app _ _ _ _ (at_break_not_digit _ Ht) Hr).
  destruct (convert false z) as [v fits]. cbn in Hc. by subst fits.
Qed.

(** The same reads in a stream that has just read something else. *)
Lemma after_istringstream s : s <> "" -> after s = istringstream s.
Proof. by destruct s. Qed.

Lemma get_u64_app n z t :
  0 <= z <= ULLONG_MAX -> at_break t = true ->
  get_u64 (after (String " " (blanks n (to_string z +++ t)))) = (Some z, after t).
Proof.
  intros Hz Ht. rewrite after_istringstream by done. unfold get_u64.
  assert (E : convert_u64 false z = (z, true))
    by (unfold convert_u64; by rewrite (proj2 (Z.ltb_ge _ _)) by lia).
  change (String " " (blanks n ?s)) with (blanks (S n) s).
  rewrite get_integer_app, E; [done|lia|done|by rewrite E].
Qed.

Lemma get_int_app n z t :
  0 <= z <= INT_MAX -> at_break t = true ->
  get_int (istringstream (blanks n (to_string z +++ t))) = (Some z, after t).
Proof.
  intros Hz Ht. unfold get_int.
  assert (E : convert_int false z = (z, true)).
  { unfold convert_int. rewrite (proj2 (Z.ltb_ge _ _)) by (wrap_unfold; lia).
    by rewrite (proj2 (Z.ltb_ge _ _)) by lia. }
  rewrite get_integer_app, E; [done|lia|done|by rewrite E].
Qed.

(** [s >> a1 >> a2 >> ...] over unsigned numbers. *)
Fixpoint get_u64s (n : nat) (s : istream) : list (option Z) * istream :=
  match n with
  | O => ([], s)
  | S n => let '(v, s) := get_u64 s in let '(vs, s) := get_u64s n s in (v :: vs, s)
  end.

Definition u64s_ok (vs : list (nat * Z)) : Prop :=
  Forall (fun pv => 0 <= pv.2 <= ULLONG_MAX) vs.

Lemma get_u64s_columns vs t :
  u64s_ok vs -> at_break t = true ->
  get_u64s (length vs) (after (columns vs t)) = (map (fun pv => Some pv.2) vs, after t).
Proof.
  intros Hv Ht. induction Hv as [|[p v] vs Hv _ IH]; [done|]. cbn [length get_u64s columns].
  rewrite get_u64_app by (done || by apply at_break_columns). by rewrite IH.
Qed.

(** A failed stream stays failed and gives nothing. *)
Lemma get_u64_fail s : fail s = true -> get_u64 s = (None, s).
Proof.
  intros Hf. unfold get_u64, get_integer, sentry. destruct s as [x e f]. cbn in Hf |- *. subst f.
  by rewrite orb_true_r.
Qed.

Lemma get_u64s_fail n s : fail s = true -> get_u64s n s = (repeat None n, s).
Proof. intros Hf. induction n as [|n IH]; cbn; [done|]. by rewrite get_u64_fail, IH. Qed.

Lemma one_line_columns d vs t :
  is_digit d = false -> d <> "-"%char -> d <> " "%char ->
  str_all (fun c => negb (Ascii.eqb c d)) t = true ->
  str_all (fun c => negb (Ascii.eqb c d)) (columns vs t) = true.
Proof.
  intros Hd Hm Hb Ht. induction vs as [|[p v] vs IH]; [done|]. cbn [columns].
  change (negb (Ascii.eqb " " d) &&
    str_all (fun c => negb (Ascii.eqb c d)) (blanks p (to_string v +++ columns vs t)) = true).
  assert (Eb : negb (Ascii.eqb " " d) = true) by (by apply negb_true_iff, Ascii.eqb_neq).
  rewrite Eb. cbn. induction p as [|p IHp]; [|cbn [blanks str_all]; by rewrite Eb].
  cbn [blanks]. rewrite str_all_app, IH, andb_true_r.
  apply str_all_to_string; [by apply negb_true_iff, Ascii.eqb_neq|].
  intros c Hc. apply negb_true_iff, Ascii.eqb_neq. congruence.
Qed.

(** What a read of an unsigned number stores fits the type. *)
Lemma get_u64_range s v s' : get_u64 s = (Some v, s') -> 0 <= v <= ULLONG_MAX.
Proof.
  unfold get_u64, get_integer. destruct (sentry s) as [[] s1]; [|done].
  destruct (read_sign (text s1)) as [neg r]. destruct (starts_digit r).
  - pose proof (read_digits_nonneg 0 r ltac:(lia)) as Hn. destruct (read_digits 0 r) as [n rest].
    unfold convert_u64. cbn in Hn. destruct (ULLONG_MAX <? n) eqn:E; to_props.
    + intros [= <- _]. wrap_unfold. lia.
    + intros [= <- _]. destruct neg; [wrap_lia|lia].
  - intros [= <- _]. wrap_unfold. lia.
Qed.

Lemma get_u64s_range n : forall s vs s',
  get_u64s n s = (vs, s') ->
  length vs = n /\ Forall (fun v => 0 <= default 0 v <= ULLONG_MAX) vs.
Proof.
  induction n as [|n IH]; intros s vs s'; cbn; [by intros [= <- _]|].
  destruct (get_u64 s) as [v s1] eqn:E1. destruct (get_u64s n s1) as [vs1 s2] eqn:E2.
  intros [= <- _]. destruct (IH _ _ _ E2) as [Hl Hv]. split; [cbn; lia|].
  constructor; [|done]. destruct v as [v|]; [by eapply get_u64_range|cbn; wrap_unfold; lia].
Qed.

Lemma columns_app vs ws t : columns (vs ++ ws) t = columns vs (columns ws t).
Proof. induction vs as [|[p v] vs IH]; [done|]. cbn. by rewrite IH. Qed.

Lemma length_getlines_input d rest s l :
  split_at d s = (l, Some rest) -> (String.length rest <= String.length s)%nat.
Proof. intros H. apply split_at_shorter in H. lia. Qed.

Lemma no_space_app s t : no_space (s +++ t) = no_space s && no_space t.
Proof. apply str_all_app. Qed.

Lemma get_u64s_take n vs t :
  u64s_ok vs -> at_break t = true -> (n <= length vs)%nat ->
  get_u64s n (after (columns vs t)) =
    (map (fun pv => Some pv.2) (take n vs), after (columns (drop n vs) t)).
Proof.
  intros Hv Ht Hn. rewrite <- (take_drop n vs) at 1. rewrite columns_app.
  replace n with (length (take n vs)) at 1 by (rewrite length_take; lia).
  apply get_u64s_columns; [by apply Forall_take|by apply at_break_columns].
Qed.

Definition one_line (l : string) : bool := str_all (fun c => negb (Ascii.eqb c newline)) l.

Lemma no_space_one_line s : no_space s = true -> one_line s = true.
Proof.
  induction s as [|c s IH]; [done|]. cbn. intros H. apply andb_true_iff in H as [Hc Hs].
  apply andb_true_iff. split; [|by apply IH].
  apply negb_true_iff, Ascii.eqb_neq. by intros ->.
Qed.

Lemma getline_line l rest :
  one_line l = true ->
  getline newline (istringstream (l +++ String newline rest)) = (Some l, istringstream rest).
Proof.
  intros H. unfold getline. cbn [istringstream eof fail text orb]. by rewrite split_at_app.
Qed.

Lemma pop_back_if_app d s : pop_back_if d (s +++ String d "") = s.
Proof.
  induction s as [|c s IH].
  - change ("" +++ String d "") with (String d ""). cbn. by rewrite Ascii.eqb_refl.
  - rewrite append_cons. destruct s as [|c' s].
    + change ("" +++ String d "") with (String d ""). cbn [pop_back_if]. by rewrite Ascii.eqb_refl.
    + rewrite append_cons in *. cbn [pop_back_if] in *. by rewrite IH.
Qed.

Definition free_of (d : ascii) (s : string) : bool := str_all (fun c => negb (Ascii.eqb c d)) s.

Lemma pieces_free d s : s <> "" -> free_of d s = true -> pieces d s = [s].
Proof.
  induction s as [|c s IH]; intros Hne H; [done|]. cbn in H. apply andb_true_iff in H as [Hc Hs].
  apply negb_true_iff in Hc. cbn [pieces]. rewrite Hc. destruct s as [|c' s]; [done|].
  by rewrite IH.
Qed.

Lemma pieces_app d l rest :
  free_of d l = true -> pieces d (l +++ String d rest) = l :: pieces d rest.
Proof. intros H. by rewrite pieces_split_at, split_at_app. Qed.

Lemma pieces_join d ls :
  Forall (fun l => l <> "" /\ free_of d l = true) ls -> pieces d (join d ls) = ls.
Proof.
  induction 1 as [|l ls [Hne Hl] Hls IH]; [done|]. cbn [join].
  destruct ls as [|l' ls]; [by apply pieces_free|]. by rewrite pieces_app, IH.
Qed.

Lemma free_of_to_string d z : d <> "-"%char -> is_digit d = false -> free_of d (to_string z) = true.
Proof.
  intros Hm Hd. apply str_all_to_string; [by apply negb_true_iff, Ascii.eqb_neq|].
  intros c Hc. apply negb_true_iff, Ascii.eqb_neq. congruence.
Qed.
