(* ===== verification/KernelDriver.v ===== *)
(** * KernelDriver: the life cycle the two kernel modules share

    [CpuStatCollector.c] and [SoftirqCollector.c] have the same skeleton: pages
    shared with user space, a device number, a character device, a class, a
    device node and a timer whose callback refreshes the pages.  The kernel's
    functions are not part of the repository.  What the modules rely on is
    modelled as a ledger of what the module holds: a call that acquires or
    releases a resource updates the ledger, and a call that breaks the kernel's
    contract (a double free, freeing pages that the armed timer or the
    registered device can still reach, ...) is [None].  Whether an acquiring
    call succeeds is an input ([init_env]). *)

From S2P Require Import Prelude.

Definition ENOMEM : Z := 12.
Definition EINVAL : Z := 22.
Definition PAGE_SIZE : Z := 4096.
Definition PAGE_ALIGN (n : Z) : Z := (n + PAGE_SIZE - 1) / PAGE_SIZE * PAGE_SIZE.

(** [get_order(size)]: the least [k] with [size <= PAGE_SIZE << k], for the
    sizes a page allocator accepts. *)
Fixpoint get_order_from (fuel : nat) (k : Z) (size : Z) : Z :=
  match fuel with
  | O => k
  | S f => if size <=? Z.shiftl PAGE_SIZE k then k else get_order_from f (k + 1) size
  end.

Definition get_order (size : Z) : Z := get_order_from 11 0 size.

Inductive resource := RPages | RRegion | RCdev | RClass | RDevice | RTimer.

Definition resource_eqb (r s : resource) : bool :=
  match r, s with
  | RPages, RPages | RRegion, RRegion | RCdev, RCdev | RClass, RClass
  | RDevice, RDevice | RTimer, RTimer => true
  | _, _ => false
  end.

(** What must be gone before a resource may be released. *)
Definition dependents (r : resource) : list resource :=
  match r with
  | RPages => [RTimer; RCdev]
  | RRegion => [RCdev; RDevice]
  | RClass => [RDevice]
  | RCdev | RDevice | RTimer => []
  end.

(** The outcomes of the kernel calls of one run of the init function. *)
Record init_env := {
  env_num_possible_cpus : Z;
  env_get_free_pages : bool;        (* not NULL *)
  env_alloc_chrdev_region : Z;      (* the return value *)
  env_cdev_add : Z;
  env_class_create : option Z;      (* [Some e]: IS_ERR, with PTR_ERR e *)
  env_device_create : option Z
}.

(** PTR_ERR of an error pointer is a negative error code. *)
Definition env_ok (e : init_env) : Prop :=
  (forall z, env_class_create e = Some z -> z < 0) /\
  (forall z, env_device_create e = Some z -> z < 0).

Section Driver.
Context {A : Type}.

(** The static variables of a module: the shared table ([None]: no pages),
    [data_size], [num_cpus], and the ledger. *)
Record driver := mk_driver {
  data : option (list A);
  data_size : Z;
  num_cpus : Z;
  held : list resource
}.

(** The module before [module_init] runs. *)
Definition unloaded : driver := mk_driver None 0 0 [].

Definition holds (d : driver) (r : resource) : bool := existsb (resource_eqb r) (held d).

Definition acquire (r : resource) (d : driver) : option driver :=
  if holds d r then None
  else Some (mk_driver (data d) (data_size d) (num_cpus d) (r :: held d)).

Definition release (r : resource) (d : driver) : option driver :=
  if holds d r && forallb (fun x => negb (holds d x)) (dependents r) then
    Some (mk_driver (match r with RPages => None | _ => data d end)
            (data_size d) (num_cpus d)
            (List.filter (fun x => negb (resource_eqb x r)) (held d)))
  else None.

Definition set_data (t : list A) (d : driver) : driver :=
  mk_driver (Some t) (data_size d) (num_cpus d) (held d).

Definition set_geometry (size n : Z) (d : driver) : driver :=
  mk_driver (data d) size n (held d).

(** A sequence of releasing calls. *)
Fixpoint release_all (rs : list resource) (d : driver) : option driver :=
  match rs with
  | [] => Some d
  | r :: rs' => d' ← release r d; release_all rs' d'
  end.

(** The timer callback: it writes the shared pages, so it faults when they
    are gone, and [HRTIMER_RESTART] keeps the timer armed. *)
Definition callback (update : list A -> option (list A)) (d : driver) : option driver :=
  t ← data d; t' ← update t; Some (set_data t' d).

(** ** Loading: the init function of both modules

    [max_cpus] entries of [entry_size] bytes; [zero] is the entry the zeroed
    pages hold.  The labels of the error path fall through to each other. *)
Definition err_free_mem (ret : Z) (d : driver) : option (Z * driver) :=
  d ← release RPages d; Some (ret, d).

Definition err_unregister (ret : Z) (d : driver) : option (Z * driver) :=
  d ← release RRegion d; err_free_mem ret d.

Definition err_cdev_del (ret : Z) (d : driver) : option (Z * driver) :=
  d ← release RCdev d; err_unregister ret d.

Definition err_class_destroy (ret : Z) (d : driver) : option (Z * driver) :=
  d ← release RClass d; err_cdev_del ret d.

Definition collector_init (zero : A) (entry_size : Z) (max_cpus : nat)
    (update : list A -> option (list A)) (e : init_env) (d : driver)
    : option (Z * driver) :=
  let n := env_num_possible_cpus e in
  let num := if Z.of_nat max_cpus <? n then Z.of_nat max_cpus else n in
  let d := set_geometry (PAGE_ALIGN (entry_size * Z.of_nat max_cpus)) num d in
  if negb (env_get_free_pages e) then Some (- ENOMEM, d) else
  d ← acquire RPages (set_data (replicate max_cpus zero) d);
  let ret := env_alloc_chrdev_region e in
  if ret <? 0 then err_free_mem ret d else
  d ← acquire RRegion d;
  let ret := env_cdev_add e in
  if ret <? 0 then err_unregister ret d else
  d ← acquire RCdev d;
  match env_class_create e with
  | Some ret => err_cdev_del ret d
  | None =>
      d ← acquire RClass d;
      match env_device_create e with
      | Some ret => err_class_destroy ret d
      | None =>
          d ← acquire RDevice d;
          d ← callback update d;      (* the first update *)
          d ← acquire RTimer d;
          Some (0, d)
      end
  end.

(** ** The mmap handler

    [remap size] is the return value of [remap_pfn_range]; on success the
    first [size] bytes of the pages become visible to the caller. *)
Definition collector_mmap (d : driver) (vm_start vm_end : Z) (remap : Z -> Z)
    : Z * option Z :=
  let size := u64_sub vm_end vm_start in
  if data_size d <? size then (- EINVAL, None)
  else
    let ret := remap size in
    if ret =? 0 then (0, Some size) else (ret, None).

(** ** The module being unloaded

    The exit function is a sequence of releasing calls; between two of them
    the armed timer may fire ([unload_tick]).  [unload_fault] is reached when
    a call or the callback breaks the kernel's contract. *)
Inductive unloading := Unloading (todo : list resource) (d : driver) | Faulted.

Inductive unload_step (update : list A -> option (list A)) : unloading -> unloading -> Prop :=
| unload_call r todo d d' :
    release r d = Some d' ->
    unload_step update (Unloading (r :: todo) d) (Unloading todo d')
| unload_call_fault r todo d :
    release r d = None ->
    unload_step update (Unloading (r :: todo) d) Faulted
| unload_tick todo d d' :
    holds d RTimer = true -> callback update d = Some d' ->
    unload_step update (Unloading todo d) (Unloading todo d')
| unload_tick_fault todo d :
    holds d RTimer = true -> callback update d = None ->
    unload_step update (Unloading todo d) Faulted.

Definition everything : list resource :=
  [RTimer; RDevice; RClass; RCdev; RRegion; RPages].

(** A loaded module: it holds everything and its table has [n] entries. *)
Definition loaded (n : nat) (d : driver) : Prop :=
  held d = everything /\ exists t, data d = Some t /\ length t = n.

(** ** Unloading never faults *)

(** The order in which both exit functions release. *)
Definition release_order : list resource :=
  [RTimer; RDevice; RClass; RCdev; RRegion; RPages].

(** What holds at every point of an unloading: what is still held is what is
    still to be released, in the safe order, and the pages are still there as
    long as they are held. *)
Definition unload_inv (n : nat) (u : unloading) : Prop :=
  match u with
  | Faulted => False
  | Unloading todo d =>
      (exists k, todo = drop k release_order) /\ held d = todo /\
      (holds d RPages = true -> exists t, data d = Some t /\ length t = n) /\
      (holds d RPages = false -> data d = None)
  end.

Definition total_update (n : nat) (update : list A -> option (list A)) : Prop :=
  forall t, length t = n -> exists t', update t = Some t' /\ length t' = n.

Lemma unload_inv_step n update u u' :
  total_update n update -> unload_inv n u -> unload_step update u u' -> unload_inv n u'.
Proof.
  intros Hup Hinv Hstep.
  destruct Hstep as [r todo [dt sz m h] d' H|r todo [dt sz m h] H|todo [dt sz m h] d' Ht H|todo [dt sz m h] Ht H];
    cbn in Hinv, H |- *; destruct Hinv as ([k Hk] & -> & Hp & Hnp).
  - assert (Hk' : todo = drop (S k) release_order).
    { change (S k) with (1 + k)%nat. rewrite Nat.add_comm, <- drop_drop, <- Hk. done. }
    split; [eauto|].
    destruct k as [|[|[|[|[|[|k]]]]]]; cbn in Hk; rewrite ?drop_nil in Hk; simplify_eq;
      cbn in H; simplify_eq; cbn; split_and!; auto; try done.
  - destruct k as [|[|[|[|[|[|k]]]]]]; cbn in Hk; rewrite ?drop_nil in Hk; simplify_eq.
  - unfold callback in H. destruct dt as [t|]; [|done]. cbn in H.
    destruct (holds (mk_driver (Some t) sz m todo) RPages) eqn:Hpg; [|naive_solver].
    destruct (Hp Hpg) as (t0 & [= <-] & Hl).
    destruct (Hup t Hl) as (t' & Ht' & Hl'). rewrite Ht' in H. cbn in H. simplify_eq. cbn.
    split; [eauto|]. split; [done|]. split; [eauto|].
    unfold holds in Hpg |- *; cbn in *; congruence.
  - destruct (holds (mk_driver dt sz m todo) RPages) eqn:Hpg.
    + destruct (Hp Hpg) as (t & -> & Hl). destruct (Hup t Hl) as (t' & Ht' & _).
      unfold callback in H. cbn in H. by rewrite Ht' in H.
    + destruct k as [|[|[|[|[|[|k]]]]]]; cbn in Hk; rewrite ?drop_nil in Hk; subst todo;
        discriminate.
Qed.

Lemma unload_inv_reachable n update u u' :
  total_update n update -> unload_inv n u -> rtc (unload_step update) u u' -> unload_inv n u'.
Proof. intros Hup Hi Hr. induction Hr; eauto using unload_inv_step. Qed.

Lemma unload_inv_initial n d :
  loaded n d -> unload_inv n (Unloading release_order d).
Proof.
  intros [Hh Ht]. cbn. split; [by exists 0%nat|]. split; [done|].
  split; [done|]. unfold holds. by rewrite Hh.
Qed.

(** ** Loading is all or nothing *)

Lemma collector_init_outcome zero entry_size n update e :
  env_ok e -> total_update n update ->
  exists r d, collector_init zero entry_size n update e unloaded = Some (r, d) /\
    ((r = 0 /\ loaded n d /\ update (replicate n zero) = data d /\
      data_size d = PAGE_ALIGN (entry_size * Z.of_nat n)) \/
     (r < 0 /\ held d = [] /\ data d = None)).
Proof.
  intros [Hc Hd] Hup. unfold collector_init, unloaded.
  destruct (Hup (replicate n zero)) as (t & Ht & Hl); [apply length_replicate|].
  destruct (env_get_free_pages e); cbn; [|eexists _, _; split; [done|right; split; [reflexivity|done]]].
  destruct (env_alloc_chrdev_region e <? 0) eqn:E1; [to_props; eexists _, _; split; [done|right; auto]|].
  destruct (env_cdev_add e <? 0) eqn:E2; [to_props; eexists _, _; split; [done|right; auto]|].
  destruct (env_class_create e) as [z|]; [eexists _, _; split; [done|right; auto]|].
  destruct (env_device_create e) as [z|]; [eexists _, _; split; [done|right; auto]|].
  unfold callback; cbn. rewrite Ht; cbn. eexists _, _; split; [done|left].
  split_and!; unfold loaded; cbn; eauto.
Qed.

Lemma collector_mmap_bound d vm_start vm_end remap size :
  collector_mmap d vm_start vm_end remap = (0, Some size) -> 0 <= size <= data_size d.
Proof.
  unfold collector_mmap. pose proof (u64_wrap_range (vm_end - vm_start)).
  unfold u64_sub. repeat break_if; intros [=]; to_props; lia.
Qed.
End Driver.

Arguments driver : clear implicits.
Arguments unloading : clear implicits.

(** ** The shared table

    [update_cpu_stats] and [update_softirq_stats] are the same loop over the
    possible CPUs: write entry [idx], stop at [max] entries, and mark the end
    with an empty name when the table is not full.  An access out of the table
    is [None].  [scan n] is the loop user space runs on the mapped table. *)
Section Table.
Context {A : Type} (name : A -> list Z) (set_end : A -> A) (fill : Z -> A -> A).

Fixpoint fill_table (max : nat) (cpus : list Z) (idx : nat) (tbl : list A)
    : option (nat * list A) :=
  match cpus with
  | [] => Some (idx, tbl)
  | cpu :: rest =>
      if (max <=? idx)%nat then Some (idx, tbl)       (* break *)
      else
        e ← tbl !! idx;
        fill_table max rest (S idx) (<[idx := fill cpu e]> tbl)
  end.

Definition update_table (max : nat) (cpus : list Z) (tbl : list A) : option (list A) :=
  '(idx, tbl) ← fill_table max cpus 0 tbl;
  if (idx <? max)%nat then
    e ← tbl !! idx; Some (<[idx := set_end e]> tbl)
  else Some tbl.

(** [cpu_name[0] == '\0']. *)
Definition at_end (e : A) : bool := hd 0 (name e) =? 0.

Fixpoint scan (n : nat) (tbl : list A) : list A :=
  match n, tbl with
  | S n', e :: rest => if at_end e then [] else e :: scan n' rest
  | _, _ => []
  end.

(** *** Lemmas *)

Context (ok : A -> Prop)
  (ok_fill : forall c e, ok e -> ok (fill c e))
  (ok_end : forall e, ok e -> ok (set_end e)).

Lemma fill_table_spec max cpus idx tbl :
  length tbl = max -> (idx <= max)%nat -> Forall ok tbl ->
  exists tbl', fill_table max cpus idx tbl = Some (Nat.min max (idx + length cpus), tbl') /\
    length tbl' = max /\ Forall ok tbl' /\
    (forall j, (j < idx)%nat -> tbl' !! j = tbl !! j) /\
    (forall i c, cpus !! i = Some c -> (idx + i < max)%nat ->
       exists e, ok e /\ tbl' !! (idx + i)%nat = Some (fill c e)).
Proof.
  revert idx tbl; induction cpus as [|cpu cpus IH]; intros idx tbl Hl Hi Hok; cbn.
  - exists tbl. rewrite Nat.add_0_r, Nat.min_r by lia. split_and!; try done.
  - destruct (max <=? idx)%nat eqn:E.
    + apply Nat.leb_le in E. exists tbl. replace (Nat.min _ _) with idx by lia.
      split_and!; try done. intros; lia.
    + apply Nat.leb_gt in E.
      destruct (lookup_lt_is_Some_2 tbl idx) as [e He]; [lia|]. rewrite He; cbn.
      pose proof (Forall_lookup_1 _ _ _ _ Hok He) as Hoke.
      destruct (IH (S idx) (<[idx:=fill cpu e]> tbl)) as (t' & Ht & Hlt & Hokt & Hpre & Hpost).
      { by rewrite length_insert. } { lia. } { apply Forall_insert; auto. }
      exists t'. rewrite Ht. split_and!; try done.
      * do 2 f_equal. lia.
      * intros j Hj. rewrite Hpre by lia. by rewrite list_lookup_insert_ne by lia.
      * intros [|i] c Hc Hb; cbn in Hc.
        -- simplify_eq. exists e. split; [done|]. rewrite Nat.add_0_r, Hpre by lia.
           apply list_lookup_insert_eq. lia.
        -- rewrite <- Nat.add_succ_comm. apply Hpost; [done|lia].
Qed.

Lemma scan_spec (P : Z -> A -> Prop) n l tbl :
  (n <= length tbl)%nat ->
  (forall c e, P c e -> at_end e = false) ->
  (forall i c, l !! i = Some c -> (i < n)%nat -> exists e, tbl !! i = Some e /\ P c e) ->
  ((length l < n)%nat -> exists e, tbl !! length l = Some e /\ at_end e = true) ->
  Forall2 P (take n l) (scan n tbl).
Proof.
  intros Hn HP. revert l tbl Hn. induction n as [|n IH]; intros l tbl Hn Hl Hend; [constructor|].
  destruct l as [|c l]; cbn in Hend |- *.
  - destruct Hend as (e & He & Hz); [lia|]. destruct tbl as [|e' tbl]; [constructor|].
    cbn in He. simplify_eq. rewrite Hz. constructor.
  - destruct (Hl 0%nat c) as (e & He & Hp); [done|lia|].
    destruct tbl as [|e' tbl]; [done|]. cbn in He; simplify_eq.
    rewrite (HP c e) by done. constructor; [done|]. apply IH.
    + cbn in Hn; lia.
    + intros i c' Hc Hi. apply (Hl (S i)); [done|lia].
    + intros; apply Hend; lia.
Qed.

Lemma update_table_spec (P : Z -> A -> Prop) max cpus tbl n :
  length tbl = max -> Forall ok tbl -> (n <= max)%nat ->
  (forall e, at_end (set_end e) = true) ->
  (forall c e, P c e -> at_end e = false) ->
  (forall c e, c ∈ cpus -> ok e -> P c (fill c e)) ->
  exists tbl', update_table max cpus tbl = Some tbl' /\ length tbl' = max /\
    Forall ok tbl' /\ Forall2 P (take n cpus) (scan n tbl').
Proof.
  intros Hl Hok Hn Hend HP Hfill.
  destruct (fill_table_spec max cpus 0 tbl) as (t & Ht & Hlt & Hokt & _ & Hpost); [done|lia|done|].
  assert (Hent : forall i c, cpus !! i = Some c -> (i < max)%nat ->
            exists e, t !! i = Some e /\ P c e).
  { intros i c Hc Hi. destruct (Hpost i c Hc Hi) as (e & He & Hte). cbn in Hte.
    exists (fill c e). split; [done|]. apply Hfill; [|done]. by eapply list_elem_of_lookup_2. }
  unfold update_table. rewrite Ht. cbn -[Nat.ltb Nat.min Nat.add]. rewrite Nat.add_0_l. destruct (Nat.min max (length cpus) <? max)%nat eqn:E.
  - apply Nat.ltb_lt in E.
    destruct (lookup_lt_is_Some_2 t (Nat.min max (length cpus))) as [e He]; [lia|].
    rewrite He; cbn. eexists; split; [reflexivity|]. rewrite length_insert.
    split; [done|]. split.
    { apply Forall_insert; [done|]. apply ok_end. by eapply Forall_lookup_1. }
    apply scan_spec; [rewrite length_insert; lia|done| |].
    + intros i c Hc Hi. pose proof (lookup_lt_Some _ _ _ Hc).
      rewrite list_lookup_insert_ne by lia. apply Hent; [done|lia].
    + intros Hs. exists (set_end e). split; [|done].
      replace (Nat.min max (length cpus)) with (length cpus) by lia.
      apply list_lookup_insert_eq. lia.
  - apply Nat.ltb_ge in E. exists t. split; [done|]. split; [done|]. split; [done|].
    apply scan_spec; [lia|done| |lia].
    intros i c Hc Hi. apply Hent; [done|lia].
Qed.
End Table.

(** The loop stays inside a table of [max] entries, whatever it holds. *)
Lemma update_table_total {A} (set_end : A -> A) (fill : Z -> A -> A) max cpus :
  total_update max (update_table set_end fill max cpus).
Proof.
  intros t Ht.
  destruct (fill_table_spec fill (fun _ => True) (fun _ _ _ => I) max cpus 0 t)
    as (t' & Hf & Hl & _); [done|lia|by apply Forall_true|].
  unfold update_table. rewrite Hf. cbn -[Nat.ltb Nat.min Nat.add]. rewrite Nat.add_0_l.
  destruct (Nat.min max (length cpus) <? max)%nat eqn:E; [|eauto].
  apply Nat.ltb_lt in E.
  destruct (lookup_lt_is_Some_2 t' (Nat.min max (length cpus))) as [e He]; [lia|].
  rewrite He; cbn. eexists; split; [done|]. by rewrite length_insert.
Qed.

(** ** Unloading, whole *)

(** Every state an unloading reaches: no fault; a call is always possible while
    some are left; at the end nothing is held. *)
Definition unload_safe {A} (update : list A -> option (list A)) (u : unloading A) : Prop :=
  match u with
  | Faulted => False
  | Unloading [] d => held d = [] /\ data d = None
  | Unloading (r :: todo) d => exists d', unload_step update u (Unloading todo d')
  end.

Lemma unload_inv_safe {A} n (update : list A -> option (list A)) u :
  unload_inv n u -> unload_safe update u.
Proof.
  destruct u as [todo d|]; [|done]. intros ([k Hk] & Hh & _ & Hn). destruct todo as [|r todo].
  - split; [done|]. apply Hn. unfold holds. by rewrite Hh.
  - destruct d as [dt sz m h]; cbn in Hh; subst h. cbn.
    destruct k as [|[|[|[|[|[|k]]]]]]; cbn in Hk; rewrite ?drop_nil in Hk; simplify_eq;
      eexists; apply unload_call; cbn; reflexivity.
Qed.

Lemma unload_reachable_safe {A} n (update : list A -> option (list A)) d u :
  total_update n update -> loaded n d ->
  rtc (unload_step update) (Unloading release_order d) u -> unload_safe update u.
Proof.
  intros. eapply unload_inv_safe, unload_inv_reachable; eauto using unload_inv_initial.
Qed.
