(* ===== verification/KernelCollectors.v ===== *)
(** * KernelCollectors: the two kernel modules of the worker

    [src/worker/src/kmod/CpuStatCollector.c] and
    [src/worker/src/kmod/SoftirqCollector.c]: the shared entries, the function
    that refreshes the shared table, the timer callback, the file operations,
    the init and the exit function. *)

From S2P Require Import Prelude CString KernelDriver.

(** ** What the kernel provides

    The per-CPU counters and conversions that the modules read; [possible] is
    the sequence [for_each_possible_cpu] walks. *)

Inductive cputime :=
  CPUTIME_USER | CPUTIME_NICE | CPUTIME_SYSTEM | CPUTIME_SOFTIRQ | CPUTIME_IRQ
| CPUTIME_IDLE | CPUTIME_IOWAIT | CPUTIME_STEAL | CPUTIME_GUEST | CPUTIME_GUEST_NICE.

Inductive softirq_nr :=
  HI_SOFTIRQ | TIMER_SOFTIRQ | NET_TX_SOFTIRQ | NET_RX_SOFTIRQ | BLOCK_SOFTIRQ
| IRQ_POLL_SOFTIRQ | TASKLET_SOFTIRQ | SCHED_SOFTIRQ | HRTIMER_SOFTIRQ | RCU_SOFTIRQ.

Record kernel := {
  HZ : Z;
  possible : list Z;
  kcpustat_cpu : Z -> cputime -> Z;
  get_cpu_idle_time_us : Z -> Z;
  get_cpu_iowait_time_us : Z -> Z;
  usecs_to_jiffies : Z -> Z;      (* its parameter is an [unsigned int] *)
  kstat_softirqs_cpu : softirq_nr -> Z -> Z
}.

(** CPU numbers are below the largest [NR_CPUS] the kernel supports. *)
Definition cpu_number (c : Z) : Prop := 0 <= c < 8192.

Definition MAX_CPUS : nat := 256.
Definition NSEC_PER_SEC : Z := 1000000000.

(** [sizeof] of both structs: [char cpu_name[16]] and ten [uint64_t]. *)
Definition sizeof_stat : Z := 16 + 10 * 8.

(** [snprintf(e.cpu_name, sizeof(e.cpu_name), "cpu%d", cpu)]. *)
Definition cpu_label (cpu : Z) : string := "cpu" +++ to_string cpu.

(** [e.cpu_name[0] = '\0']. *)
Definition clear_first (buf : list Z) : list Z := <[0%nat := 0]> buf.

(** ** CpuStatCollector.c *)
Module CpuStatCollector.

Record cpu_stat := mk_cpu_stat {
  cpu_name : list Z;
  user : Z; nice : Z; system : Z; idle : Z; iowait : Z;
  irq : Z; softirq : Z; steal : Z; guest : Z; guest_nice : Z
}.

Definition zero_cpu_stat : cpu_stat := mk_cpu_stat (replicate 16 0) 0 0 0 0 0 0 0 0 0 0.

Definition nsec_to_jiffies (k : kernel) (nsec : Z) : Z := nsec / (NSEC_PER_SEC / HZ k).

Definition cpu_stat_get_idle_time (k : kernel) (cpu : Z) : Z :=
  let idle_time := get_cpu_idle_time_us k cpu in
  if idle_time =? ULLONG_MAX
  then nsec_to_jiffies k (kcpustat_cpu k cpu CPUTIME_IDLE)
  else usecs_to_jiffies k (u32_wrap idle_time).

Definition cpu_stat_get_iowait_time (k : kernel) (cpu : Z) : Z :=
  let iowait_time := get_cpu_iowait_time_us k cpu in
  if iowait_time =? ULLONG_MAX
  then nsec_to_jiffies k (kcpustat_cpu k cpu CPUTIME_IOWAIT)
  else usecs_to_jiffies k (u32_wrap iowait_time).

(** The body of the loop of [update_cpu_stats]. *)
Definition fill_cpu_stat (k : kernel) (cpu : Z) (e : cpu_stat) : cpu_stat :=
  let kcs := kcpustat_cpu k cpu in
  {| cpu_name := snprintf_into (cpu_name e) (cpu_label cpu);
     user := nsec_to_jiffies k (kcs CPUTIME_USER);
     nice := nsec_to_jiffies k (kcs CPUTIME_NICE);
     system := nsec_to_jiffies k (kcs CPUTIME_SYSTEM);
     idle := cpu_stat_get_idle_time k cpu;
     iowait := cpu_stat_get_iowait_time k cpu;
     irq := nsec_to_jiffies k (kcs CPUTIME_IRQ);
     softirq := nsec_to_jiffies k (kcs CPUTIME_SOFTIRQ);
     steal := nsec_to_jiffies k (kcs CPUTIME_STEAL);
     guest := nsec_to_jiffies k (kcs CPUTIME_GUEST);
     guest_nice := nsec_to_jiffies k (kcs CPUTIME_GUEST_NICE) |}.

Definition end_cpu_stat (e : cpu_stat) : cpu_stat :=
  {| cpu_name := clear_first (cpu_name e);
     user := user e; nice := nice e; system := system e; idle := idle e;
     iowait := iowait e; irq := irq e; softirq := softirq e; steal := steal e;
     guest := guest e; guest_nice := guest_nice e |}.

Definition update_cpu_stats (k : kernel) (tbl : list cpu_stat) : option (list cpu_stat) :=
  update_table end_cpu_stat (fill_cpu_stat k) MAX_CPUS (possible k) tbl.

Definition timer_callback (k : kernel) (d : driver cpu_stat) : option (driver cpu_stat) :=
  callback (update_cpu_stats k) d.

Definition cpu_stat_open (d : driver cpu_stat) : Z * driver cpu_stat := (0, d).
Definition cpu_stat_release (d : driver cpu_stat) : Z * driver cpu_stat := (0, d).

Definition cpu_stat_mmap (d : driver cpu_stat) (vm_start vm_end : Z) (remap : Z -> Z) :=
  collector_mmap d vm_start vm_end remap.

Definition cpu_stat_collector_init (k : kernel) (e : init_env) (d : driver cpu_stat) :=
  collector_init zero_cpu_stat sizeof_stat MAX_CPUS (update_cpu_stats k) e d.

(** [hrtimer_cancel], [device_destroy], [class_destroy], [cdev_del],
    [unregister_chrdev_region], [free_pages]. *)
Definition cpu_stat_collector_exit : list resource :=
  [RTimer; RDevice; RClass; RCdev; RRegion; RPages].

End CpuStatCollector.

(** ** SoftirqCollector.c *)
Module SoftirqCollector.

Record softirq_stat := mk_softirq_stat {
  cpu_name : list Z;
  hi : Z; timer : Z; net_tx : Z; net_rx : Z; block : Z;
  irq_poll : Z; tasklet : Z; sched : Z; hrtimer : Z; rcu : Z
}.

Definition zero_softirq_stat : softirq_stat :=
  mk_softirq_stat (replicate 16 0) 0 0 0 0 0 0 0 0 0 0.

(** The body of the loop of [update_softirq_stats]. *)
Definition fill_softirq_stat (k : kernel) (cpu : Z) (e : softirq_stat) : softirq_stat :=
  {| cpu_name := snprintf_into (cpu_name e) (cpu_label cpu);
     hi := kstat_softirqs_cpu k HI_SOFTIRQ cpu;
     timer := kstat_softirqs_cpu k TIMER_SOFTIRQ cpu;
     net_tx := kstat_softirqs_cpu k NET_TX_SOFTIRQ cpu;
     net_rx := kstat_softirqs_cpu k NET_RX_SOFTIRQ cpu;
     block := kstat_softirqs_cpu k BLOCK_SOFTIRQ cpu;
     irq_poll := kstat_softirqs_cpu k IRQ_POLL_SOFTIRQ cpu;
     tasklet := kstat_softirqs_cpu k TASKLET_SOFTIRQ cpu;
     sched := kstat_softirqs_cpu k SCHED_SOFTIRQ cpu;
     hrtimer := kstat_softirqs_cpu k HRTIMER_SOFTIRQ cpu;
     rcu := kstat_softirqs_cpu k RCU_SOFTIRQ cpu |}.

Definition end_softirq_stat (e : softirq_stat) : softirq_stat :=
  {| cpu_name := clear_first (cpu_name e);
     hi := hi e; timer := timer e; net_tx := net_tx e; net_rx := net_rx e;
     block := block e; irq_poll := irq_poll e; tasklet := tasklet e;
     sched := sched e; hrtimer := hrtimer e; rcu := rcu e |}.

Definition update_softirq_stats (k : kernel) (tbl : list softirq_stat)
    : option (list softirq_stat) :=
  update_table end_softirq_stat (fill_softirq_stat k) MAX_CPUS (possible k) tbl.

Definition timer_callback (k : kernel) (d : driver softirq_stat)
    : option (driver softirq_stat) :=
  callback (update_softirq_stats k) d.

Definition softirq_open (d : driver softirq_stat) : Z * driver softirq_stat := (0, d).
Definition softirq_release (d : driver softirq_stat) : Z * driver softirq_stat := (0, d).

Definition softirq_mmap (d : driver softirq_stat) (vm_start vm_end : Z) (remap : Z -> Z) :=
  collector_mmap d vm_start vm_end remap.

Definition softirq_collector_init (k : kernel) (e : init_env) (d : driver softirq_stat) :=
  collector_init zero_softirq_stat sizeof_stat MAX_CPUS (update_softirq_stats k) e d.

Definition softirq_collector_exit : list resource :=
  [RTimer; RDevice; RClass; RCdev; RRegion; RPages].

End SoftirqCollector.

(** ** Lemmas *)

(** A name buffer has 16 bytes. *)
Definition name16 (buf : list Z) : Prop := length buf = 16%nat.

Lemma cpu_label_fits c :
  cpu_number c ->
  nul_free (cpu_label c) = true /\ (String.length (cpu_label c) < 16)%nat /\
  hd 0 (bytes_of (cpu_label c)) = 99.
Proof.
  intros H.
  assert (Hall : forallb (fun n => nul_free (cpu_label (Z.of_nat n)) &&
            (String.length (cpu_label (Z.of_nat n)) <? 16)%nat) (seq 0 (Z.to_nat 8192)) = true)
    by (vm_compute; reflexivity).
  rewrite forallb_forall in Hall.
  specialize (Hall (Z.to_nat c)). rewrite Z2Nat.id in Hall by apply H.
  destruct (proj1 (andb_true_iff _ _) (Hall ltac:(apply in_seq; unfold cpu_number in H; lia))) as [H1 H2].
  apply Nat.ltb_lt in H2. auto.
Qed.

(** The name written by [snprintf] is read back, and does not look like the end. *)
Lemma cpu_label_written c buf :
  cpu_number c -> name16 buf ->
  c_str (snprintf_into buf (cpu_label c)) = cpu_label c /\
  name16 (snprintf_into buf (cpu_label c)) /\
  hd 0 (snprintf_into buf (cpu_label c)) = 99.
Proof.
  intros Hc Hb. unfold name16 in *. destruct (cpu_label_fits c Hc) as (H1 & H2 & H3).
  split; [apply c_str_snprintf; [done|lia]|].
  split; [rewrite snprintf_into_length; lia|].
  unfold snprintf_into. rewrite Hb.
  destruct (bytes_of (cpu_label c)) as [|b r]; [done|]. done.
Qed.

Lemma clear_first_name16 buf : name16 buf -> name16 (clear_first buf).
Proof. intros H. unfold name16, clear_first. by rewrite length_insert. Qed.

Lemma clear_first_hd buf : hd 0 (clear_first buf) = 0.
Proof. by destruct buf. Qed.

Lemma fill_cpu_stat_ok k c e :
  name16 (CpuStatCollector.cpu_name e) -> name16 (CpuStatCollector.cpu_name (CpuStatCollector.fill_cpu_stat k c e)).
Proof. unfold name16. intros H; cbn. rewrite snprintf_into_length; lia. Qed.

Lemma fill_softirq_stat_ok k c e :
  name16 (SoftirqCollector.cpu_name e) -> name16 (SoftirqCollector.cpu_name (SoftirqCollector.fill_softirq_stat k c e)).
Proof. unfold name16. intros H; cbn. rewrite snprintf_into_length; lia. Qed.

(** A table as the modules keep it. *)
Definition cpu_stat_table (tbl : list CpuStatCollector.cpu_stat) : Prop :=
  length tbl = MAX_CPUS /\ Forall (fun e => name16 (CpuStatCollector.cpu_name e)) tbl.

Definition softirq_table (tbl : list SoftirqCollector.softirq_stat) : Prop :=
  length tbl = MAX_CPUS /\ Forall (fun e => name16 (SoftirqCollector.cpu_name e)) tbl.

(** What user space reads from an entry: the name up to its NUL, and the counters. *)
Definition cpu_stat_view (e : CpuStatCollector.cpu_stat) : string * list Z :=
  (c_str (CpuStatCollector.cpu_name e),
   [CpuStatCollector.user e; CpuStatCollector.nice e; CpuStatCollector.system e; CpuStatCollector.idle e; CpuStatCollector.iowait e;
    CpuStatCollector.irq e; CpuStatCollector.softirq e; CpuStatCollector.steal e; CpuStatCollector.guest e; CpuStatCollector.guest_nice e]).

Definition softirq_view (e : SoftirqCollector.softirq_stat) : string * list Z :=
  (c_str (SoftirqCollector.cpu_name e),
   [SoftirqCollector.hi e; SoftirqCollector.timer e; SoftirqCollector.net_tx e; SoftirqCollector.net_rx e; SoftirqCollector.block e;
    SoftirqCollector.irq_poll e; SoftirqCollector.tasklet e; SoftirqCollector.sched e; SoftirqCollector.hrtimer e; SoftirqCollector.rcu e]).

(** The kernel's counters of a CPU, as the modules publish them. *)
Definition cpu_stat_of (k : kernel) (c : Z) : string * list Z :=
  let j t := CpuStatCollector.nsec_to_jiffies k (kcpustat_cpu k c t) in
  (cpu_label c,
   [j CPUTIME_USER; j CPUTIME_NICE; j CPUTIME_SYSTEM; CpuStatCollector.cpu_stat_get_idle_time k c;
    CpuStatCollector.cpu_stat_get_iowait_time k c; j CPUTIME_IRQ; j CPUTIME_SOFTIRQ;
    j CPUTIME_STEAL; j CPUTIME_GUEST; j CPUTIME_GUEST_NICE]).

Definition softirq_of (k : kernel) (c : Z) : string * list Z :=
  (cpu_label c,
   (fun n => kstat_softirqs_cpu k n c) <$>
     [HI_SOFTIRQ; TIMER_SOFTIRQ; NET_TX_SOFTIRQ; NET_RX_SOFTIRQ; BLOCK_SOFTIRQ;
      IRQ_POLL_SOFTIRQ; TASKLET_SOFTIRQ; SCHED_SOFTIRQ; HRTIMER_SOFTIRQ; RCU_SOFTIRQ]).

Lemma Forall2_view {A B C} (f : A -> C) (g : B -> C) (Q : B -> Prop) l k :
  Forall2 (fun a b => g b = f a /\ Q b) l k -> g <$> k = f <$> l.
Proof. induction 1 as [|a b l k [H _] _ IH]; cbn; congruence. Qed.

Lemma update_cpu_stats_spec k tbl n :
  Forall cpu_number (possible k) -> cpu_stat_table tbl -> (n <= MAX_CPUS)%nat ->
  exists tbl', CpuStatCollector.update_cpu_stats k tbl = Some tbl' /\ cpu_stat_table tbl' /\
    cpu_stat_view <$> scan CpuStatCollector.cpu_name n tbl' = cpu_stat_of k <$> take n (possible k).
Proof.
  intros Hk [Hl Hok] Hn.
  destruct (update_table_spec CpuStatCollector.cpu_name CpuStatCollector.end_cpu_stat (CpuStatCollector.fill_cpu_stat k)
    (fun e => name16 (CpuStatCollector.cpu_name e))
    (fun c e e_ok => fill_cpu_stat_ok k c e e_ok)
    (fun e => clear_first_name16 (CpuStatCollector.cpu_name e))
    (fun c e => cpu_stat_view e = cpu_stat_of k c /\ hd 0 (CpuStatCollector.cpu_name e) = 99)
    MAX_CPUS (possible k) tbl n) as (t & Ht & Hlt & Hokt & Hv); auto.
  - intros e. unfold at_end; cbn. by rewrite clear_first_hd.
  - intros c e [_ H]. unfold at_end. by rewrite H.
  - intros c e Hc He. assert (Hn' : cpu_number c) by (rewrite Forall_forall in Hk; auto).
    destruct (cpu_label_written c _ Hn' He) as (H1 & _ & H3).
    unfold cpu_stat_view, cpu_stat_of; cbn. by rewrite H1, H3.
  - exists t. split; [done|]. split; [done|].
    by apply (Forall2_view _ _ (fun e => hd 0 (CpuStatCollector.cpu_name e) = 99)).
Qed.

Lemma update_softirq_stats_spec k tbl n :
  Forall cpu_number (possible k) -> softirq_table tbl -> (n <= MAX_CPUS)%nat ->
  exists tbl', SoftirqCollector.update_softirq_stats k tbl = Some tbl' /\ softirq_table tbl' /\
    softirq_view <$> scan SoftirqCollector.cpu_name n tbl' = softirq_of k <$> take n (possible k).
Proof.
  intros Hk [Hl Hok] Hn.
  destruct (update_table_spec SoftirqCollector.cpu_name SoftirqCollector.end_softirq_stat (SoftirqCollector.fill_softirq_stat k)
    (fun e => name16 (SoftirqCollector.cpu_name e))
    (fun c e e_ok => fill_softirq_stat_ok k c e e_ok)
    (fun e => clear_first_name16 (SoftirqCollector.cpu_name e))
    (fun c e => softirq_view e = softirq_of k c /\ hd 0 (SoftirqCollector.cpu_name e) = 99)
    MAX_CPUS (possible k) tbl n) as (t & Ht & Hlt & Hokt & Hv); auto.
  - intros e. unfold at_end; cbn. by rewrite clear_first_hd.
  - intros c e [_ H]. unfold at_end. by rewrite H.
  - intros c e Hc He. assert (Hn' : cpu_number c) by (rewrite Forall_forall in Hk; auto).
    destruct (cpu_label_written c _ Hn' He) as (H1 & _ & H3).
    unfold softirq_view, softirq_of; cbn. by rewrite H1, H3.
  - exists t. split; [done|]. split; [done|].
    by apply (Forall2_view _ _ (fun e => hd 0 (SoftirqCollector.cpu_name e) = 99)).
Qed.


(** ** Properties *)

(** C32. Loading a module is all or nothing.  Whatever the kernel calls return,
    the init function of either module does not break the kernel's contract,
    and either returns 0 with everything held, the 24576-byte table filled from
    the kernel's counters, or returns a negative error code with nothing held
    and the pages freed. *)
Theorem collectors_init_all_or_nothing k e :
  env_ok e -> Forall cpu_number (possible k) ->
  (exists r d, CpuStatCollector.cpu_stat_collector_init k e unloaded = Some (r, d) /\
    ((r = 0 /\ loaded MAX_CPUS d /\ data_size d = 24576 /\
      exists tbl, data d = Some tbl /\ cpu_stat_table tbl /\
        cpu_stat_view <$> scan CpuStatCollector.cpu_name MAX_CPUS tbl =
        cpu_stat_of k <$> take MAX_CPUS (possible k)) \/
     (r < 0 /\ held d = [] /\ data d = None))) /\
  (exists r d, SoftirqCollector.softirq_collector_init k e unloaded = Some (r, d) /\
    ((r = 0 /\ loaded MAX_CPUS d /\ data_size d = 24576 /\
      exists tbl, data d = Some tbl /\ softirq_table tbl /\
        softirq_view <$> scan SoftirqCollector.cpu_name MAX_CPUS tbl =
        softirq_of k <$> take MAX_CPUS (possible k)) \/
     (r < 0 /\ held d = [] /\ data d = None))).
Proof.
  intros He Hk. split.
  - destruct (collector_init_outcome CpuStatCollector.zero_cpu_stat sizeof_stat MAX_CPUS
      (CpuStatCollector.update_cpu_stats k) e He (update_table_total _ _ _ _)) as (r & d & Hi & Ho).
    exists r, d. split; [exact Hi|]. destruct Ho as [(-> & Hl & Hu & Hs)|Ho]; [left|by right].
    destruct (update_cpu_stats_spec k (replicate MAX_CPUS CpuStatCollector.zero_cpu_stat) MAX_CPUS)
      as (t & Ht & Htb & Hv); [done|by split; [|apply Forall_replicate]|done|].
    split_and!; [done|done|by rewrite Hs|]. exists t. rewrite <- Hu. auto.
  - destruct (collector_init_outcome SoftirqCollector.zero_softirq_stat sizeof_stat MAX_CPUS
      (SoftirqCollector.update_softirq_stats k) e He (update_table_total _ _ _ _)) as (r & d & Hi & Ho).
    exists r, d. split; [exact Hi|]. destruct Ho as [(-> & Hl & Hu & Hs)|Ho]; [left|by right].
    destruct (update_softirq_stats_spec k (replicate MAX_CPUS SoftirqCollector.zero_softirq_stat) MAX_CPUS)
      as (t & Ht & Htb & Hv); [done|by split; [|apply Forall_replicate]|done|].
    split_and!; [done|done|by rewrite Hs|]. exists t. rewrite <- Hu. auto.
Qed.

(** A small kernel: two CPUs, HZ of 250, counters that are easy to tell apart. *)
Definition sample_kernel : kernel :=
  {| HZ := 250; possible := [0; 1];
     kcpustat_cpu := fun c t => (c + 1) * 4000000;
     get_cpu_idle_time_us := fun c => c * 1000;
     get_cpu_iowait_time_us := fun _ => ULLONG_MAX;
     usecs_to_jiffies := fun u => (u + 3999) / 4000;
     kstat_softirqs_cpu := fun _ c => c |}.

Definition sample_env : init_env :=
  {| env_num_possible_cpus := 2; env_get_free_pages := true;
     env_alloc_chrdev_region := 0; env_cdev_add := 0;
     env_class_create := None; env_device_create := Some (-12) |}.

Lemma sample_kernel_numbers : Forall cpu_number (possible sample_kernel).
Proof. repeat constructor; unfold cpu_number; lia. Qed.

Lemma collectors_init_all_or_nothing_witness :
  exists r d, CpuStatCollector.cpu_stat_collector_init sample_kernel sample_env unloaded = Some (r, d).
Proof.
  destruct (collectors_init_all_or_nothing sample_kernel sample_env) as [(r & d & H & _) _].
  - split; cbn; [discriminate|intros z [= <-]; lia].
  - exact sample_kernel_numbers.
  - exists r, d. exact H.
Defined.

(** C10. Unloading is safe under every interleaving with the timer.  From a
    loaded module, whatever points the timer fires at between the calls of the
    exit function, no call is made out of order, the callback never touches
    freed pages, the unloading can always go on, and at its end the module
    holds nothing. *)
Theorem collectors_unload_safe k :
  (forall d u, loaded MAX_CPUS d ->
     rtc (unload_step (CpuStatCollector.update_cpu_stats k))
       (Unloading CpuStatCollector.cpu_stat_collector_exit d) u ->
     unload_safe (CpuStatCollector.update_cpu_stats k) u) /\
  (forall d u, loaded MAX_CPUS d ->
     rtc (unload_step (SoftirqCollector.update_softirq_stats k))
       (Unloading SoftirqCollector.softirq_collector_exit d) u ->
     unload_safe (SoftirqCollector.update_softirq_stats k) u).
Proof.
  split; intros d u Hd Hr;
    (eapply unload_reachable_safe; [apply update_table_total|exact Hd|exact Hr]).
Qed.

Definition loaded_sample : driver CpuStatCollector.cpu_stat :=
  mk_driver (Some (replicate MAX_CPUS CpuStatCollector.zero_cpu_stat)) 24576 2 everything.

(** The timer is cancelled first; the device node is then released. *)
Lemma collectors_unload_safe_witness :
  unload_safe (CpuStatCollector.update_cpu_stats sample_kernel)
    (Unloading [RClass; RCdev; RRegion; RPages]
       (mk_driver (data loaded_sample) 24576 2 [RClass; RCdev; RRegion; RPages])).
Proof.
  apply (proj1 (collectors_unload_safe sample_kernel) loaded_sample).
  - split; [reflexivity|]. eexists; split; reflexivity.
  - eapply rtc_l; [apply unload_call; reflexivity|].
    eapply rtc_l; [apply unload_call; reflexivity|]. apply rtc_refl.
Defined.

(** C16. The shared tables carry the kernel's counters to user space.  Refreshing
    a table never accesses it out of bounds and keeps it well formed, and the
    loop of a reader that scans up to [n] entries ([CpuStatMonitor] 128,
    [CpuSoftIrqMonitor] 256) sees exactly the first [n] possible CPUs, in
    order, each with its own name and counters. *)
Theorem collectors_shared_view k n :
  Forall cpu_number (possible k) -> (n <= MAX_CPUS)%nat ->
  (forall tbl, cpu_stat_table tbl ->
     exists tbl', CpuStatCollector.update_cpu_stats k tbl = Some tbl' /\ cpu_stat_table tbl' /\
       cpu_stat_view <$> scan CpuStatCollector.cpu_name n tbl' = cpu_stat_of k <$> take n (possible k)) /\
  (forall tbl, softirq_table tbl ->
     exists tbl', SoftirqCollector.update_softirq_stats k tbl = Some tbl' /\ softirq_table tbl' /\
       softirq_view <$> scan SoftirqCollector.cpu_name n tbl' = softirq_of k <$> take n (possible k)).
Proof.
  intros. split; intros; [by apply update_cpu_stats_spec|by apply update_softirq_stats_spec].
Qed.

Lemma collectors_shared_view_witness :
  exists tbl', CpuStatCollector.update_cpu_stats sample_kernel (replicate MAX_CPUS CpuStatCollector.zero_cpu_stat)
    = Some tbl' /\
  cpu_stat_view <$> scan CpuStatCollector.cpu_name 128 tbl' =
    [("cpu0", [1; 1; 1; 0; 1; 1; 1; 1; 1; 1]); ("cpu1", [2; 2; 2; 1; 2; 2; 2; 2; 2; 2])].
Proof.
  destruct (collectors_shared_view sample_kernel 128 sample_kernel_numbers) as [H _];
    [unfold MAX_CPUS; lia|].
  destruct (H (replicate MAX_CPUS CpuStatCollector.zero_cpu_stat)) as (t & Ht & _ & Hv).
  - split; [done|]. by apply Forall_replicate.
  - exists t. split; [exact Ht|]. rewrite Hv. vm_compute. reflexivity.
Defined.

(** A mapping never reaches past the pages of the table.  When the mmap
    handler of a loaded module succeeds, the mapped range lies inside the
    [get_order] pages that were allocated; a longer range is refused with
    [-EINVAL] before anything is mapped. *)
Theorem collectors_mmap_bounded (d : driver CpuStatCollector.cpu_stat) (s : driver SoftirqCollector.softirq_stat)
    vm_start vm_end remap size :
  data_size d = 24576 -> data_size s = 24576 ->
  (CpuStatCollector.cpu_stat_mmap d vm_start vm_end remap = (0, Some size) ->
     0 <= size <= Z.shiftl PAGE_SIZE (get_order (data_size d))) /\
  (SoftirqCollector.softirq_mmap s vm_start vm_end remap = (0, Some size) ->
     0 <= size <= Z.shiftl PAGE_SIZE (get_order (data_size s))) /\
  (24576 < u64_sub vm_end vm_start ->
     CpuStatCollector.cpu_stat_mmap d vm_start vm_end remap = (- EINVAL, None) /\
     SoftirqCollector.softirq_mmap s vm_start vm_end remap = (- EINVAL, None)).
Proof.
  intros Hd Hs. rewrite Hd, Hs. replace (Z.shiftl _ _) with 32768 by reflexivity.
  split_and!.
  - intros H%collector_mmap_bound. lia.
  - intros H%collector_mmap_bound. lia.
  - intros H. unfold CpuStatCollector.cpu_stat_mmap, SoftirqCollector.softirq_mmap, collector_mmap.
    rewrite Hd, Hs. replace (24576 <? _) with true by (symmetry; apply Z.ltb_lt; lia). done.
Qed.

Lemma collectors_mmap_bounded_witness :
  CpuStatCollector.cpu_stat_mmap (mk_driver None 24576 2 []) 4096 (4096 + 28672) (fun _ => 0) = (- EINVAL, None).
Proof.
  destruct (collectors_mmap_bounded (mk_driver None 24576 2 []) (mk_driver None 24576 2 [])
    4096 (4096 + 28672) (fun _ => 0) 28672 eq_refl eq_refl) as (_ & _ & H).
  apply H. reflexivity.
Defined.

(** The published idle and I/O-wait counters are not monotonic.  The
    microseconds are passed through an [unsigned int], so the counters forget
    every full 2^32 microseconds (about 71 minutes): adding that much idle time
    leaves the published value where it was. *)
Theorem cpu_stat_idle_counter_wraps (k k' : kernel) c :
  0 <= get_cpu_idle_time_us k c < 2 ^ 63 ->
  get_cpu_idle_time_us k' c = get_cpu_idle_time_us k c + 2 ^ 32 ->
  usecs_to_jiffies k' = usecs_to_jiffies k ->
  CpuStatCollector.cpu_stat_get_idle_time k' c = CpuStatCollector.cpu_stat_get_idle_time k c.
Proof.
  intros Hr H1 H2. unfold CpuStatCollector.cpu_stat_get_idle_time.
  rewrite H1, H2. unfold ULLONG_MAX.
  rewrite (proj2 (Z.eqb_neq _ _)) by lia. rewrite (proj2 (Z.eqb_neq _ _)) by lia.
  f_equal. wrap_lia.
Qed.

Definition later_kernel (idle : Z) : kernel :=
  {| HZ := 250; possible := [0; 1]; kcpustat_cpu := kcpustat_cpu sample_kernel;
     get_cpu_idle_time_us := fun _ => idle; get_cpu_iowait_time_us := fun _ => 0;
     usecs_to_jiffies := usecs_to_jiffies sample_kernel;
     kstat_softirqs_cpu := fun _ c => c |}.

(** An idle time of 2^32 + 4000 microseconds is published as one jiffy. *)
Lemma cpu_stat_idle_counter_wraps_witness :
  CpuStatCollector.cpu_stat_get_idle_time (later_kernel (4000 + 2 ^ 32)) 0 = 1.
Proof.
  rewrite (cpu_stat_idle_counter_wraps (later_kernel 4000) (later_kernel (4000 + 2 ^ 32)) 0).
  - reflexivity.
  - cbn; lia.
  - reflexivity.
  - reflexivity.
Defined.
