(* ===== verification/Messages.v ===== *)
(** * Messages: the protobuf messages the worker sends to the manager

    [src/proto/*.proto] as records, one module per message, the fields under
    their names.  A [float] is an [f32], a [double] an [f64], an unsigned
    integer a [Z] in range, a repeated field a list, and a singular message
    field an [option] (proto3 tracks its presence).  [empty] is the message of
    the default values. *)

From S2P Require Import Prelude CFloat.

Module HostInfo.
Record t := mk { hostname : string; ip_address : string }.
Definition empty : t := mk "" "".
End HostInfo.

Module SoftIrq.
Record t := mk {
  cpu : string;
  hi : f32; timer : f32; net_tx : f32; net_rx : f32; block : f32;
  irq_poll : f32; tasklet : f32; sched : f32; hrtimer : f32; rcu : f32 }.
End SoftIrq.

Module CpuLoad.
Record t := mk { load_avg_1 : f32; load_avg_3 : f32; load_avg_15 : f32 }.
Definition empty : t := mk fzero fzero fzero.
End CpuLoad.

Module CpuStat.
Record t := mk {
  cpu_name : string;
  cpu_percent : f32; usr_percent : f32; system_percent : f32; nice_percent : f32;
  idle_percent : f32; io_wait_percent : f32; irq_percent : f32; soft_irq_percent : f32 }.
Definition empty : t := mk "" fzero fzero fzero fzero fzero fzero fzero fzero.
End CpuStat.

Module MemInfo.
Record t := mk {
  total : f32; free : f32; avail : f32; buffers : f32; cached : f32; swap_cached : f32;
  active : f32; inactive : f32; active_anon : f32; inactive_anon : f32;
  active_file : f32; inactive_file : f32; dirty : f32; writeback : f32;
  anon_pages : f32; mapped : f32; kReclaimable : f32; sReclaimable : f32;
  sUnreclaim : f32; used_percent : f32 }.
Definition empty : t :=
  mk fzero fzero fzero fzero fzero fzero fzero fzero fzero fzero
     fzero fzero fzero fzero fzero fzero fzero fzero fzero fzero.
End MemInfo.

Module NetInfo.
Record t := mk {
  name : string;
  send_rate : f32; rcv_rate : f32; send_packets_rate : f32; rcv_packets_rate : f32;
  err_in : Z; err_out : Z; drop_in : Z; drop_out : Z }.
Definition empty : t := mk "" fzero fzero fzero fzero 0 0 0 0.
End NetInfo.

Module DiskInfo.
Record t := mk {
  name : string;
  reads : Z; writes : Z; sectors_read : Z; sectors_written : Z;
  read_time_ms : Z; write_time_ms : Z; io_in_progress : Z; io_time_ms : Z;
  weighted_io_time_ms : Z;
  read_bytes_per_sec : f64; write_bytes_per_sec : f64; read_iops : f64; write_iops : f64;
  avg_read_latency_ms : f64; avg_write_latency_ms : f64; util_percent : f64 }.
Definition empty : t :=
  mk "" 0 0 0 0 0 0 0 0 0 fzero fzero fzero fzero fzero fzero fzero.
End DiskInfo.

Module MysqlInfo.
Record t := mk {
  instance : string; host : string; port : Z; up : bool; version : string; role : string;
  max_connections : Z; threads_connected : Z; threads_running : Z; aborted_connects : Z;
  questions : Z; com_select : Z; com_insert : Z; com_update : Z; com_delete : Z;
  com_commit : Z; com_rollback : Z; slow_queries : Z;
  innodb_buffer_pool_read_requests : Z; innodb_buffer_pool_reads : Z;
  innodb_buffer_pool_hit_percent : f64; innodb_row_lock_waits : Z;
  innodb_row_lock_time_avg_ms : f64;
  replication_configured : bool; replication_running : bool; replication_lag_seconds : f64 }.
Definition empty : t :=
  mk "" "" 0 false "" "" 0 0 0 0 0 0 0 0 0 0 0 0 0 0 fzero 0 fzero false false fzero.
End MysqlInfo.

Module RedisInfo.
Record t := mk {
  instance : string; host : string; port : Z; up : bool; version : string; role : string;
  uptime_in_seconds : Z; connected_clients : Z; blocked_clients : Z; maxclients : Z;
  used_memory : Z; maxmemory : Z; mem_fragmentation_ratio : f64; memory_used_percent : f64;
  total_commands_processed : Z; instantaneous_ops_per_sec : f64; keyspace_hits : Z;
  keyspace_misses : Z; keyspace_hit_percent : f64; expired_keys : Z; evicted_keys : Z;
  rejected_connections : Z; total_error_replies : Z; total_net_input_bytes : Z;
  total_net_output_bytes : Z; replication_configured : bool; master_link_up : bool;
  connected_slaves : Z; master_last_io_seconds_ago : f64; slowlog_len : Z }.
Definition empty : t :=
  mk "" "" 0 false "" "" 0 0 0 0 0 0 fzero fzero 0 fzero 0 0 fzero 0 0 0 0 0 0 false false 0 fzero 0.
End RedisInfo.

Module MonitorInfo.
Record t := mk {
  name : string;
  host_info : option HostInfo.t;
  soft_irq : list SoftIrq.t;
  cpu_load : option CpuLoad.t;
  cpu_stat : list CpuStat.t;
  mem_info : option MemInfo.t;
  net_info : list NetInfo.t;
  disk_info : list DiskInfo.t;
  mysql_info : list MysqlInfo.t;
  redis_info : list RedisInfo.t }.
Definition empty : t := mk "" None [] None [] None [] [] [] [].

(** Replacing one field. *)
Definition set_name (s : string) (m : t) : t :=
  mk s (host_info m) (soft_irq m) (cpu_load m) (cpu_stat m) (mem_info m) (net_info m)
     (disk_info m) (mysql_info m) (redis_info m).
Definition set_host_info (h : option HostInfo.t) (m : t) : t :=
  mk (name m) h (soft_irq m) (cpu_load m) (cpu_stat m) (mem_info m) (net_info m)
     (disk_info m) (mysql_info m) (redis_info m).
Definition set_soft_irq (l : list SoftIrq.t) (m : t) : t :=
  mk (name m) (host_info m) l (cpu_load m) (cpu_stat m) (mem_info m) (net_info m)
     (disk_info m) (mysql_info m) (redis_info m).
Definition set_cpu_load (l : option CpuLoad.t) (m : t) : t :=
  mk (name m) (host_info m) (soft_irq m) l (cpu_stat m) (mem_info m) (net_info m)
     (disk_info m) (mysql_info m) (redis_info m).
Definition set_cpu_stat (l : list CpuStat.t) (m : t) : t :=
  mk (name m) (host_info m) (soft_irq m) (cpu_load m) l (mem_info m) (net_info m)
     (disk_info m) (mysql_info m) (redis_info m).
Definition set_mem_info (l : option MemInfo.t) (m : t) : t :=
  mk (name m) (host_info m) (soft_irq m) (cpu_load m) (cpu_stat m) l (net_info m)
     (disk_info m) (mysql_info m) (redis_info m).
Definition set_net_info (l : list NetInfo.t) (m : t) : t :=
  mk (name m) (host_info m) (soft_irq m) (cpu_load m) (cpu_stat m) (mem_info m) l
     (disk_info m) (mysql_info m) (redis_info m).
Definition set_disk_info (l : list DiskInfo.t) (m : t) : t :=
  mk (name m) (host_info m) (soft_irq m) (cpu_load m) (cpu_stat m) (mem_info m) (net_info m)
     l (mysql_info m) (redis_info m).
Definition set_mysql_info (l : list MysqlInfo.t) (m : t) : t :=
  mk (name m) (host_info m) (soft_irq m) (cpu_load m) (cpu_stat m) (mem_info m) (net_info m)
     (disk_info m) l (redis_info m).
Definition set_redis_info (l : list RedisInfo.t) (m : t) : t :=
  mk (name m) (host_info m) (soft_irq m) (cpu_load m) (cpu_stat m) (mem_info m) (net_info m)
     (disk_info m) (mysql_info m) l.
End MonitorInfo.

(** [info.host_info()] of a message without the field is the empty message; so
    for the other singular fields. *)
Definition get_host_info (m : MonitorInfo.t) : HostInfo.t :=
  default HostInfo.empty (MonitorInfo.host_info m).
Definition get_cpu_load (m : MonitorInfo.t) : CpuLoad.t :=
  default CpuLoad.empty (MonitorInfo.cpu_load m).
Definition get_mem_info (m : MonitorInfo.t) : MemInfo.t :=
  default MemInfo.empty (MonitorInfo.mem_info m).
