(* ===== verification/NetStats.v ===== *)
(** * NetStats: the eBPF traffic counters and the monitor that reads them

    [src/worker/src/ebpf/net_stats.bpf.c]: the two TC hooks that count packets
    in a BPF hash map, first run one packet at a time and then on several CPUs
    whose steps interleave; and [NetEbpfMonitor::updateOnce] of
    [src/worker/src/monitor/NetEbpfMonitor.cpp], which turns two readings of
    the counters into rates.  Loading the program is in [EbpfLoader]. *)

From S2P Require Import Prelude CFloat Messages.

(** ** net_stats.bpf.c *)

Record net_stats := mk_net_stats {
  rcv_bytes : Z; rcv_packets : Z; snd_bytes : Z; snd_packets : Z }.

Definition max_entries : nat := 64.

(** The BPF map is the kernel's.  The program uses it through this interface:
    a lookup, an insertion that may be refused when the map is full, and a
    write through the pointer a lookup returned. *)
Class BpfMap (M : Type) := {
  bpf_empty : M;
  bpf_map_lookup_elem : M -> Z -> option net_stats;
  bpf_map_update_elem : M -> Z -> net_stats -> M;
  bpf_store : M -> Z -> net_stats -> M;
  bpf_keys : M -> gset Z
}.

(** The documented behaviour of [BPF_MAP_TYPE_HASH] with [BPF_ANY]: a new key is
    refused (-E2BIG) when the map has [max_entries] keys. *)
Class BpfMapLaws (M : Type) `{BpfMap M} := {
  bpf_lookup_empty k : bpf_map_lookup_elem bpf_empty k = None;
  bpf_keys_spec m k : k ∈ bpf_keys m <-> is_Some (bpf_map_lookup_elem m k);
  bpf_update_ne m k k' s :
    k <> k' -> bpf_map_lookup_elem (bpf_map_update_elem m k s) k' = bpf_map_lookup_elem m k';
  bpf_update_eq m k s :
    bpf_map_lookup_elem (bpf_map_update_elem m k s) k = Some s \/
    bpf_map_lookup_elem (bpf_map_update_elem m k s) k = bpf_map_lookup_elem m k;
  bpf_update_room m k s :
    (size (bpf_keys m) < max_entries)%nat ->
    bpf_map_lookup_elem (bpf_map_update_elem m k s) k = Some s;
  bpf_update_full m k s :
    (max_entries <= size (bpf_keys m))%nat -> bpf_map_lookup_elem m k = None ->
    bpf_map_lookup_elem (bpf_map_update_elem m k s) k = None;
  bpf_store_eq m k s :
    is_Some (bpf_map_lookup_elem m k) -> bpf_map_lookup_elem (bpf_store m k s) k = Some s;
  bpf_store_ne m k k' s :
    k <> k' -> bpf_map_lookup_elem (bpf_store m k s) k' = bpf_map_lookup_elem m k'
}.

(** A map of at most [max_entries] entries is such a map. *)
#[export] Instance bounded_map : BpfMap (gmap Z net_stats) := {
  bpf_empty := ∅;
  bpf_map_lookup_elem m k := m !! k;
  bpf_map_update_elem m k s :=
    if bool_decide (k ∈ dom m) || (size m <? max_entries)%nat then <[k := s]> m else m;
  bpf_store m k s := <[k := s]> m;
  bpf_keys m := dom m
}.

#[export] Instance bounded_map_laws : BpfMapLaws (gmap Z net_stats).
Proof.
  split; intros; cbv [bpf_map_lookup_elem bpf_map_update_elem bpf_store bpf_keys bounded_map bpf_empty] in *.
  - apply lookup_empty.
  - apply elem_of_dom.
  - break_if; [by apply lookup_insert_ne|done].
  - break_if; [left; apply lookup_insert_eq|by right].
  - rewrite size_dom in H. rewrite (proj2 (Nat.ltb_lt _ _) H), orb_true_r.
    apply lookup_insert_eq.
  - rewrite size_dom in H. rewrite (proj2 (Nat.ltb_ge _ _) H), orb_false_r.
    rewrite bool_decide_false; [done|]. by apply not_elem_of_dom.
  - apply lookup_insert_eq.
  - by apply lookup_insert_ne.
Qed.

Section Hooks.
Context `{BpfMapLaws M}.

Definition first_stats (len : Z) (is_rx : bool) : net_stats :=
  if is_rx then mk_net_stats len 1 0 0 else mk_net_stats 0 0 len 1.

(** [__sync_fetch_and_add] on the byte counter, then on the packet counter. *)
Definition add_bytes (len : Z) (is_rx : bool) (s : net_stats) : net_stats :=
  if is_rx
  then mk_net_stats (u64_add (rcv_bytes s) len) (rcv_packets s) (snd_bytes s) (snd_packets s)
  else mk_net_stats (rcv_bytes s) (rcv_packets s) (u64_add (snd_bytes s) len) (snd_packets s).

Definition add_packet (is_rx : bool) (s : net_stats) : net_stats :=
  if is_rx
  then mk_net_stats (rcv_bytes s) (u64_add (rcv_packets s) 1) (snd_bytes s) (snd_packets s)
  else mk_net_stats (rcv_bytes s) (rcv_packets s) (snd_bytes s) (u64_add (snd_packets s) 1).

Definition update_stats (m : M) (ifindex len : Z) (is_rx : bool) : M :=
  match bpf_map_lookup_elem m ifindex with
  | None => bpf_map_update_elem m ifindex (first_stats len is_rx)
  | Some stats => bpf_store m ifindex (add_packet is_rx (add_bytes len is_rx stats))
  end.

Definition TC_ACT_OK : Z := 0.

Definition tc_ingress (m : M) (ifindex len : Z) : Z * M :=
  if (ifindex =? 0) || (len =? 0) then (TC_ACT_OK, m)
  else (TC_ACT_OK, update_stats m ifindex len true).

Definition tc_egress (m : M) (ifindex len : Z) : Z * M :=
  if (ifindex =? 0) || (len =? 0) then (TC_ACT_OK, m)
  else (TC_ACT_OK, update_stats m ifindex len false).

(** *** One packet at a time *)

Record packet := mk_packet { pkt_ifindex : Z; pkt_len : Z; pkt_rx : bool }.

Definition packet_ok (p : packet) : Prop := 0 <= pkt_ifindex p < 2 ^ 32 /\ 0 <= pkt_len p < 2 ^ 32.

Definition hook (m : M) (p : packet) : M :=
  snd ((if pkt_rx p then tc_ingress else tc_egress) m (pkt_ifindex p) (pkt_len p)).

Definition run (ps : list packet) : M := foldl hook bpf_empty ps.

(** The specification: what was seen of an interface in one direction. *)
Definition counted (p : packet) : bool := negb ((pkt_ifindex p =? 0) || (pkt_len p =? 0)).

Definition seen (ps : list packet) : gset Z :=
  list_to_set (pkt_ifindex <$> filter (fun p => counted p = true) ps).

(** The interfaces in the order of their first counted packets, and those that
    come early enough to have an entry: the first [max_entries]. *)
Definition interfaces (ps : list packet) : list Z :=
  foldl (fun l p => if counted p && bool_decide (pkt_ifindex p ∉ l) then l ++ [pkt_ifindex p] else l)
    [] ps.

Definition tracked (ps : list packet) : gset Z := list_to_set (take max_entries (interfaces ps)).

Fixpoint sum_over (f : packet -> Z) (ps : list packet) : Z :=
  match ps with [] => 0 | p :: r => f p + sum_over f r end.

(** What packet [p] adds to the byte and the packet counter of a direction of
    interface [k]. *)
Definition bytes_of_packet (k : Z) (rx : bool) (p : packet) : Z :=
  if counted p && (pkt_ifindex p =? k) && Bool.eqb (pkt_rx p) rx then pkt_len p else 0.
Definition one_of_packet (k : Z) (rx : bool) (p : packet) : Z :=
  if counted p && (pkt_ifindex p =? k) && Bool.eqb (pkt_rx p) rx then 1 else 0.

Definition traffic (k : Z) (ps : list packet) : net_stats :=
  mk_net_stats (u64_wrap (sum_over (bytes_of_packet k true) ps))
               (u64_wrap (sum_over (one_of_packet k true) ps))
               (u64_wrap (sum_over (bytes_of_packet k false) ps))
               (u64_wrap (sum_over (one_of_packet k false) ps)).

(** *** Lemmas *)

Lemma sum_over_app f ps qs : sum_over f (ps ++ qs) = sum_over f ps + sum_over f qs.
Proof. induction ps; cbn; lia. Qed.

Lemma sum_over_0 f ps : Forall (fun p => f p = 0) ps -> sum_over f ps = 0.
Proof. induction 1; cbn; lia. Qed.

Lemma seen_app ps qs : seen (ps ++ qs) = seen ps ∪ seen qs.
Proof. unfold seen. rewrite filter_app, fmap_app, list_to_set_app_L. done. Qed.

Lemma not_seen k ps rx :
  k ∉ seen ps ->
  sum_over (bytes_of_packet k rx) ps = 0 /\ sum_over (one_of_packet k rx) ps = 0.
Proof.
  intros Hk. assert (Hf : Forall (fun p => counted p && (pkt_ifindex p =? k) = false) ps).
  { apply Forall_forall. intros p Hp. destruct (counted p) eqn:E; [|done]. cbn.
    apply Z.eqb_neq. intros <-. apply Hk. unfold seen. apply elem_of_list_to_set.
    apply list_elem_of_fmap. exists p. split; [done|]. by apply list_elem_of_filter. }
  split; apply sum_over_0; eapply Forall_impl; eauto; intros p Hp; cbn in Hp.
  - unfold bytes_of_packet. by rewrite Hp.
  - unfold one_of_packet. by rewrite Hp.
Qed.

(** One more packet of interface [k]. *)
Lemma traffic_snoc k ps p :
  counted p = true -> pkt_ifindex p = k ->
  traffic k (ps ++ [p]) =
    add_packet (pkt_rx p) (add_bytes (pkt_len p) (pkt_rx p) (traffic k ps)).
Proof.
  intros Hc Hk. unfold traffic, add_packet, add_bytes. rewrite !sum_over_app; cbn.
  unfold bytes_of_packet, one_of_packet. rewrite Hc, Hk, Z.eqb_refl; cbn.
  destruct (pkt_rx p); cbn; rewrite ?Z.add_0_r, ?u64_add_wrap; done.
Qed.

Lemma traffic_other k ps p :
  counted p = false \/ pkt_ifindex p <> k -> traffic k (ps ++ [p]) = traffic k ps.
Proof.
  intros Hp. unfold traffic. rewrite !sum_over_app; cbn.
  unfold bytes_of_packet, one_of_packet.
  destruct Hp as [-> | ->%Z.eqb_neq]; rewrite ?andb_false_r; cbn; rewrite !Z.add_0_r; done.
Qed.

Lemma traffic_first k ps p :
  counted p = true -> pkt_ifindex p = k -> packet_ok p -> k ∉ seen ps ->
  traffic k (ps ++ [p]) = first_stats (pkt_len p) (pkt_rx p).
Proof.
  intros Hc Hk [_ Hl] Hs. rewrite traffic_snoc by done. unfold traffic.
  destruct (not_seen k ps true Hs) as [-> ->], (not_seen k ps false Hs) as [-> ->].
  unfold add_packet, add_bytes, first_stats, u64_add.
  destruct (pkt_rx p); cbn; f_equal; apply u64_wrap_small; lia.
Qed.

Lemma hook_counted m p :
  hook m p = if counted p then update_stats m (pkt_ifindex p) (pkt_len p) (pkt_rx p) else m.
Proof.
  unfold hook, counted, tc_ingress, tc_egress.
  destruct (pkt_rx p), ((pkt_ifindex p =? 0) || (pkt_len p =? 0)); done.
Qed.
End Hooks.

(** ** Several CPUs

    A packet on a CPU goes through the steps between which other CPUs can run:
    the lookup, then either the insertion of the first counters, or the two
    atomic additions. *)
Inductive pc := Start | Missed | AddBytes | AddPackets | Done.

Section Concurrent.
Context `{BpfMapLaws M}.

Record thread := mk_thread { th_packet : packet; th_pc : pc }.

Definition move (t : thread) (c : pc) : thread := mk_thread (th_packet t) c.

(** One step of the thread on the map. *)
Definition thread_step (m : M) (t : thread) : option (M * thread) :=
  let p := th_packet t in
  let k := pkt_ifindex p in
  match th_pc t with
  | Start =>
      if counted p then
        match bpf_map_lookup_elem m k with
        | None => Some (m, move t Missed)
        | Some _ => Some (m, move t AddBytes)
        end
      else Some (m, move t Done)
  | Missed =>
      Some (bpf_map_update_elem m k (first_stats (pkt_len p) (pkt_rx p)), move t Done)
  | AddBytes =>
      s ← bpf_map_lookup_elem m k;
      Some (bpf_store m k (add_bytes (pkt_len p) (pkt_rx p) s), move t AddPackets)
  | AddPackets =>
      s ← bpf_map_lookup_elem m k;
      Some (bpf_store m k (add_packet (pkt_rx p) s), move t Done)
  | Done => None
  end.

Definition config : Type := M * list thread.

Inductive step : config -> config -> Prop :=
| step_thread m ts i t m' t' :
    ts !! i = Some t -> thread_step m t = Some (m', t') ->
    step (m, ts) (m', <[i := t']> ts).

Definition initial (ps : list packet) : config :=
  (bpf_empty, (fun p => mk_thread p Start) <$> ps).

(** What a thread has already written to a counter of interface [k]. *)
Definition bytes_written (k : Z) (rx : bool) (t : thread) : Z :=
  match th_pc t with
  | AddPackets | Done => bytes_of_packet k rx (th_packet t)
  | _ => 0
  end.

Definition packets_written (k : Z) (rx : bool) (t : thread) : Z :=
  match th_pc t with Done => one_of_packet k rx (th_packet t) | _ => 0 end.

Fixpoint total (f : thread -> Z) (ts : list thread) : Z :=
  match ts with [] => 0 | t :: r => f t + total f r end.

(** Every counter is between 0 and a bound. *)
Definition stats_between (s : net_stats) (rb rp sb sp : Z) : Prop :=
  0 <= rcv_bytes s <= rb /\ 0 <= rcv_packets s <= rp /\
  0 <= snd_bytes s <= sb /\ 0 <= snd_packets s <= sp.

Definition no_overcount (c : config) : Prop :=
  let '(m, ts) := c in
  Forall (fun t => packet_ok (th_packet t)) ts /\
  (forall t, t ∈ ts -> th_pc t <> Start -> th_pc t <> Done -> counted (th_packet t) = true) /\
  (forall t, t ∈ ts -> th_pc t = AddBytes \/ th_pc t = AddPackets ->
     is_Some (bpf_map_lookup_elem m (pkt_ifindex (th_packet t)))) /\
  forall k s, bpf_map_lookup_elem m k = Some s ->
    stats_between s (total (bytes_written k true) ts) (total (packets_written k true) ts)
                    (total (bytes_written k false) ts) (total (packets_written k false) ts).

(** *** Lemmas *)

Lemma total_insert f ts i t t' :
  ts !! i = Some t -> total f (<[i := t']> ts) = total f ts - f t + f t'.
Proof.
  revert i; induction ts as [|u ts IH]; intros [|i] Hi; cbn in *; simplify_eq; [lia|].
  rewrite IH by done. lia.
Qed.

Lemma packet_amounts_nonneg k rx p :
  packet_ok p -> 0 <= bytes_of_packet k rx p /\ 0 <= one_of_packet k rx p.
Proof.
  intros [_ ?]. unfold bytes_of_packet, one_of_packet. split; break_if; lia.
Qed.

Lemma written_nonneg k rx t :
  packet_ok (th_packet t) -> 0 <= bytes_written k rx t /\ 0 <= packets_written k rx t.
Proof.
  intros Hp%(packet_amounts_nonneg k rx). unfold bytes_written, packets_written.
  destruct (th_pc t); lia.
Qed.

Lemma total_lookup f ts i t :
  ts !! i = Some t -> Forall (fun t => 0 <= f t) ts -> f t <= total f ts.
Proof.
  intros Hi Hf; revert i Hi. induction Hf as [|u ts Hu Hf IH]; intros [|i] Hi; cbn in *; [done|done| |].
  - simplify_eq. assert (0 <= total f ts) by (clear -Hf; induction Hf; cbn; lia). lia.
  - specialize (IH i Hi). lia.
Qed.

Lemma u64_add_bound a b x : 0 <= a <= x -> 0 <= b -> 0 <= u64_add a b <= x + b.
Proof. intros. unfold u64_add. pose proof (u64_wrap_range (a + b)). wrap_lia. Qed.

Lemma total_nonneg f ts : Forall (fun t => 0 <= f t) ts -> 0 <= total f ts.
Proof. induction 1; cbn; lia. Qed.

Lemma written_all_nonneg k rx ts :
  Forall (fun t => packet_ok (th_packet t)) ts ->
  Forall (fun t => 0 <= bytes_written k rx t) ts /\
  Forall (fun t => 0 <= packets_written k rx t) ts.
Proof. intros Hts. split; eapply Forall_impl; eauto; intros t Ht; by apply written_nonneg. Qed.

Lemma thread_step_packet m t m' t' :
  thread_step m t = Some (m', t') -> th_packet t' = th_packet t.
Proof.
  unfold thread_step. destruct (th_pc t); repeat break_match; intros; simplify_eq/=;
    repeat match goal with H : _ ≫= _ = Some _ |- _ => apply bind_Some in H as (? & ? & ?) end;
    by simplify_eq/=.
Qed.

(** A step never takes back what was written, and a step that changes the
    entry of [k] stays within what it has written. *)
Lemma thread_step_written m t m' t' k rx :
  packet_ok (th_packet t) -> thread_step m t = Some (m', t') ->
  bytes_written k rx t <= bytes_written k rx t' /\
  packets_written k rx t <= packets_written k rx t'.
Proof.
  intros Hp Hs. pose proof (packet_amounts_nonneg k rx _ Hp) as Hn.
  pose proof (thread_step_packet _ _ _ _ Hs) as Hpk.
  unfold thread_step in Hs.
  unfold bytes_written, packets_written. rewrite Hpk.
  destruct (th_pc t) eqn:Et; repeat break_match; simplify_eq/=; try lia;
    repeat match goal with H : _ ≫= _ = Some _ |- _ => apply bind_Some in H as (? & ? & ?) end;
    simplify_eq/=; lia.
Qed.

Lemma own_amounts p rx :
  counted p = true ->
  bytes_of_packet (pkt_ifindex p) rx p = (if Bool.eqb (pkt_rx p) rx then pkt_len p else 0) /\
  one_of_packet (pkt_ifindex p) rx p = (if Bool.eqb (pkt_rx p) rx then 1 else 0).
Proof.
  intros Hc. unfold bytes_of_packet, one_of_packet. by rewrite Hc, Z.eqb_refl.
Qed.

(** The four bounds of [no_overcount] for a list of threads. *)
Definition bounded_at (k : Z) (s : net_stats) (ts : list thread) : Prop :=
  stats_between s (total (bytes_written k true) ts) (total (packets_written k true) ts)
                  (total (bytes_written k false) ts) (total (packets_written k false) ts).

Lemma bounded_at_mono k s ts i t m m' t' :
  Forall (fun t => packet_ok (th_packet t)) ts -> ts !! i = Some t ->
  thread_step m t = Some (m', t') -> bounded_at k s ts -> bounded_at k s (<[i := t']> ts).
Proof.
  intros Hok Hi Hs. pose proof (Forall_lookup_1 _ _ _ _ Hok Hi) as Hp.
  pose proof (thread_step_written _ _ _ _ k true Hp Hs).
  pose proof (thread_step_written _ _ _ _ k false Hp Hs).
  unfold bounded_at, stats_between. rewrite !(total_insert _ _ _ _ _ Hi). lia.
Qed.

Lemma bytes_written_pc k rx p c :
  bytes_written k rx (mk_thread p c) =
    match c with AddPackets | Done => bytes_of_packet k rx p | _ => 0 end.
Proof. done. Qed.

Lemma packets_written_pc k rx p c :
  packets_written k rx (mk_thread p c) =
    match c with Done => one_of_packet k rx p | _ => 0 end.
Proof. done. Qed.

(** The first counters of an interface are within what their thread wrote. *)
Lemma bounded_at_first ts i p :
  Forall (fun t => packet_ok (th_packet t)) ts -> counted p = true ->
  ts !! i = Some (mk_thread p Done) ->
  bounded_at (pkt_ifindex p) (first_stats (pkt_len p) (pkt_rx p)) ts.
Proof.
  intros Hok Hc Hi. set (k := pkt_ifindex p).
  destruct (written_all_nonneg k true _ Hok) as [N1 N2], (written_all_nonneg k false _ Hok) as [N3 N4].
  pose proof (total_lookup _ _ _ _ Hi N1) as T1. pose proof (total_lookup _ _ _ _ Hi N2) as T2.
  pose proof (total_lookup _ _ _ _ Hi N3) as T3. pose proof (total_lookup _ _ _ _ Hi N4) as T4.
  rewrite bytes_written_pc in T1, T3. rewrite packets_written_pc in T2, T4.
  destruct (own_amounts p true Hc) as [A1 A2], (own_amounts p false Hc) as [A3 A4].
  fold k in A1, A2, A3, A4. rewrite A1 in T1. rewrite A2 in T2. rewrite A3 in T3. rewrite A4 in T4.
  pose proof (Forall_lookup_1 _ _ _ _ Hok Hi) as [_ Hp]. cbn in Hp.
  unfold bounded_at, stats_between, first_stats.
  destruct (pkt_rx p); cbn in *; lia.
Qed.

(** The two atomic additions, each after its thread's step. *)
Lemma bounded_at_add ts i p s c :
  let k := pkt_ifindex p in
  packet_ok p -> counted p = true -> ts !! i = Some (mk_thread p c) -> bounded_at k s ts ->
  (c = AddBytes ->
     bounded_at k (add_bytes (pkt_len p) (pkt_rx p) s) (<[i := mk_thread p AddPackets]> ts)) /\
  (c = AddPackets ->
     bounded_at k (add_packet (pkt_rx p) s) (<[i := mk_thread p Done]> ts)).
Proof.
  intros k [_ Hp] Hc Hi Hb. unfold bounded_at, stats_between in *.
  destruct (own_amounts p true Hc) as [A1 A2], (own_amounts p false Hc) as [A3 A4].
  fold k in A1, A2, A3, A4.
  split; intros ->; rewrite !(total_insert _ _ _ _ _ Hi), !bytes_written_pc, !packets_written_pc,
    ?A1, ?A2, ?A3, ?A4;
    pose proof (u64_add_bound (rcv_bytes s) (pkt_len p) (total (bytes_written k true) ts));
    pose proof (u64_add_bound (snd_bytes s) (pkt_len p) (total (bytes_written k false) ts));
    pose proof (u64_add_bound (rcv_packets s) 1 (total (packets_written k true) ts));
    pose proof (u64_add_bound (snd_packets s) 1 (total (packets_written k false) ts));
    unfold add_bytes, add_packet; destruct (pkt_rx p); cbn; lia.
Qed.

Lemma no_overcount_own ts i p c m m' t' s' :
  no_overcount (m, ts) -> ts !! i = Some (mk_thread p c) ->
  thread_step m (mk_thread p c) = Some (m', t') ->
  bpf_map_lookup_elem m' (pkt_ifindex p) = Some s' ->
  bounded_at (pkt_ifindex p) s' (<[i := t']> ts).
Proof.
  intros (Hok & Hc & Hpt & Hb) Hi Hs Hl.
  pose proof (Forall_lookup_1 _ _ _ _ Hok Hi) as Hp. cbn in Hp.
  pose proof (list_elem_of_lookup_2 _ _ _ Hi) as Hin.
  assert (Hkeep : bpf_map_lookup_elem m' (pkt_ifindex p) = bpf_map_lookup_elem m (pkt_ifindex p) ->
            bounded_at (pkt_ifindex p) s' (<[i := t']> ts)).
  { intros E. rewrite E in Hl. eapply bounded_at_mono; eauto. by apply Hb. }
  assert (Hct : c <> Start -> c <> Done -> counted p = true) by (intros; by apply (Hc _ Hin)).
  unfold thread_step in Hs; cbn in Hs. destruct c.
  - apply Hkeep. repeat break_match; by simplify_eq.
  - simplify_eq.
    destruct (bpf_update_eq m (pkt_ifindex p) (first_stats (pkt_len p) (pkt_rx p))) as [Hu|Hu];
      [|by apply Hkeep].
    rewrite Hu in Hl. simplify_eq. apply (bounded_at_first _ i).
    + by apply Forall_insert.
    + by apply Hct.
    + apply list_lookup_insert_eq. by eapply lookup_lt_Some.
  - destruct (Hpt _ Hin) as [s Hsome]; [by left|]. cbn in Hsome.
    rewrite Hsome in Hs; cbn in Hs. simplify_eq. rewrite bpf_store_eq in Hl by eauto. simplify_eq.
    by apply (proj1 (bounded_at_add ts i p s AddBytes Hp (Hct ltac:(done) ltac:(done)) Hi (Hb _ _ Hsome))).
  - destruct (Hpt _ Hin) as [s Hsome]; [by right|]. cbn in Hsome.
    rewrite Hsome in Hs; cbn in Hs. simplify_eq. rewrite bpf_store_eq in Hl by eauto. simplify_eq.
    by apply (proj2 (bounded_at_add ts i p s AddPackets Hp (Hct ltac:(done) ltac:(done)) Hi (Hb _ _ Hsome))).
  - done.
Qed.

(** A step touches only the entry of its own interface, and never removes one. *)
Lemma thread_step_frame m t m' t' k :
  thread_step m t = Some (m', t') ->
  (k <> pkt_ifindex (th_packet t) -> bpf_map_lookup_elem m' k = bpf_map_lookup_elem m k) /\
  (is_Some (bpf_map_lookup_elem m k) -> is_Some (bpf_map_lookup_elem m' k)).
Proof.
  destruct t as [p c]. unfold thread_step; cbn. intros Hs.
  destruct (decide (k = pkt_ifindex p)) as [->|Hne].
  - split; [done|]. intros Hsome. destruct c; [repeat break_match; by simplify_eq| | | |done].
    + simplify_eq. destruct (bpf_update_eq m (pkt_ifindex p) (first_stats (pkt_len p) (pkt_rx p))) as [->| ->]; eauto.
    + apply bind_Some in Hs as (s & _ & [= <- _]). rewrite bpf_store_eq; eauto.
    + apply bind_Some in Hs as (s & _ & [= <- _]). rewrite bpf_store_eq; eauto.
  - assert (E : bpf_map_lookup_elem m' k = bpf_map_lookup_elem m k); [|by rewrite E].
    destruct c; [repeat break_match; by simplify_eq| | | |done].
    + simplify_eq. by apply bpf_update_ne.
    + apply bind_Some in Hs as (s & _ & [= <- _]). by apply bpf_store_ne.
    + apply bind_Some in Hs as (s & _ & [= <- _]). by apply bpf_store_ne.
Qed.

(** The program counter a step leaves is one the packet may have. *)
Lemma thread_step_pc m t m' t' :
  thread_step m t = Some (m', t') ->
  (th_pc t <> Start -> th_pc t <> Done -> counted (th_packet t) = true) ->
  (th_pc t' <> Start -> th_pc t' <> Done -> counted (th_packet t') = true) /\
  (th_pc t' = AddBytes \/ th_pc t' = AddPackets ->
     is_Some (bpf_map_lookup_elem m' (pkt_ifindex (th_packet t')))).
Proof.
  destruct t as [p c]. unfold thread_step; cbn. intros Hs Hc.
  destruct c; [repeat break_match; simplify_eq/=; eauto; naive_solver| | | |done].
  - simplify_eq/=. naive_solver.
  - apply bind_Some in Hs as (s & Hs & [= <- <-]). cbn. rewrite bpf_store_eq by eauto. eauto.
  - apply bind_Some in Hs as (s & Hs & [= <- <-]). cbn. naive_solver.
Qed.

Lemma no_overcount_step c c' : no_overcount c -> step c c' -> no_overcount c'.
Proof.
  intros Hinv Hst. destruct Hst as [m ts i [p c] m' t' Hi Hs].
  pose proof Hinv as (Hok & Hc & Hpt & Hb).
  pose proof (list_elem_of_lookup_2 _ _ _ Hi) as Hin.
  destruct (thread_step_pc _ _ _ _ Hs (Hc _ Hin)) as [Hc' Hpt'].
  split_and!.
  - apply Forall_insert; [done|]. rewrite (thread_step_packet _ _ _ _ Hs).
    by apply (Forall_lookup_1 _ _ _ _ Hok Hi).
  - intros u [->|Hu]%elem_of_insert_inv; [done|]. by apply Hc.
  - intros u [->|Hu]%elem_of_insert_inv; [done|]. intros Hpc.
    eapply thread_step_frame; [done|]. by apply Hpt.
  - intros k s Hl. destruct (decide (k = pkt_ifindex p)) as [->|Hne].
    + by eapply no_overcount_own.
    + destruct (thread_step_frame _ _ _ _ k Hs) as [Hf _]. rewrite Hf in Hl by done.
      eapply bounded_at_mono; eauto. by apply Hb.
Qed.

Lemma no_overcount_initial ps : Forall packet_ok ps -> no_overcount (initial ps).
Proof.
  intros Hps. split_and!.
  - by apply Forall_fmap.
  - intros t (p & -> & _)%list_elem_of_fmap. done.
  - intros t (p & -> & _)%list_elem_of_fmap. cbn. naive_solver.
  - intros k s. rewrite bpf_lookup_empty. done.
Qed.
End Concurrent.

(** ** NetEbpfMonitor.cpp *)
Module NetEbpfMonitor.

Record NetStatCache := mk_cache {
  c_rcv_bytes : Z; c_rcv_packets : Z; c_snd_bytes : Z; c_snd_packets : Z;
  timestamp : Z }.      (* steady clock, nanoseconds *)

Record state := mk_state {
  cache_ : gmap Z NetStatCache;
  ifnameCache_ : gmap Z string;
  mapFd_ : Z;
  loaded_ : bool;
  lastUpdate_ : Z
}.

(** The outside world of one call: the steady clock, [if_indextoname], and the
    map as [bpf_map_get_next_key] walks it ([None]: the lookup of that key
    failed). *)
Record world := {
  now : Z;
  if_indextoname : Z -> option string;
  entries : list (Z * option net_stats)
}.

(** [duration_cast<milliseconds>(a - b).count()]. *)
Definition elapsed_ms (a b : Z) : Z := Z.quot (a - b) 1000000.

Definition getIfName (w : world) (st : state) (ifindex : Z) : string * state :=
  match ifnameCache_ st !! ifindex with
  | Some n => (n, st)
  | None =>
      match if_indextoname w ifindex with
      | Some n =>
          (n, mk_state (cache_ st) (<[ifindex := n]> (ifnameCache_ st)) (mapFd_ st)
                (loaded_ st) (lastUpdate_ st))
      | None => ("", st)
      end
  end.

(** [int64_t d = new - old; if (d < 0) d = new;]. *)
Definition counter_diff (new old : Z) : Z :=
  let d := i64_wrap (u64_sub new old) in
  if d <? 0 then i64_wrap new else d.

(** [d * 1000 / ms] as a [float]; [None]: the product overflows [int64_t]. *)
Definition rate (d ms : Z) : option f32 :=
  let p := d * 1000 in
  if (LONG_MIN <=? p) && (p <=? LONG_MAX) then Some (f32_of_Z (Z.quot p ms)) else None.

Definition with_rates (ifname : string) (rcv snd rcv_p snd_p : f32) : NetInfo.t :=
  NetInfo.mk ifname snd rcv snd_p rcv_p 0 0 0 0.

(** The message of one interface. *)
Definition net_info_of (w : world) (st : state) (key : Z) (ifname : string) (s : net_stats)
    : option NetInfo.t :=
  match cache_ st !! key with
  | Some old =>
      let old_duration := elapsed_ms (now w) (timestamp old) in
      if 0 <? old_duration then
        rcv ← rate (counter_diff (rcv_bytes s) (c_rcv_bytes old)) old_duration;
        snd ← rate (counter_diff (snd_bytes s) (c_snd_bytes old)) old_duration;
        rcv_p ← rate (counter_diff (rcv_packets s) (c_rcv_packets old)) old_duration;
        snd_p ← rate (counter_diff (snd_packets s) (c_snd_packets old)) old_duration;
        Some (with_rates ifname rcv snd rcv_p snd_p)
      else Some (with_rates ifname fzero fzero fzero fzero)
  | None => Some (with_rates ifname fzero fzero fzero fzero)
  end.

Definition remember (w : world) (st : state) (key : Z) (s : net_stats) : state :=
  mk_state
    (<[key := mk_cache (rcv_bytes s) (rcv_packets s) (snd_bytes s) (snd_packets s) (now w)]>
       (cache_ st))
    (ifnameCache_ st) (mapFd_ st) (loaded_ st) (lastUpdate_ st).

(** The loop over the map; [None] is undefined behaviour. *)
Fixpoint read_entries (w : world) (es : list (Z * option net_stats)) (st : state)
    (out : list NetInfo.t) : option (state * list NetInfo.t) :=
  match es with
  | [] => Some (st, out)
  | (_, None) :: rest => read_entries w rest st out
  | (key, Some s) :: rest =>
      let '(ifname, st) := getIfName w st key in
      if String.eqb ifname "" || String.eqb ifname "lo" then read_entries w rest st out
      else
        info ← net_info_of w st key ifname s;
        read_entries w rest (remember w st key s) (out ++ [info])
  end.

Definition updateOnce (w : world) (st : state) (m : MonitorInfo.t)
    : option (state * MonitorInfo.t) :=
  if negb (loaded_ st) || (mapFd_ st <? 0) then Some (st, m)
  else
    '(st, out) ← read_entries w (entries w) st (MonitorInfo.net_info m);
    Some (mk_state (cache_ st) (ifnameCache_ st) (mapFd_ st) (loaded_ st) (now w),
          MonitorInfo.set_net_info out m).

End NetEbpfMonitor.

(** *** The specification of one reading *)
Module Reading.
Import NetEbpfMonitor.

(** The name an interface is reported under; [None] when it is skipped. *)
Definition reported_name (w : world) (st : state) (key : Z) : option string :=
  let n := match ifnameCache_ st !! key with
           | Some n => n
           | None => default "" (if_indextoname w key)
           end in
  if String.eqb n "" || String.eqb n "lo" then None else Some n.

(** Events per second since the previous reading; a counter that went back was
    reset, and counts from 0. *)
Definition spec_rate (old new ms : Z) : f32 :=
  f32_of_Z (Z.quot ((if old <=? new then new - old else new) * 1000) ms).

Definition spec_info (w : world) (st : state) (key : Z) (n : string) (s : net_stats) : NetInfo.t :=
  match cache_ st !! key with
  | Some old =>
      let ms := elapsed_ms (now w) (timestamp old) in
      if 0 <? ms then
        with_rates n (spec_rate (c_rcv_bytes old) (rcv_bytes s) ms)
                     (spec_rate (c_snd_bytes old) (snd_bytes s) ms)
                     (spec_rate (c_rcv_packets old) (rcv_packets s) ms)
                     (spec_rate (c_snd_packets old) (snd_packets s) ms)
      else with_rates n fzero fzero fzero fzero
  | None => with_rates n fzero fzero fzero fzero
  end.

Definition spec_entry (w : world) (st : state) (e : Z * option net_stats) : option NetInfo.t :=
  s ← e.2; n ← reported_name w st e.1; Some (spec_info w st e.1 n s).

Definition spec_cache (w : world) (s : net_stats) : NetStatCache :=
  mk_cache (rcv_bytes s) (rcv_packets s) (snd_bytes s) (snd_packets s) (now w).

(** Counters that a machine reaches: a thousand times one fits [int64_t]. *)
Definition counter_ok (z : Z) : Prop := 0 <= z <= 2 ^ 53.
Definition stats_ok (s : net_stats) : Prop :=
  counter_ok (rcv_bytes s) /\ counter_ok (rcv_packets s) /\
  counter_ok (snd_bytes s) /\ counter_ok (snd_packets s).
Definition cache_ok (c : NetStatCache) : Prop :=
  counter_ok (c_rcv_bytes c) /\ counter_ok (c_rcv_packets c) /\
  counter_ok (c_snd_bytes c) /\ counter_ok (c_snd_packets c).

Lemma rate_spec old new ms :
  counter_ok old -> counter_ok new ->
  rate (counter_diff new old) ms = Some (spec_rate old new ms).
Proof.
  unfold counter_ok. intros Ho Hn. unfold rate, counter_diff, spec_rate, u64_sub.
  assert (Hd : i64_wrap (u64_wrap (new - old)) = new - old) by wrap_lia.
  assert (Hw : i64_wrap new = new) by wrap_lia.
  rewrite Hd, Hw. wrap_unfold.
  destruct (new - old <? 0) eqn:E; to_props.
  - rewrite (proj2 (Z.leb_gt old new)) by lia. by rewrite !(proj2 (Z.leb_le _ _)) by lia.
  - rewrite (proj2 (Z.leb_le old new)) by lia. by rewrite !(proj2 (Z.leb_le _ _)) by lia.
Qed.

Lemma net_info_of_spec w st key n s :
  (forall c, cache_ st !! key = Some c -> cache_ok c) -> stats_ok s ->
  net_info_of w st key n s = Some (spec_info w st key n s).
Proof.
  intros Hc (? & ? & ? & ?). unfold net_info_of, spec_info.
  destruct (cache_ st !! key) as [c|]; [|done].
  destruct (Hc c eq_refl) as (? & ? & ? & ?). break_if; [|done].
  by rewrite !rate_spec by done.
Qed.

(** Resolving a name leaves what is reported, and the counters, as they were. *)
Lemma getIfName_spec w st key n st' :
  getIfName w st key = (n, st') ->
  reported_name w st key = (if String.eqb n "" || String.eqb n "lo" then None else Some n) /\
  cache_ st' = cache_ st /\ forall k, reported_name w st' k = reported_name w st k.
Proof.
  unfold getIfName, reported_name. destruct (ifnameCache_ st !! key) eqn:E.
  { by intros [= <- <-]. }
  destruct (if_indextoname w key) eqn:En; intros [= <- <-]; cbn; (split; [done|split; [done|]]); [|done].
  intros k. destruct (decide (k = key)) as [->|]; [|by rewrite lookup_insert_ne].
  by rewrite lookup_insert_eq, E, En.
Qed.

Lemma reported_name_remember w st key s k :
  reported_name w (remember w st key s) k = reported_name w st k.
Proof. done. Qed.

(** The entries still to be read are not affected by the ones already read. *)
Lemma read_entries_spec w es st out :
  NoDup es.*1 ->
  (forall k c, cache_ st !! k = Some c -> cache_ok c) ->
  (forall k s, (k, Some s) ∈ es -> stats_ok s) ->
  exists st', read_entries w es st out = Some (st', out ++ omap (spec_entry w st) es) /\
    (forall k, k ∉ es.*1 -> cache_ st' !! k = cache_ st !! k) /\
    (forall k s, (k, Some s) ∈ es -> cache_ st' !! k =
       if reported_name w st k then Some (spec_cache w s) else cache_ st !! k).
Proof.
  revert st out; induction es as [|[key [s|]] es IH]; intros st out Hnd Hc Hs.
  - exists st. cbn. rewrite app_nil_r. split; [done|split; [done|]]. by intros ? ? ?%elem_of_nil.
  - apply NoDup_cons in Hnd as [Hk Hnd]. cbn [fst] in Hk. cbn [read_entries].
    assert (Hs' : forall k s, (k, Some s) ∈ es -> stats_ok s) by (intros; eapply Hs; by right).
    destruct (getIfName w st key) as [n st1] eqn:Eg.
    destruct (getIfName_spec _ _ _ _ _ Eg) as (Hn & Hcache & Hnames).
    assert (Hext : forall st2, (forall k, reported_name w st2 k = reported_name w st k) ->
              (forall k, k <> key -> cache_ st2 !! k = cache_ st !! k) ->
              omap (spec_entry w st2) es = omap (spec_entry w st) es).
    { intros st2 H1 H2. apply list_omap_ext. clear -H1 H2 Hk.
      apply Forall_Forall2_diag, Forall_forall. intros [k [t|]] Hin; [|done].
      unfold spec_entry; cbn. rewrite H1. destruct (reported_name w st k); [|done]. cbn.
      unfold spec_info. rewrite H2; [done|]. intros ->. apply Hk. by apply (list_elem_of_fmap_2 fst _ (key, Some t)). }
    cbn [omap list_omap]. unfold spec_entry at 1; cbn. rewrite Hn.
    destruct (String.eqb n "" || String.eqb n "lo") eqn:En; cbn.
    + destruct (IH st1 out) as (st' & -> & Ho & Hi); [done|by rewrite Hcache|done|].
      exists st'. rewrite Hext by (intros; by rewrite ?Hcache). split; [done|]. split.
      * intros k [? ?]%not_elem_of_cons. by rewrite Ho, Hcache.
      * intros k t [[= -> ->]|Hin]%elem_of_cons.
        -- rewrite Hn, Ho, Hcache by done. done.
        -- rewrite (Hi _ _ Hin), Hnames, Hcache. done.
    + rewrite net_info_of_spec; [|by rewrite Hcache; apply Hc|by eapply Hs; left]. cbn.
      destruct (IH (remember w st1 key s) (out ++ [spec_info w st1 key n s])) as (st' & -> & Ho & Hi); [done| |done|].
      { intros k c. cbn. rewrite Hcache. intros [[<- <-]|[_ ?]]%lookup_insert_Some; [|by eapply Hc].
        apply (Hs key s). by left. }
      exists st'. rewrite Hext; [|done|by intros; cbn; rewrite Hcache, lookup_insert_ne by done].
      unfold spec_info at 1. rewrite Hcache. rewrite <- app_assoc. split; [done|]. split.
      * intros k [? ?]%not_elem_of_cons. rewrite Ho by done. cbn. rewrite Hcache.
        by rewrite lookup_insert_ne by done.
      * intros k t [[= -> ->]|Hin]%elem_of_cons.
        -- rewrite Hn, Ho by done. cbn. by rewrite lookup_insert_eq.
        -- rewrite (Hi _ _ Hin). rewrite reported_name_remember, Hnames. cbn. rewrite Hcache.
           rewrite lookup_insert_ne; [done|]. intros <-. apply Hk.
           by apply (list_elem_of_fmap_2 fst _ (key, Some t)).
  - apply NoDup_cons in Hnd as [Hk Hnd]. cbn [fst] in Hk. cbn [read_entries].
    destruct (IH st out) as (st' & -> & Ho & Hi); [done|done|intros; eapply Hs; by right|].
    exists st'. split; [done|]. split.
    + intros k [? ?]%not_elem_of_cons. by apply Ho.
    + intros k t [[=]|Hin]%elem_of_cons. by apply Hi.
Qed.

End Reading.

(** ** Properties *)

Section Exact.
Context `{BpfMapLaws M}.

Lemma seen_singleton p : seen [p] = if counted p then {[pkt_ifindex p]} else ∅.
Proof.
  unfold seen. rewrite filter_cons, filter_nil. case_decide as Hc.
  - rewrite Hc. cbn. set_solver.
  - destruct (counted p); done.
Qed.

Lemma interfaces_snoc ps p :
  interfaces (ps ++ [p]) =
    if counted p && bool_decide (pkt_ifindex p ∉ interfaces ps)
    then interfaces ps ++ [pkt_ifindex p] else interfaces ps.
Proof. unfold interfaces. by rewrite foldl_app. Qed.

Lemma elem_of_interfaces ps k : k ∈ interfaces ps <-> k ∈ seen ps.
Proof.
  induction ps as [|p ps IH] using rev_ind; [unfold seen; cbn; set_solver|].
  rewrite interfaces_snoc, seen_app, seen_singleton, elem_of_union, <- IH.
  destruct (counted p); cbn [andb]; [|set_solver].
  case_bool_decide; rewrite ?elem_of_app, ?list_elem_of_singleton, elem_of_singleton; [done|].
  split; [by left|]. intros [?| ->]; [done|]. destruct (decide (pkt_ifindex p ∈ interfaces ps)); naive_solver.
Qed.

Lemma NoDup_interfaces ps : NoDup (interfaces ps).
Proof.
  induction ps as [|p ps IH] using rev_ind; [constructor|]. rewrite interfaces_snoc.
  destruct (counted p); cbn [andb]; [|done]. case_bool_decide; [|done].
  apply NoDup_app. split_and!; [done|set_solver|apply NoDup_singleton].
Qed.

Lemma length_interfaces ps : length (interfaces ps) = size (seen ps).
Proof.
  rewrite <- (size_list_to_set (C := gset Z)) by apply NoDup_interfaces. f_equal. apply set_eq. intros k.
  by rewrite elem_of_list_to_set, elem_of_interfaces.
Qed.

Lemma size_tracked ps : size (tracked ps) = Nat.min max_entries (length (interfaces ps)).
Proof.
  unfold tracked. rewrite size_list_to_set, length_take; [done|].
  pose proof (NoDup_interfaces ps) as Hnd. rewrite <- (take_drop max_entries) in Hnd. by apply NoDup_app in Hnd as [? _].
Qed.

(** While the map has room every interface seen is tracked. *)
Lemma tracked_seen ps : (size (seen ps) <= max_entries)%nat -> tracked ps = seen ps.
Proof.
  intros Hs. apply set_eq. intros k. unfold tracked. rewrite elem_of_list_to_set.
  rewrite take_ge by (rewrite length_interfaces; done). apply elem_of_interfaces.
Qed.

(** An interface seen before keeps its place. *)
Lemma tracked_known ps p :
  counted p = false \/ pkt_ifindex p ∈ interfaces ps -> tracked (ps ++ [p]) = tracked ps.
Proof.
  intros Hp. unfold tracked. rewrite interfaces_snoc.
  destruct Hp as [-> |Hin]; [done|]. rewrite bool_decide_false by (intros Hn; by apply Hn).
  by rewrite andb_false_r.
Qed.

(** A new interface is tracked when there is room. *)
Lemma tracked_new ps p :
  counted p = true -> pkt_ifindex p ∉ interfaces ps ->
  tracked (ps ++ [p]) =
    if decide (length (interfaces ps) < max_entries)%nat
    then tracked ps ∪ {[pkt_ifindex p]} else tracked ps.
Proof.
  intros Hc Hn. unfold tracked. rewrite interfaces_snoc, Hc, bool_decide_true by done. cbn [andb].
  case_decide as Hl.
  - rewrite !take_ge by (rewrite ?length_app; cbn; lia). rewrite list_to_set_app_L. set_solver.
  - by rewrite take_app_le by lia.
Qed.

Lemma run_spec ps :
  Forall packet_ok ps ->
  forall k, bpf_map_lookup_elem (run ps) k = if decide (k ∈ tracked ps) then Some (traffic k ps) else None.
Proof.
  induction ps as [|p ps IH] using rev_ind; intros Hok k.
  { rewrite decide_False by (unfold tracked; cbn; set_solver). apply bpf_lookup_empty. }
  apply Forall_app in Hok as [Hok Hp]. rewrite Forall_singleton in Hp.
  specialize (IH Hok). unfold run. rewrite foldl_snoc. fold (run ps). rewrite hook_counted.
  destruct (counted p) eqn:Hc; cycle 1.
  { rewrite IH, traffic_other, tracked_known by (by left). done. }
  assert (Hsub : tracked ps ⊆ seen ps).
  { intros x. unfold tracked. rewrite elem_of_list_to_set. intros Hx.
    apply elem_of_interfaces. rewrite <- (take_drop max_entries (interfaces ps)). apply elem_of_app. by left. }
  assert (Hkeys : size (bpf_keys (run ps)) = Nat.min max_entries (length (interfaces ps))).
  { rewrite <- size_tracked. f_equal. apply set_eq. intros x. rewrite bpf_keys_spec, IH.
    case_decide; split; (done || eauto || by intros []). }
  unfold update_stats. rewrite IH.
  destruct (decide (pkt_ifindex p ∈ interfaces ps)) as [Hin|Hin].
  - rewrite tracked_known by (by right). case_decide as Ht.
    + destruct (decide (k = pkt_ifindex p)) as [->|Hne].
      * rewrite bpf_store_eq by (rewrite IH, decide_True by done; eauto).
        by rewrite decide_True, traffic_snoc by done.
      * rewrite bpf_store_ne, IH, traffic_other by (congruence || (right; congruence)). done.
    + assert (Hfull : (max_entries <= length (interfaces ps))%nat).
      { destruct (le_lt_dec max_entries (length (interfaces ps))); [done|]. exfalso. apply Ht. unfold tracked.
        rewrite elem_of_list_to_set, take_ge by lia. done. }
      destruct (decide (k = pkt_ifindex p)) as [->|Hne].
      * rewrite decide_False by done. apply bpf_update_full; [lia|]. by rewrite IH, decide_False.
      * rewrite bpf_update_ne, IH, traffic_other by (congruence || (right; congruence)). done.
  - assert (Ht : pkt_ifindex p ∉ tracked ps) by (intros Hx%Hsub; by apply elem_of_interfaces in Hx).
    rewrite (decide_False (P := pkt_ifindex p ∈ tracked ps)) by done. rewrite tracked_new by done.
    destruct (decide (k = pkt_ifindex p)) as [->|Hne].
    + destruct (decide (length (interfaces ps) < max_entries)%nat) as [Hl|Hl].
      * rewrite decide_True by set_solver. rewrite bpf_update_room by lia.
        rewrite traffic_first; [done..|]. by rewrite <- elem_of_interfaces.
      * rewrite decide_False by done. apply bpf_update_full; [lia|]. by rewrite IH, decide_False.
    + rewrite bpf_update_ne, IH, traffic_other by (congruence || (right; congruence)).
      destruct (decide (length (interfaces ps) < max_entries)%nat); repeat case_decide; (done || set_solver).
Qed.

(** C9. The traffic counters are exact when packets are counted one after the
    other.  After any sequence of packets, the map has an entry for exactly the
    first 64 interfaces that carried a countable packet (nonzero index and
    length), and its four counters are all bytes and packets of the interface
    in each direction, modulo 2^64; a later interface is not counted at all.
    With at most 64 interfaces that is every interface.  The hooks always let
    the packet pass. *)
Theorem bpf_counts_exact ps :
  Forall packet_ok ps ->
  (forall k, bpf_map_lookup_elem (run ps) k =
     if decide (k ∈ tracked ps) then Some (traffic k ps) else None) /\
  ((size (seen ps) <= max_entries)%nat -> tracked ps = seen ps) /\
  (forall m i l, fst (tc_ingress m i l) = TC_ACT_OK /\ fst (tc_egress m i l) = TC_ACT_OK).
Proof.
  intros. split; [by apply run_spec|]. split; [apply tracked_seen|].
  intros. unfold tc_ingress, tc_egress. by destruct (_ || _).
Qed.

Lemma written_at_most k rx t :
  packet_ok (th_packet t) ->
  bytes_written k rx t <= bytes_of_packet k rx (th_packet t) /\
  packets_written k rx t <= one_of_packet k rx (th_packet t).
Proof.
  intros Hp%(packet_amounts_nonneg k rx). unfold bytes_written, packets_written.
  destruct (th_pc t); lia.
Qed.

Lemma total_at_most k rx ts :
  Forall (fun t => packet_ok (th_packet t)) ts ->
  total (bytes_written k rx) ts <= sum_over (bytes_of_packet k rx) (th_packet <$> ts) /\
  total (packets_written k rx) ts <= sum_over (one_of_packet k rx) (th_packet <$> ts).
Proof.
  induction 1 as [|t ts Hp _ IH]; cbn; [lia|]. pose proof (written_at_most k rx t Hp). lia.
Qed.

Lemma steps_packets c c' : rtc step c c' -> th_packet <$> c'.2 = th_packet <$> c.2.
Proof.
  induction 1 as [|c1 c2 c3 Hs _ IH]; [done|]. rewrite IH. clear IH.
  destruct Hs as [m ts i t m' t' Hi Hs]. cbn. rewrite list_fmap_insert.
  rewrite (thread_step_packet _ _ _ _ Hs). apply list_insert_id.
  by rewrite list_lookup_fmap, Hi.
Qed.

(** Concurrent CPUs never over-count.  Whatever way the steps of the hooks
    interleave (both CPUs may miss the entry and insert it), at every moment
    each counter of an interface is at most the traffic of the packets given
    to the hooks. *)
Theorem bpf_never_overcounts ps m ts k s :
  Forall packet_ok ps -> rtc step (initial ps) (m, ts) -> bpf_map_lookup_elem m k = Some s ->
  stats_between s (sum_over (bytes_of_packet k true) ps) (sum_over (one_of_packet k true) ps)
                  (sum_over (bytes_of_packet k false) ps) (sum_over (one_of_packet k false) ps).
Proof.
  intros Hps Hr Hl.
  assert (Hinv : no_overcount (m, ts)).
  { eapply (rtc_invariant step no_overcount); [apply no_overcount_step| |done].
    by apply no_overcount_initial. }
  pose proof (steps_packets _ _ Hr) as Hpk. unfold initial in Hpk. cbn in Hpk.
  rewrite <- list_fmap_compose in Hpk. cbn in Hpk. rewrite list_fmap_id in Hpk.
  destruct Hinv as (Hok & _ & _ & Hb). specialize (Hb k s Hl).
  pose proof (total_at_most k true ts Hok). pose proof (total_at_most k false ts Hok).
  rewrite Hpk in *. unfold stats_between in *. lia.
Qed.
End Exact.

(** Packets of interface 2, and one packet of each of the interfaces 1 to 65:
    the map is full when the last one comes. *)
Definition crowd : list packet :=
  [mk_packet 2 100 true; mk_packet 2 60 false; mk_packet 0 10 true] ++
  map (fun i => mk_packet (Z.of_nat i) 40 true) (seq 1 65).

Lemma bpf_counts_exact_witness :
  bpf_map_lookup_elem (run (M := gmap Z net_stats) crowd) 2 = Some (mk_net_stats 140 2 60 1) /\
  bpf_map_lookup_elem (run (M := gmap Z net_stats) crowd) 65 = None.
Proof.
  destruct (bpf_counts_exact (M := gmap Z net_stats) crowd) as [Hrun _].
  - apply (bool_decide_unpack _). vm_compute. done.
  - rewrite !Hrun. split; vm_compute; reflexivity.
Defined.

(** Two packets of 100 bytes, the first of interface 2, on two CPUs. *)
Definition two_packets : list packet := [mk_packet 2 100 true; mk_packet 2 100 true].

(** Both CPUs look the interface up before either inserts it. *)
Lemma both_miss :
  rtc step (initial (M := gmap Z net_stats) two_packets)
    ({[2 := mk_net_stats 100 1 0 0]},
     [mk_thread (mk_packet 2 100 true) Done; mk_thread (mk_packet 2 100 true) Done]).
Proof.
  eapply rtc_l; [eapply (step_thread _ _ 0%nat); reflexivity|].
  eapply rtc_l; [eapply (step_thread _ _ 1%nat); reflexivity|].
  eapply rtc_l; [eapply (step_thread _ _ 0%nat); reflexivity|].
  eapply rtc_l; [eapply (step_thread _ _ 1%nat); reflexivity|].
  apply rtc_refl.
Qed.

Lemma bpf_never_overcounts_witness :
  stats_between (mk_net_stats 100 1 0 0) 200 2 0 0.
Proof.
  eapply (bpf_never_overcounts (M := gmap Z net_stats) two_packets _ _ 2);
    [repeat constructor; cbn; lia|exact both_miss|reflexivity].
Defined.

(** The atomic additions do not make the counting exact on several CPUs.
    Two CPUs that see the first packets of an interface at the same time both
    miss the entry, the second insertion replaces the first one, and when both
    are done one packet and its bytes are missing from the counters. *)
Theorem bpf_lost_update :
  exists m ts, rtc step (initial (M := gmap Z net_stats) two_packets) (m, ts) /\
    Forall (fun t => th_pc t = Done) ts /\
    bpf_map_lookup_elem m 2 = Some (mk_net_stats 100 1 0 0) /\
    traffic 2 two_packets = mk_net_stats 200 2 0 0.
Proof.
  eexists _, _. split; [exact both_miss|]. split; [by repeat constructor|]. done.
Qed.

(** C19. [NetEbpfMonitor::updateOnce] reports each interface once, with its own
    rates.  When the program is loaded and the counters stay below 2^53, one
    reading has no undefined behaviour; it appends, in the map's order, one
    message per entry whose name is known and is not [lo], its rates computed
    from the reading that was cached before the call (0 on the first, counting
    from 0 after a counter reset); it then caches exactly the reported
    readings and remembers the time. *)
Theorem net_ebpf_update_spec w st m :
  NetEbpfMonitor.loaded_ st = true -> 0 <= NetEbpfMonitor.mapFd_ st ->
  NoDup (NetEbpfMonitor.entries w).*1 ->
  (forall k c, NetEbpfMonitor.cache_ st !! k = Some c -> Reading.cache_ok c) ->
  (forall k s, (k, Some s) ∈ NetEbpfMonitor.entries w -> Reading.stats_ok s) ->
  exists st' m', NetEbpfMonitor.updateOnce w st m = Some (st', m') /\
    MonitorInfo.net_info m' =
      MonitorInfo.net_info m ++ omap (Reading.spec_entry w st) (NetEbpfMonitor.entries w) /\
    (forall k s, (k, Some s) ∈ NetEbpfMonitor.entries w ->
       NetEbpfMonitor.cache_ st' !! k =
         if Reading.reported_name w st k then Some (Reading.spec_cache w s)
         else NetEbpfMonitor.cache_ st !! k) /\
    NetEbpfMonitor.lastUpdate_ st' = NetEbpfMonitor.now w.
Proof.
  intros Hl Hfd Hnd Hc Hs. unfold NetEbpfMonitor.updateOnce. rewrite Hl.
  rewrite (proj2 (Z.ltb_ge _ _)) by done. cbn.
  destruct (Reading.read_entries_spec w (NetEbpfMonitor.entries w) st (MonitorInfo.net_info m) Hnd Hc Hs)
    as (st' & -> & _ & Hi). cbn. eexists _, _. split; [done|]. done.
Qed.

Definition sample_world : NetEbpfMonitor.world :=
  {| NetEbpfMonitor.now := 3000000000;
     NetEbpfMonitor.if_indextoname := fun i => if i =? 1 then Some "lo" else Some "eth0";
     NetEbpfMonitor.entries := [(1, Some (mk_net_stats 7 7 7 7)); (2, Some (mk_net_stats 5000 30 10 1))] |}.

Definition sample_state : NetEbpfMonitor.state :=
  NetEbpfMonitor.mk_state {[2 := NetEbpfMonitor.mk_cache 1000 10 4000 9 1000000000]} ∅ 3 true 0.

(** 4000 bytes in two seconds are 2000 B/s; the sent counter was reset. *)
Lemma net_ebpf_update_spec_witness :
  exists st' m', NetEbpfMonitor.updateOnce sample_world sample_state MonitorInfo.empty = Some (st', m') /\
    MonitorInfo.net_info m' =
      [NetEbpfMonitor.with_rates "eth0" (f32_of_Z 2000) (f32_of_Z 5) (f32_of_Z 10) (f32_of_Z 0)].
Proof.
  destruct (net_ebpf_update_spec sample_world sample_state MonitorInfo.empty) as (st' & m' & Hu & Hn & _).
  - reflexivity.
  - cbn; lia.
  - cbn. apply NoDup_cons; split; [set_solver|apply NoDup_singleton].
  - intros k c. unfold sample_state; cbn. intros [<- <-]%lookup_singleton_Some.
    unfold Reading.cache_ok, Reading.counter_ok; cbn. lia.
  - intros k s. cbn. intros [[= -> ->]|[[= -> ->]|Hin]%elem_of_cons]%elem_of_cons;
      [..|by apply elem_of_nil in Hin]; unfold Reading.stats_ok, Reading.counter_ok; cbn; lia.
  - exists st', m'. split; [exact Hu|]. rewrite Hn. vm_compute. reflexivity.
Defined.
