(* ===== verification/EbpfLoader.v ===== *)
(** * EbpfLoader: loading and unloading the traffic counters

    The construction, [stop] and the destruction of [NetEbpfMonitor]
    ([src/worker/src/monitor/NetEbpfMonitor.cpp]): the skeleton of the BPF
    program, the file descriptor of its map, and the TC hooks of every network
    interface.  What the monitor does when it is loaded is in [NetStats].

    The kernel's traffic control is reached through libbpf, which is an
    interface here: its laws are the documented behaviour of the three calls
    the monitor makes. *)

From S2P Require Import Prelude.

(** ** libbpf's traffic control *)

Inductive tc_point := BPF_TC_INGRESS | BPF_TC_EGRESS.

#[export] Instance tc_point_eq_dec : EqDecision tc_point.
Proof. solve_decision. Defined.

(** [struct bpf_tc_opts], as far as the monitor sets it. *)
Record bpf_tc_opts := mk_opts { prog_fd : Z; handle : Z; priority : Z }.

Definition no_opts : bpf_tc_opts := mk_opts 0 0 0.

(** A filter of the kernel: the program that runs at a point of an interface. *)
Record filter_entry := mk_filter {
  f_ifindex : Z; f_point : tc_point; f_opts : bpf_tc_opts }.

Class TrafficControl (K : Type) := {
  filters : K -> list filter_entry;
  bpf_tc_hook_create : Z -> tc_point -> K -> Z * K;
  bpf_tc_attach : Z -> tc_point -> bpf_tc_opts -> K -> Z * K;
  bpf_tc_detach : Z -> tc_point -> bpf_tc_opts -> K -> Z * K
}.

(** An attachment that succeeds adds one filter, with the given program; one
    that fails, and the creation of a hook, add none.  A detachment needs the
    handle and the priority of the filter, and is refused without them. *)
Class TrafficControlLaws (K : Type) `{TrafficControl K} := {
  hook_create_filters : forall i p k, filters (bpf_tc_hook_create i p k).2 = filters k;
  attach_ok : forall i p o k, (bpf_tc_attach i p o k).1 = 0 ->
    exists h pr, filters (bpf_tc_attach i p o k).2 =
      mk_filter i p (mk_opts (prog_fd o) h pr) :: filters k;
  attach_error : forall i p o k, (bpf_tc_attach i p o k).1 <> 0 ->
    filters (bpf_tc_attach i p o k).2 = filters k;
  detach_refused : forall i p o k, handle o = 0 \/ priority o = 0 ->
    (bpf_tc_detach i p o k).1 <> 0 /\ filters (bpf_tc_detach i p o k).2 = filters k
}.

(** ** NetEbpfMonitor.cpp *)

(** The skeleton [net_stats_bpf__open] gives: the result of loading it, and its
    descriptors. *)
Record skeleton := mk_skeleton {
  load_err : Z; map_fd : Z; ingress_fd : Z; egress_fd : Z }.

(** The rest of the system: the skeleton, the entries of [/sys/class/net], and
    the names of the interfaces. *)
Record system := mk_system {
  open_skeleton : option skeleton;
  net_entries : option (list string);
  if_nametoindex : string -> Z;
  if_indextoname : Z -> option string
}.

(** What is done to the skeleton and by a shell. *)
Inductive event := Opened | Destroyed | Shell (cmd : string).

(** The members that the loading sets. *)
Record members := mk_members {
  attachedIfindexes_ : list Z; bpfObj_ : bool; mapFd_ : Z; loaded_ : bool }.

Definition fresh : members := mk_members [] false (-1) false.

Definition GetAllIfIndexes (sys : system) : list Z :=
  match net_entries sys with
  | None => []
  | Some entries =>
      omap (fun name =>
              if String.prefix "." name then None
              else let ifindex := if_nametoindex sys name in
                   if 0 <? ifindex then Some ifindex else None) entries
  end.

Definition TCQdiscCreateClsact (sys : system) (ifindex : Z) : list event :=
  match if_indextoname sys ifindex with
  | None => []
  | Some ifname => [Shell ("tc qdisc add dev " +++ ifname +++ " clsact 2>/dev/null")]
  end.

Definition EEXIST : Z := 17.

Section Loader.
Context {K : Type} `{TrafficControl K}.

(** The variables of the loop over the interfaces. *)
Record loop := mk_loop { kernel : K; attached : list Z; events : list event }.

(** The turn of the loop for one interface. *)
Definition attach_interface (sys : system) (skel : skeleton) (l : loop) (ifindex : Z) : loop :=
  match if_indextoname sys ifindex with
  | None => l
  | Some ifname =>
      if String.eqb ifname "lo" then l
      else
        let evs := events l ++ TCQdiscCreateClsact sys ifindex in
        let idx := i32_wrap ifindex in
        let '(err, k) := bpf_tc_hook_create idx BPF_TC_INGRESS (kernel l) in
        if negb (err =? 0) && negb (err =? - EEXIST) then mk_loop k (attached l) evs
        else
          let '(err, k) := bpf_tc_attach idx BPF_TC_INGRESS (mk_opts (ingress_fd skel) 0 0) k in
          let att := if negb (err =? 0) then attached l else attached l ++ [ifindex] in
          let '(_, k) := bpf_tc_attach idx BPF_TC_EGRESS (mk_opts (egress_fd skel) 0 0) k in
          mk_loop k att evs
  end.

(** [initEbpf]: its result, the members, the kernel, and the events. *)
Definition initEbpf (sys : system) (k : K) (m : members) : bool * members * K * list event :=
  match open_skeleton sys with
  | None => (false, m, k, [])
  | Some skel =>
      if negb (load_err skel =? 0) then (false, m, k, [Opened; Destroyed])
      else if map_fd skel <? 0 then
        (false, mk_members (attachedIfindexes_ m) (bpfObj_ m) (map_fd skel) (loaded_ m), k,
         [Opened; Destroyed])
      else
        let l := foldl (attach_interface sys skel) (mk_loop k (attachedIfindexes_ m) [Opened])
                   (GetAllIfIndexes sys) in
        match attached l with
        | [] => (false, mk_members [] false (map_fd skel) (loaded_ m), kernel l,
                 events l ++ [Destroyed])
        | att => (true, mk_members att true (map_fd skel) (loaded_ m), kernel l, events l)
        end
  end.

(** The constructor. *)
Definition construct (sys : system) (k : K) : members * K * list event :=
  let '(loaded, m, k, evs) := initEbpf sys k fresh in
  (mk_members (attachedIfindexes_ m) (bpfObj_ m) (mapFd_ m) loaded, k, evs).

Definition detach_interface (k : K) (ifindex : Z) : K :=
  let idx := i32_wrap ifindex in
  let '(_, k) := bpf_tc_detach idx BPF_TC_INGRESS no_opts k in
  let '(_, k) := bpf_tc_detach idx BPF_TC_EGRESS no_opts k in
  k.

(** [cleanupEbpf], which is [stop] and the destructor. *)
Definition cleanupEbpf (m : members) (k : K) : members * K * list event :=
  (mk_members [] false (-1) false,
   foldl detach_interface k (attachedIfindexes_ m),
   if bpfObj_ m then [Destroyed] else []).

End Loader.
Arguments loop : clear implicits.

(** ** The skeleton and the hooks *)

Section Theorems.
Context {K : Type} `{TrafficControlLaws K}.

(** The skeletons that are open; [None]: one is destroyed that is not. *)
Definition ledger_step (n : option nat) (e : event) : option nat :=
  match e with
  | Opened => S <$> n
  | Destroyed => match n with Some (S n) => Some n | _ => None end
  | Shell _ => n
  end.

Definition open_skeletons (n : nat) (evs : list event) : option nat :=
  foldl ledger_step (Some n) evs.

Lemma open_skeletons_app n evs evs' n' :
  open_skeletons n evs = Some n' -> open_skeletons n (evs ++ evs') = open_skeletons n' evs'.
Proof. unfold open_skeletons. intros E. by rewrite foldl_app, E. Qed.

(** A turn of the loop: the events it adds only run a shell; an interface is
    recorded only with a filter at its ingress; filters are only added. *)
(** A turn that leaves the loop's variables, or the kernel's filters, alone. *)
Definition turn_spec (l l' : loop K) (ifindex : Z) : Prop :=
  (exists evs, events l' = events l ++ evs /\ forall n, open_skeletons n evs = Some n) /\
  (exists new, filters (kernel l') = new ++ filters (kernel l) /\
     attached l' = attached l ++
       (if bool_decide (BPF_TC_INGRESS ∈ map f_point new) then [ifindex] else []) /\
     Forall (fun f => f_ifindex f = i32_wrap ifindex) new).

Lemma turn_spec_idle l k evs ifindex :
  filters k = filters (kernel l) -> (forall n, open_skeletons n evs = Some n) ->
  turn_spec l (mk_loop k (attached l) (events l ++ evs)) ifindex.
Proof using All.
  intros Hk He. split; [by exists evs|]. exists []. rewrite bool_decide_false by set_solver.
  split; [exact Hk|]. by rewrite app_nil_r.
Qed.

Lemma turn_spec_refl l ifindex : turn_spec l l ifindex.
Proof using All.
  pose proof (turn_spec_idle l (kernel l) [] ifindex eq_refl (fun n => eq_refl)) as Hi.
  rewrite app_nil_r in Hi. by destruct l.
Qed.

Lemma attach_interface_spec sys skel (l : loop K) ifindex :
  turn_spec l (attach_interface sys skel l ifindex) ifindex.
Proof using All.
  unfold attach_interface. destruct (if_indextoname sys ifindex) as [ifname|] eqn:En.
  2: apply turn_spec_refl.
  destruct (String.eqb ifname "lo"); [apply turn_spec_refl|].
  assert (Hevs : forall n, open_skeletons n (TCQdiscCreateClsact sys ifindex) = Some n)
    by (intros n; unfold TCQdiscCreateClsact; by rewrite En).
  pose proof (hook_create_filters (i32_wrap ifindex) BPF_TC_INGRESS (kernel l)) as Hc.
  destruct (bpf_tc_hook_create _ _ _) as [err k]. cbn [snd] in Hc.
  destruct (negb (err =? 0) && negb (err =? - EEXIST)).
  { by apply turn_spec_idle. }
  set (oi := mk_opts (ingress_fd skel) 0 0). set (oe := mk_opts (egress_fd skel) 0 0).
  pose proof (attach_ok (i32_wrap ifindex) BPF_TC_INGRESS oi k) as Hi.
  pose proof (attach_error (i32_wrap ifindex) BPF_TC_INGRESS oi k) as Hi'.
  destruct (bpf_tc_attach _ BPF_TC_INGRESS oi k) as [err1 k1]. cbn [fst snd] in *.
  pose proof (attach_ok (i32_wrap ifindex) BPF_TC_EGRESS oe k1) as He.
  pose proof (attach_error (i32_wrap ifindex) BPF_TC_EGRESS oe k1) as He'.
  destruct (bpf_tc_attach _ BPF_TC_EGRESS oe k1) as [err2 k2]. cbn [fst snd] in *.
  split; [by eexists|]. cbn [kernel attached].
  assert (Hout : exists out, filters k2 = out ++ filters k1 /\ map f_point out = repeat BPF_TC_EGRESS (length out) /\
                   Forall (fun f => f_ifindex f = i32_wrap ifindex) out).
  { destruct (decide (err2 = 0)) as [->|Hne].
    - destruct (He eq_refl) as (h & pr & ->). eexists [_]. cbn. by repeat constructor.
    - rewrite (He' Hne). by exists []. }
  destruct Hout as (out & Ho & Hpts & Hidx). rewrite Ho.
  assert (Hnot : BPF_TC_INGRESS ∉ map f_point out)
    by (rewrite Hpts; intros Hin; by apply list_elem_of_In, repeat_spec in Hin).
  destruct (Z.eqb_spec err1 0) as [->|Hne]; cbn [negb].
  - destruct (Hi eq_refl) as (h & pr & ->). rewrite Hc. eexists (out ++ [_]).
    rewrite <- app_assoc. split; [done|]. rewrite map_app, bool_decide_true by set_solver.
    split; [done|]. apply Forall_app. split; [done|]. by repeat constructor.
  - rewrite (Hi' Hne), Hc. exists out. rewrite bool_decide_false by done. by rewrite app_nil_r.
Qed.

(** The whole loop. *)
Lemma attach_all_spec sys skel ids : forall l : loop K,
  let l' := foldl (attach_interface sys skel) l ids in
  (exists evs, events l' = events l ++ evs /\ forall n, open_skeletons n evs = Some n) /\
  (exists new att, filters (kernel l') = new ++ filters (kernel l) /\
     attached l' = attached l ++ att /\
     Forall (fun i => exists f, f ∈ new /\ f_point f = BPF_TC_INGRESS /\ f_ifindex f = i32_wrap i) att).
Proof using All.
  induction ids as [|i ids IH]; intros l; cbn [foldl].
  { split; [exists []; by rewrite app_nil_r|]. exists [], []. by rewrite app_nil_r. }
  destruct (attach_interface_spec sys skel l i) as [(e1 & He1 & Ho1) (n1 & Hn1 & Ha1 & Hf1)].
  destruct (IH (attach_interface sys skel l i)) as [(e2 & He2 & Ho2) (n2 & a2 & Hn2 & Ha2 & Hf2)].
  split.
  - exists (e1 ++ e2). rewrite He2, He1, <- app_assoc. split; [done|]. intros n.
    by rewrite (open_skeletons_app _ _ _ _ (Ho1 n)).
  - eexists (n2 ++ n1), _. rewrite Hn2, Hn1, Ha2, Ha1, <- !app_assoc. split; [done|]. split; [done|].
    apply Forall_app. split.
    + case_bool_decide as Hin; [|done]. apply Forall_singleton.
      apply list_elem_of_fmap in Hin as (f & Hf & Hin). exists f. split; [set_solver|].
      split; [done|]. by rewrite Forall_forall in Hf1; apply Hf1.
    + eapply Forall_impl; [exact Hf2|]. intros j (f & Hin & Hf). exists f. split; [set_solver|done].
Qed.

(** What the constructor leaves. *)
Lemma construct_spec sys k :
  let '(m, k', evs) := construct sys k in
  open_skeletons 0 evs = Some (if bpfObj_ m then 1%nat else 0%nat) /\
  loaded_ m = bpfObj_ m /\
  exists new, filters k' = new ++ filters k /\
    (loaded_ m = true -> 0 <= mapFd_ m /\ attachedIfindexes_ m <> [] /\
       Forall (fun i => exists f, f ∈ new /\ f_point f = BPF_TC_INGRESS /\ f_ifindex f = i32_wrap i)
         (attachedIfindexes_ m)).
Proof using All.
  unfold construct, initEbpf. destruct (open_skeleton sys) as [skel|]; [|by split_and!; [| |exists []]].
  destruct (load_err skel =? 0); cbn [negb]; [|by split_and!; [| |exists []]].
  destruct (map_fd skel <? 0) eqn:Efd; [by split_and!; [| |exists []]|]. to_props.
  cbn [attachedIfindexes_ fresh].
  destruct (attach_all_spec sys skel (GetAllIfIndexes sys) (mk_loop k [] [Opened]))
    as [(evs & He & Ho) (new & att & Hn & Ha & Hf)].
  set (l' := foldl _ _ _) in *. cbn [attached kernel events app] in *.
  assert (Hopen : open_skeletons 0 (events l') = Some 1%nat) by (rewrite He; apply (Ho 1%nat)).
  rewrite Ha. destruct att as [|i att]; cbn.
  - rewrite (open_skeletons_app _ _ _ _ Hopen). split_and!; [done|done|]. by exists new.
  - rewrite Hopen. split_and!; [done|done|]. exists new. split; [done|]. by intros _.
Qed.

(** C24. The constructor of [NetEbpfMonitor] takes everything or nothing, and
    what it takes is given back.  Whatever fails, the monitor counts as loaded
    exactly when it holds the one skeleton that is open, and then it has the
    descriptor of the map and at least one interface, each with the program at
    its ingress; otherwise no skeleton is open.  After [stop] and the
    destructor, which clean up twice, every skeleton has been destroyed exactly
    once. *)
Theorem ebpf_construct_all_or_nothing sys k :
  let '(m, k1, evs1) := construct sys k in
  let '(m2, k2, evs2) := cleanupEbpf m k1 in
  let '(m3, k3, evs3) := cleanupEbpf m2 k2 in
  open_skeletons 0 evs1 = Some (if loaded_ m then 1%nat else 0%nat) /\
  bpfObj_ m = loaded_ m /\
  (loaded_ m = true -> 0 <= mapFd_ m /\ attachedIfindexes_ m <> [] /\
     Forall (fun i => exists f, f ∈ filters k1 /\ f_point f = BPF_TC_INGRESS /\
                                f_ifindex f = i32_wrap i) (attachedIfindexes_ m)) /\
  open_skeletons 0 (evs1 ++ evs2 ++ evs3) = Some 0%nat /\ loaded_ m3 = false.
Proof using All.
  pose proof (construct_spec sys k) as Hs. destruct (construct sys k) as [[m k1] evs1].
  destruct Hs as (Ho & Hl & new & Hf & Hload). unfold cleanupEbpf. cbn.
  rewrite (open_skeletons_app _ _ _ _ Ho). rewrite Hl. split_and!; [done|done| |by destruct (bpfObj_ m)|done].
  rewrite <- Hl. intros E. destruct (Hload E) as (H1 & H2 & H3). split_and!; [done|done|].
  eapply Forall_impl; [exact H3|]. intros i (f & Hin & Hp). exists f. split; [|done].
  rewrite Hf. set_solver.
Qed.

Lemma detach_filters ids : forall k, filters (foldl detach_interface k ids) = filters k.
Proof using All.
  induction ids as [|i ids IH]; intros k; [done|]. cbn [foldl]. rewrite IH. unfold detach_interface.
  destruct (detach_refused (i32_wrap i) BPF_TC_INGRESS no_opts k (or_introl eq_refl)) as [_ H1].
  destruct (bpf_tc_detach _ _ _ k) as [e1 k1]. cbn in H1.
  destruct (detach_refused (i32_wrap i) BPF_TC_EGRESS no_opts k1 (or_introl eq_refl)) as [_ H2].
  destruct (bpf_tc_detach _ _ _ k1) as [e2 k2]. cbn in H2. congruence.
Qed.

(** The programs stay in the kernel after the monitor is gone.  The handles
    that [bpf_tc_attach] returns are not kept, so [cleanupEbpf] asks for the
    detachment without them and is refused: every monitor that was loaded
    leaves, after its cleaning up, more filters than there were before it. *)
Theorem ebpf_filters_left_behind sys k :
  let '(m, k1, _) := construct sys k in
  let '(_, k2, _) := cleanupEbpf m k1 in
  filters k2 = filters k1 /\
  (loaded_ m = true -> (length (filters k) < length (filters k2))%nat).
Proof using All.
  pose proof (construct_spec sys k) as Hs. destruct (construct sys k) as [[m k1] evs1].
  destruct Hs as (_ & _ & new & Hf & Hload). unfold cleanupEbpf. rewrite detach_filters.
  split; [done|]. intros E. destruct (Hload E) as (_ & Hne & Hall). rewrite Hf, length_app.
  destruct (attachedIfindexes_ m) as [|i ids]; [done|].
  apply Forall_cons in Hall as [(f & Hin & _) _]. destruct new; [by apply elem_of_nil in Hin|].
  cbn. lia.
Qed.
End Theorems.

(** ** A kernel that obeys the laws *)

#[export] Instance simple_kernel : TrafficControl (list filter_entry) := {|
  filters k := k;
  bpf_tc_hook_create _ _ k := (0, k);
  bpf_tc_attach i p o k :=
    (0, mk_filter i p (mk_opts (prog_fd o) 1 (1 + Z.of_nat (length k))) :: k);
  bpf_tc_detach i p o k :=
    if (handle o =? 0) || (priority o =? 0) then (-22, k)
    else (0, List.filter (fun f => negb (bool_decide (f_ifindex f = i /\ f_point f = p) &&
                                         (handle (f_opts f) =? handle o) &&
                                         (priority (f_opts f) =? priority o))) k)
|}.

#[export] Instance simple_kernel_laws : TrafficControlLaws (list filter_entry).
Proof.
  split.
  - done.
  - intros i p o k _. cbn. eauto.
  - done.
  - intros i p o k Ho. cbn.
    assert (E : (handle o =? 0) || (priority o =? 0) = true)
      by (apply orb_true_iff; rewrite !Z.eqb_eq; done).
    by rewrite E.
Qed.

Definition sample_system : system :=
  mk_system (Some (mk_skeleton 0 5 6 7)) (Some ["."; ".."; "lo"; "eth0"])
    (fun n => if String.eqb n "lo" then 1 else if String.eqb n "eth0" then 2 else 0)
    (fun i => if i =? 1 then Some "lo" else if i =? 2 then Some "eth0" else None).

Lemma sample_filters :
  let '(m, k, _) := construct sample_system ([] : list filter_entry) in
  loaded_ m = true /\ length k = 2%nat /\ (cleanupEbpf m k).1.2 = k.
Proof. by vm_compute. Qed.

Lemma ebpf_construct_all_or_nothing_witness :
  let '(m, k1, evs1) := construct sample_system ([] : list filter_entry) in
  let '(m2, k2, evs2) := cleanupEbpf m k1 in
  let '(m3, k3, evs3) := cleanupEbpf m2 k2 in
  open_skeletons 0 evs1 = Some (if loaded_ m then 1%nat else 0%nat) /\
  bpfObj_ m = loaded_ m /\
  (loaded_ m = true -> 0 <= mapFd_ m /\ attachedIfindexes_ m <> [] /\
     Forall (fun i => exists f, f ∈ filters k1 /\ f_point f = BPF_TC_INGRESS /\
                                f_ifindex f = i32_wrap i) (attachedIfindexes_ m)) /\
  open_skeletons 0 (evs1 ++ evs2 ++ evs3) = Some 0%nat /\ loaded_ m3 = false.
Proof. exact (ebpf_construct_all_or_nothing sample_system ([] : list filter_entry)). Defined.

Lemma ebpf_filters_left_behind_witness :
  let '(m, k1, _) := construct sample_system ([] : list filter_entry) in
  let '(_, k2, _) := cleanupEbpf m k1 in
  filters k2 = filters k1 /\
  (loaded_ m = true -> (length (filters ([] : list filter_entry)) < length (filters k2))%nat).
Proof. exact (ebpf_filters_left_behind sample_system ([] : list filter_entry)). Defined.
