(* ===== verification/CpuMonitors.v ===== *)
(** * CpuMonitors: the worker's readers of the kernel modules

    [CpuStatMonitor.cpp], [CpuLoadMonitor.cpp] and [CpuSoftirqMonitor.cpp] of
    [src/worker/src/monitor/].  A successful [open] and [mmap] of the device
    gives the shared table of the kernel module; [None] stands for a failed
    one. *)

From S2P Require Import Prelude CFloat CString KernelDriver KernelCollectors Messages.

(** ** CpuStatMonitor.cpp *)
Module CpuStatMonitor.

(** [struct CpuStat], the cached sample. *)
Record CpuStat := mk_CpuStat {
  cpu_name : string;
  user : Z; system : Z; idle : Z; nice : Z; io_wait : Z;
  irq : Z; soft_irq : Z; steal : Z; guest : Z; guest_nice : Z }.

Record CpuTotals := mk_totals {
  t_user : Z; t_nice : Z; t_system : Z; t_idle : Z; t_iowait : Z;
  t_irq : Z; t_softirq : Z; t_steal : Z }.

Definition zero_totals : CpuTotals := mk_totals 0 0 0 0 0 0 0 0.

Definition addKernelTotals (total : CpuTotals) (stat : CpuStatCollector.cpu_stat) : CpuTotals :=
  mk_totals (u64_add (t_user total) (CpuStatCollector.user stat))
    (u64_add (t_nice total) (CpuStatCollector.nice stat))
    (u64_add (t_system total) (CpuStatCollector.system stat))
    (u64_add (t_idle total) (CpuStatCollector.idle stat))
    (u64_add (t_iowait total) (CpuStatCollector.iowait stat))
    (u64_add (t_irq total) (CpuStatCollector.irq stat))
    (u64_add (t_softirq total) (CpuStatCollector.softirq stat))
    (u64_add (t_steal total) (CpuStatCollector.steal stat)).

Definition addCachedTotals (total : CpuTotals) (stat : CpuStat) : CpuTotals :=
  mk_totals (u64_add (t_user total) (user stat))
    (u64_add (t_nice total) (nice stat))
    (u64_add (t_system total) (system stat))
    (u64_add (t_idle total) (idle stat))
    (u64_add (t_iowait total) (io_wait stat))
    (u64_add (t_irq total) (irq stat))
    (u64_add (t_softirq total) (soft_irq stat))
    (u64_add (t_steal total) (steal stat)).

Definition totalTime (t : CpuTotals) : Z :=
  u64_wrap (t_user t + t_nice t + t_system t + t_idle t + t_iowait t + t_irq t +
            t_softirq t + t_steal t).

Definition busyTime (t : CpuTotals) : Z :=
  u64_wrap (t_user t + t_nice t + t_system t + t_irq t + t_softirq t + t_steal t).

(** [static_cast<float>((double(curr) - double(old)) / totalDelta * 100.0)]. *)
Definition percent (curr old : Z) (totalDelta : f64) : f32 :=
  f32_of_f64 (f64_mul (f64_div (f64_sub (f64_of_Z curr) (f64_of_Z old)) totalDelta) (f64_of_Z 100)).

(** [setCpuStatPercentages]: [None] when it returns false. *)
Definition setCpuStatPercentages (name : string) (curr old : CpuTotals) : option CpuStat.t :=
  let totalDelta := f64_sub (f64_of_Z (totalTime curr)) (f64_of_Z (totalTime old)) in
  if fle totalDelta fzero then None
  else
    Some (CpuStat.mk name
      (percent (busyTime curr) (busyTime old) totalDelta)
      (percent (t_user curr) (t_user old) totalDelta)
      (percent (t_system curr) (t_system old) totalDelta)
      (percent (t_nice curr) (t_nice old) totalDelta)
      (percent (t_idle curr) (t_idle old) totalDelta)
      (percent (t_iowait curr) (t_iowait old) totalDelta)
      (percent (t_irq curr) (t_irq old) totalDelta)
      (percent (t_softirq curr) (t_softirq old) totalDelta)).

Definition cached_of (stat : CpuStatCollector.cpu_stat) : CpuStat :=
  mk_CpuStat (c_str (CpuStatCollector.cpu_name stat)) (CpuStatCollector.user stat) (CpuStatCollector.system stat)
    (CpuStatCollector.idle stat) (CpuStatCollector.nice stat) (CpuStatCollector.iowait stat) (CpuStatCollector.irq stat)
    (CpuStatCollector.softirq stat) (CpuStatCollector.steal stat) (CpuStatCollector.guest stat) (CpuStatCollector.guest_nice stat).

(** The variables of the loop. *)
Record loop := mk_loop {
  cpuStatMap_ : gmap string CpuStat;
  msgs : list CpuStat.t;
  allCurr : CpuTotals;
  allOld : CpuTotals;
  hasAggregateBase : bool
}.

Definition read_cpu (l : loop) (stat : CpuStatCollector.cpu_stat) : loop :=
  let name := c_str (CpuStatCollector.cpu_name stat) in
  match cpuStatMap_ l !! name with
  | Some old =>
      let curr := addKernelTotals zero_totals stat in
      let prev := addCachedTotals zero_totals old in
      mk_loop (<[name := cached_of stat]> (cpuStatMap_ l))
        (msgs l ++ option_list (setCpuStatPercentages name curr prev))
        (addKernelTotals (allCurr l) stat) (addCachedTotals (allOld l) old) true
  | None =>
      mk_loop (<[name := cached_of stat]> (cpuStatMap_ l)) (msgs l) (allCurr l) (allOld l)
        (hasAggregateBase l)
  end.

Definition statCount : nat := 128.

Definition updateOnce (dev : option (list CpuStatCollector.cpu_stat))
    (cache : gmap string CpuStat) (m : MonitorInfo.t) : gmap string CpuStat * MonitorInfo.t :=
  match dev with
  | None => (cache, m)
  | Some stats =>
      let l := foldl read_cpu (mk_loop cache (MonitorInfo.cpu_stat m) zero_totals zero_totals false)
                 (scan CpuStatCollector.cpu_name statCount stats) in
      let out :=
        if hasAggregateBase l
        then msgs l ++ option_list (setCpuStatPercentages "all" (allCurr l) (allOld l))
        else msgs l in
      (cpuStatMap_ l, MonitorInfo.set_cpu_stat out m)
  end.

End CpuStatMonitor.

(** ** CpuLoadMonitor.cpp *)
Module CpuLoadMonitor.

(** [/proc/loadavg] as [fopen] and [fscanf] see it: nothing when it cannot be
    opened, else how many values were read, and the three variables. *)
Definition proc_loadavg : Type := option (Z * (f32 * f32 * f32)).

Definition readLoadFromProc (proc : proc_loadavg) : option (f32 * f32 * f32) :=
  '(ret, loads) ← proc; if ret =? 3 then Some loads else None.

(** Four bytes of memory as a little-endian 32-bit word. *)
Definition word_at (mem : list Z) (i : nat) : Z :=
  match take 4 (drop i mem) with
  | [a; b; c; d] => a + 256 * b + 65536 * c + 16777216 * d
  | _ => 0
  end.

(** [mem] is the memory of the mapped device, if it could be opened and mapped;
    [struct cpu_load] is three consecutive [float]s. *)
Definition updateOnce (mem : option (list Z)) (proc : proc_loadavg)
    (m : MonitorInfo.t) : MonitorInfo.t :=
  match mem with
  | Some bytes =>
      MonitorInfo.set_cpu_load
        (Some (CpuLoad.mk (f32_of_bits (word_at bytes 0)) (f32_of_bits (word_at bytes 4))
                          (f32_of_bits (word_at bytes 8)))) m
  | None =>
      match readLoadFromProc proc with
      | Some (load1, load3, load15) =>
          MonitorInfo.set_cpu_load (Some (CpuLoad.mk load1 load3 load15)) m
      | None => m
      end
  end.

(** The memory of [/dev/CpuStatCollector] begins with the name of its first entry. *)
Definition device_prefix (tbl : list CpuStatCollector.cpu_stat) : list Z :=
  match tbl with e :: _ => CpuStatCollector.cpu_name e | [] => [] end.

End CpuLoadMonitor.

(** ** CpuSoftirqMonitor.cpp *)
Module CpuSoftIrqMonitor.

(** [struct SoftIrq]: the counters as [int64_t], and a steady-clock time in
    nanoseconds. *)
Record SoftIrq := mk_SoftIrq {
  cpu_name : string;
  hi : Z; timer : Z; net_tx : Z; net_rx : Z; block : Z;
  irq_poll : Z; tasklet : Z; sched : Z; hrtimer : Z; rcu : Z;
  timepoint : Z }.

Definition MAX_CPUS : nat := 256.

(** [static_cast<int64_t>((new - old) / seconds)], then to [float]; [None] when
    the [double] does not fit [int64_t]. *)
Definition per_second (new old : Z) (seconds : f64) : option f32 :=
  v ← f_to_i64 (f64_div (f64_of_Z (u64_sub new old)) seconds); Some (f32_of_Z v).

Definition raw_message (name : string) (s : SoftirqCollector.softirq_stat) : SoftIrq.t :=
  SoftIrq.mk name
    (f32_of_Z (SoftirqCollector.hi s)) (f32_of_Z (SoftirqCollector.timer s))
    (f32_of_Z (SoftirqCollector.net_tx s)) (f32_of_Z (SoftirqCollector.net_rx s))
    (f32_of_Z (SoftirqCollector.block s)) (f32_of_Z (SoftirqCollector.irq_poll s))
    (f32_of_Z (SoftirqCollector.tasklet s)) (f32_of_Z (SoftirqCollector.sched s))
    (f32_of_Z (SoftirqCollector.hrtimer s)) (f32_of_Z (SoftirqCollector.rcu s)).

Definition rate_message (name : string) (s : SoftirqCollector.softirq_stat) (old : SoftIrq)
    (seconds : f64) : option SoftIrq.t :=
  a ← per_second (SoftirqCollector.hi s) (hi old) seconds;
  b ← per_second (SoftirqCollector.timer s) (timer old) seconds;
  c ← per_second (SoftirqCollector.net_tx s) (net_tx old) seconds;
  d ← per_second (SoftirqCollector.net_rx s) (net_rx old) seconds;
  e ← per_second (SoftirqCollector.block s) (block old) seconds;
  f ← per_second (SoftirqCollector.irq_poll s) (irq_poll old) seconds;
  g ← per_second (SoftirqCollector.tasklet s) (tasklet old) seconds;
  h ← per_second (SoftirqCollector.sched s) (sched old) seconds;
  i ← per_second (SoftirqCollector.hrtimer s) (hrtimer old) seconds;
  j ← per_second (SoftirqCollector.rcu s) (rcu old) seconds;
  Some (SoftIrq.mk name a b c d e f g h i j).

Definition cached_of (name : string) (s : SoftirqCollector.softirq_stat) (now : Z) : SoftIrq :=
  mk_SoftIrq name
    (i64_wrap (SoftirqCollector.hi s)) (i64_wrap (SoftirqCollector.timer s))
    (i64_wrap (SoftirqCollector.net_tx s)) (i64_wrap (SoftirqCollector.net_rx s))
    (i64_wrap (SoftirqCollector.block s)) (i64_wrap (SoftirqCollector.irq_poll s))
    (i64_wrap (SoftirqCollector.tasklet s)) (i64_wrap (SoftirqCollector.sched s))
    (i64_wrap (SoftirqCollector.hrtimer s)) (i64_wrap (SoftirqCollector.rcu s)) now.

Definition message_of (now : Z) (cache : gmap string SoftIrq) (name : string)
    (s : SoftirqCollector.softirq_stat) : option SoftIrq.t :=
  match cache !! name with
  | Some old =>
      let duration := Z.quot (now - timepoint old) 1000000 in
      let seconds := f64_div (f64_of_Z duration) (f64_of_Z 1000) in
      if fgt seconds fzero then rate_message name s old seconds
      else Some (raw_message name s)
  | None => Some (raw_message name s)
  end.

Fixpoint read_cpus (now : Z) (stats : list SoftirqCollector.softirq_stat)
    (cache : gmap string SoftIrq) (out : list SoftIrq.t)
    : option (gmap string SoftIrq * list SoftIrq.t) :=
  match stats with
  | [] => Some (cache, out)
  | s :: rest =>
      let cpuName := c_str (SoftirqCollector.cpu_name s) in
      msg ← message_of now cache cpuName s;
      read_cpus now rest (<[cpuName := cached_of cpuName s now]> cache) (out ++ [msg])
  end.

Definition updateOnce (dev : option (list SoftirqCollector.softirq_stat)) (now : Z)
    (cache : gmap string SoftIrq) (m : MonitorInfo.t)
    : option (gmap string SoftIrq * MonitorInfo.t) :=
  match dev with
  | None => Some (cache, m)
  | Some stats =>
      '(cache, out) ← read_cpus now (scan SoftirqCollector.cpu_name MAX_CPUS stats) cache
                        (MonitorInfo.soft_irq m);
      Some (cache, MonitorInfo.set_soft_irq out m)
  end.

End CpuSoftIrqMonitor.

(** ** The specification of one CPU reading *)
Module CpuReading.
Import CpuStatMonitor.

Definition name_of (e : CpuStatCollector.cpu_stat) : string := c_str (CpuStatCollector.cpu_name e).

(** The message of a CPU whose previous sample is cached. *)
Definition spec_cpu (cache : gmap string CpuStat) (e : CpuStatCollector.cpu_stat)
    : option CpuStat.t :=
  old ← cache !! name_of e;
  setCpuStatPercentages (name_of e) (addKernelTotals zero_totals e)
    (addCachedTotals zero_totals old).

(** The aggregate over the CPUs that have a cached sample. *)
Definition known (cache : gmap string CpuStat) (es : list CpuStatCollector.cpu_stat) :=
  filter (fun e => is_Some (cache !! name_of e)) es.

Definition spec_all (cache : gmap string CpuStat) (es : list CpuStatCollector.cpu_stat)
    : option CpuStat.t :=
  match known cache es with
  | [] => None
  | ks => setCpuStatPercentages "all" (foldl addKernelTotals zero_totals ks)
            (foldl addCachedTotals zero_totals (omap (fun e => cache !! name_of e) ks))
  end.

Definition cache_after (cache : gmap string CpuStat) (es : list CpuStatCollector.cpu_stat)
    : gmap string CpuStat :=
  list_to_map ((fun e => (name_of e, cached_of e)) <$> es) ∪ cache.

Lemma known_cons cache e es :
  known cache (e :: es) =
    match cache !! name_of e with Some _ => e :: known cache es | None => known cache es end.
Proof.
  unfold known. rewrite filter_cons.
  destruct (cache !! name_of e) eqn:E; case_decide as H; done || (exfalso; eauto).
Qed.

(** Entries of other names do not affect what is known of a name. *)
Lemma spec_insert cache e es :
  name_of e ∉ name_of <$> es ->
  omap (spec_cpu (<[name_of e := cached_of e]> cache)) es = omap (spec_cpu cache) es /\
  known (<[name_of e := cached_of e]> cache) es = known cache es.
Proof.
  intros H. induction es as [|x es IH]; [done|].
  rewrite fmap_cons in H. apply not_elem_of_cons in H as [Hx H]. destruct (IH H) as [IH1 IH2].
  rewrite !known_cons. cbn [omap list_omap]. rewrite lookup_insert_ne by done.
  assert (E : spec_cpu (<[name_of e := cached_of e]> cache) x = spec_cpu cache x)
    by (unfold spec_cpu; by rewrite lookup_insert_ne).
  by rewrite E, IH1, IH2.
Qed.

Lemma omap_known_insert cache e es :
  name_of e ∉ name_of <$> es ->
  omap (fun x => (<[name_of e := cached_of e]> cache) !! name_of x) (known cache es) =
  omap (fun x => cache !! name_of x) (known cache es).
Proof.
  intros H. apply list_omap_ext. apply Forall_Forall2_diag, Forall_forall.
  intros x [_ Hx]%list_elem_of_filter. apply lookup_insert_ne. intros E. apply H.
  rewrite E. by apply list_elem_of_fmap_2.
Qed.

Lemma foldl_read_cpu es l :
  NoDup (name_of <$> es) ->
  let l' := foldl read_cpu l es in
  cpuStatMap_ l' = cache_after (cpuStatMap_ l) es /\
  msgs l' = msgs l ++ omap (spec_cpu (cpuStatMap_ l)) es /\
  allCurr l' = foldl addKernelTotals (allCurr l) (known (cpuStatMap_ l) es) /\
  allOld l' = foldl addCachedTotals (allOld l)
                (omap (fun e => cpuStatMap_ l !! name_of e) (known (cpuStatMap_ l) es)) /\
  hasAggregateBase l' =
    match known (cpuStatMap_ l) es with [] => hasAggregateBase l | _ => true end.
Proof.
  revert l; induction es as [|e es IH]; intros l Hnd.
  { cbn. unfold cache_after; cbn. rewrite (left_id_L ∅ (∪)), app_nil_r. done. }
  rewrite fmap_cons in Hnd. apply NoDup_cons in Hnd as [He Hnd].
  cbn [foldl]. destruct (IH (read_cpu l e) Hnd) as (H1 & H2 & H3 & H4 & H5). clear IH.
  rewrite H1, H2, H3, H4, H5. rewrite known_cons, omap_cons_app.
  assert (Hm : cpuStatMap_ (read_cpu l e) = <[name_of e := cached_of e]> (cpuStatMap_ l))
    by (unfold read_cpu, name_of; destruct (_ !! _); done).
  rewrite Hm. destruct (spec_insert (cpuStatMap_ l) e es He) as [-> ->].
  rewrite (omap_known_insert _ _ _ He).
  assert (Hc : cache_after (<[name_of e := cached_of e]> (cpuStatMap_ l)) es =
               cache_after (cpuStatMap_ l) (e :: es)).
  { unfold cache_after. cbn [fmap list_fmap list_to_map foldr].
    rewrite <- insert_union_l. rewrite insert_union_r; [done|].
    apply not_elem_of_list_to_map_1. rewrite <- list_fmap_compose. done. }
  split; [exact Hc|].
  assert (Hs : spec_cpu (cpuStatMap_ l) e =
    old ← cpuStatMap_ l !! name_of e;
    setCpuStatPercentages (name_of e) (addKernelTotals zero_totals e)
      (addCachedTotals zero_totals old)) by done.
  rewrite Hs. unfold read_cpu. fold (name_of e).
  destruct (cpuStatMap_ l !! name_of e) as [old|] eqn:E; cbn [mbind option_bind].
  - rewrite omap_cons_app, E. cbn. rewrite <- app_assoc. split_and!; try done.
    by destruct (known (cpuStatMap_ l) es).
  - done.
Qed.
End CpuReading.

(** ** Properties *)

(** C20. One CPU reading of [CpuStatMonitor].  For a table whose names are
    distinct, the call appends, in the table's order, the percentages of every
    CPU that had a cached sample and whose total time advanced, computed from
    that sample alone, then the "all" entry over exactly those CPUs; the cache
    becomes the table's samples.  The first reading therefore reports nothing. *)
Theorem cpu_stat_update_spec stats cache m :
  let es := scan CpuStatCollector.cpu_name CpuStatMonitor.statCount stats in
  NoDup (CpuReading.name_of <$> es) ->
  CpuStatMonitor.updateOnce (Some stats) cache m =
    (CpuReading.cache_after cache es,
     MonitorInfo.set_cpu_stat
       (MonitorInfo.cpu_stat m ++ omap (CpuReading.spec_cpu cache) es ++
        option_list (CpuReading.spec_all cache es)) m) /\
  (cache = ∅ -> snd (CpuStatMonitor.updateOnce (Some stats) cache m) = m).
Proof.
  intros es Hnd. unfold CpuStatMonitor.updateOnce. fold es. clearbody es.
  pose proof (CpuReading.foldl_read_cpu es
    (CpuStatMonitor.mk_loop cache (MonitorInfo.cpu_stat m) CpuStatMonitor.zero_totals
       CpuStatMonitor.zero_totals false) Hnd) as Hl.
  cbn zeta in Hl |- *. revert Hl. generalize (foldl CpuStatMonitor.read_cpu
    (CpuStatMonitor.mk_loop cache (MonitorInfo.cpu_stat m) CpuStatMonitor.zero_totals
       CpuStatMonitor.zero_totals false) es).
  intros [cm ms ac ao hb] (H1 & H2 & H3 & H4 & H5). cbn in H1, H2, H3, H4, H5 |- *. subst.
  assert (Hout : forall l, (if match CpuReading.known cache es with [] => false | _ => true end
      then (MonitorInfo.cpu_stat m ++ omap (CpuReading.spec_cpu cache) es) ++ option_list l
      else MonitorInfo.cpu_stat m ++ omap (CpuReading.spec_cpu cache) es) =
    MonitorInfo.cpu_stat m ++ omap (CpuReading.spec_cpu cache) es ++
    option_list (match CpuReading.known cache es with [] => None | _ => l end)).
  { intros l. destruct (CpuReading.known cache es); cbn; [by rewrite app_nil_r|by rewrite <- app_assoc]. }
  rewrite Hout. split.
  - unfold CpuReading.spec_all. by destruct (CpuReading.known cache es).
  - intros ->. assert (Hk : CpuReading.known ∅ es = []).
    { clear. induction es as [|e es IH]; [done|]. by rewrite CpuReading.known_cons, lookup_empty. }
    assert (Ho : omap (CpuReading.spec_cpu ∅) es = []).
    { clear. induction es as [|e es IH]; [done|].
      rewrite omap_cons_app, IH. unfold CpuReading.spec_cpu. by rewrite lookup_empty. }
    rewrite Hk, Ho. cbn. rewrite app_nil_r. by destruct m.
Qed.

(** Two readings of one CPU; between them 30 of 40 jiffies were busy. *)
Definition busy_cpu (u i : Z) : CpuStatCollector.cpu_stat :=
  CpuStatCollector.mk_cpu_stat (snprintf_into (replicate 16 0) "cpu0") u 0 0 i 0 0 0 0 0 0.

Lemma cpu_stat_update_spec_witness :
  CpuStat.cpu_percent <$>
    MonitorInfo.cpu_stat (snd (CpuStatMonitor.updateOnce (Some [busy_cpu 130 60])
      {["cpu0" := CpuStatMonitor.cached_of (busy_cpu 100 50)]} MonitorInfo.empty))
  = [f32_of_Z 75; f32_of_Z 75].
Proof.
  destruct (cpu_stat_update_spec [busy_cpu 130 60]
    {["cpu0" := CpuStatMonitor.cached_of (busy_cpu 100 50)]} MonitorInfo.empty) as [H _].
  - vm_compute. apply NoDup_singleton.
  - rewrite H. vm_compute. reflexivity.
Defined.

(** [CpuLoadMonitor] reports the text "cpu0" as the load.  On a machine whose
    first possible CPU is 0, once the statistics module is loaded, the three
    load averages are the first twelve bytes of the table, a CPU name, read as
    floats: the 1-minute load is always 0x30757063 read as a float (about
    9e-10) and the two others are 0, whatever the real load is. *)
Theorem cpu_load_reads_cpu_name k rest tbl proc m :
  possible k = 0 :: rest -> Forall cpu_number (possible k) ->
  CpuStatCollector.update_cpu_stats k (replicate MAX_CPUS CpuStatCollector.zero_cpu_stat) = Some tbl ->
  MonitorInfo.cpu_load
    (CpuLoadMonitor.updateOnce (Some (CpuLoadMonitor.device_prefix tbl)) proc m) =
  Some (CpuLoad.mk (f32_of_bits 813002851) fzero fzero).
Proof.
  intros Hp Hk Hu.
  assert (Hn : CpuStatCollector.cpu_name <$> head tbl = Some (snprintf_into (replicate 16 0) "cpu0")).
  { unfold CpuStatCollector.update_cpu_stats, update_table in Hu. rewrite Hp in Hu.
    apply bind_Some in Hu as ([idx t] & Hf & Hu).
    cbn [fill_table] in Hf.
    destruct (MAX_CPUS <=? 0)%nat eqn:E0; [done|].
    apply bind_Some in Hf as (e & He & Hf). cbn in He. simplify_eq.
    destruct (fill_table_spec (CpuStatCollector.fill_cpu_stat k) (fun _ => True) (fun _ _ _ => I)
      MAX_CPUS rest 1 (<[0%nat := CpuStatCollector.fill_cpu_stat k 0 CpuStatCollector.zero_cpu_stat]>
        (replicate MAX_CPUS CpuStatCollector.zero_cpu_stat))) as (t' & Hf' & Hl & _ & Hpre & _);
      [done|unfold MAX_CPUS; lia|by apply Forall_true|].
    rewrite Hf' in Hf. simplify_eq. specialize (Hpre 0%nat ltac:(lia)). cbn in Hpre.
    destruct t as [|e0 t]; [done|]. cbn in Hpre. simplify_eq.
    destruct (_ <? _)%nat; [|by simplify_eq].
    apply bind_Some in Hu as (e1 & _ & Hu). simplify_eq.
    destruct (MAX_CPUS `min` (1 + length rest))%nat eqn:Em; [unfold MAX_CPUS in Em; lia|]. done. }
  destruct tbl as [|e tbl]; [done|]. cbn in Hn. unfold CpuLoadMonitor.updateOnce; cbn.
  injection Hn as ->. vm_compute. reflexivity.
Qed.

Lemma cpu_load_reads_cpu_name_witness :
  exists tbl, CpuStatCollector.update_cpu_stats sample_kernel
      (replicate MAX_CPUS CpuStatCollector.zero_cpu_stat) = Some tbl /\
  MonitorInfo.cpu_load (CpuLoadMonitor.updateOnce (Some (CpuLoadMonitor.device_prefix tbl))
      (Some (3, (f32_of_Z 4, f32_of_Z 3, f32_of_Z 2))) MonitorInfo.empty) =
    Some (CpuLoad.mk (f32_of_bits 813002851) fzero fzero).
Proof.
  destruct (update_cpu_stats_spec sample_kernel (replicate MAX_CPUS CpuStatCollector.zero_cpu_stat)
    MAX_CPUS sample_kernel_numbers) as (t & Ht & _).
  - split; [done|]. by apply Forall_replicate.
  - done.
  - exists t. split; [exact Ht|].
    apply (cpu_load_reads_cpu_name sample_kernel [1] t); [reflexivity|exact sample_kernel_numbers|exact Ht].
Defined.
