(* ===== verification/ProcMonitors.v ===== *)
(** * ProcMonitors: reading files word by word, and the memory monitor

    [src/worker/src/utils/ReadFile.cpp], which reads a file line by line and
    splits the lines into words, and [MemMonitor.cpp] of
    [src/worker/src/monitor/], which reads [/proc/meminfo] with it.  A file is its text, or [None] when it cannot be
    opened.  A local variable without an initial value is an [option]: reading
    it before it is set is undefined. *)

From S2P Require Import Prelude CFloat CString Streams Messages.
From Stdlib Require Import Ascii.

(** ** ReadFile.cpp *)

Record ReadFile := mk_ReadFile { file_ : option istream }.

Definition open_file (contents : option string) : ReadFile :=
  mk_ReadFile (istringstream <$> contents).

(** [while (!iss.eof())]: one word per turn; [None] when the fuel is not
    enough. *)
Fixpoint read_words (fuel : nat) (iss : istream) (args : list string) : option (list string) :=
  match fuel with
  | O => None
  | S fuel =>
      if eof iss then Some args
      else let '(word, iss) := get_word iss in read_words fuel iss (args ++ [default "" word])
  end.

Definition ReadLine (f : ReadFile) (args : list string) : res (bool * list string * ReadFile) :=
  match file_ f with
  | None => Done (false, args, f)
  | Some s =>
      let '(line, s) := getline newline s in
      let line := default "" line in
      if eof s || is_empty line then Done (false, args, mk_ReadFile (Some s))
      else
        args ← or_undefined (read_words (S (S (String.length line))) (istringstream line) args);
        Done (true, args, mk_ReadFile (Some s))
  end.

(** ** MemMonitor.cpp *)
Module MemMonitor.

(** The fields of [MenInfo]. *)
Inductive field :=
| Total | Free | Avail | Buffers | Cached | SwapCached | Active | InActive | ActiveAnon
| InactiveAnon | ActiveFile | InactiveFile | Dirty | Writeback | AnonPages | Mapped
| KReclaimable | SReclaimable | SUnreclaim.

#[export] Instance field_eq_dec : EqDecision field.
Proof. solve_decision. Defined.

Definition MenInfo : Type := field -> option Z.
Definition no_info : MenInfo := fun _ => None.
Definition set_field (f : field) (v : Z) (m : MenInfo) : MenInfo :=
  fun g => if decide (g = f) then Some v else m g.

(** The word that starts the line of a field. *)
Definition key_of (f : field) : string :=
  match f with
  | Total => "MemTotal:" | Free => "MemFree:" | Avail => "MemAvailable:"
  | Buffers => "Buffers:" | Cached => "Cached:" | SwapCached => "SwapCached:"
  | Active => "Active:" | InActive => "Inactive:" | ActiveAnon => "Active(anon):"
  | InactiveAnon => "Inactive(anon):" | ActiveFile => "Active(file):"
  | InactiveFile => "Inactive(file):" | Dirty => "Dirty:" | Writeback => "Writeback:"
  | AnonPages => "AnonPages:" | Mapped => "Mapped:" | KReclaimable => "KReclaimable:"
  | SReclaimable => "SReclaimable:" | SUnreclaim => "SUnreclaim:"
  end.

Definition fields : list field :=
  [Total; Free; Avail; Buffers; Cached; SwapCached; Active; InActive; ActiveAnon; InactiveAnon;
   ActiveFile; InactiveFile; Dirty; Writeback; AnonPages; Mapped; KReclaimable; SReclaimable;
   SUnreclaim].

(** The chain of tests on [memDatas[0]]. *)
Fixpoint test_keys (fs : list field) (word : string) : option field :=
  match fs with
  | [] => None
  | f :: rest => if String.eqb word (key_of f) then Some f else test_keys rest word
  end.

(** One line: an access beyond the words is undefined, [std::stoll] may throw. *)
Definition store (memDatas : list string) (m : MenInfo) : res MenInfo :=
  word ← or_undefined (memDatas !! 0%nat);
  match test_keys fields word with
  | None => Done m
  | Some f =>
      text ← or_undefined (memDatas !! 1%nat);
      v ← or_throw (stoll text);
      Done (set_field f v m)
  end.

Fixpoint read_meminfo (fuel : nat) (memFile : ReadFile) (m : MenInfo) : res MenInfo :=
  match fuel with
  | O => Undefined
  | S fuel =>
      '(more, memDatas, memFile) ← ReadLine memFile [];
      if (more : bool) then m ← store memDatas m; read_meminfo fuel memFile m else Done m
  end.

Definition KBToGB : f32 := f32_of_Z 1000000.
Definition to_GB (v : Z) : f32 := f32_div (f32_of_Z v) KBToGB.

Definition used_percent_of (total used : Z) : f32 :=
  f32_of_f64 (f64_mul (f64_div (f64_mul (f64_of_Z used) (f64_of_Z 1)) (f64_of_Z total))
                (f64_of_Z 100)).

(** The subtraction of two [int64_t]. *)
Definition i64_checked (z : Z) : option Z :=
  if (LONG_MIN <=? z) && (z <=? LONG_MAX) then Some z else None.

Definition mem_message (m : MenInfo) : res MemInfo.t :=
  total ← or_undefined (m Total);
  avail ← or_undefined (m Avail);
  used ← or_undefined (i64_checked (total - avail));
  vs ← mapM (fun f => or_undefined (m f)) fields;
  match map to_GB vs with
  | [a; b; c; d; e; g; h; i; j; k; l; n; o; p; q; r; s; t; u] =>
      Done (MemInfo.mk a b c d e g h i j k l n o p q r s t u (used_percent_of total used))
  | _ => Undefined
  end.

Definition updateOnce (proc_meminfo : option string) (monitorInfo : MonitorInfo.t)
    : res MonitorInfo.t :=
  let fuel := match proc_meminfo with Some s => S (String.length s) | None => 1%nat end in
  m ← read_meminfo fuel (open_file proc_meminfo) no_info;
  detail ← mem_message m;
  Done (MonitorInfo.set_mem_info (Some detail) monitorInfo).

End MemMonitor.

(** ** Lemmas on lines and words *)

(** The words of a line as [ReadLine] appends them: white space at the end, or
    a line of white space, gives one more empty word. *)
Fixpoint line_words (s : string) : list string :=
  match s with
  | EmptyString => [""]
  | String c r =>
      if is_space c then line_words r
      else
        match r with
        | EmptyString => [String c ""]
        | String c' _ =>
            if is_space c' then String c "" :: line_words r
            else match line_words r with w :: ws => String c w :: ws | [] => [String c ""] end
        end
  end.

Lemma line_words_skip s : line_words (skip_spaces s) = line_words s.
Proof.
  induction s as [|c s IH]; [done|]. cbn [skip_spaces].
  destruct (is_space c) eqn:E; [|done].  rewrite IH. cbn [line_words]. by rewrite E.
Qed.

Lemma line_words_take c r :
  is_space c = false ->
  line_words (String c r) =
    let '(w, rest) := take_word (String c r) in
    w :: (if is_empty rest then [] else line_words rest).
Proof.
  revert c. induction r as [|c' r IH]; intros c Hc; [cbn; by rewrite Hc|].
  change (line_words (String c (String c' r))) with
    (if is_space c then line_words (String c' r)
     else if is_space c' then String c "" :: line_words (String c' r)
     else match line_words (String c' r) with w :: ws => String c w :: ws | [] => [String c ""] end).
  rewrite Hc. cbn [take_word]. rewrite Hc. destruct (is_space c') eqn:Hc'; [done|].
  rewrite (IH c' Hc'). cbn [take_word]. rewrite Hc'. by destruct (take_word r) as [w rest].
Qed.

Lemma take_word_shorter c r w rest :
  is_space c = false -> take_word (String c r) = (w, rest) ->
  (String.length rest < S (String.length r))%nat.
Proof.
  intros Hc. cbn [take_word]. rewrite Hc. destruct (take_word r) as [w' rest'] eqn:E.
  intros [= _ <-]. clear Hc. revert w' rest' E. induction r as [|a r IH]; intros w' rest'; cbn [take_word String.length].
  { intros [= _ <-]. cbn. lia. }
  destruct (is_space a); [intros [= _ <-]; cbn; lia|].
  destruct (take_word r) as [w2 rest2]. intros [= _ <-]. specialize (IH _ _ eq_refl). lia.
Qed.

Lemma skip_spaces_length s : (String.length (skip_spaces s) <= String.length s)%nat.
Proof. induction s as [|c s IH]; cbn; [lia|]. destruct (is_space c); cbn; lia. Qed.

Lemma skip_spaces_head s c r : skip_spaces s = String c r -> is_space c = false.
Proof.
  induction s as [|a s IH]; cbn; [done|]. destruct (is_space a) eqn:E; [done|]. by intros [= <- _].
Qed.

Lemma read_words_S fuel iss args :
  read_words (S fuel) iss args =
    if eof iss then Some args
    else let '(word, iss) := get_word iss in read_words fuel iss (args ++ [default "" word]).
Proof. done. Qed.

(** The loop of [ReadLine] ends, with those words. *)
Lemma read_words_line_words fuel s args :
  (String.length s < fuel)%nat ->
  read_words (S fuel) (istringstream s) args = Some (args ++ line_words s).
Proof.
  revert s args. induction fuel as [|fuel IH]; intros s args Hf; [lia|].
  rewrite <- line_words_skip. pose proof (skip_spaces_length s).
  rewrite read_words_S. unfold get_word, sentry, istringstream. cbn [eof fail text orb].
  destruct (skip_spaces s) as [|c r] eqn:E; [done|].
  apply skip_spaces_head in E as Hc. rewrite line_words_take by done.
  cbn [text]. destruct (take_word (String c r)) as [w rest] eqn:Ew.
  apply take_word_shorter in Ew; [|done]. cbn [default id String.length] in *.
  destruct rest as [|c' r'] eqn:Er; [done|]. cbn [is_empty].
  specialize (IH (String c' r') (args ++ [w]) ltac:(lia)).
  unfold istringstream in IH. rewrite IH. by rewrite <- app_assoc.
Qed.

Lemma line_words_app w s :
  w <> "" -> no_space w = true -> at_break s = true ->
  line_words (w +++ s) = w :: (if is_empty s then [] else line_words s).
Proof.
  induction w as [|c w IH]; intros Hw Hs Hb; [done|]. cbn in Hs.
  apply andb_true_iff in Hs as [Hc Hs]. apply negb_true_iff in Hc. rewrite append_cons.
  destruct w as [|c' w].
  - change ("" +++ s) with s. destruct s as [|b s]; cbn [line_words]; rewrite Hc; [done|].
    cbn [at_break] in Hb. by rewrite Hb.
  - specialize (IH ltac:(done) Hs Hb). rewrite append_cons in *.
    cbn in Hs. apply andb_true_iff in Hs as [Hc' _]. apply negb_true_iff in Hc'.
    remember (w +++ s) as r eqn:Er. remember (is_empty s) as e eqn:Ee.
    change (line_words (String c (String c' r))) with
      (if is_space c then line_words (String c' r)
       else if is_space c' then String c "" :: line_words (String c' r)
       else match line_words (String c' r) with w :: ws => String c w :: ws | [] => [String c ""] end).
    by rewrite Hc, Hc', IH.
Qed.

(** ** Reading a file of ended lines *)

Lemma ReadLine_line l rest :
  l <> "" -> one_line l = true ->
  ReadLine (open_file (Some (l +++ String newline rest))) [] =
    Done (true, line_words l, open_file (Some rest)).
Proof.
  intros Hl H1. unfold ReadLine, open_file, getline. cbn [fmap option_fmap option_map file_].
  cbn [istringstream eof fail text orb]. rewrite split_at_app by done. cbn [default id eof orb].
  apply is_empty_false in Hl. rewrite Hl. rewrite read_words_line_words by lia. done.
Qed.

Lemma ReadLine_end args :
  ReadLine (open_file (Some "")) args = Done (false, args, mk_ReadFile (Some (mk_istream "" true true))).
Proof. done. Qed.

(** ** MemMonitor: the reading of a file in the format of the kernel *)
Module MemReading.
Import MemMonitor.

(** A line of [/proc/meminfo]: the key, blanks, the value and a unit. *)
Record entry := mk_entry { e_key : string; e_pad : nat; e_value : Z; e_kB : bool }.

Definition print_entry (e : entry) : string :=
  e_key e +++ blanks (S (e_pad e)) (to_string (e_value e) +++ (if e_kB e then " kB" else "")).

Definition entry_ok (e : entry) : Prop :=
  e_key e <> "" /\ no_space (e_key e) = true /\ 0 <= e_value e <= LONG_MAX.

Definition print_meminfo (es : list entry) : string := unlines newline (map print_entry es).

Definition words_of (e : entry) : list string :=
  e_key e :: to_string (e_value e) :: (if e_kB e then ["kB"] else []).

Lemma line_words_blanks n s : line_words (blanks n s) = line_words s.
Proof. by induction n. Qed.

Lemma line_words_print e : entry_ok e -> line_words (print_entry e) = words_of e.
Proof.
  intros (Hne & Hk & Hv). unfold print_entry, words_of.
  rewrite line_words_app by done. cbn [blanks is_empty]. f_equal.
  transitivity (line_words (to_string (e_value e) +++ (if e_kB e then " kB" else ""))).
  { apply (line_words_blanks (S (e_pad e))). }
  rewrite line_words_app; [|apply to_string_ne|apply no_space_to_string|]; by destruct (e_kB e).
Qed.

Lemma one_line_blanks n s : one_line (blanks n s) = one_line s.
Proof. by induction n. Qed.

Lemma one_line_print e : entry_ok e -> one_line (print_entry e) = true.
Proof.
  intros (_ & Hk & _). unfold print_entry, one_line. rewrite str_all_app.
  apply andb_true_iff. split; [by apply no_space_one_line|].
  apply (eq_trans (one_line_blanks _ _)). unfold one_line. rewrite str_all_app.
  apply andb_true_iff. split; [apply no_space_one_line, no_space_to_string|by destruct (e_kB e)].
Qed.

Lemma print_entry_ne e : entry_ok e -> print_entry e <> "".
Proof. intros (Hne & _). unfold print_entry. by destruct (e_key e). Qed.

(** The fields after a list of lines. *)
Definition step (m : MenInfo) (e : entry) : MenInfo :=
  match test_keys fields (e_key e) with Some f => set_field f (e_value e) m | None => m end.

Lemma store_words e m : entry_ok e -> store (words_of e) m = Done (step m e).
Proof.
  intros (_ & _ & Hv). unfold store, step, words_of. cbn -[test_keys fields stoll].
  destruct (test_keys fields (e_key e)); [|done]. by rewrite stoll_to_string.
Qed.

Lemma read_meminfo_print es : forall fuel m,
  Forall entry_ok es -> (length es < fuel)%nat ->
  read_meminfo fuel (open_file (Some (print_meminfo es))) m = Done (foldl step m es).
Proof.
  induction es as [|e es IH]; intros [|fuel] m Hok Hf; [lia|done|cbn in Hf; lia|].
  apply Forall_cons in Hok as [He Hes].
  unfold print_meminfo. cbn [map unlines foldr read_meminfo]. fold (unlines newline (map print_entry es)).
  rewrite ReadLine_line by auto using print_entry_ne, one_line_print.
  rewrite line_words_print by done. cbn [mbind]. unfold mbind, res_bind.
  rewrite store_words by done. apply IH; [done|cbn in Hf; lia].
Qed.

Lemma test_keys_spec f : test_keys fields (key_of f) = Some f.
Proof. by destruct f. Qed.

Lemma test_keys_key w f : test_keys fields w = Some f -> w = key_of f.
Proof.
  generalize fields. intros fs. induction fs as [|g fs IH]; cbn; [done|].
  destruct (String.eqb w (key_of g)) eqn:E; [|done].
  apply String.eqb_eq in E. by intros [= <-].
Qed.

Lemma step_other m e f : e_key e <> key_of f -> step m e f = m f.
Proof.
  intros Hk. unfold step. destruct (test_keys fields (e_key e)) as [g|] eqn:E; [|done].
  apply test_keys_key in E. unfold set_field. rewrite decide_False; [done|]. congruence.
Qed.

Lemma step_same m e f : e_key e = key_of f -> step m e f = Some (e_value e).
Proof.
  intros Hk. unfold step. rewrite Hk, test_keys_spec. unfold set_field. by rewrite decide_True.
Qed.

Lemma foldl_step_absent es : forall m f,
  Forall (fun e => e_key e <> key_of f) es -> foldl step m es f = m f.
Proof.
  induction es as [|e es IH]; intros m f H; [done|]. apply Forall_cons in H as [He H]. cbn.
  by rewrite IH, step_other.
Qed.

Lemma foldl_step_present es m f e :
  NoDup (map e_key es) -> e ∈ es -> e_key e = key_of f -> foldl step m es f = Some (e_value e).
Proof.
  intros Hnd Hin Hk. apply list_elem_of_split in Hin as (l1 & l2 & ->).
  rewrite map_app in Hnd. apply NoDup_app in Hnd as (_ & _ & Hnd).
  cbn in Hnd. apply NoDup_cons in Hnd as [Hni _].
  rewrite foldl_app. cbn. rewrite foldl_step_absent; [by apply step_same|].
  apply Forall_forall. intros x Hx Heq. apply Hni. rewrite Hk, <- Heq.
  by apply list_elem_of_fmap_2.
Qed.

Lemma length_unlines d ls : (length ls <= String.length (unlines d ls))%nat.
Proof.
  induction ls as [|l ls IH]; [done|]. cbn [unlines foldr length]. fold (unlines d ls).
  rewrite length_append. cbn [String.length]. lia.
Qed.

Lemma updateOnce_print es mi :
  Forall entry_ok es ->
  updateOnce (Some (print_meminfo es)) mi =
    (detail ← mem_message (foldl step no_info es);
     Done (MonitorInfo.set_mem_info (Some detail) mi)).
Proof.
  intros Hok. unfold updateOnce. rewrite read_meminfo_print; [done|done|].
  unfold print_meminfo. pose proof (length_unlines newline (map print_entry es)) as H.
  rewrite length_map in H. lia.
Qed.

(** The message of a set of values. *)
Definition detail_of (info : field -> Z) : MemInfo.t :=
  MemInfo.mk (to_GB (info Total)) (to_GB (info Free)) (to_GB (info Avail)) (to_GB (info Buffers))
    (to_GB (info Cached)) (to_GB (info SwapCached)) (to_GB (info Active)) (to_GB (info InActive))
    (to_GB (info ActiveAnon)) (to_GB (info InactiveAnon)) (to_GB (info ActiveFile))
    (to_GB (info InactiveFile)) (to_GB (info Dirty)) (to_GB (info Writeback))
    (to_GB (info AnonPages)) (to_GB (info Mapped)) (to_GB (info KReclaimable))
    (to_GB (info SReclaimable)) (to_GB (info SUnreclaim))
    (used_percent_of (info Total) (info Total - info Avail)).

Lemma mem_message_all m info :
  (forall f, m f = Some (info f)) -> (forall f, 0 <= info f <= LONG_MAX) ->
  mem_message m = Done (detail_of info).
Proof.
  intros Hm Hr. unfold mem_message, detail_of. rewrite !Hm.
  pose proof (Hr Total). pose proof (Hr Avail).
  assert (Hc : i64_checked (info Total - info Avail) = Some (info Total - info Avail)).
  { unfold i64_checked. rewrite (proj2 (Z.leb_le _ _)), (proj2 (Z.leb_le _ _)); [done|..]; wrap_unfold; lia. }
  cbn -[i64_checked to_GB used_percent_of]. rewrite Hc. cbn -[to_GB used_percent_of].
  rewrite !Hm. done.
Qed.

Lemma mapM_undefined (m : MenInfo) fs f :
  f ∈ fs -> m f = None -> mapM (M := res) (fun f => or_undefined (m f)) fs = Undefined.
Proof.
  intros Hin Hf. induction Hin as [f fs|f g fs Hin IH]; cbn; [by rewrite Hf|].
  destruct (m g); [|done]. cbn. cbn in IH. by rewrite (IH Hf).
Qed.

Lemma mem_message_missing m f : m f = None -> mem_message m = Undefined.
Proof.
  intros Hf. unfold mem_message.
  destruct (m Total) as [t|]; [|done]. destruct (m Avail) as [a|]; [|done].
  cbn -[mapM fields i64_checked]. destruct (i64_checked (t - a)); [|done]. cbn -[mapM fields].
  rewrite (mapM_undefined m fields f); [done| |done]. unfold fields. destruct f; set_solver.
Qed.

(** C34. On a [/proc/meminfo] in the kernel's format -- one line per key: the
    key, blanks, a value and possibly a unit, in any order and with any other
    keys -- that has all nineteen keys the monitor knows, [updateOnce] sets the
    message that holds each of those values divided by a million, and the
    percentage of what is not available. *)
Theorem mem_monitor_reads es info mi :
  Forall entry_ok es -> NoDup (map e_key es) ->
  (forall f, exists pad kB, mk_entry (key_of f) pad (info f) kB ∈ es) ->
  updateOnce (Some (print_meminfo es)) mi =
    Done (MonitorInfo.set_mem_info (Some (detail_of info)) mi).
Proof.
  intros Hok Hnd Hall. rewrite updateOnce_print by done.
  rewrite (mem_message_all _ info); [done|..]; intros f; destruct (Hall f) as (pad & kB & Hin).
  - by rewrite (foldl_step_present es no_info f _ Hnd Hin).
  - rewrite Forall_forall in Hok. by apply (Hok _ Hin).
Qed.

(** When a line for one of those keys is not in the file (the kernel before
    4.20 prints no [KReclaimable:]), [updateOnce] reads a field that nothing
    has set: [MenInfo] has no initial values. *)
Theorem mem_monitor_missing_field es f mi :
  Forall entry_ok es -> Forall (fun e => e_key e <> key_of f) es ->
  updateOnce (Some (print_meminfo es)) mi = Undefined.
Proof.
  intros Hok Habs. rewrite updateOnce_print by done.
  by rewrite (mem_message_missing _ f) by (by rewrite foldl_step_absent).
Qed.

Definition sample_entries : list entry :=
  mk_entry "HugePages_Total:" 7 0 false ::
  map (fun f => mk_entry (key_of f) 3 (16000000 + Z.of_nat (String.length (key_of f))) true) fields.

Lemma sample_entries_ok : Forall entry_ok sample_entries.
Proof. unfold sample_entries, entry_ok. cbn. repeat constructor; done. Qed.

Lemma mem_monitor_reads_witness :
  updateOnce (Some (print_meminfo sample_entries)) MonitorInfo.empty =
    Done (MonitorInfo.set_mem_info
            (Some (detail_of (fun f => 16000000 + Z.of_nat (String.length (key_of f)))))
            MonitorInfo.empty).
Proof.
  apply mem_monitor_reads.
  - apply sample_entries_ok.
  - apply (bool_decide_unpack _). vm_compute. done.
  - intros f. exists 3%nat, true. unfold sample_entries. destruct f; set_solver.
Defined.

Lemma mem_monitor_missing_field_witness :
  updateOnce (Some (print_meminfo (take 18 sample_entries))) MonitorInfo.empty = Undefined.
Proof.
  apply (mem_monitor_missing_field _ SUnreclaim).
  - apply Forall_take, sample_entries_ok.
  - apply (bool_decide_unpack _). vm_compute. done.
Defined.

End MemReading.
