(* ===== verification/DeviceMonitors.v ===== *)
(** * DeviceMonitors: the monitors of network interfaces and disks

    [NetMonitor.cpp], which reads [/proc/net/dev] and is built when eBPF is
    disabled, and [DiskMonitor.cpp], which reads [/proc/diskstats]
    ([src/worker/src/monitor/]).  A file is its text, or [None] when it cannot
    be opened; the clocks are arguments. *)

From S2P Require Import Prelude CFloat CString Streams Messages.
From Stdlib Require Import Ascii.

(** ** NetMonitor.cpp *)
Module NetMonitor.

Record NetStat := mk_NetStat {
  name : string;
  rcv_bytes : Z; rcv_packets : Z; snd_bytes : Z; snd_packets : Z;
  err_in : Z; err_out : Z; drop_in : Z; drop_out : Z }.

(** [struct NetInfo]: the same fields, and a steady-clock time in nanoseconds. *)
Record NetInfo := mk_NetInfo { last_stat : NetStat; timepoint : Z }.

(** The turn of the loop for one line; [Done None] is [continue].  A member of
    [stat] that no read has set makes the copy into the vector undefined. *)
Definition read_line (line : string) : res (option NetStat) :=
  let '(word, iss) := get_word (istringstream line) in
  let iface := default "" word in
  if is_empty iface then Done None
  else
    let iface := pop_back_if ":" iface in
    if String.eqb iface "lo" then Done None
    else
      let '(received, iss) := get_u64s 4 iss in
      let '(dummy, iss) := get_u64s 4 iss in
      let '(sent, iss) := get_u64s 4 iss in
      match received, sent with
      | [Some rb; Some rp; Some ei; Some di], [Some sb; Some sp; Some eo; Some do_] =>
          Done (Some (mk_NetStat iface rb rp sb sp ei eo di do_))
      | _, _ => Undefined
      end.

Fixpoint read_lines (lines : list string) (stats : list NetStat) : res (list NetStat) :=
  match lines with
  | [] => Done stats
  | line :: lines =>
      stat ← read_line line;
      read_lines lines (stats ++ option_list stat)
  end.

Definition GetNetStatsFromProc (proc_net_dev : option string) : res (list NetStat) :=
  match proc_net_dev with
  | None => Done []
  | Some contents =>
      let '(_, file) := getline newline (istringstream contents) in
      let '(_, file) := getline newline file in
      lines ← or_undefined (getlines (S (String.length contents)) newline file);
      read_lines lines []
  end.

(** [std::chrono::duration<double>(a - b).count()]. *)
Definition seconds_between (a b : Z) : f64 := f64_div (f64_of_Z (a - b)) (f64_of_Z 1000000000).

(** The four rates: bytes and packets received, bytes and packets sent. *)
Definition rates_of (now : Z) (last : option NetInfo) (stat : NetStat) : f64 * f64 * f64 * f64 :=
  match last with
  | Some last =>
      let dt := seconds_between now (timepoint last) in
      let old := last_stat last in
      if fgt dt fzero then
        (f64_div (f64_div (f64_of_Z (u64_sub (rcv_bytes stat) (rcv_bytes old))) (f64_of_Z 1024)) dt,
         f64_div (f64_of_Z (u64_sub (rcv_packets stat) (rcv_packets old))) dt,
         f64_div (f64_div (f64_of_Z (u64_sub (snd_bytes stat) (snd_bytes old))) (f64_of_Z 1024)) dt,
         f64_div (f64_of_Z (u64_sub (snd_packets stat) (snd_packets old))) dt)
      else (fzero, fzero, fzero, fzero)
  | None => (fzero, fzero, fzero, fzero)
  end.

Definition message_of (now : Z) (last : option NetInfo) (stat : NetStat) : NetInfo.t :=
  let '(rcv, rcv_p, snd, snd_p) := rates_of now last stat in
  NetInfo.mk (name stat) (f32_of_f64 snd) (f32_of_f64 rcv) (f32_of_f64 snd_p) (f32_of_f64 rcv_p)
    (err_in stat) (err_out stat) (drop_in stat) (drop_out stat).

Definition read_stat (now : Z) (st : gmap string NetInfo * list NetInfo.t) (stat : NetStat)
    : gmap string NetInfo * list NetInfo.t :=
  let '(lastNetInfo_, out) := st in
  (<[name stat := mk_NetInfo stat now]> lastNetInfo_,
   out ++ [message_of now (lastNetInfo_ !! name stat) stat]).

Definition updateOnce (proc_net_dev : option string) (now : Z)
    (lastNetInfo_ : gmap string NetInfo) (m : MonitorInfo.t)
    : res (gmap string NetInfo * MonitorInfo.t) :=
  stats ← GetNetStatsFromProc proc_net_dev;
  let '(cache, out) := foldl (read_stat now) (lastNetInfo_, MonitorInfo.net_info m) stats in
  Done (cache, MonitorInfo.set_net_info out m).

End NetMonitor.

(** ** DiskMonitor.cpp *)
Module DiskMonitor.

Record DiskSample := mk_DiskSample {
  reads : Z; writes : Z; sectors_read : Z; sectors_written : Z;
  read_time_ms : Z; write_time_ms : Z; io_in_progress : Z; io_time_ms : Z;
  weighted_io_time_ms : Z }.

(** The two static maps. *)
Record state := mk_state {
  lastSamples : gmap string DiskSample;
  lastTime : gmap string f64
}.

Definition counterDelta (current previous : Z) : f64 :=
  if previous <=? current then f64_of_Z (current - previous) else fzero.

(** The chain of extractions of a line; [None] when the stream has failed. *)
Definition read_sample (line : string) : option (string * DiskSample) :=
  let '(major, iss) := get_int (istringstream line) in
  let '(minor, iss) := get_int iss in
  let '(name, iss) := get_word iss in
  let '(numbers, iss) := get_u64s 11 iss in
  if fail iss then None
  else
    match map (default 0) numbers with
    | [r; _; sr; rt; w; _; sw; wt; io; iot; wio] =>
        Some (default "" name, mk_DiskSample r w sr sw rt wt io iot wio)
    | _ => None
    end.

(** [name.find("loop") == 0 || name.find("ram") == 0]. *)
Definition virtual_disk (name : string) : bool :=
  String.prefix "loop" name || String.prefix "ram" name.

(** The rates of a disk, in the order of [DiskInfo]. *)
Record rates := mk_rates {
  read_bytes_per_sec : f64; write_bytes_per_sec : f64; read_iops : f64; write_iops : f64;
  avg_read_latency_ms : f64; avg_write_latency_ms : f64; util_percent : f64 }.

Definition no_rates : rates := mk_rates fzero fzero fzero fzero fzero fzero fzero.

Definition rates_between (last curr : DiskSample) (dt : f64) : rates :=
  let read_ios := counterDelta (reads curr) (reads last) in
  let write_ios := counterDelta (writes curr) (writes last) in
  let read_bytes :=
    f64_mul (counterDelta (sectors_read curr) (sectors_read last)) (f64_of_Z 512) in
  let write_bytes :=
    f64_mul (counterDelta (sectors_written curr) (sectors_written last)) (f64_of_Z 512) in
  let read_time := counterDelta (read_time_ms curr) (read_time_ms last) in
  let write_time := counterDelta (write_time_ms curr) (write_time_ms last) in
  let io_time := counterDelta (io_time_ms curr) (io_time_ms last) in
  mk_rates (f64_div read_bytes dt) (f64_div write_bytes dt) (f64_div read_ios dt)
    (f64_div write_ios dt)
    (if fgt read_ios fzero then f64_div read_time read_ios else fzero)
    (if fgt write_ios fzero then f64_div write_time write_ios else fzero)
    (f64_div io_time (f64_mul dt (f64_of_Z 10))).

Definition rates_of (now : f64) (last : option DiskSample) (time : option f64)
    (curr : DiskSample) : rates :=
  let dt := f64_sub now (default fzero time) in
  match last with
  | Some last => if fgt dt fzero then rates_between last curr dt else no_rates
  | None => no_rates
  end.

Definition message_of (name : string) (c : DiskSample) (r : rates) : DiskInfo.t :=
  DiskInfo.mk name (reads c) (writes c) (sectors_read c) (sectors_written c) (read_time_ms c)
    (write_time_ms c) (io_in_progress c) (io_time_ms c) (weighted_io_time_ms c)
    (read_bytes_per_sec r) (write_bytes_per_sec r) (read_iops r) (write_iops r)
    (avg_read_latency_ms r) (avg_write_latency_ms r) (util_percent r).

(** The turn of the loop for one line. *)
Definition read_line (now : f64) (st : state * list DiskInfo.t) (line : string)
    : state * list DiskInfo.t :=
  let '(s, out) := st in
  match read_sample line with
  | None => st
  | Some (name, curr) =>
      if virtual_disk name then st
      else
        let r := rates_of now (lastSamples s !! name) (lastTime s !! name) curr in
        (mk_state (<[name := curr]> (lastSamples s)) (<[name := now]> (lastTime s)),
         out ++ [message_of name curr r])
  end.

(** [time] is the result of [::time]. *)
Definition updateOnce (proc_diskstats : option string) (time : Z) (s : state)
    (m : MonitorInfo.t) : option (state * MonitorInfo.t) :=
  let contents := default "" proc_diskstats in
  lines ← getlines (S (String.length contents)) newline (istringstream contents);
  let '(s, out) := foldl (read_line (f64_of_Z time)) (s, MonitorInfo.disk_info m) lines in
  Some (s, MonitorInfo.set_disk_info out m).

End DiskMonitor.

(** ** NetMonitor: the reading of a file in the format of the kernel *)
Module NetReading.
Import NetMonitor.

(** A line of [/proc/net/dev]: blanks, the name, a colon, sixteen counters. *)
Record dev := mk_dev { d_pad : nat; d_name : string; d_counters : list (nat * Z) }.

Definition print_dev (d : dev) : string :=
  blanks (d_pad d) (d_name d +++ ":" +++ columns (d_counters d) "").

Definition dev_ok (d : dev) : Prop :=
  d_name d <> "" /\ no_space (d_name d) = true /\ length (d_counters d) = 16%nat /\
  u64s_ok (d_counters d).

Definition print_net_dev (title1 title2 : string) (ds : list dev) : string :=
  unlines newline (title1 :: title2 :: map print_dev ds).

Definition counter (d : dev) (k : nat) : Z := default 0 (snd <$> d_counters d !! k).

Definition stat_of (d : dev) : NetStat :=
  mk_NetStat (d_name d) (counter d 0) (counter d 1) (counter d 8) (counter d 9)
    (counter d 2) (counter d 10) (counter d 3) (counter d 11).

Lemma read_line_print d :
  dev_ok d ->
  read_line (print_dev d) = Done (if String.eqb (d_name d) "lo" then None else Some (stat_of d)).
Proof.
  intros (Hne & Hns & Hlen & Hv). unfold read_line, print_dev. rewrite <- append_assoc.
  rewrite get_word_app; [|by destruct (d_name d)|by rewrite no_space_app, Hns|by destruct (d_counters d) as [|[]]].
  cbn [default id]. assert (He : is_empty (d_name d +++ ":") = false) by (by destruct (d_name d)).
  rewrite He, (pop_back_if_app ":"). destruct (String.eqb (d_name d) "lo"); [done|].
  change (mk_istream ?r (is_empty ?r) false) with (after r).
  rewrite get_u64s_take by (done || lia). rewrite get_u64s_take by (rewrite ?length_drop; (by apply Forall_drop) || done || lia).
  rewrite get_u64s_take by (rewrite ?length_drop; (by repeat apply Forall_drop) || done || lia).
  unfold stat_of, counter. destruct (d_counters d) as [|c0 cs]; [done|].
  do 15 (destruct cs as [|? cs]; [done|]). done.
Qed.

Lemma read_lines_print ds : forall stats,
  Forall dev_ok ds ->
  read_lines (map print_dev ds) stats =
    Done (stats ++ map stat_of (filter (fun d => d_name d <> "lo") ds)).
Proof.
  induction ds as [|d ds IH]; intros stats Hok; cbn [map read_lines]; [by rewrite app_nil_r|].
  apply Forall_cons in Hok as [Hd Hok]. rewrite read_line_print by done.
  unfold mbind, res_bind. rewrite IH by done. rewrite filter_cons.
  destruct (String.eqb_spec (d_name d) "lo"); case_decide; try done.
  - cbn. by rewrite app_nil_r.
  - cbn. by rewrite <- app_assoc.
Qed.

Lemma print_dev_line d : dev_ok d -> one_line (print_dev d) = true.
Proof.
  intros (_ & Hns & _). unfold print_dev, one_line.
  transitivity (str_all (fun c => negb (Ascii.eqb c newline))
                  (d_name d +++ ":" +++ columns (d_counters d) "")).
  { by induction (d_pad d). }
  rewrite str_all_app. apply andb_true_iff. split; [by apply no_space_one_line|]. by apply one_line_columns.
Qed.

Lemma read_net_dev title1 title2 ds :
  one_line title1 = true -> one_line title2 = true -> Forall dev_ok ds ->
  GetNetStatsFromProc (Some (print_net_dev title1 title2 ds)) =
    Done (map stat_of (filter (fun d => d_name d <> "lo") ds)).
Proof.
  intros H1 H2 Hok. unfold GetNetStatsFromProc, print_net_dev. cbn [unlines foldr].
  fold (unlines newline (map print_dev ds)).
  rewrite getline_line by done. rewrite getline_line by done.
  rewrite getlines_pieces; [|rewrite !length_append; cbn [String.length]; rewrite length_append; cbn; lia].
  rewrite pieces_unlines; [by apply (read_lines_print ds [])|].
  apply Forall_map. eapply Forall_impl; [exact Hok|]. apply print_dev_line.
Qed.

(** The cache after a reading. *)
Definition cache_after (now : Z) (last : gmap string NetInfo) (stats : list NetStat) :=
  foldl (fun c s => <[name s := mk_NetInfo s now]> c) last stats.

Lemma foldl_read_stat now last out stats :
  NoDup (map name stats) ->
  foldl (read_stat now) (last, out) stats =
    (cache_after now last stats,
     out ++ map (fun s => message_of now (last !! name s) s) stats).
Proof.
  apply (foldl_sampling name (fun (c : gmap string NetInfo) n => c !! n)
           (fun c s => <[name s := mk_NetInfo s now]> c) (message_of now)); [done|].
  intros c s n Hn. by rewrite lookup_insert_ne.
Qed.

Lemma map_name_stat_of ds : map name (map stat_of ds) = map d_name ds.
Proof. by rewrite map_map. Qed.

(** C33. [NetMonitor::updateOnce] on a [/proc/net/dev] in the kernel's format --
    two title lines, then one line per interface with its name, a colon and
    sixteen 64-bit counters, no name twice -- reports every interface but [lo]
    once and in order, with its own counters and the rates since the reading
    that was cached for that name before the call, and caches exactly these
    readings. *)
Theorem net_monitor_reads title1 title2 ds now last m :
  one_line title1 = true -> one_line title2 = true ->
  Forall dev_ok ds -> NoDup (map d_name ds) ->
  let stats := map stat_of (filter (fun d => d_name d <> "lo") ds) in
  updateOnce (Some (print_net_dev title1 title2 ds)) now last m =
    Done (cache_after now last stats,
          MonitorInfo.set_net_info
            (MonitorInfo.net_info m ++ map (fun s => message_of now (last !! name s) s) stats) m).
Proof.
  intros H1 H2 Hok Hnd stats. unfold updateOnce. rewrite read_net_dev by done.
  unfold mbind, res_bind. fold stats. rewrite foldl_read_stat; [done|].
  unfold stats. rewrite map_name_stat_of.
  apply (sublist_NoDup _ (map d_name ds)); [done|by apply fmap_sublist, sublist_filter].
Qed.

Definition sample_dev (n : string) (base : Z) : dev :=
  mk_dev 2 n (map (fun k => (S k, base + Z.of_nat k)) (seq 0 16)).

Definition sample_devs : list dev := [sample_dev "lo" 5; sample_dev "eth0" 1024000; sample_dev "wlan0" 7].

Lemma sample_devs_ok : Forall dev_ok sample_devs.
Proof. apply (bool_decide_unpack _). vm_compute. done. Qed.

Lemma net_monitor_reads_witness :
  let stats := map stat_of (filter (fun d => d_name d <> "lo") sample_devs) in
  map name stats = ["eth0"; "wlan0"] /\
  updateOnce (Some (print_net_dev "Inter-|" " face |bytes" sample_devs)) 5 ∅ MonitorInfo.empty =
    Done (cache_after 5 ∅ stats,
          MonitorInfo.set_net_info
            ([] ++ map (fun s => message_of 5 ((∅ : gmap string NetInfo) !! name s) s) stats)
            MonitorInfo.empty).
Proof.
  split; [vm_compute; reflexivity|].
  apply net_monitor_reads; [done|done|apply sample_devs_ok|].
  apply (bool_decide_unpack _). vm_compute. done.
Defined.

(** A counter that went back gives a rate near 2^64. *)
Lemma net_monitor_reset_rate :
  let old := mk_NetStat "eth0" 0 2 0 0 0 0 0 0 in
  let new := mk_NetStat "eth0" 0 1 0 0 0 0 0 0 in
  NetInfo.rcv_packets_rate (message_of 1000000000 (Some (mk_NetInfo old 0)) new) =
    f32_of_Z (2 ^ 64 - 1).
Proof. by vm_compute. Qed.
End NetReading.

(** ** DiskMonitor: samples, rates and the state *)
Module DiskReading.
Import DiskMonitor.

(** The disks a text shows: the lines that parse and are not virtual. *)
Definition disks_of (contents : string) : list (string * DiskSample) :=
  filter (fun d => virtual_disk d.1 = false) (omap read_sample (pieces newline contents)).

Definition put (now : f64) (s : state) (d : string * DiskSample) : state :=
  mk_state (<[d.1 := d.2]> (lastSamples s)) (<[d.1 := now]> (lastTime s)).

Definition message (now : f64) (s : state) (d : string * DiskSample) : DiskInfo.t :=
  message_of d.1 d.2 (rates_of now (lastSamples s !! d.1) (lastTime s !! d.1) d.2).

Definition disk_turn (now : f64) (st : state * list DiskInfo.t) (d : string * DiskSample)
    : state * list DiskInfo.t :=
  (put now st.1 d, st.2 ++ [message now st.1 d]).

Lemma foldl_read_line now lines : forall st,
  foldl (read_line now) st lines =
    foldl (disk_turn now) st (filter (fun d => virtual_disk d.1 = false) (omap read_sample lines)).
Proof.
  induction lines as [|l lines IH]; intros [s out]; [done|].
  rewrite omap_cons_app, filter_app, foldl_app, <- IH. cbn [foldl]. f_equal. unfold read_line.
  destruct (read_sample l) as [[n c]|]; [|done]. change (option_list (Some (n, c))) with [(n, c)].
  rewrite filter_cons, filter_nil. cbn [fst]. destruct (virtual_disk n); by case_decide.
Qed.

Lemma updateOnce_disks contents time s m :
  updateOnce (Some contents) time s m =
    let '(s', out) := foldl (disk_turn (f64_of_Z time)) (s, MonitorInfo.disk_info m)
                        (disks_of contents) in
    Some (s', MonitorInfo.set_disk_info out m).
Proof.
  unfold updateOnce. cbn [default id]. rewrite getlines_pieces by lia.
  cbn [mbind option_bind]. by rewrite foldl_read_line.
Qed.

(** A line of [/proc/diskstats]: the two device numbers, the name, and eleven
    or more counters. *)
Record disk := mk_disk {
  k_pad : nat; k_major : Z; k_minor : nat * Z; k_name_pad : nat; k_name : string;
  k_counters : list (nat * Z) }.

Definition print_disk (d : disk) : string :=
  blanks (k_pad d) (to_string (k_major d) +++
    String " " (blanks (k_minor d).1 (to_string (k_minor d).2 +++
      String " " (blanks (k_name_pad d) (k_name d +++ columns (k_counters d) ""))))).

Definition disk_ok (d : disk) : Prop :=
  0 <= k_major d <= INT_MAX /\ 0 <= (k_minor d).2 <= INT_MAX /\
  k_name d <> "" /\ no_space (k_name d) = true /\
  (11 <= length (k_counters d))%nat /\ u64s_ok (k_counters d).

Definition counter (d : disk) (k : nat) : Z := default 0 (snd <$> k_counters d !! k).

Definition sample_of (d : disk) : DiskSample :=
  mk_DiskSample (counter d 0) (counter d 4) (counter d 2) (counter d 6) (counter d 3)
    (counter d 7) (counter d 8) (counter d 9) (counter d 10).

(** A line the kernel prints is read back, whatever counters follow. *)
Lemma read_sample_print d : disk_ok d -> read_sample (print_disk d) = Some (k_name d, sample_of d).
Proof.
  intros (Hma & Hmi & Hne & Hns & Hlen & Hv). unfold read_sample, print_disk.
  rewrite get_int_app by done.
  rewrite after_istringstream by done. change (String " " (blanks ?n ?s)) with (blanks (S n) s).
  rewrite get_int_app by done. rewrite after_istringstream by done.
  change (String " " (blanks ?n ?s)) with (blanks (S n) s).
  rewrite get_word_app by (done || by apply at_break_columns).
  rewrite get_u64s_take by done. cbn [fail after].
  unfold sample_of, counter. destruct (k_counters d) as [|c0 cs]; [cbn in Hlen; lia|].
  do 10 (destruct cs as [|? cs]; [cbn in Hlen; lia|]). done.
Qed.

(** The invariant of the two maps: counters of 64 bits, and times that a
    [double] holds. *)
Definition sample_ok (c : DiskSample) : Prop :=
  Forall (fun v => 0 <= v <= ULLONG_MAX)
    [reads c; writes c; sectors_read c; sectors_written c; read_time_ms c; write_time_ms c;
     io_in_progress c; io_time_ms c; weighted_io_time_ms c].

Definition state_ok (s : state) : Prop :=
  map_Forall (fun _ => sample_ok) (lastSamples s) /\ map_Forall (fun _ => of_word) (lastTime s).

Definition rates_ok (m : DiskInfo.t) : Prop :=
  Forall (fun r => nonneg r = true)
    [DiskInfo.read_bytes_per_sec m; DiskInfo.write_bytes_per_sec m; DiskInfo.read_iops m;
     DiskInfo.write_iops m; DiskInfo.avg_read_latency_ms m; DiskInfo.avg_write_latency_ms m;
     DiskInfo.util_percent m].

Lemma read_sample_ok line n c : read_sample line = Some (n, c) -> sample_ok c.
Proof.
  unfold read_sample. destruct (get_int _) as [ma s1]. destruct (get_int s1) as [mi s2].
  destruct (get_word s2) as [w s3]. destruct (get_u64s 11 s3) as [vs s4] eqn:E.
  destruct (fail s4); [done|]. apply get_u64s_range in E as [Hl Hv].
  do 11 (destruct vs as [|? vs]; [done|]). destruct vs; [|done].
  cbn [map]. intros [= _ <-]. unfold sample_ok. cbn.
  rewrite !Forall_cons in Hv. rewrite !Forall_cons. naive_solver.
Qed.

Lemma disks_of_ok contents : Forall (fun d => sample_ok d.2) (disks_of contents).
Proof.
  apply Forall_forall. intros [n c] [_ Hin]%list_elem_of_filter.
  apply list_elem_of_omap in Hin as (l & _ & Hl). by eapply read_sample_ok.
Qed.

Lemma counterDelta_word a b :
  0 <= a <= ULLONG_MAX -> 0 <= b <= ULLONG_MAX ->
  nonneg (counterDelta a b) = true /\ is_finite (counterDelta a b) = true.
Proof.
  intros Ha Hb. unfold counterDelta. destruct (b <=? a) eqn:E; [|done]. to_props.
  split; [apply f64_of_Z_nonneg; lia|]. apply of_word_finite, of_word_f64_of_Z. wrap_unfold. lia.
Qed.

Lemma read_bytes_ok x : nonneg x = true -> is_finite x = true -> forall dt m e,
  dt = S754_finite false m e -> nonneg (f64_div (f64_mul x (f64_of_Z 512)) dt) = true.
Proof.
  intros Hx _ dt m e ->. apply SFdiv_nonneg_pos.
  change (f64_of_Z 512) with (S754_finite false 4503599627370496 (-43)). by apply SFmul_nonneg_pos.
Qed.

Lemma dt_times_ten dt :
  of_difference dt -> fgt dt fzero = true -> fgt (f64_mul dt (f64_of_Z 10)) fzero = true.
Proof.
  unfold of_difference. change (f64_of_Z 10) with (S754_finite false 5629499534213120 (-49)).
  destruct dt as [| | |[] m e]; cbn [within]; try done. intros [_ He] _.
  apply f64_mul_positive. lia.
Qed.

Lemma latency_ok a b :
  nonneg a = true -> is_finite a = true ->
  nonneg (if fgt b fzero then f64_div a b else fzero) = true.
Proof. intros Ha Hf. destruct (fgt b fzero) eqn:Hp; [by apply f64_div_nonneg|done]. Qed.

Lemma rates_between_ok last curr dt n :
  sample_ok last -> sample_ok curr -> of_difference dt -> fgt dt fzero = true ->
  rates_ok (message_of n curr (rates_between last curr dt)).
Proof.
  unfold sample_ok. rewrite !Forall_cons. intros Hl Hc Hdt Hp.
  assert (Hd : exists m e, dt = S754_finite false m e).
  { unfold of_difference in Hdt. destruct dt as [| | |[] m e]; try done. eauto. }
  destruct Hd as (m & e & Hd).
  unfold rates_ok, message_of, rates_between. cbn.
  repeat match goal with |- context [counterDelta (?f curr) (?f last)] =>
    let H1 := fresh in let H2 := fresh in
    destruct (counterDelta_word (f curr) (f last)) as [H1 H2]; [tauto|tauto|];
    generalize dependent (counterDelta (f curr) (f last)); intros
  end.
  rewrite !Forall_cons. repeat split;
    first [by eapply read_bytes_ok | by apply latency_ok | by apply f64_div_nonneg
          | apply f64_div_nonneg; [done|done|by apply dt_times_ten] | constructor].
Qed.

Lemma message_ok now s d :
  state_ok s -> of_word now -> sample_ok d.2 -> rates_ok (message now s d).
Proof.
  intros [Hs Ht] Hn Hd. unfold message, rates_of.
  assert (Htime : of_word (default fzero (lastTime s !! d.1))).
  { destruct (lastTime s !! d.1) as [t|] eqn:E; [by apply (Ht _ _ E)|done]. }
  destruct (lastSamples s !! d.1) as [last|] eqn:E; [|by repeat constructor].
  destruct (fgt _ fzero) eqn:Hp; [|by repeat constructor].
  apply rates_between_ok; [by apply (Hs _ _ E)|done|by apply f64_sub_words|done].
Qed.

Lemma put_ok now s d : state_ok s -> of_word now -> sample_ok d.2 -> state_ok (put now s d).
Proof. intros [Hs Ht] Hn Hd. split; cbn; by apply map_Forall_insert_2. Qed.

Lemma foldl_disk_turn_ok now ds : forall s out,
  state_ok s -> of_word now -> Forall (fun d => sample_ok d.2) ds ->
  exists s' new, foldl (disk_turn now) (s, out) ds = (s', out ++ new) /\
    state_ok s' /\ Forall rates_ok new.
Proof.
  induction ds as [|d ds IH]; intros s out Hs Hn Hds; cbn [foldl].
  { exists s, []. by rewrite app_nil_r. }
  apply Forall_cons in Hds as [Hd Hds].
  destruct (IH (put now s d) (out ++ [message now s d])) as (s' & new & E & Hs' & Hnew);
    [by apply put_ok|done|done|].
  exists s', (message now s d :: new). unfold disk_turn at 2. cbn [fst snd]. rewrite E.
  split; [by rewrite <- app_assoc|]. split; [done|]. constructor; [by apply message_ok|done].
Qed.

(** C22. Whatever text [/proc/diskstats] gives, and whatever the clock says,
    [DiskMonitor::updateOnce] ends, keeps the two maps well formed (counters of
    64 bits, times a [double] holds), keeps the messages that were there, and
    every rate it adds is a number that is not below zero: a counter that went
    back counts as no progress, and a clock that stands still or goes back
    gives rates of zero. *)
Theorem disk_rates_nonneg contents time s m :
  state_ok s -> LONG_MIN <= time <= LONG_MAX ->
  exists s' new, updateOnce (Some contents) time s m =
      Some (s', MonitorInfo.set_disk_info (MonitorInfo.disk_info m ++ new) m) /\
    state_ok s' /\ Forall rates_ok new.
Proof.
  intros Hs Ht. rewrite updateOnce_disks.
  destruct (foldl_disk_turn_ok (f64_of_Z time) (disks_of contents) s (MonitorInfo.disk_info m) Hs)
    as (s' & new & -> & Hs' & Hnew); [|apply disks_of_ok|].
  - apply of_word_f64_of_Z. wrap_unfold. lia.
  - by exists s', new.
Qed.

Lemma print_disk_line d : disk_ok d -> one_line (print_disk d) = true.
Proof.
  intros (_ & _ & _ & Hns & _). unfold print_disk.
  assert (Hb : forall n s, one_line s = true -> one_line (blanks n s) = true)
    by (intros n s Hs; by induction n).
  assert (Ha : forall s t, no_space s = true -> one_line t = true -> one_line (s +++ t) = true).
  { intros s t Hs Ht. unfold one_line. rewrite str_all_app. apply andb_true_iff.
    split; [by apply no_space_one_line|done]. }
  apply Hb, Ha; [apply no_space_to_string|]. apply (Hb 1%nat), Hb, Ha; [apply no_space_to_string|].
  apply (Hb 1%nat), Hb, Ha; [done|]. by apply one_line_columns.
Qed.

(** What the kernel prints in [/proc/diskstats] is read back: one line per
    device with its two numbers, its name and eleven or more 64-bit counters
    gives, for every device that is not a loop or a RAM disk, its name and its
    counters, in order. *)
Theorem disk_lines_read_back ds :
  Forall disk_ok ds ->
  disks_of (unlines newline (map print_disk ds)) =
    filter (fun d => virtual_disk d.1 = false) (map (fun d => (k_name d, sample_of d)) ds).
Proof.
  intros Hok. unfold disks_of. rewrite pieces_unlines.
  2: { apply Forall_map. eapply Forall_impl; [exact Hok|]. apply print_disk_line. }
  f_equal. induction Hok as [|d ds Hd _ IH]; [done|].
  cbn [map]. rewrite omap_cons_app, read_sample_print, IH by done. done.
Qed.

(** *** A history of readings

    The reference does not read text and keeps no maps: it looks at the lines
    themselves, those of the readings before and those above in this one. *)

(** Loop devices and RAM disks are left out. *)
Definition real_disk (d : disk) : bool :=
  negb (String.prefix "loop" (k_name d) || String.prefix "ram" (k_name d)).

(** A line and the time of its reading; the latest is first. *)
Definition sighting : Type := Z * disk.

Definition last_seen (seen : list sighting) (n : string) : option sighting :=
  find (fun x => String.eqb (k_name x.2) n) seen.

(** How far the [k]-th counter went on: not at all if it went back. *)
Definition progress (old new : disk) (k : nat) : f64 :=
  f64_of_Z (Z.max 0 (counter new k - counter old k)).

(** The message for a line read at [now]: its counters; and when the disk was seen
    before, and time has passed since, bytes (of sectors of 512) and operations
    per second, milliseconds per operation, and the share of the time that it was
    busy in per cent. *)
Definition reference (seen : list sighting) (now : Z) (d : disk) : DiskInfo.t :=
  let '(read_bytes, write_bytes, read_ops, write_ops, read_ms, write_ms, busy) :=
    match last_seen seen (k_name d) with
    | None => (fzero, fzero, fzero, fzero, fzero, fzero, fzero)
    | Some (before, old) =>
        let dt := f64_sub (f64_of_Z now) (f64_of_Z before) in
        let per_second x := f64_div x dt in
        let per_operation x n := if fgt n fzero then f64_div x n else fzero in
        let went k := progress old d k in
        if fgt dt fzero then
          (per_second (f64_mul (went 2%nat) (f64_of_Z 512)),
           per_second (f64_mul (went 6%nat) (f64_of_Z 512)),
           per_second (went 0%nat), per_second (went 4%nat),
           per_operation (went 3%nat) (went 0%nat), per_operation (went 7%nat) (went 4%nat),
           f64_div (went 9%nat) (f64_mul dt (f64_of_Z 10)))
        else (fzero, fzero, fzero, fzero, fzero, fzero, fzero)
    end in
  {| DiskInfo.name := k_name d;
     DiskInfo.reads := counter d 0; DiskInfo.sectors_read := counter d 2;
     DiskInfo.read_time_ms := counter d 3; DiskInfo.writes := counter d 4;
     DiskInfo.sectors_written := counter d 6; DiskInfo.write_time_ms := counter d 7;
     DiskInfo.io_in_progress := counter d 8; DiskInfo.io_time_ms := counter d 9;
     DiskInfo.weighted_io_time_ms := counter d 10;
     DiskInfo.read_bytes_per_sec := read_bytes; DiskInfo.write_bytes_per_sec := write_bytes;
     DiskInfo.read_iops := read_ops; DiskInfo.write_iops := write_ops;
     DiskInfo.avg_read_latency_ms := read_ms; DiskInfo.avg_write_latency_ms := write_ms;
     DiskInfo.util_percent := busy |}.

(** The messages of one reading. *)
Fixpoint reports (seen : list sighting) (now : Z) (ds : list disk) : list DiskInfo.t :=
  match ds with
  | [] => []
  | d :: ds =>
      if real_disk d then reference seen now d :: reports ((now, d) :: seen) now ds
      else reports seen now ds
  end.

Definition sightings (history : list (Z * list disk)) : list sighting :=
  foldl (fun seen r => rev (map (pair r.1) (filter (fun d => real_disk d = true) r.2)) ++ seen)
    [] history.

(** The text of a reading, and the object after a history of them. *)
Definition diskstats (ds : list disk) : string := unlines newline (map print_disk ds).

Fixpoint read_history (history : list (Z * list disk)) (s : state) : option state :=
  match history with
  | [] => Some s
  | (time, ds) :: history =>
      '(s', _) ← updateOnce (Some (diskstats ds)) time s MonitorInfo.empty;
      read_history history s'
  end.

(** What the maps hold after the lines seen. *)
Definition remembers (seen : list sighting) (s : state) : Prop :=
  forall n, lastSamples s !! n = (fun x => sample_of x.2) <$> last_seen seen n /\
            lastTime s !! n = (fun x => f64_of_Z x.1) <$> last_seen seen n.

Lemma remembers_put seen s now d :
  remembers seen s -> remembers ((now, d) :: seen) (put (f64_of_Z now) s (k_name d, sample_of d)).
Proof.
  intros H n. unfold last_seen. cbn [find put lastSamples lastTime fst snd].
  destruct (String.eqb_spec (k_name d) n) as [<-|Hne]; [by rewrite !lookup_insert_eq|].
  rewrite !lookup_insert_ne by done. apply H.
Qed.

Lemma counterDelta_max a b : counterDelta a b = f64_of_Z (Z.max 0 (a - b)).
Proof.
  unfold counterDelta. break_if; to_props; [by rewrite Z.max_r by lia|by rewrite Z.max_l by lia].
Qed.

Lemma message_reference seen s now d :
  remembers seen s -> message (f64_of_Z now) s (k_name d, sample_of d) = reference seen now d.
Proof.
  intros H. destruct (H (k_name d)) as [Hs Ht]. unfold message. cbn [fst snd]. rewrite Hs, Ht.
  unfold reference, rates_of. destruct (last_seen seen (k_name d)) as [[before old]|]; 
    cbn [fmap option_fmap option_map fst snd default]; [|done].
  destruct (fgt _ fzero); [|done].
  unfold rates_between. rewrite !counterDelta_max. done.
Qed.

Lemma foldl_reports now ds : forall seen s out,
  remembers seen s ->
  exists s', foldl (disk_turn (f64_of_Z now)) (s, out)
      (filter (fun d => virtual_disk d.1 = false) (map (fun d => (k_name d, sample_of d)) ds)) =
      (s', out ++ reports seen now ds) /\
    remembers (rev (map (pair now) (filter (fun d => real_disk d = true) ds)) ++ seen) s'.
Proof.
  induction ds as [|d ds IH]; intros seen s out H; cbn [map reports].
  { exists s. by rewrite app_nil_r. }
  assert (E : real_disk d = negb (virtual_disk (k_name d))) by done.
  destruct (virtual_disk (k_name d)) eqn:Ev; cbn [negb] in E; rewrite E.
  - rewrite !filter_cons_False by (cbn; congruence). by apply IH.
  - rewrite !filter_cons_True by (cbn; congruence). cbn [foldl]. unfold disk_turn at 2. cbn [fst snd].
    rewrite (message_reference seen) by done.
    destruct (IH ((now, d) :: seen) (put (f64_of_Z now) s (k_name d, sample_of d))
      (out ++ [reference seen now d])) as (s' & -> & Hs'); [by apply remembers_put|].
    exists s'. cbn [map rev]. by rewrite <- !app_assoc.
Qed.

(** One reading of what the kernel prints. *)
Lemma update_reports ds now seen s m :
  Forall disk_ok ds -> remembers seen s ->
  exists s', updateOnce (Some (diskstats ds)) now s m =
      Some (s', MonitorInfo.set_disk_info (MonitorInfo.disk_info m ++ reports seen now ds) m) /\
    remembers (rev (map (pair now) (filter (fun d => real_disk d = true) ds)) ++ seen) s'.
Proof.
  intros Hok Hs. rewrite updateOnce_disks. unfold diskstats. rewrite disk_lines_read_back by done.
  destruct (foldl_reports now ds seen s (MonitorInfo.disk_info m) Hs) as (s' & -> & Hs'). eauto.
Qed.

Lemma read_history_remembers history : forall seen s,
  Forall (fun r => Forall disk_ok r.2) history -> remembers seen s ->
  exists s', read_history history s = Some s' /\
    remembers (foldl (fun seen r =>
      rev (map (pair r.1) (filter (fun d => real_disk d = true) r.2)) ++ seen) seen history) s'.
Proof.
  induction history as [|[now ds] history IH]; intros seen s Hok Hs; [by exists s|].
  apply Forall_cons in Hok as [Hd Hok]. cbn [read_history foldl fst snd].
  destruct (update_reports ds now seen s MonitorInfo.empty Hd Hs) as (s1 & -> & H1).
  cbn [mbind option_bind]. by apply IH.
Qed.

(** C21. [DiskMonitor::updateOnce] is equivalent to a reference definition
    without text and maps.  After any history of readings of what the kernel
    prints in [/proc/diskstats], from the start of the process, the next reading
    appends for each line that names no loop device or RAM disk, in order, the
    message that [reference] makes of the line, the time and the last line seen
    with its name: the counters from their columns; bytes and operations per
    second, milliseconds per operation and the busy share between the two lines;
    and zeros when there is none, or the clock did not advance.  A disk may be
    named twice. *)
Theorem disk_history_equiv history now ds m :
  Forall (fun r => Forall disk_ok r.2) history -> Forall disk_ok ds ->
  exists s s', read_history history (mk_state ∅ ∅) = Some s /\
    updateOnce (Some (diskstats ds)) now s m =
      Some (s', MonitorInfo.set_disk_info
                  (MonitorInfo.disk_info m ++ reports (sightings history) now ds) m).
Proof.
  intros Hh Hd. assert (H0 : remembers [] (mk_state ∅ ∅)) by done.
  destruct (read_history_remembers history [] _ Hh H0) as (s & Hs & Hr).
  destruct (update_reports ds now _ s m Hd Hr) as (s' & E & _). by exists s, s'.
Qed.

Definition sample_disk (n : string) (base : Z) : disk :=
  mk_disk 3 8 (6%nat, 1) 0 n (map (fun k => (O, base + Z.of_nat k)) (seq 0 17)).

Definition sample_disks : list disk :=
  [sample_disk "loop0" 1; sample_disk "sda" 1000; sample_disk "nvme0n1" 5].

Lemma sample_disks_ok : Forall disk_ok sample_disks.
Proof. apply (bool_decide_unpack _). vm_compute. done. Qed.

Lemma disk_lines_read_back_witness :
  map fst (disks_of (unlines newline (map print_disk sample_disks))) = ["sda"; "nvme0n1"].
Proof. rewrite disk_lines_read_back; [vm_compute; reflexivity|apply sample_disks_ok]. Defined.

(** Two readings ten seconds apart, with [sda] twice in the second. *)
Lemma disk_history_equiv_witness :
  exists s s' out, read_history [(100, sample_disks)] (mk_state ∅ ∅) = Some s /\
    updateOnce (Some (diskstats [sample_disk "sda" 2024; sample_disk "sda" 7])) 110 s MonitorInfo.empty =
      Some (s', MonitorInfo.set_disk_info out MonitorInfo.empty) /\
    map DiskInfo.name out = ["sda"; "sda"] /\ map DiskInfo.writes out = [2028; 11] /\
    map DiskInfo.read_bytes_per_sec out =
      [f64_div (f64_of_Z 524288) (f64_of_Z 10); fzero].
Proof.
  destruct (disk_history_equiv [(100, sample_disks)] 110 [sample_disk "sda" 2024; sample_disk "sda" 7]
    MonitorInfo.empty) as (s & s' & H1 & H2).
  - repeat constructor; apply (bool_decide_unpack _); vm_compute; done.
  - apply (bool_decide_unpack _). vm_compute. done.
  - exists s, s'. eexists. split_and!; [exact H1|exact H2|by vm_compute..].
Defined.

Lemma disk_rates_nonneg_witness :
  exists s' new, updateOnce (Some "   8 0 sda 1 2 3 4 5 6 7 8 9 10 11") 100 (mk_state ∅ ∅)
                   MonitorInfo.empty = Some (s', MonitorInfo.set_disk_info ([] ++ new) MonitorInfo.empty) /\
    state_ok s' /\ Forall rates_ok new.
Proof.
  apply (disk_rates_nonneg _ 100 (mk_state ∅ ∅) MonitorInfo.empty);
    [split; apply map_Forall_empty|wrap_unfold; lia].
Defined.
End DiskReading.
