(* ===== verification/HostMonitors.v ===== *)
(** * HostMonitors: who the worker is

    [HostInfoMonitor.cpp] and [UserMonitor.cpp] of [src/worker/src/monitor/]:
    the name and the address of the host, and the name of the user the process
    runs as.  The results of the system calls are arguments. *)

From S2P Require Import Prelude CString Streams Messages.
From Stdlib Require Import Ascii.

(** ** HostInfoMonitor.cpp *)
Module HostInfoMonitor.

(** An entry of [getifaddrs]: its name, and its address if it has one: whether
    it is IPv4, and the text [inet_ntop] gives ([None]: it failed). *)
Record sockaddr := mk_sockaddr { is_inet : bool; inet_ntop : option string }.
Record ifaddrs := mk_ifaddrs { ifa_name : string; ifa_addr : option sockaddr }.

(** The system as one call sees it; [None] is a failed call. *)
Record system := mk_system {
  gethostname : option string;
  getifaddrs : option (list ifaddrs)
}.

Record state := mk_state { cachedHostName_ : string; cachedIp_ : string; infoCached_ : bool }.

Definition initial : state := mk_state "" "" false.

Definition getHostname (sys : system) : string := default "unknown" (gethostname sys).

Definition is_virtual (ifname : string) : bool :=
  String.prefix "docker" ifname || String.prefix "veth" ifname || String.prefix "br-" ifname
  || String.prefix "virbr" ifname.

Fixpoint first_address (ifas : list ifaddrs) (result : string) : string :=
  match ifas with
  | [] => result
  | ifa :: ifas =>
      match ifa_addr ifa with
      | None => first_address ifas result
      | Some addr =>
          if negb (is_inet addr) then first_address ifas result
          else if String.eqb (ifa_name ifa) "lo" then first_address ifas result
          else if is_virtual (ifa_name ifa) then first_address ifas result
          else
            match inet_ntop addr with
            | Some ip_str => ip_str
            | None => first_address ifas result
            end
      end
  end.

Definition getPrimaryIpAddress (sys : system) : string :=
  match getifaddrs sys with None => "" | Some ifas => first_address ifas "" end.

Definition updateOnce (sys : system) (s : state) (m : MonitorInfo.t) : state * MonitorInfo.t :=
  let s :=
    if negb (infoCached_ s) then mk_state (getHostname sys) (getPrimaryIpAddress sys) true else s in
  (s, MonitorInfo.set_host_info (Some (HostInfo.mk (cachedHostName_ s) (cachedIp_ s))) m).

End HostInfoMonitor.

(** ** UserMonitor.cpp *)
Module UserMonitor.

(** The turn of the loop for a line of [/etc/passwd]: the user name and the
    number, if the three fields can be read. *)
Definition user_of (line : string) : option (string * Z) :=
  let '(username, iss) := getline ":" (istringstream line) in
  if fail iss then None
  else
    let '(password, iss) := getline ":" iss in
    if fail iss then None
    else
      let '(uidStr, iss) := getline ":" iss in
      if fail iss then None
      else
        uid ← stoull (default "" uidStr);
        Some (default "" username, u32_wrap uid).

Fixpoint find_user (uid : Z) (lines : list string) : string :=
  match lines with
  | [] => ""
  | line :: lines =>
      match user_of line with
      | Some (username, parsedUid) => if parsedUid =? uid then username else find_user uid lines
      | None => find_user uid lines
      end
  end.

(** [uid_t] has 32 bits and [unsigned long] 64. *)
Definition getUsernameByUid (passwd : option string) (uid : Z) : option string :=
  match passwd with
  | None => Some ""
  | Some contents =>
      lines ← getlines (S (String.length contents)) newline (istringstream contents);
      Some (find_user uid lines)
  end.

Definition updateOnce (passwd : option string) (uid : Z) (m : MonitorInfo.t)
    : option MonitorInfo.t :=
  username ← getUsernameByUid passwd uid;
  Some (if is_empty username then m else MonitorInfo.set_name username m).

End UserMonitor.

(** ** The address that is reported *)

Section PrimaryAddress.
Import HostInfoMonitor.

(** An interface whose address is reported. *)
Definition reported (ifa : ifaddrs) : option string :=
  addr ← ifa_addr ifa;
  if is_inet addr && negb (String.eqb (ifa_name ifa) "lo") && negb (is_virtual (ifa_name ifa))
  then inet_ntop addr else None.

Lemma first_address_spec ifas r : first_address ifas r = default r (head (omap reported ifas)).
Proof.
  induction ifas as [|ifa ifas IH]; [done|]. rewrite omap_cons_app. cbn [first_address].
  unfold reported at 1. destruct (ifa_addr ifa) as [[[] ip]|]; cbn; [|done|done].
  destruct (String.eqb (ifa_name ifa) "lo"); [done|].
  destruct (is_virtual (ifa_name ifa)); [done|]. by destruct ip.
Qed.

(** [HostInfoMonitor] asks the system once.  The first reading reports the
    host name ([unknown] when the call fails) and the first IPv4 address of an
    interface that is neither [lo] nor virtual (empty when there is none);
    every later reading reports the same, whatever the system says then, also
    when the first answer was a failure. *)
Theorem host_info_is_frozen (systems : list system) m :
  let final sys0 := foldl (fun s sys => (updateOnce sys s m).1) (updateOnce sys0 initial m).1 systems in
  forall sys0 sys,
    (updateOnce sys (final sys0) m).2 =
      MonitorInfo.set_host_info
        (Some (HostInfo.mk (default "unknown" (gethostname sys0))
                 (default "" (head (omap reported (default [] (getifaddrs sys0))))))) m.
Proof.
  intros final sys0 sys.
  assert (Hip : getPrimaryIpAddress sys0 =
                default "" (head (omap reported (default [] (getifaddrs sys0))))).
  { unfold getPrimaryIpAddress. destruct (getifaddrs sys0); [apply first_address_spec|done]. }
  assert (H : final sys0 = mk_state (getHostname sys0) (getPrimaryIpAddress sys0) true).
  { unfold final. cbn [updateOnce infoCached_ initial negb fst]. induction systems as [|s l IH]; [done|].
    cbn [foldl]. exact IH. }
  rewrite H. unfold updateOnce. cbn. by rewrite Hip.
Qed.
End PrimaryAddress.

(** ** The user *)

Section Users.
Import UserMonitor.

(** A line of [/etc/passwd]. *)
Record user := mk_user { u_name : string; u_password : string; u_uid : Z; u_rest : string }.

Definition no_colon (s : string) : bool := str_all (fun c => negb (Ascii.eqb c ":")) s.

Definition print_user (u : user) : string :=
  u_name u +++ String ":" (u_password u +++ String ":" (to_string (u_uid u) +++ String ":" (u_rest u))).

Definition user_ok (u : user) : Prop :=
  no_colon (u_name u) = true /\ no_colon (u_password u) = true /\ one_line (print_user u) = true /\
  0 <= u_uid u < 2 ^ 32.

Lemma getline_colon l rest :
  no_colon l = true ->
  getline ":" (istringstream (l +++ String ":" rest)) = (Some l, istringstream rest).
Proof.
  intros H. unfold getline. cbn [istringstream eof fail text orb]. by rewrite split_at_app.
Qed.

Lemma stoull_to_string z : 0 <= z <= ULLONG_MAX -> stoull (to_string z) = Some z.
Proof.
  intros Hz. unfold stoull. rewrite read_integer_to_string by lia. cbn [mbind option_bind].
  by rewrite (proj2 (Z.ltb_ge _ _)) by lia.
Qed.

Lemma user_of_print u : user_ok u -> user_of (print_user u) = Some (u_name u, u_uid u).
Proof.
  intros (Hn & Hp & _ & Hu). unfold user_of, print_user.
  rewrite getline_colon by done. cbn [fail istringstream]. rewrite getline_colon by done.
  cbn [fail istringstream]. rewrite getline_colon.
  - cbn [fail istringstream default id]. rewrite stoull_to_string by (wrap_unfold; lia).
    cbn [mbind option_bind]. f_equal. f_equal. wrap_unfold. rewrite Z.mod_small; lia.
  - apply str_all_to_string; [done|]. intros c Hc. apply negb_true_iff, Ascii.eqb_neq. by intros ->.
Qed.

(** In a well-formed [/etc/passwd] the name of the first line with the number
    of the process is found. *)
Lemma username_found us uid :
  Forall user_ok us ->
  getUsernameByUid (Some (unlines newline (map print_user us))) uid =
    Some (default "" (u_name <$> head (filter (fun u => u_uid u = uid) us))).
Proof.
  intros Hok. unfold getUsernameByUid. rewrite getlines_pieces by lia.
  rewrite pieces_unlines; [|apply Forall_map; eapply Forall_impl; [exact Hok|];
    by intros u (_ & _ & H & _)].
  cbn [mbind option_bind]. f_equal. induction Hok as [|u us Hu _ IH]; [done|].
  cbn [map find_user]. rewrite user_of_print by done. rewrite filter_cons.
  destruct (Z.eqb_spec (u_uid u) uid); case_decide; done.
Qed.
End Users.
