(* ===== verification/ServiceMonitors.v ===== *)
(** * ServiceMonitors: the monitors of MySQL and Redis servers

    [MysqlMonitor.cpp] and [RedisMonitor.cpp] of [src/worker/src/monitor/], with
    the helpers both files define.  The servers, reached through the MySQL C
    API and redis++, are arguments: what they answer to a connection and to a
    statement. *)

From S2P Require Import Prelude CFloat CString Streams Messages.
From Stdlib Require Import Ascii.

(** ** The helpers of both files *)

Definition getEnv (env : environment) (name fallback : string) : string :=
  default fallback (env name).

Definition isTruthy (value : string) : bool :=
  let normalized := str_map tolower value in
  String.eqb normalized "1" || String.eqb normalized "true" || String.eqb normalized "yes"
  || String.eqb normalized "on".

Definition parsePort (value : string) (fallback : Z) : Z :=
  if is_empty value then fallback
  else match stoi value with Some parsed => if 0 <? parsed then parsed else fallback | None => fallback end.

Definition parseTimeout (value : string) (fallback : Z) : Z :=
  if is_empty value then fallback
  else match stoi value with Some parsed => if 0 <? parsed then parsed else fallback | None => fallback end.

Definition toUInt64 (value : string) : Z := if is_empty value then 0 else default 0 (stoull value).

Definition toDouble (value : string) : f64 :=
  if is_empty value then fzero else default fzero (stod value).

(** [None] only if the loop does not end, which [split_pieces] excludes. *)
Definition split (value : string) (delimiter : ascii) : option (list string) :=
  getlines (S (String.length value)) delimiter (istringstream value).

Lemma split_pieces value delimiter : split value delimiter = Some (pieces delimiter value).
Proof. apply getlines_pieces. lia. Qed.

(** ** RedisMonitor.cpp *)
Module RedisMonitor.

Record Target := mk_Target { instance : string; host : string; port : Z; password : string }.

Definition default_target : Target := mk_Target "" "127.0.0.1" 6379 "".

(** The three members. *)
Record RedisMonitor := mk_RedisMonitor {
  enabled_ : bool; timeoutSeconds_ : Z; targets_ : list Target }.

(** The assignments to [target] from the parts of an entry. *)
Definition target_of_parts (parts : list string) : Target :=
  let t := default_target in
  let t := mk_Target (default (instance t) (parts !! 0%nat)) (host t) (port t) (password t) in
  let t := match parts !! 1%nat with
           | Some h => if is_empty h then t else mk_Target (instance t) h (port t) (password t)
           | None => t
           end in
  let t := match parts !! 2%nat with
           | Some p => mk_Target (instance t) (host t) (parsePort p (port t)) (password t)
           | None => t
           end in
  let t := match parts !! 3%nat with
           | Some pw => mk_Target (instance t) (host t) (port t) pw
           | None => t
           end in
  if is_empty (instance t)
  then mk_Target (host t +++ ":" +++ to_string (port t)) (host t) (port t) (password t) else t.

Fixpoint read_entries (entries : list string) (targets : list Target) : option (list Target) :=
  match entries with
  | [] => Some targets
  | entry :: entries =>
      if is_empty entry then read_entries entries targets
      else
        parts ← split entry "|";
        read_entries entries (targets ++ [target_of_parts parts])
  end.

Definition target_of_env (env : environment) : Target :=
  let host := getEnv env "REDIS_MONITOR_HOST" "127.0.0.1" in
  let port := parsePort (getEnv env "REDIS_MONITOR_PORT" "") 6379 in
  mk_Target (getEnv env "REDIS_MONITOR_INSTANCE" (host +++ ":" +++ to_string port)) host port
    (getEnv env "REDIS_MONITOR_PASSWORD" "").

(** The constructor. *)
Definition make (env : environment) : option RedisMonitor :=
  let targetConfig := getEnv env "REDIS_MONITOR_TARGETS" "" in
  let enabled := isTruthy (getEnv env "REDIS_MONITOR_ENABLED" "") || negb (is_empty targetConfig) in
  let timeout := parseTimeout (getEnv env "REDIS_MONITOR_TIMEOUT_SECONDS" "") 3 in
  if negb (is_empty targetConfig) then
    entries ← split targetConfig ";";
    targets ← read_entries entries [];
    Some (mk_RedisMonitor enabled timeout targets)
  else if enabled then Some (mk_RedisMonitor enabled timeout [target_of_env env])
  else Some (mk_RedisMonitor enabled timeout []).

Definition carriage_return : ascii := ascii_of_nat 13.

(** The turn of the loop of [parseInfo]. *)
Definition read_info_line (values : gmap string string) (line : string) : gmap string string :=
  let line := pop_back_if carriage_return line in
  match line with
  | EmptyString => values
  | String c _ =>
      if Ascii.eqb c "#" then values
      else
        match split_at ":" line with
        | (key, Some value) => <[key := value]> values
        | (_, None) => values
        end
  end.

Definition parseInfo (text : string) : option (gmap string string) :=
  lines ← getlines (S (String.length text)) newline (istringstream text);
  Some (foldl read_info_line ∅ lines).

Definition infoUInt64 (values : gmap string string) (key : string) : Z :=
  match values !! key with None => 0 | Some v => toUInt64 v end.
Definition infoDouble (values : gmap string string) (key : string) : f64 :=
  match values !! key with None => fzero | Some v => toDouble v end.
Definition infoString (values : gmap string string) (key fallback : string) : string :=
  match values !! key with None => fallback | Some v => v end.

(** What is given to redis++; durations in milliseconds. *)
Record ConnectionOptions := mk_options {
  o_host : string; o_port : Z; o_password : option string;
  connect_timeout : Z; socket_timeout : Z }.

(** A server: the text of [INFO], and the number [SLOWLOG LEN] gives; [None]
    is an exception (at the connection or the command). *)
Record server := mk_server { info : option string; slowlog : option Z }.

Definition options_of (timeoutSeconds : Z) (t : Target) : ConnectionOptions :=
  let ms := u32_wrap (timeoutSeconds * 1000) in
  mk_options (host t) (i32_wrap (port t))
    (if is_empty (password t) then None else Some (password t)) ms ms.

Definition percent_of (part whole : Z) : f64 :=
  f64_mul (f64_div (f64_of_Z part) (f64_of_Z whole)) (f64_of_Z 100).

(** The message of a server that answered [INFO]. *)
Definition message_up (t : Target) (values : gmap string string) (slowlog : option Z)
    : RedisInfo.t :=
  let used_memory := infoUInt64 values "used_memory" in
  let maxmemory := infoUInt64 values "maxmemory" in
  let keyspace_hits := infoUInt64 values "keyspace_hits" in
  let keyspace_misses := infoUInt64 values "keyspace_misses" in
  let keyspaceTotal := u64_add keyspace_hits keyspace_misses in
  let role := infoString values "role" "unknown" in
  RedisInfo.mk (instance t) (host t) (port t) true
    (infoString values "redis_version" "") role
    (infoUInt64 values "uptime_in_seconds") (infoUInt64 values "connected_clients")
    (infoUInt64 values "blocked_clients") (infoUInt64 values "maxclients")
    used_memory maxmemory (infoDouble values "mem_fragmentation_ratio")
    (if 0 <? maxmemory then percent_of used_memory maxmemory else fzero)
    (infoUInt64 values "total_commands_processed")
    (infoDouble values "instantaneous_ops_per_sec")
    keyspace_hits keyspace_misses
    (if 0 <? keyspaceTotal then percent_of keyspace_hits keyspaceTotal else fzero)
    (infoUInt64 values "expired_keys") (infoUInt64 values "evicted_keys")
    (infoUInt64 values "rejected_connections") (infoUInt64 values "total_error_replies")
    (infoUInt64 values "total_net_input_bytes") (infoUInt64 values "total_net_output_bytes")
    (String.eqb role "master" || String.eqb role "slave")
    (String.eqb role "master" || String.eqb (infoString values "master_link_status" "") "up")
    (infoUInt64 values "connected_slaves") (infoDouble values "master_last_io_seconds_ago")
    (match slowlog with Some n => u64_wrap n | None => 0 end).

(** The message of a server that did not. *)
Definition message_down (t : Target) : RedisInfo.t :=
  RedisInfo.mk (instance t) (host t) (port t) false "" "unknown" 0 0 0 0 0 0 fzero fzero 0 fzero
    0 0 fzero 0 0 0 0 0 0 false false 0 fzero 0.

Definition read_target (connect : ConnectionOptions -> server) (timeoutSeconds : Z) (t : Target)
    : option RedisInfo.t :=
  let redis := connect (options_of timeoutSeconds t) in
  match info redis with
  | Some infoText => values ← parseInfo infoText; Some (message_up t values (slowlog redis))
  | None => Some (message_down t)
  end.

Definition updateOnce (connect : ConnectionOptions -> server) (self : RedisMonitor)
    (m : MonitorInfo.t) : option MonitorInfo.t :=
  if negb (enabled_ self) then Some m
  else
    infos ← mapM (read_target connect (timeoutSeconds_ self)) (targets_ self);
    Some (MonitorInfo.set_redis_info (MonitorInfo.redis_info m ++ infos) m).

End RedisMonitor.

(** ** MysqlMonitor.cpp *)
Module MysqlMonitor.

Record Target := mk_Target {
  instance : string; host : string; port : Z; user : string; password : string;
  role_hint : string }.

Definition default_target : Target := mk_Target "" "127.0.0.1" 3306 "" "" "unknown".

Record MysqlMonitor := mk_MysqlMonitor {
  enabled_ : bool; timeoutSeconds_ : Z; targets_ : list Target }.

Definition isOn (value : string) : bool :=
  let normalized := str_map tolower value in
  String.eqb normalized "on" || String.eqb normalized "1" || String.eqb normalized "true"
  || String.eqb normalized "yes".

Definition target_of_parts (parts : list string) : Target :=
  let t := default_target in
  let part k := default "" (parts !! k) in
  let instance_ := part 0%nat in
  let host_ := if is_empty (part 1%nat) then host t else part 1%nat in
  let port_ := match parts !! 2%nat with Some p => parsePort p (port t) | None => port t end in
  let role := if is_empty (part 5%nat) then role_hint t else part 5%nat in
  mk_Target (if is_empty instance_ then host_ +++ ":" +++ to_string port_ else instance_)
    host_ port_ (part 3%nat) (part 4%nat) role.

Fixpoint read_entries (entries : list string) (targets : list Target) : option (list Target) :=
  match entries with
  | [] => Some targets
  | entry :: entries =>
      if is_empty entry then read_entries entries targets
      else
        parts ← split entry "|";
        read_entries entries (targets ++ [target_of_parts parts])
  end.

Definition target_of_env (env : environment) : Target :=
  let host := getEnv env "MYSQL_MONITOR_HOST" "127.0.0.1" in
  let port := parsePort (getEnv env "MYSQL_MONITOR_PORT" "") 3306 in
  mk_Target (getEnv env "MYSQL_MONITOR_INSTANCE" (host +++ ":" +++ to_string port)) host port
    (getEnv env "MYSQL_MONITOR_USER" "") (getEnv env "MYSQL_MONITOR_PASSWORD" "")
    (getEnv env "MYSQL_MONITOR_ROLE" "unknown").

Definition make (env : environment) : option MysqlMonitor :=
  let targetConfig := getEnv env "MYSQL_MONITOR_TARGETS" "" in
  let enabled := isTruthy (getEnv env "MYSQL_MONITOR_ENABLED" "") || negb (is_empty targetConfig) in
  let timeout := parseTimeout (getEnv env "MYSQL_MONITOR_TIMEOUT_SECONDS" "") 3 in
  if negb (is_empty targetConfig) then
    entries ← split targetConfig ";";
    targets ← read_entries entries [];
    Some (mk_MysqlMonitor enabled timeout targets)
  else if enabled then Some (mk_MysqlMonitor enabled timeout [target_of_env env])
  else Some (mk_MysqlMonitor enabled timeout []).

(** A result set: the names of its columns and its rows; a [NULL] is [None]. *)
Record MYSQL_RES := mk_res { fields : list (option string); rows : list (list (option string)) }.

(** What a connection answers to a statement. *)
Inductive answer := QueryFailed | NoResult | Result (r : MYSQL_RES).

Record connection := mk_connection {
  mysql_get_server_info : option string;
  mysql_query : string -> answer
}.

(** The calls that take and give back handles. *)
Inductive call := Init | CloseConn | StoreResult | FreeResult.

Definition add_row (values : gmap string string) (row : list (option string)) : gmap string string :=
  match row with
  | Some k :: Some v :: _ => <[k := v]> values
  | _ => values
  end.

Definition queryNameValue (conn : connection) (sql : string) : gmap string string * list call :=
  match mysql_query conn sql with
  | Result r => (foldl add_row ∅ (rows r), [StoreResult; FreeResult])
  | _ => (∅, [])
  end.

Record ReplicationStatus := mk_replication { configured : bool; running : bool; lagSeconds : f64 }.

Definition no_replication : ReplicationStatus := mk_replication false false fzero.

(** The loop over the columns of the first row. *)
Definition add_field (values : gmap string string) (nv : option string * option string)
    : gmap string string :=
  match nv with (Some n, Some v) => <[n := v]> values | _ => values end.

Definition parseResult (result : MYSQL_RES) : ReplicationStatus * list call :=
  match rows result with
  | [] => (no_replication, [FreeResult])
  | row :: _ =>
      let values := foldl add_field ∅ (zip (fields result) row) in
      let get k := default "" (values !! k) in
      let either new old := match values !! new with Some v => v | None => get old end in
      let ioRunning := either "Replica_IO_Running" "Slave_IO_Running" in
      let sqlRunning := either "Replica_SQL_Running" "Slave_SQL_Running" in
      let lag :=
        match values !! "Seconds_Behind_Source", values !! "Seconds_Behind_Master" with
        | Some v, _ => toDouble v
        | None, Some v => toDouble v
        | None, None => fzero
        end in
      (mk_replication true (String.eqb ioRunning "Yes" && String.eqb sqlRunning "Yes") lag,
       [FreeResult])
  end.

Definition queryReplicationStatus (conn : connection) : ReplicationStatus * list call :=
  match mysql_query conn "SHOW REPLICA STATUS" with
  | Result r => let '(s, calls) := parseResult r in (s, StoreResult :: calls)
  | _ =>
      match mysql_query conn "SHOW SLAVE STATUS" with
      | Result r => let '(s, calls) := parseResult r in (s, StoreResult :: calls)
      | _ => (no_replication, [])
      end
  end.

Definition inferRole (variables : gmap string string) (roleHint : string) : string :=
  if negb (is_empty roleHint) && negb (String.eqb roleHint "unknown") then roleHint
  else
    let on k := match variables !! k with Some v => isOn v | None => false end in
    if on "read_only" || on "super_read_only" then "replica" else "primary".

Definition variables_sql : string :=
  "SHOW GLOBAL VARIABLES WHERE Variable_name IN ('max_connections','read_only','super_read_only')".

Definition status_sql : string :=
  "SHOW GLOBAL STATUS WHERE Variable_name IN ('Threads_connected','Threads_running','Aborted_connects','Questions','Com_select','Com_insert','Com_update','Com_delete','Com_commit','Com_rollback','Slow_queries','Innodb_buffer_pool_read_requests','Innodb_buffer_pool_reads','Innodb_row_lock_waits','Innodb_row_lock_time_avg')".

(** [if (values.count(key)) info->set_...(toUInt64(values.at(key)))]. *)
Definition number (values : gmap string string) (key : string) : Z :=
  match values !! key with Some v => toUInt64 v | None => 0 end.

Definition hit_percent (reads requests : Z) : f64 :=
  if 0 <? requests then
    let hitPercent :=
      f64_mul (f64_sub (f64_of_Z 1) (f64_div (f64_of_Z reads) (f64_of_Z requests))) (f64_of_Z 100) in
    if flt hitPercent fzero then fzero else hitPercent
  else fzero.

Definition message_up (t : Target) (conn : connection) (variables status : gmap string string)
    (r : ReplicationStatus) : MysqlInfo.t :=
  let requests := number status "Innodb_buffer_pool_read_requests" in
  let reads := number status "Innodb_buffer_pool_reads" in
  MysqlInfo.mk (instance t) (host t) (port t) true (default "" (mysql_get_server_info conn))
    (inferRole variables (role_hint t))
    (number variables "max_connections") (number status "Threads_connected")
    (number status "Threads_running") (number status "Aborted_connects")
    (number status "Questions") (number status "Com_select") (number status "Com_insert")
    (number status "Com_update") (number status "Com_delete") (number status "Com_commit")
    (number status "Com_rollback") (number status "Slow_queries") requests reads
    (hit_percent reads requests) (number status "Innodb_row_lock_waits")
    (match status !! "Innodb_row_lock_time_avg" with Some v => toDouble v | None => fzero end)
    (configured r) (running r) (lagSeconds r).

Definition message_down (t : Target) : MysqlInfo.t :=
  MysqlInfo.mk (instance t) (host t) (port t) false ""
    (if is_empty (role_hint t) then "unknown" else role_hint t)
    0 0 0 0 0 0 0 0 0 0 0 0 0 0 fzero 0 fzero false false fzero.

(** The library: whether [mysql_init] gives a handle for this target, and the
    connection [mysql_real_connect] makes with the time-out that was set. *)
Record client := mk_client {
  mysql_init : Target -> bool;
  mysql_real_connect : Target -> Z -> option connection
}.

(** The turn of the loop for one target, with the calls it makes. *)
Definition read_target (c : client) (timeoutSeconds : Z) (t : Target) : MysqlInfo.t * list call :=
  if negb (mysql_init c t) then (message_down t, [])
  else
    match mysql_real_connect c t timeoutSeconds with
    | None => (message_down t, [Init; CloseConn])
    | Some conn =>
        let '(variables, calls1) := queryNameValue conn variables_sql in
        let '(status, calls2) := queryNameValue conn status_sql in
        let '(replication, calls3) := queryReplicationStatus conn in
        (message_up t conn variables status replication,
         Init :: calls1 ++ calls2 ++ calls3 ++ [CloseConn])
    end.

Definition updateOnce (c : client) (self : MysqlMonitor) (m : MonitorInfo.t)
    : MonitorInfo.t * list call :=
  if negb (enabled_ self) then (m, [])
  else
    let outs := map (read_target c (timeoutSeconds_ self)) (targets_ self) in
    (MonitorInfo.set_mysql_info (MonitorInfo.mysql_info m ++ map fst outs) m, concat (map snd outs)).

End MysqlMonitor.

(** ** What both monitors have in common *)

Definition field_ok (s : string) : bool := free_of ";" s && free_of "|" s.

Lemma stoi_to_string z : 0 <= z <= INT_MAX -> stoi (to_string z) = Some z.
Proof.
  intros Hz. unfold stoi. rewrite read_integer_to_string by lia. cbn [mbind option_bind].
  rewrite (proj2 (Z.leb_le _ _)) by (wrap_unfold; lia). by rewrite (proj2 (Z.leb_le _ _)) by lia.
Qed.

Lemma parsePort_to_string p fallback : 0 < p <= INT_MAX -> parsePort (to_string p) fallback = p.
Proof.
  intros Hp. unfold parsePort. assert (He : is_empty (to_string p) = false)
    by (apply is_empty_false, to_string_ne).
  by rewrite He, stoi_to_string, (proj2 (Z.ltb_lt _ _)) by lia.
Qed.

Lemma toUInt64_range s : 0 <= toUInt64 s < 2 ^ 64.
Proof.
  unfold toUInt64. destruct (is_empty s); [done|]. unfold stoull.
  destruct (read_integer s) as [[[neg n] r]|] eqn:E; cbn; [|done].
  assert (0 <= n).
  { unfold read_integer in E. destruct (read_sign _) as [b t]. destruct (starts_digit t); [|done].
    pose proof (read_digits_nonneg 0 t ltac:(lia)). destruct (read_digits 0 t). by simplify_eq. }
  destruct (ULLONG_MAX <? n) eqn:El; cbn; [done|]. to_props. destruct neg; [wrap_lia|wrap_unfold; lia].
Qed.

Lemma percent_nonneg part whole :
  0 <= part < 2 ^ 64 -> 0 < whole < 2 ^ 64 -> nonneg (RedisMonitor.percent_of part whole) = true.
Proof.
  intros Hp Hw. unfold RedisMonitor.percent_of.
  change (f64_of_Z 100) with (S754_finite false 7036874417766400 (-46)).
  apply SFmul_nonneg_pos. destruct (f64_of_Z_positive whole Hw) as (m & e & ->).
  apply SFdiv_nonneg_pos, f64_of_Z_nonneg. lia.
Qed.

(** The entries of a configuration text. *)
Lemma split_join d ls :
  Forall (fun l => l <> "" /\ free_of d l = true) ls -> split (join d ls) d = Some ls.
Proof. intros H. by rewrite split_pieces, pieces_join. Qed.

(** ** RedisMonitor *)
Module RedisReading.
Import RedisMonitor.

Definition print_target (t : Target) : string :=
  instance t +++ String "|" (host t +++ String "|" (to_string (port t) +++ String "|" (password t))).

Definition target_ok (t : Target) : Prop :=
  instance t <> "" /\ host t <> "" /\ 0 < port t <= INT_MAX /\
  field_ok (instance t) = true /\ field_ok (host t) = true /\ field_ok (password t) = true.

Lemma pieces_print t :
  target_ok t ->
  pieces "|" (print_target t) =
    instance t :: host t :: to_string (port t) ::
      (if is_empty (password t) then [] else [password t]).
Proof.
  unfold target_ok, field_ok. intros (_ & _ & _ & Hi & Hh & Hp). to_props.
  unfold print_target. rewrite pieces_app by done. rewrite pieces_app by done.
  rewrite pieces_app by (by apply free_of_to_string). do 3 f_equal.
  destruct (password t) eqn:E; [done|]. by apply pieces_free.
Qed.

Lemma target_of_parts_print t :
  target_ok t -> target_of_parts (pieces "|" (print_target t)) = t.
Proof.
  intros Hok. rewrite pieces_print by done. destruct Hok as (Hi & Hh & Hp & _).
  apply is_empty_false in Hi, Hh. destruct t as [i h p pw]. cbn [instance host port password] in *.
  unfold target_of_parts. cbn -[parsePort]. rewrite Hh. cbn -[parsePort].
  rewrite parsePort_to_string by done. destruct pw; cbn; by rewrite Hi.
Qed.

Lemma print_target_entry t : target_ok t -> print_target t <> "" /\ free_of ";" (print_target t) = true.
Proof.
  unfold target_ok, field_ok. intros (Hi & _ & _ & H1 & H2 & H3). to_props.
  split; [unfold print_target; by destruct (instance t)|].
  unfold print_target, free_of. rewrite str_all_app. apply andb_true_iff. split; [done|].
  cbn. rewrite str_all_app. apply andb_true_iff. split; [done|].
  cbn. rewrite str_all_app. apply andb_true_iff. split; [by apply free_of_to_string|done].
Qed.

Lemma read_entries_print ts : forall acc,
  Forall target_ok ts -> read_entries (map print_target ts) acc = Some (acc ++ ts).
Proof.
  induction ts as [|t ts IH]; intros acc Hok; cbn [map read_entries]; [by rewrite app_nil_r|].
  apply Forall_cons in Hok as [Ht Hok]. destruct (print_target_entry t Ht) as [Hne _].
  apply is_empty_false in Hne. rewrite Hne, split_pieces. cbn [mbind option_bind].
  by rewrite IH, target_of_parts_print, <- app_assoc.
Qed.

(** C37. The configuration of the Redis monitor is read back: a list of targets
    whose fields have no [;] and no [|], printed as
    [instance|host|port|password] with [;] between them in
    [REDIS_MONITOR_TARGETS], enables the monitor on exactly these targets. *)
Theorem redis_targets_read_back env ts :
  ts <> [] -> Forall target_ok ts ->
  env "REDIS_MONITOR_TARGETS" = Some (join ";" (map print_target ts)) ->
  make env =
    Some (mk_RedisMonitor true
            (parseTimeout (getEnv env "REDIS_MONITOR_TIMEOUT_SECONDS" "") 3) ts).
Proof.
  intros Hne Hok Henv. unfold make.
  assert (Ht : getEnv env "REDIS_MONITOR_TARGETS" "" = join ";" (map print_target ts))
    by (unfold getEnv; by rewrite Henv).
  rewrite Ht.
  assert (He : is_empty (join ";" (map print_target ts)) = false).
  { apply is_empty_false. destruct ts as [|t ts]; [done|].
    apply Forall_cons in Hok as [Hok _]. destruct (print_target_entry t Hok) as [H _].
    cbn. destruct (map print_target ts); [done|]. by destruct (print_target t). }
  rewrite He. cbn [negb]. rewrite split_join.
  - cbn [mbind option_bind]. rewrite (read_entries_print ts [] Hok). cbn. by rewrite orb_true_r.
  - apply Forall_map. eapply Forall_impl; [exact Hok|]. apply print_target_entry.
Qed.

(** The lines of an [INFO] text: section titles, blank lines, values. *)
Inductive info_line := Title (s : string) | Blank | Value (key value : string).

Definition print_line (l : info_line) : string :=
  (match l with Title s => "#" +++ s | Blank => "" | Value k v => k +++ String ":" v end)
    +++ String carriage_return "".

Definition print_info (ls : list info_line) : string := unlines newline (map print_line ls).

Definition line_ok (l : info_line) : Prop :=
  match l with
  | Title s => one_line s = true
  | Blank => True
  | Value k v =>
      k <> "" /\ (forall r, k <> String "#" r) /\ free_of ":" k = true /\
      one_line k = true /\ one_line v = true
  end.

Definition put_line (values : gmap string string) (l : info_line) : gmap string string :=
  match l with Value k v => <[k := v]> values | _ => values end.

Lemma read_info_line_print values l :
  line_ok l -> read_info_line values (print_line l) = put_line values l.
Proof.
  intros Hok. unfold read_info_line, print_line. rewrite pop_back_if_app.
  destruct l as [s| |k v]; [done|done|]. destruct Hok as (Hne & Hh & Hc & _).
  destruct k as [|c k]; [done|]. rewrite append_cons.
  destruct (Ascii.eqb_spec c "#") as [->|_]; [by destruct (Hh k)|].
  rewrite <- append_cons, split_at_app by done. done.
Qed.

Lemma print_line_one_line l : line_ok l -> one_line (print_line l) = true.
Proof.
  intros Hok. unfold print_line, one_line. rewrite str_all_app. apply andb_true_iff. split; [|done].
  destruct l as [s| |k v]; [exact Hok|done|]. destruct Hok as (_ & _ & _ & Hk & Hv).
  rewrite str_all_app. apply andb_true_iff. split; [exact Hk|exact Hv].
Qed.

(** The reply of [INFO] is read back: on a text of section titles, blank
    lines and [key:value] lines, each ended by a carriage return and a newline,
    [parseInfo] gives the map of the pairs, a repeated key having its last
    value. *)
Theorem redis_info_read_back ls :
  Forall line_ok ls -> parseInfo (print_info ls) = Some (foldl put_line ∅ ls).
Proof.
  intros Hok. unfold parseInfo, print_info. rewrite getlines_pieces by lia.
  rewrite pieces_unlines by
    (apply Forall_map; eapply Forall_impl; [exact Hok|apply print_line_one_line]).
  cbn [mbind option_bind]. f_equal. generalize (∅ : gmap string string).
  induction Hok as [|l ls Hl _ IH]; intros m; [done|]. cbn [map foldl].
  by rewrite read_info_line_print, IH.
Qed.

Lemma infoUInt64_range values key : 0 <= infoUInt64 values key < 2 ^ 64.
Proof. unfold infoUInt64. destruct (values !! key); [apply toUInt64_range|done]. Qed.

Lemma parseInfo_total text : is_Some (parseInfo text).
Proof. unfold parseInfo. rewrite getlines_pieces by lia. eauto. Qed.

(** What the message of a target says. *)
Definition message_spec (srv : server) (t : Target) (i : RedisInfo.t) : Prop :=
  RedisInfo.instance i = instance t /\ RedisInfo.host i = host t /\ RedisInfo.port i = port t /\
  (RedisInfo.up i = true <-> is_Some (info srv)) /\
  (RedisInfo.up i = false -> i = message_down t) /\
  nonneg (RedisInfo.memory_used_percent i) = true /\
  nonneg (RedisInfo.keyspace_hit_percent i) = true.

Lemma read_target_spec connect timeout t :
  exists i, read_target connect timeout t = Some i /\
    message_spec (connect (options_of timeout t)) t i.
Proof.
  unfold read_target, message_spec. destruct (info _) as [text|].
  - destruct (parseInfo_total text) as [values ->]. cbn [mbind option_bind].
    eexists. split; [done|]. do 3 (split; [done|]). split; [by eauto|]. split; [done|].
    unfold message_up. cbn. split.
    + destruct (0 <? _) eqn:E; [|done]. to_props.
      apply percent_nonneg; [apply infoUInt64_range|]. split; [done|apply infoUInt64_range].
    + destruct (0 <? _) eqn:E; [|done]. to_props.
      apply percent_nonneg; [apply infoUInt64_range|]. split; [done|]. unfold u64_add. wrap_lia.
  - eexists. split; [done|]. do 3 (split; [done|]). split; [|done]. split; [done|by intros []].
Qed.

(** C36. A reading of the Redis monitor ends whatever the servers answer.  When
    the monitor is enabled it appends one message per target, in order, with
    the identity of the target, up exactly when the server answered [INFO];
    a server that does not answer gives the message with no measurement and
    does not touch the others, and the two percentages are numbers that are not
    below zero. *)
Theorem redis_update_spec connect self m :
  enabled_ self = true ->
  exists infos,
    updateOnce connect self m =
      Some (MonitorInfo.set_redis_info (MonitorInfo.redis_info m ++ infos) m) /\
    Forall2 (fun t i => message_spec (connect (options_of (timeoutSeconds_ self) t)) t i)
      (targets_ self) infos.
Proof.
  intros He. unfold updateOnce. rewrite He. cbn [negb].
  assert (H : exists infos,
    mapM (read_target connect (timeoutSeconds_ self)) (targets_ self) = Some infos /\
    Forall2 (fun t i => message_spec (connect (options_of (timeoutSeconds_ self) t)) t i)
      (targets_ self) infos).
  { induction (targets_ self) as [|t ts (infos & IH & Hf)]; [by exists []|].
    destruct (read_target_spec connect (timeoutSeconds_ self) t) as (i & Hi & Hs).
    exists (i :: infos). split; [|by constructor]. cbn. rewrite Hi. cbn. cbn in IH. by rewrite IH. }
  destruct H as (infos & -> & Hf). by exists infos.
Qed.

Definition sample_target : Target := mk_Target "cache" "10.0.0.7" 6380 "secret".

Lemma sample_target_ok : target_ok sample_target.
Proof. unfold target_ok. repeat split; done. Qed.

Definition sample_env : environment := fun n =>
  if String.eqb n "REDIS_MONITOR_TARGETS"
  then Some "cache|10.0.0.7|6380|secret;cache|10.0.0.7|6380|secret" else None.

Lemma redis_targets_read_back_witness :
  make sample_env = Some (mk_RedisMonitor true 3 [sample_target; sample_target]).
Proof.
  refine (redis_targets_read_back sample_env [sample_target; sample_target] _ _ _);
    [done|repeat constructor; apply sample_target_ok|reflexivity].
Defined.

Definition sample_info : list info_line :=
  [Title " Server"; Value "redis_version" "7.2"; Blank; Value "role" "master";
   Value "used_memory" "100"; Value "maxmemory" "400"].

Lemma redis_info_read_back_witness :
  parseInfo (print_info sample_info) = Some (foldl put_line ∅ sample_info).
Proof.
  apply redis_info_read_back. unfold sample_info.
  repeat constructor; first [done | by intros r].
Defined.

Lemma redis_update_spec_witness :
  exists infos,
    updateOnce (fun _ => mk_server None None) (mk_RedisMonitor true 3 [sample_target])
      MonitorInfo.empty = Some (MonitorInfo.set_redis_info ([] ++ infos) MonitorInfo.empty) /\
    Forall2 (fun t i => message_spec (mk_server None None) t i) [sample_target] infos.
Proof.
  apply (redis_update_spec (fun _ => mk_server None None) (mk_RedisMonitor true 3 [sample_target])
           MonitorInfo.empty). reflexivity.
Defined.

(** A master without a replica reports a configured replication, where
    [redis_info.proto] asks for the presence of the relation. *)
Lemma lone_master_is_replicated t :
  RedisInfo.replication_configured
    (message_up t {[ "role" := "master"; "connected_slaves" := "0" ]} None) = true.
Proof. done. Qed.
End RedisReading.

(** ** MysqlMonitor *)
Module MysqlReading.
Import MysqlMonitor.

Definition print_target (t : Target) : string :=
  instance t +++ String "|" (host t +++ String "|" (to_string (port t) +++ String "|"
    (user t +++ String "|" (password t +++ String "|" (role_hint t))))).

Definition target_ok (t : Target) : Prop :=
  instance t <> "" /\ host t <> "" /\ role_hint t <> "" /\ 0 < port t <= INT_MAX /\
  field_ok (instance t) = true /\ field_ok (host t) = true /\ field_ok (user t) = true /\
  field_ok (password t) = true /\ field_ok (role_hint t) = true.

Lemma mysql_pieces_print t :
  target_ok t ->
  pieces "|" (print_target t) =
    [instance t; host t; to_string (port t); user t; password t; role_hint t].
Proof.
  unfold target_ok, field_ok. intros (_ & _ & Hr & _ & H1 & H2 & H3 & H4 & H5). to_props.
  unfold print_target. rewrite pieces_app by done. rewrite pieces_app by done.
  rewrite pieces_app by (by apply free_of_to_string).
  rewrite pieces_app by done. rewrite pieces_app by done. by rewrite pieces_free.
Qed.

Lemma mysql_target_of_parts_print t :
  target_ok t -> target_of_parts (pieces "|" (print_target t)) = t.
Proof.
  intros Hok. rewrite mysql_pieces_print by done. destruct Hok as (Hi & Hh & Hr & Hp & _).
  apply is_empty_false in Hi, Hh, Hr. destruct t as [i h p u pw r].
  cbn [instance host port user password role_hint] in *.
  unfold target_of_parts. cbn -[parsePort]. rewrite Hh, Hi, Hr. by rewrite parsePort_to_string.
Qed.

Lemma mysql_print_target_entry t : target_ok t -> print_target t <> "" /\ free_of ";" (print_target t) = true.
Proof.
  unfold target_ok, field_ok. intros (Hi & _ & _ & _ & H1 & H2 & H3 & H4 & H5). to_props.
  split; [unfold print_target; by destruct (instance t)|].
  assert (Hf : forall s r, free_of ";" s = true -> free_of ";" r = true ->
                 free_of ";" (s +++ String "|" r) = true).
  { intros s r Hs Hr. unfold free_of. rewrite str_all_app. apply andb_true_iff. by split. }
  unfold print_target. repeat apply Hf; try done. by apply free_of_to_string.
Qed.

Lemma mysql_read_entries_print ts : forall acc,
  Forall target_ok ts -> read_entries (map print_target ts) acc = Some (acc ++ ts).
Proof.
  induction ts as [|t ts IH]; intros acc Hok; cbn [map read_entries]; [by rewrite app_nil_r|].
  apply Forall_cons in Hok as [Ht Hok]. destruct (mysql_print_target_entry t Ht) as [Hne _].
  apply is_empty_false in Hne. rewrite Hne, split_pieces. cbn [mbind option_bind].
  by rewrite IH, mysql_target_of_parts_print, <- app_assoc.
Qed.

(** The configuration of the MySQL monitor is read back. *)
Lemma mysql_targets_read_back env ts :
  ts <> [] -> Forall target_ok ts ->
  env "MYSQL_MONITOR_TARGETS" = Some (join ";" (map print_target ts)) ->
  make env =
    Some (mk_MysqlMonitor true
            (parseTimeout (getEnv env "MYSQL_MONITOR_TIMEOUT_SECONDS" "") 3) ts).
Proof.
  intros Hne Hok Henv. unfold make.
  assert (Ht : getEnv env "MYSQL_MONITOR_TARGETS" "" = join ";" (map print_target ts))
    by (unfold getEnv; by rewrite Henv).
  rewrite Ht.
  assert (He : is_empty (join ";" (map print_target ts)) = false).
  { apply is_empty_false. destruct ts as [|t ts]; [done|].
    apply Forall_cons in Hok as [Hok _]. destruct (mysql_print_target_entry t Hok) as [H _].
    cbn. destruct (map print_target ts); [done|]. by destruct (print_target t). }
  rewrite He. cbn [negb]. rewrite split_join.
  - cbn [mbind option_bind]. rewrite (mysql_read_entries_print ts [] Hok). cbn. by rewrite orb_true_r.
  - apply Forall_map. eapply Forall_impl; [exact Hok|]. apply mysql_print_target_entry.
Qed.

(** *** Handles *)

(** The handles that are open: the connections and the result sets.  A result
    set belongs to an open connection, which outlives it. *)
Definition ledger_step (h : option (nat * nat)) (c : call) : option (nat * nat) :=
  match h, c with
  | Some (conns, results), Init => Some (S conns, results)
  | Some (S conns, O), CloseConn => Some (conns, O)
  | Some (S conns, results), StoreResult => Some (S conns, S results)
  | Some (conns, S results), FreeResult => Some (conns, results)
  | _, _ => None
  end.

Definition ledger (calls : list call) (h : nat * nat) : option (nat * nat) :=
  foldl ledger_step (Some h) calls.

Lemma ledger_app c1 c2 h h' : ledger c1 h = Some h' -> ledger (c1 ++ c2) h = ledger c2 h'.
Proof. unfold ledger. intros H. by rewrite foldl_app, H. Qed.

(** Calls made on an open connection that leave it as it was. *)
Definition balanced (calls : list call) : Prop := ledger calls (1, 0)%nat = Some (1, 0)%nat.

Lemma queryNameValue_balanced conn sql : balanced (queryNameValue conn sql).2.
Proof. unfold queryNameValue. by destruct (mysql_query conn sql). Qed.

Lemma queryReplicationStatus_balanced conn : balanced (queryReplicationStatus conn).2.
Proof.
  unfold queryReplicationStatus, parseResult.
  destruct (mysql_query conn "SHOW REPLICA STATUS") as [| |[f [|r rs]]]; try done;
    by destruct (mysql_query conn "SHOW SLAVE STATUS") as [| |[f' [|r' rs']]].
Qed.

Lemma read_target_ledger c timeout t : ledger (read_target c timeout t).2 (0, 0)%nat = Some (0, 0)%nat.
Proof.
  unfold read_target. destruct (mysql_init c t); [|done].
  destruct (mysql_real_connect c t timeout) as [conn|]; [|done]. cbn [negb].
  pose proof (queryNameValue_balanced conn variables_sql) as H1.
  pose proof (queryNameValue_balanced conn status_sql) as H2.
  pose proof (queryReplicationStatus_balanced conn) as H3.
  destruct (queryNameValue conn variables_sql) as [v c1].
  destruct (queryNameValue conn status_sql) as [s c2].
  destruct (queryReplicationStatus conn) as [r c3]. cbn [snd] in *.
  change (ledger (c1 ++ c2 ++ c3 ++ [CloseConn]) (1, 0)%nat = Some (0, 0)%nat).
  by rewrite (ledger_app _ _ _ _ H1), (ledger_app _ _ _ _ H2), (ledger_app _ _ _ _ H3).
Qed.

(** C35. A reading of the MySQL monitor gives back every handle it takes, on
    every path: whatever the servers answer -- no handle, no connection, a
    refused statement, no result set, an empty one -- no connection and no
    result set is left open, none is released twice, and a connection is closed
    after its result sets. *)
Theorem mysql_handles_released c self m :
  ledger (updateOnce c self m).2 (0, 0)%nat = Some (0, 0)%nat.
Proof.
  unfold updateOnce. destruct (enabled_ self); [|done]. cbn [negb snd].
  induction (targets_ self) as [|t ts IH]; [done|]. cbn [map concat].
  by rewrite (ledger_app _ _ _ _ (read_target_ledger c _ t)).
Qed.

(** *** The message *)

Lemma hit_percent_nonneg reads requests :
  0 <= reads < 2 ^ 64 -> 0 <= requests < 2 ^ 64 -> nonneg (hit_percent reads requests) = true.
Proof.
  intros Hr Hq. unfold hit_percent. destruct (0 <? requests) eqn:E; [|done]. to_props.
  destruct (flt _ fzero) eqn:Ef; [done|]. apply not_flt_zero_nonneg; [|done].
  change (f64_of_Z 100) with (S754_finite false 7036874417766400 (-46)). apply SFmul_not_nan.
  apply SFsub_not_nan; [done|]. destruct (f64_of_Z_positive requests) as (m & e & ->); [lia|].
  apply SFdiv_not_nan, binary_normalize_not_nan.
Qed.

Lemma number_range values key : 0 <= number values key < 2 ^ 64.
Proof. unfold number. destruct (values !! key); [apply toUInt64_range|done]. Qed.

(** The connection a reading uses. *)
Definition reached (c : client) (timeout : Z) (t : Target) : option connection :=
  if mysql_init c t then mysql_real_connect c t timeout else None.

(** The first row of the replication status, asked first in the new words. *)
Definition replication_row (conn : connection) : option (list (option string)) :=
  match mysql_query conn "SHOW REPLICA STATUS" with
  | Result r => head (rows r)
  | _ => match mysql_query conn "SHOW SLAVE STATUS" with Result r => head (rows r) | _ => None end
  end.

Definition message_spec (conn : option connection) (t : Target) (i : MysqlInfo.t) : Prop :=
  MysqlInfo.instance i = instance t /\ MysqlInfo.host i = host t /\ MysqlInfo.port i = port t /\
  (MysqlInfo.up i = true <-> is_Some conn) /\
  (MysqlInfo.up i = false -> i = message_down t) /\
  (role_hint t <> "" -> role_hint t <> "unknown" -> MysqlInfo.role i = role_hint t) /\
  nonneg (MysqlInfo.innodb_buffer_pool_hit_percent i) = true /\
  (MysqlInfo.replication_configured i = true <-> is_Some (conn ≫= replication_row)) /\
  (MysqlInfo.replication_running i = true -> MysqlInfo.replication_configured i = true).

Lemma replication_configured_row conn :
  (configured (queryReplicationStatus conn).1 = true <-> is_Some (replication_row conn)) /\
  (running (queryReplicationStatus conn).1 = true ->
   configured (queryReplicationStatus conn).1 = true).
Proof.
  assert (Hn : is_Some (@None (list (option string))) <-> false = true)
    by (split; [by intros []|done]).
  unfold queryReplicationStatus, replication_row, parseResult.
  destruct (mysql_query conn "SHOW REPLICA STATUS") as [| |[f [|r rs]]];
    try (split; [by split; [eauto|]|done]);
    try destruct (mysql_query conn "SHOW SLAVE STATUS") as [| |[f' [|r' rs']]]; cbn;
    (split; [|done]); first [by symmetry | by split; eauto].
Qed.

Lemma mysql_read_target_spec c timeout t :
  message_spec (reached c timeout t) t (read_target c timeout t).1.
Proof.
  unfold message_spec, reached, read_target.
  assert (Hdown : role_hint t <> "" -> role_hint t <> "unknown" ->
            MysqlInfo.role (message_down t) = role_hint t).
  { intros Hr _. cbn. apply is_empty_false in Hr. by rewrite Hr. }
  destruct (mysql_init c t); cbn [negb];
    [|repeat split; try done; by intros []].
  destruct (mysql_real_connect c t timeout) as [conn|];
    [|repeat split; try done; by intros []].
  pose proof (replication_configured_row conn) as [Hc Hrun].
  destruct (queryNameValue conn variables_sql) as [vars c1].
  destruct (queryNameValue conn status_sql) as [st c2].
  destruct (queryReplicationStatus conn) as [r c3]. cbn [fst] in *.
  unfold message_up. cbn. do 3 (split; [done|]). split; [by eauto|]. split; [done|].
  split; [intros H1 H2; unfold inferRole; apply is_empty_false in H1; rewrite H1;
          by rewrite (proj2 (String.eqb_neq _ _) H2)|].
  split; [apply hit_percent_nonneg; apply number_range|]. by split.
Qed.

(** A reading of the MySQL monitor appends one message per target, in
    order, with the identity of the target, up exactly when a connection was
    made; the role is the configured one if there is one; the hit rate is a
    number that is not below zero; replication counts as configured exactly
    when the first status statement that gives a result set gives a row, and
    runs only then. *)
Theorem mysql_update_spec c self m :
  enabled_ self = true ->
  exists infos,
    (updateOnce c self m).1 = MonitorInfo.set_mysql_info (MonitorInfo.mysql_info m ++ infos) m /\
    Forall2 (fun t i => message_spec (reached c (timeoutSeconds_ self) t) t i)
      (targets_ self) infos.
Proof.
  intros He. unfold updateOnce. rewrite He. cbn [negb fst]. eexists. split; [done|].
  rewrite map_map. induction (targets_ self) as [|t ts IH]; [constructor|].
  constructor; [apply mysql_read_target_spec|exact IH].
Qed.

Definition sample_target : Target := mk_Target "db" "10.0.0.8" 3306 "monitor" "pw" "unknown".

Definition sample_connection : connection :=
  mk_connection (Some "8.4") (fun sql =>
    if String.eqb sql "SHOW REPLICA STATUS"
    then Result (mk_res [Some "Replica_IO_Running"; Some "Replica_SQL_Running"]
                   [[Some "Yes"; Some "Yes"]])
    else QueryFailed).

Definition sample_client : client := mk_client (fun _ => true) (fun _ _ => Some sample_connection).

Lemma mysql_update_spec_witness :
  exists infos,
    (updateOnce sample_client (mk_MysqlMonitor true 3 [sample_target]) MonitorInfo.empty).1 =
      MonitorInfo.set_mysql_info ([] ++ infos) MonitorInfo.empty /\
    Forall2 (fun t i => message_spec (reached sample_client 3 t) t i) [sample_target] infos.
Proof.
  apply (mysql_update_spec sample_client (mk_MysqlMonitor true 3 [sample_target])
           MonitorInfo.empty). reflexivity.
Defined.
End MysqlReading.
