(* ===== verification/ManagerConfig.v ===== *)
(** * ManagerConfig: the manager's configuration from the environment

    [src/manager/src/ManagerConfig.cpp], [src/manager/include/ManagerConfig.h]
    and [src/manager/include/MysqlConfig.h].  The environment is a function
    from names to values ([std::getenv]); durations are numbers in the unit of
    their [std::chrono] type. *)

From S2P Require Import Prelude CFloat CString.

(** ** MysqlConfig.h *)


Record MysqlConfig := mk_MysqlConfig {
  host : string; port : Z; user : string; password : string; database : string }.

Definition getEnvOrDefault (env : environment) (name defaultValue : string) : string :=
  match env name with
  | Some value => if is_empty value then defaultValue else value
  | None => defaultValue
  end.

Definition getEnvPortOrDefault (env : environment) (name : string) (defaultValue : Z) : Z :=
  match env name with
  | None => defaultValue
  | Some value =>
      if is_empty value then defaultValue
      else
        match strtoul value with
        | None => defaultValue                                    (* end == value *)
        | Some (p, rest) =>
            if negb (is_empty rest) || (p =? 0) || (65535 <? p) then defaultValue
            else u32_wrap p
        end
  end.

Definition loadMysqlConfigFromEnv (env : environment) : MysqlConfig :=
  {| host := getEnvOrDefault env "MYSQL_HOST" "127.0.0.1";
     port := getEnvPortOrDefault env "MYSQL_PORT" 3306;
     user := getEnvOrDefault env "MYSQL_USER" "root";
     password := default "" (env "MYSQL_PASSWORD");
     database := getEnvOrDefault env "MYSQL_DATABASE" "monitor-system" |}.

(** ** ManagerConfig.cpp: reading one variable *)

Definition envInt (env : environment) (name : string) (fallback minValue : Z) : Z :=
  match env name with
  | None => fallback
  | Some value =>
      match strtol value with
      | None => fallback
      | Some (parsed, rest) =>
          if is_empty rest then Z.max (i32_wrap parsed) minValue else fallback
      end
  end.

Definition envSize (env : environment) (name : string) (fallback minValue : Z) : Z :=
  u64_wrap (envInt env name (i32_wrap fallback) (i32_wrap minValue)).

Definition envBool (env : environment) (name : string) (fallback : bool) : bool :=
  match env name with
  | None => fallback
  | Some value =>
      let text := str_map tolower value in
      String.eqb text "1" || String.eqb text "true" || String.eqb text "yes" ||
      String.eqb text "on"
  end.

Definition envString (env : environment) (name fallback : string) : string :=
  match env name with Some value => value | None => fallback end.

(** ** ManagerConfig.h *)

Record ManagerConfig := mk_ManagerConfig {
  grpc_num_cqs : Z; grpc_min_pollers : Z; grpc_max_pollers : Z;
  task_queue_capacity : Z; task_queue_high_watermark : Z; task_queue_low_watermark : Z;
  task_timeout : Z; ingest_shard_count : Z; ingest_queue_capacity_per_shard : Z;
  query_queue_capacity : Z; query_queue_high_watermark : Z; query_queue_low_watermark : Z;
  query_threads_min : Z; query_threads_max : Z; query_idle_shrink : Z;
  business_threads_min : Z; business_threads_max : Z; business_idle_shrink : Z;
  mysql_write_pool_min : Z; mysql_write_pool_max : Z;
  mysql_query_pool_min : Z; mysql_query_pool_max : Z;
  mysql_connect_timeout : Z; mysql_read_timeout : Z; mysql_health_check : Z; mysql_idle_ttl : Z;
  redis_enabled : bool; redis_uri : string; redis_pool_min : Z; redis_pool_max : Z;
  redis_connect_timeout : Z; redis_read_timeout : Z; redis_health_check : Z;
  redis_idle_ttl : Z; redis_cache_ttl : Z;
  verbose_log : bool; metrics_log_interval : Z }.

(** [static_cast<size_t>(capacity * 0.8)], a product that fits [size_t]. *)
Definition eighty_percent (capacity : Z) : Z :=
  default 0 (f_to_u64 (f64_mul (f64_of_Z capacity) (f64_lit 4 5))).

(** ** ManagerConfig.cpp: [loadManagerConfigFromEnv] *)
Definition loadManagerConfigFromEnv (env : environment) (hardware_concurrency : Z)
    : ManagerConfig :=
  let cpu := Z.max 1 (i32_wrap hardware_concurrency) in
  let num_cqs := envInt env "MANAGER_GRPC_NUM_CQS" 4 1 in
  let min_pollers := envInt env "MANAGER_GRPC_MIN_POLLERS" 8 1 in
  let max_pollers := envInt env "MANAGER_GRPC_MAX_POLLERS" 64 min_pollers in
  let tq_capacity := envSize env "MANAGER_TASK_QUEUE_CAPACITY" 10000 1 in
  let tq_high := envSize env "MANAGER_TASK_QUEUE_HIGH_WATERMARK" (tq_capacity * 8 / 10) 1 in
  let tq_low := envSize env "MANAGER_TASK_QUEUE_LOW_WATERMARK" (tq_capacity * 3 / 10) 0 in
  let tq_high := if tq_capacity <? tq_high then eighty_percent tq_capacity else tq_high in
  let tq_low := if tq_high <? tq_low then tq_high / 2 else tq_low in
  let timeout := envInt env "MANAGER_TASK_TIMEOUT_MS" 3000 1 in
  let shards := envSize env "MANAGER_INGEST_SHARD_COUNT" 8 1 in
  let shard_capacity := envSize env "MANAGER_INGEST_QUEUE_CAPACITY_PER_SHARD" 2048 1 in
  let q_capacity := envSize env "MANAGER_QUERY_QUEUE_CAPACITY" 10000 1 in
  let q_high := envSize env "MANAGER_QUERY_QUEUE_HIGH_WATERMARK" (q_capacity * 8 / 10) 1 in
  let q_low := envSize env "MANAGER_QUERY_QUEUE_LOW_WATERMARK" (q_capacity * 3 / 10) 0 in
  let q_high := if q_capacity <? q_high then q_capacity else q_high in
  let q_low := if q_high <? q_low then q_high / 2 else q_low in
  let q_threads_min := envInt env "MANAGER_QUERY_THREADS_MIN" (Z.max 4 cpu) 1 in
  let q_threads_max :=
    envInt env "MANAGER_QUERY_THREADS_MAX" (Z.max q_threads_min (cpu * 2)) q_threads_min in
  let b_threads_min := envInt env "MANAGER_BUSINESS_THREADS_MIN" (Z.max 4 cpu) 1 in
  let b_threads_max :=
    envInt env "MANAGER_BUSINESS_THREADS_MAX" (Z.max b_threads_min (cpu * 2)) b_threads_min in
  let w_pool_min := envInt env "MANAGER_MYSQL_WRITE_POOL_MIN" 2 0 in
  let q_pool_min := envInt env "MANAGER_MYSQL_QUERY_POOL_MIN" 4 0 in
  let r_pool_min := envInt env "MANAGER_REDIS_POOL_MIN" 2 0 in
  {| grpc_num_cqs := num_cqs; grpc_min_pollers := min_pollers; grpc_max_pollers := max_pollers;
     task_queue_capacity := tq_capacity; task_queue_high_watermark := tq_high;
     task_queue_low_watermark := tq_low; task_timeout := timeout;
     ingest_shard_count := shards; ingest_queue_capacity_per_shard := shard_capacity;
     query_queue_capacity := q_capacity; query_queue_high_watermark := q_high;
     query_queue_low_watermark := q_low;
     query_threads_min := q_threads_min; query_threads_max := q_threads_max;
     query_idle_shrink := envInt env "MANAGER_QUERY_IDLE_SHRINK_SECONDS" 30 1;
     business_threads_min := b_threads_min; business_threads_max := b_threads_max;
     business_idle_shrink := envInt env "MANAGER_BUSINESS_IDLE_SHRINK_SECONDS" 30 1;
     mysql_write_pool_min := w_pool_min;
     mysql_write_pool_max := envInt env "MANAGER_MYSQL_WRITE_POOL_MAX" 4 w_pool_min;
     mysql_query_pool_min := q_pool_min;
     mysql_query_pool_max := envInt env "MANAGER_MYSQL_QUERY_POOL_MAX" 8 q_pool_min;
     mysql_connect_timeout := envInt env "MANAGER_MYSQL_CONNECT_TIMEOUT_MS" 1000 1;
     mysql_read_timeout := envInt env "MANAGER_MYSQL_READ_TIMEOUT_MS" 2000 1;
     mysql_health_check := envInt env "MANAGER_MYSQL_HEALTH_CHECK_SECONDS" 10 1;
     mysql_idle_ttl := envInt env "MANAGER_MYSQL_IDLE_TTL_SECONDS" 60 1;
     redis_enabled := envBool env "MANAGER_REDIS_ENABLED" true;
     redis_uri := envString env "MANAGER_REDIS_URI" "tcp://127.0.0.1:6379";
     redis_pool_min := r_pool_min;
     redis_pool_max := envInt env "MANAGER_REDIS_POOL_MAX" 8 r_pool_min;
     redis_connect_timeout := envInt env "MANAGER_REDIS_CONNECT_TIMEOUT_MS" 500 1;
     redis_read_timeout := envInt env "MANAGER_REDIS_READ_TIMEOUT_MS" 1000 1;
     redis_health_check := envInt env "MANAGER_REDIS_HEALTH_CHECK_SECONDS" 10 1;
     redis_idle_ttl := envInt env "MANAGER_REDIS_IDLE_TTL_SECONDS" 60 1;
     redis_cache_ttl := envInt env "MANAGER_REDIS_CACHE_TTL_SECONDS" 5 1;
     verbose_log := envBool env "MANAGER_VERBOSE_LOG" false;
     metrics_log_interval := envInt env "MANAGER_METRICS_LOG_INTERVAL_SECONDS" 10 1 |}.

(** ** Lemmas *)

(** The variable is set and all of it is a number. *)
Definition is_set (env : environment) (name : string) : bool :=
  match env name with
  | Some value => match strtol value with Some (_, rest) => is_empty rest | None => false end
  | None => false
  end.

Lemma envInt_cases env name fallback minValue :
  INT_MIN <= minValue <= INT_MAX ->
  if is_set env name
  then minValue <= envInt env name fallback minValue <= INT_MAX
  else envInt env name fallback minValue = fallback.
Proof.
  intros Hm. unfold is_set, envInt. destruct (env name) as [v|]; [|done].
  destruct (strtol v) as [[p rest]|]; [|done]. destruct (is_empty rest); [|done].
  pose proof (i32_wrap_range p). lia.
Qed.

Lemma envInt_range env name fallback minValue :
  minValue <= fallback <= INT_MAX -> INT_MIN <= minValue ->
  minValue <= envInt env name fallback minValue <= INT_MAX.
Proof.
  intros Hf Hm. pose proof (envInt_cases env name fallback minValue ltac:(lia)).
  destruct (is_set env name); lia.
Qed.

Lemma envSize_range env name fallback minValue :
  0 <= minValue <= INT_MAX -> 0 <= fallback <= INT_MAX ->
  0 <= envSize env name fallback minValue <= INT_MAX /\
  (minValue <= fallback -> minValue <= envSize env name fallback minValue).
Proof.
  intros Hm Hf. unfold envSize.
  pose proof (envInt_cases env name (i32_wrap fallback) (i32_wrap minValue)) as H.
  rewrite !i32_wrap_small in H |- * by (wrap_unfold; lia).
  specialize (H ltac:(wrap_unfold; lia)).
  destruct (is_set env name); rewrite u64_wrap_small by (wrap_unfold; lia); lia.
Qed.

#[export] Hint Resolve envInt_range envSize_range : monitor.

Lemma eighty_percent_nonneg c : 0 <= eighty_percent c.
Proof.
  unfold eighty_percent, f_to_u64. destruct (f_trunc _) as [z|]; cbn; [|done].
  break_if; cbn; to_props; lia.
Qed.

(** ** Properties *)

(** What the rest of the manager relies on. *)
Definition config_wf (c : ManagerConfig) : Prop :=
  (1 <= grpc_num_cqs c /\ 1 <= grpc_min_pollers c) /\
  (1 <= task_queue_capacity c <= INT_MAX /\
   task_queue_low_watermark c <= task_queue_high_watermark c) /\
  (1 <= ingest_shard_count c /\ 1 <= ingest_queue_capacity_per_shard c) /\
  (1 <= query_queue_capacity c /\
   query_queue_low_watermark c <= query_queue_high_watermark c <= query_queue_capacity c) /\
  (1 <= query_threads_min c <= query_threads_max c) /\
  (1 <= business_threads_min c <= business_threads_max c) /\
  (0 <= mysql_write_pool_min c /\ 0 <= mysql_query_pool_min c /\ 0 <= redis_pool_min c) /\
  Forall (fun d => 1 <= d <= INT_MAX)
    [task_timeout c; query_idle_shrink c; business_idle_shrink c; mysql_connect_timeout c;
     mysql_read_timeout c; mysql_health_check c; mysql_idle_ttl c; redis_connect_timeout c;
     redis_read_timeout c; redis_health_check c; redis_idle_ttl c; redis_cache_ttl c;
     metrics_log_interval c].

(** C39. The configuration is well formed for every environment, whatever text
    the variables hold: capacities, shard counts and timeouts are at least 1,
    the low watermark is not above the high one, which for the query queue is
    not above the capacity, and the minimal thread counts are at least 1 and
    not above the maximal ones. *)
Theorem manager_config_wf env hardware_concurrency :
  0 <= hardware_concurrency <= 2 ^ 16 ->
  config_wf (loadManagerConfigFromEnv env hardware_concurrency).
Proof.
  intros Hc. unfold config_wf, loadManagerConfigFromEnv; cbn.
  set (cpu := Z.max 1 (i32_wrap hardware_concurrency)).
  assert (Hcpu : 1 <= cpu <= 2 ^ 16) by (unfold cpu; rewrite i32_wrap_small; wrap_unfold; lia).
  clearbody cpu. clear Hc.
  assert (R : forall n f m, m <= f <= 2 ^ 31 - 1 -> - 2 ^ 31 <= m -> m <= envInt env n f m <= 2 ^ 31 - 1)
    by (intros; apply envInt_range; wrap_unfold; lia).
  assert (S : forall n f m, 0 <= m <= 2 ^ 31 - 1 -> 0 <= f <= 2 ^ 31 - 1 ->
      0 <= envSize env n f m <= 2 ^ 31 - 1 /\ (m <= f -> m <= envSize env n f m))
    by (intros; apply envSize_range; wrap_unfold; lia).
  assert (W : forall a b : Z, 0 <= a -> (if a <? b then a / 2 else b) <= a).
  { intros a b Ha. destruct (a <? b) eqn:E; to_props; [|lia]. Z.to_euclidean_division_equations; lia. }
  unfold INT_MAX. split_and!; try apply R; try lia.
  all: try (apply S; lia).
  - apply W. break_if; [apply eighty_percent_nonneg|]. apply S; [lia|].
    destruct (S "MANAGER_TASK_QUEUE_CAPACITY" 10000 1); [lia..|]. Z.to_euclidean_division_equations; lia.
  - apply W. pose proof (S "MANAGER_QUERY_QUEUE_CAPACITY" 10000 1 ltac:(lia) ltac:(lia)) as [Hq _].
    break_if; [lia|]. apply S; [lia|]. Z.to_euclidean_division_equations; lia.
  - break_if; to_props; lia.
  - pose proof (R "MANAGER_QUERY_THREADS_MIN" (Z.max 4 cpu) 1 ltac:(lia) ltac:(lia)). lia.
  - pose proof (R "MANAGER_QUERY_THREADS_MIN" (Z.max 4 cpu) 1 ltac:(lia) ltac:(lia)). lia.
  - pose proof (R "MANAGER_BUSINESS_THREADS_MIN" (Z.max 4 cpu) 1 ltac:(lia) ltac:(lia)). lia.
  - pose proof (R "MANAGER_BUSINESS_THREADS_MIN" (Z.max 4 cpu) 1 ltac:(lia) ltac:(lia)). lia.
  - repeat constructor; apply R; lia.
Qed.

Definition empty_env : environment := fun _ => None.

Lemma manager_config_wf_witness : config_wf (loadManagerConfigFromEnv empty_env 8).
Proof. apply (manager_config_wf empty_env 8). lia. Defined.

(** The maximal sizes of the connection pools and of the gRPC pollers are
    not kept above the minimal ones.  [envInt] applies the minimum to a value
    it parsed but not to the default, so raising only the minimum in the
    environment yields a configuration whose maximum is below its minimum. *)
Theorem manager_config_max_below_min :
  exists env, let c := loadManagerConfigFromEnv env 8 in
    grpc_max_pollers c < grpc_min_pollers c /\
    mysql_write_pool_max c < mysql_write_pool_min c /\
    mysql_query_pool_max c < mysql_query_pool_min c /\
    redis_pool_max c < redis_pool_min c /\
    business_threads_min c <= business_threads_max c.
Proof.
  exists (fun n => if String.eqb n "MANAGER_GRPC_MIN_POLLERS" then Some "100"
           else if String.eqb n "MANAGER_MYSQL_WRITE_POOL_MIN" then Some "10"
           else if String.eqb n "MANAGER_MYSQL_QUERY_POOL_MIN" then Some "10"
           else if String.eqb n "MANAGER_REDIS_POOL_MIN" then Some "10"
           else if String.eqb n "MANAGER_BUSINESS_THREADS_MIN" then Some "100" else None).
  vm_compute. repeat split; congruence.
Qed.
