(* ===== verification/Dispatcher.v ===== *)
(** * Dispatcher: the manager's task queues and their workers

    [src/manager/src/ManagerDispatcher.cpp], [ManagerDispatcher.h] and the
    counters of [ManagerMetrics.h].  The operations are functions on the state
    of the dispatcher; the threads of the monitor samples, one queue and one
    worker per shard, interleave in the step relation of the Module [Ingest].
    The query workers are in [QueryDispatch]. *)

From S2P Require Import Prelude CString ManagerConfig.

(** ** ManagerMetrics.h *)

Record ManagerMetrics := mk_metrics {
  worker_requests : Z; query_requests : Z; queue_rejected : Z;
  dropped_monitor_samples : Z; task_timeouts : Z; task_errors : Z;
  mysql_errors : Z; redis_errors : Z; pool_timeouts : Z; pool_reconnects : Z }.

Definition zero_metrics : ManagerMetrics := mk_metrics 0 0 0 0 0 0 0 0 0 0.

(** ** The queue

    [folly::MPMCQueue] is a library.  The dispatcher uses it as a bounded FIFO
    queue: [write] fails when the queue is full, [read] when it is empty. *)
Class MPMCQueue (Q A : Type) := {
  mpmc_new : Z -> Q;                      (* a queue of that capacity *)
  mpmc_write : Q -> A -> option Q;
  mpmc_read : Q -> option (A * Q);
  mpmc_items : Q -> list A;
  mpmc_capacity : Q -> Z
}.

Class MPMCQueueLaws (Q A : Type) `{MPMCQueue Q A} := {
  mpmc_new_items c : mpmc_items (mpmc_new c) = [];
  mpmc_new_capacity c : 1 <= c -> mpmc_capacity (mpmc_new c) = c;
  mpmc_write_full q a :
    mpmc_write q a = None <-> mpmc_capacity q <= Z.of_nat (length (mpmc_items q));
  mpmc_write_items q a q' :
    mpmc_write q a = Some q' ->
    mpmc_items q' = mpmc_items q ++ [a] /\ mpmc_capacity q' = mpmc_capacity q;
  mpmc_read_empty q : mpmc_read q = None <-> mpmc_items q = [];
  mpmc_read_items q a q' :
    mpmc_read q = Some (a, q') ->
    mpmc_items q = a :: mpmc_items q' /\ mpmc_capacity q' = mpmc_capacity q
}.

(** [queue.size()]. *)
Definition mpmc_size {Q A} `{MPMCQueue Q A} (q : Q) : Z := Z.of_nat (length (mpmc_items q)).

(** A list with a bound is such a queue. *)
#[export] Instance list_queue A : MPMCQueue (Z * list A) A := {
  mpmc_new c := (c, []);
  mpmc_write q a := if Z.of_nat (length q.2) <? q.1 then Some (q.1, q.2 ++ [a]) else None;
  mpmc_read q := match q.2 with a :: r => Some (a, (q.1, r)) | [] => None end;
  mpmc_items q := q.2;
  mpmc_capacity q := q.1
}.

#[export] Instance list_queue_laws A : MPMCQueueLaws (Z * list A) A.
Proof.
  split; cbn.
  - done.
  - done.
  - intros q a. break_if; to_props; split; (done || lia).
  - intros q a q' Hw. break_if; by simplify_eq/=.
  - intros [c [|a r]]; cbn; naive_solver.
  - intros [c [|b r]] a q'; cbn; naive_solver.
Qed.

(** ** The tasks *)

Inductive ManagerTaskKind := MonitorPush | Query | Shutdown.

(** [run] is the closure; what it does is the caller's. *)
Record ManagerTask (R : Type) := mk_task {
  kind : ManagerTaskKind; partition_key : string; run : R }.
Arguments mk_task {R}.
Arguments kind {R}.
Arguments partition_key {R}.
Arguments run {R}.

(** ** The operations *)
Section Operations.
Context {R Q : Type} `{MPMCQueue Q (ManagerTask R)} (hash : string -> Z).

(** The state: the shards' queues, the query queue, the flag and the counter. *)
Record dispatcher := mk_dispatcher {
  ingestShards_ : list Q;
  queryQueue_ : Q;
  running_ : bool;
  queryWorkerCount_ : Z
}.

Definition make_dispatcher (cfg : ManagerConfig) : dispatcher :=
  let shardCount := Z.max 1 (ingest_shard_count cfg) in
  {| ingestShards_ := replicate (Z.to_nat shardCount)
                        (mpmc_new (Z.max 1 (ingest_queue_capacity_per_shard cfg)));
     queryQueue_ := mpmc_new (Z.max 1 (query_queue_capacity cfg));
     running_ := false;
     queryWorkerCount_ := 0 |}.

(** [shardIndexFor] of a dispatcher with [n] shards. *)
Definition shardIndexFor (n : nat) (partitionKey : string) : nat :=
  match n with
  | O => O
  | _ => Z.to_nat (hash partitionKey mod Z.of_nat n)
  end.

Definition set_shards (d : dispatcher) (qs : list Q) : dispatcher :=
  mk_dispatcher qs (queryQueue_ d) (running_ d) (queryWorkerCount_ d).

(** The write of [enqueueIngest], after its check. *)
Definition write_shard (d : dispatcher) (task : ManagerTask R) : option dispatcher :=
  let i := shardIndexFor (length (ingestShards_ d)) (partition_key task) in
  q ← ingestShards_ d !! i;
  q' ← mpmc_write q task;
  Some (set_shards d (<[i := q']> (ingestShards_ d))).

Definition enqueueIngest (d : dispatcher) (task : ManagerTask R) : bool * dispatcher :=
  if negb (running_ d) || (length (ingestShards_ d) =? 0)%nat then (false, d)
  else
    match write_shard d task with
    | Some d' => (true, d')
    | None => (false, d)
    end.

Definition enqueueQuery (d : dispatcher) (task : ManagerTask R) : bool * dispatcher :=
  if negb (running_ d) then (false, d)
  else
    match mpmc_write (queryQueue_ d) task with
    | Some q' => (true, mk_dispatcher (ingestShards_ d) q' (running_ d) (queryWorkerCount_ d))
    | None => (false, d)
    end.

Definition submitMonitorTask (d : dispatcher) (m : ManagerMetrics) (partitionKey : string)
    (task : R) : bool * dispatcher * ManagerMetrics :=
  let '(ok, d') := enqueueIngest d (mk_task MonitorPush partitionKey task) in
  if ok then
    (true, d', mk_metrics (worker_requests m + 1) (query_requests m) (queue_rejected m)
                 (dropped_monitor_samples m) (task_timeouts m) (task_errors m)
                 (mysql_errors m) (redis_errors m) (pool_timeouts m) (pool_reconnects m))
  else
    (false, d', mk_metrics (worker_requests m) (query_requests m) (queue_rejected m + 1)
                 (dropped_monitor_samples m + 1) (task_timeouts m) (task_errors m)
                 (mysql_errors m) (redis_errors m) (pool_timeouts m) (pool_reconnects m)).

Definition ingestQueueSize (d : dispatcher) : Z :=
  foldl (fun total q => total + mpmc_size (A := ManagerTask R) q) 0 (ingestShards_ d).
Definition queryQueueSize (d : dispatcher) : Z := mpmc_size (A := ManagerTask R) (queryQueue_ d).
Definition queueSize (d : dispatcher) : Z := ingestQueueSize d + queryQueueSize d.
Definition workerCount (d : dispatcher) : Z :=
  Z.of_nat (length (ingestShards_ d)) + queryWorkerCount_ d.
End Operations.

Arguments dispatcher : clear implicits.

(** ** Monitor samples: submitters, one worker per shard, and [stop]

    A submitter's [enqueueIngest] is two steps, the check of [running_] and the
    write; a worker's loop is the test of the loop, the read, and the task. *)
Module Ingest.
Section Ingest.
Context {R Q : Type} `{MPMCQueueLaws Q (ManagerTask R)} (hash : string -> Z).
Abbreviation task := (ManagerTask R).

Inductive submitter := SCheck (t : task) | SWrite (t : task) | SDone (t : task) (ok : bool).
Inductive worker := WLoop | WRead | WRun (t : task) | WExited.

(** [accepted] and [executed] record, in order, the tasks whose submission
    returned true and the tasks a worker ran to the end. *)
Record config := mk_config {
  disp : dispatcher Q;
  workers : list worker;
  submitters : list submitter;
  accepted : list task;
  executed : list task
}.

Definition set_running (d : dispatcher Q) (b : bool) : dispatcher Q :=
  mk_dispatcher (ingestShards_ d) (queryQueue_ d) b (queryWorkerCount_ d).

Inductive step : config -> config -> Prop :=
| sub_check d ws ss acc ex i t :
    ss !! i = Some (SCheck t) ->
    step (mk_config d ws ss acc ex)
      (mk_config d ws
         (<[i := if negb (running_ d) || (length (ingestShards_ d) =? 0)%nat
                 then SDone t false else SWrite t]> ss) acc ex)
| sub_write d ws ss acc ex i t d' :
    ss !! i = Some (SWrite t) -> write_shard hash d t = Some d' ->
    step (mk_config d ws ss acc ex)
      (mk_config d' ws (<[i := SDone t true]> ss) (acc ++ [t]) ex)
| sub_full d ws ss acc ex i t :
    ss !! i = Some (SWrite t) -> write_shard hash d t = None ->
    step (mk_config d ws ss acc ex) (mk_config d ws (<[i := SDone t false]> ss) acc ex)
| w_check d ws ss acc ex i q :
    ws !! i = Some WLoop -> ingestShards_ d !! i = Some q ->
    step (mk_config d ws ss acc ex)
      (mk_config d
         (<[i := if running_ d || (0 <? mpmc_size (A := task) q) then WRead else WExited]> ws)
         ss acc ex)
| w_read d ws ss acc ex i q t q' :
    ws !! i = Some WRead -> ingestShards_ d !! i = Some q -> mpmc_read q = Some (t, q') ->
    step (mk_config d ws ss acc ex)
      (mk_config (set_shards d (<[i := q']> (ingestShards_ d))) (<[i := WRun t]> ws) ss acc ex)
| w_empty d ws ss acc ex i q :
    ws !! i = Some WRead -> ingestShards_ d !! i = Some q -> mpmc_read q = None (A := task * Q) ->
    step (mk_config d ws ss acc ex) (mk_config d (<[i := WLoop]> ws) ss acc ex)
| w_run d ws ss acc ex i t :
    ws !! i = Some (WRun t) ->
    step (mk_config d ws ss acc ex) (mk_config d (<[i := WLoop]> ws) ss acc (ex ++ [t]))
| stop d ws ss acc ex :
    running_ d = true ->
    step (mk_config d ws ss acc ex) (mk_config (set_running d false) ws ss acc ex).

(** The started dispatcher with the tasks that threads are about to submit. *)
Definition started (cfg : ManagerConfig) (ts : list task) : config :=
  let d := set_running (make_dispatcher (R := R) cfg) true in
  mk_config d (replicate (length (ingestShards_ d)) WLoop) (SCheck <$> ts) [] [].

(** *** The invariant *)

Definition shard_of (d : dispatcher Q) (t : task) : nat :=
  shardIndexFor hash (length (ingestShards_ d)) (partition_key t).

Definition in_shard (n i : nat) (ts : list task) : list task :=
  filter (fun t => shardIndexFor hash n (partition_key t) = i) ts.

#[local] Arguments in_shard : simpl never.

Definition in_flight (w : option worker) : list task :=
  match w with Some (WRun t) => [t] | _ => [] end.

(** What was accepted for shard [i] is, in order, what was executed, what its
    worker holds and what its queue holds; and the queue is within bounds. *)
Definition shard_ok (n : nat) (cap : Z) (c : config) (i : nat) (q : Q) : Prop :=
  in_shard n i (accepted c) =
    in_shard n i (executed c) ++ in_flight (workers c !! i) ++ mpmc_items q /\
  mpmc_capacity (A := task) q = cap /\ mpmc_size (A := task) q <= cap.

Definition inv (n : nat) (cap : Z) (c : config) : Prop :=
  length (ingestShards_ (disp c)) = n /\ length (workers c) = n /\
  (forall i q, ingestShards_ (disp c) !! i = Some q -> shard_ok n cap c i q) /\
  (forall i t, workers c !! i = Some (WRun t) -> shardIndexFor hash n (partition_key t) = i) /\
  (forall i, workers c !! i = Some WExited -> running_ (disp c) = false).

(** *** Lemmas *)

Lemma in_shard_app n i ts us : in_shard n i (ts ++ us) = in_shard n i ts ++ in_shard n i us.
Proof. apply filter_app. Qed.

Lemma in_shard_one n i t :
  in_shard n i [t] = if decide (shardIndexFor hash n (partition_key t) = i) then [t] else [].
Proof. unfold in_shard. by rewrite filter_cons, filter_nil. Qed.

Lemma elem_in_shard n i t ts :
  t ∈ in_shard n i ts -> shardIndexFor hash n (partition_key t) = i.
Proof. unfold in_shard. by intros [? _]%list_elem_of_filter. Qed.

Lemma shardIndexFor_lt n k : (0 < n)%nat -> (shardIndexFor hash n k < n)%nat.
Proof.
  intros Hn. unfold shardIndexFor. destruct n; [lia|].
  pose proof (Z.mod_pos_bound (hash k) (Z.of_nat (S n))). lia.
Qed.

(** What a successful write does. *)
Lemma write_shard_Some d t d' :
  write_shard hash d t = Some d' ->
  exists q q', ingestShards_ d !! shard_of d t = Some q /\
    mpmc_items q' = mpmc_items q ++ [t] /\ mpmc_capacity (A := task) q' = mpmc_capacity (A := task) q /\
    mpmc_size (A := task) q < mpmc_capacity (A := task) q /\
    d' = set_shards d (<[shard_of d t := q']> (ingestShards_ d)).
Proof.
  unfold write_shard, shard_of. intros (q & Hq & (q' & Hw & [= <-])%bind_Some)%bind_Some.
  pose proof (mpmc_write_items _ _ _ Hw) as [Hi Hc].
  exists q, q'. split_and!; try done. unfold mpmc_size.
  destruct (Z.lt_ge_cases (Z.of_nat (length (mpmc_items q))) (mpmc_capacity (A := task) q)) as [|Hge]; [done|].
  by rewrite (proj2 (mpmc_write_full q t) Hge) in Hw.
Qed.

(** The invariant only looks at the worker of a shard through what it holds. *)
Lemma shard_ok_ext n cap c c' i q :
  shard_ok n cap c i q -> accepted c' = accepted c -> executed c' = executed c ->
  in_flight (workers c' !! i) = in_flight (workers c !! i) -> shard_ok n cap c' i q.
Proof. unfold shard_ok. by intros ? -> -> ->. Qed.

Lemma in_flight_insert (ws : list worker) i j w w0 :
  ws !! i = Some w0 -> in_flight (Some w) = in_flight (Some w0) ->
  in_flight (<[i := w]> ws !! j) = in_flight (ws !! j).
Proof.
  intros Hi Hf. destruct (decide (i = j)) as [<-|].
  - rewrite list_lookup_insert_eq by (by eapply lookup_lt_Some). by rewrite Hi.
  - by rewrite list_lookup_insert_ne.
Qed.

Lemma inv_sub_write n cap d ws ss ss' acc ex t d' :
  (0 < n)%nat -> inv n cap (mk_config d ws ss acc ex) -> write_shard hash d t = Some d' ->
  inv n cap (mk_config d' ws ss' (acc ++ [t]) ex).
Proof.
  intros Hn (Hl & Hw & Hs & Hr & He) Hwr. cbn in *.
  destruct (write_shard_Some _ _ _ Hwr) as (q & q' & Hq & Hi & Hc & Hz & ->).
  unfold shard_of in *. rewrite Hl in *. set (j := shardIndexFor hash n (partition_key t)) in *.
  split_and!; cbn; [by rewrite length_insert|done| |done|done].
  intros i q0 [(<- & <- & _)|[Hne Hq0]]%list_lookup_insert_Some; unfold shard_ok in *; cbn in *;
    rewrite in_shard_app, in_shard_one.
  - rewrite decide_True by done. destruct (Hs _ _ Hq) as (E & Ec & Ez). rewrite E, Hi, Hc.
    split_and!; [by rewrite <- !app_assoc|done|].
    unfold mpmc_size in *. rewrite Hi, length_app; cbn. lia.
  - rewrite decide_False by done. rewrite app_nil_r. by apply Hs.
Qed.

Lemma inv_read n cap d ws ss acc ex i q t q' :
  inv n cap (mk_config d ws ss acc ex) -> ws !! i = Some WRead ->
  ingestShards_ d !! i = Some q -> mpmc_read q = Some (t, q') ->
  inv n cap (mk_config (set_shards d (<[i := q']> (ingestShards_ d))) (<[i := WRun t]> ws) ss acc ex).
Proof.
  intros (Hl & Hw & Hs & Hr & He) Hi Hq Hrd. cbn in *.
  destruct (mpmc_read_items _ _ _ Hrd) as [Hit Hcap].
  assert (Hlt : (i < length ws)%nat) by (by eapply lookup_lt_Some).
  split_and!; cbn; [by rewrite length_insert|by rewrite length_insert| | |].
  - intros j q0 [(<- & <- & _)|[Hne Hq0]]%list_lookup_insert_Some; unfold shard_ok in *; cbn in *.
    + destruct (Hs _ _ Hq) as (E & Ec & Ez). rewrite list_lookup_insert_eq by done.
      rewrite Hi, Hit in E. split_and!; [done|by rewrite Hcap|].
      unfold mpmc_size in *. rewrite Hit in Ez. cbn in Ez. lia.
    + rewrite list_lookup_insert_ne by done. by apply Hs.
  - intros j u [(<- & [= ->] & _)|[_ ?]]%list_lookup_insert_Some; [|by apply Hr].
    destruct (Hs _ _ Hq) as (E & _). cbn in E. apply (elem_in_shard n i u acc). rewrite E, Hit.
    set_solver.
  - intros j [(_ & ? & _)|[_ ?]]%list_lookup_insert_Some; [done|by eapply He].
Qed.

Lemma inv_run n cap d ws ss acc ex i t :
  inv n cap (mk_config d ws ss acc ex) -> ws !! i = Some (WRun t) ->
  inv n cap (mk_config d (<[i := WLoop]> ws) ss acc (ex ++ [t])).
Proof.
  intros (Hl & Hw & Hs & Hr & He) Hi. cbn in *.
  assert (Hlt : (i < length ws)%nat) by (by eapply lookup_lt_Some).
  split_and!; cbn; [done|by rewrite length_insert| | |].
  - intros j q Hq. destruct (Hs _ _ Hq) as (E & Ec & Ez). unfold shard_ok in *; cbn in *.
    rewrite in_shard_app, in_shard_one, (Hr _ _ Hi). split; [|done]. rewrite E.
    destruct (decide (i = j)) as [<-|].
    + rewrite list_lookup_insert_eq by done. rewrite Hi. cbn. by rewrite <- app_assoc.
    + rewrite list_lookup_insert_ne by done. by rewrite app_nil_r.
  - intros j u [(_ & ? & _)|[_ ?]]%list_lookup_insert_Some; [done|by apply Hr].
  - intros j [(_ & ? & _)|[_ ?]]%list_lookup_insert_Some; [done|by eapply He].
Qed.

(** A step that moves a worker without touching tasks. *)
Lemma inv_move n cap d ws ss acc ex i w0 w :
  inv n cap (mk_config d ws ss acc ex) -> ws !! i = Some w0 ->
  in_flight (Some w0) = [] -> (w = WRead \/ w = WLoop \/ w = WExited /\ running_ d = false) ->
  inv n cap (mk_config d (<[i := w]> ws) ss acc ex).
Proof.
  intros (Hl & Hw & Hs & Hr & He) Hi Hf Hc. cbn in *.
  assert (Hfw : in_flight (Some w) = []) by (by destruct Hc as [->|[->|[-> _]]]).
  split_and!; cbn; [done|by rewrite length_insert| | |].
  - intros j q Hq. eapply shard_ok_ext; [by apply Hs|done|done|]. cbn.
    eapply in_flight_insert; [done|]. rewrite Hfw. symmetry. exact Hf.
  - intros j u [(_ & -> & _)|[_ ?]]%list_lookup_insert_Some; [by destruct Hc as [?|[?|[? _]]]|by apply Hr].
  - intros j [(_ & -> & _)|[_ ?]]%list_lookup_insert_Some; [|by eapply He].
    by destruct Hc as [?|[?|[_ ?]]].
Qed.

Lemma ingest_inv_step n cap c c' : (0 < n)%nat -> inv n cap c -> step c c' -> inv n cap c'.
Proof.
  intros Hn Hinv Hst.
  destruct Hst as [| d ws ss acc ex i t d' _ Hw | | d ws ss acc ex i q Hi Hq
    | d ws ss acc ex i q t q' Hi Hq Hr | d ws ss acc ex i q Hi Hq Hr | d ws ss acc ex i t Hi
    | d ws ss acc ex Hrun].
  - exact Hinv.
  - by eapply inv_sub_write.
  - exact Hinv.
  - eapply inv_move; eauto. destruct (running_ d || _) eqn:E; [by left|].
    apply orb_false_iff in E as [E _]. auto.
  - by eapply inv_read.
  - eapply inv_move; eauto.
  - by eapply inv_run.
  - destruct Hinv as (Hl & Hw & Hs & Hr & He). split_and!; try done.
Qed.

Lemma ingest_started_inv cfg ts :
  let n := Z.to_nat (Z.max 1 (ingest_shard_count cfg)) in
  let cap := Z.max 1 (ingest_queue_capacity_per_shard cfg) in
  inv n cap (started cfg ts).
Proof.
  split_and!; cbn; rewrite ?length_replicate; try done.
  - intros i q [-> _]%lookup_replicate. unfold shard_ok, mpmc_size; cbn.
    rewrite mpmc_new_items, mpmc_new_capacity by lia. cbn.
    replace (in_flight (replicate _ WLoop !! i)) with (@nil task); [split_and!; done || lia|].
    destruct (replicate _ WLoop !! i) eqn:E; [|done]. by apply lookup_replicate in E as [-> _].
  - intros i t [? _]%lookup_replicate. done.
  - intros i [? _]%lookup_replicate. done.
Qed.

Lemma ingest_reachable_inv cfg ts c :
  rtc step (started cfg ts) c ->
  inv (Z.to_nat (Z.max 1 (ingest_shard_count cfg)))
      (Z.max 1 (ingest_queue_capacity_per_shard cfg)) c.
Proof.
  apply rtc_invariant; [|apply ingest_started_inv]. intros a b. apply ingest_inv_step. lia.
Qed.

(** The tasks of one partition key. *)
Definition of_key (k : string) (ts : list task) : list task :=
  filter (fun t => partition_key t = k) ts.

Lemma of_key_in_shard n k ts :
  of_key k ts = of_key k (in_shard n (shardIndexFor hash n k) ts).
Proof.
  unfold of_key, in_shard. rewrite list_filter_filter. apply list_filter_iff. naive_solver.
Qed.

(** C7. Monitor samples of one worker are processed in order, each at most
    once.  In every reachable state, whatever the interleaving of submitters,
    shard workers and [stop], the tasks run for a partition key are a prefix
    of the tasks accepted for that key, in submission order; and no queue
    holds more than its capacity. *)
Theorem ingest_fifo cfg ts c :
  rtc step (started cfg ts) c ->
  (forall k, of_key k (executed c) `prefix_of` of_key k (accepted c)) /\
  (forall i q, ingestShards_ (disp c) !! i = Some q ->
     mpmc_size (A := task) q <= Z.max 1 (ingest_queue_capacity_per_shard cfg)).
Proof.
  intros Hr%ingest_reachable_inv. destruct Hr as (Hl & _ & Hs & _).
  set (n := Z.to_nat (Z.max 1 (ingest_shard_count cfg))) in *. split.
  - intros k. set (i := shardIndexFor hash n k).
    assert (Hi : (i < n)%nat) by (apply shardIndexFor_lt; lia).
    destruct (lookup_lt_is_Some_2 (ingestShards_ (disp c)) i) as [q Hq]; [lia|].
    destruct (Hs _ _ Hq) as (E & _).
    rewrite (of_key_in_shard n k (executed c)), (of_key_in_shard n k (accepted c)).
    fold i. rewrite E. unfold of_key at 2. rewrite filter_app. by eexists.
  - intros i q Hq. by apply Hs in Hq as (_ & _ & ?).
Qed.

(** *** Draining *)

Definition no_writer (c : config) : Prop := forall t, SWrite t ∉ submitters c.

(** After [stop] with no submitter between its check and its write. *)
Definition draining (acc : list task) (c : config) : Prop :=
  running_ (disp c) = false /\ no_writer c /\ accepted c = acc /\
  (forall i q, workers c !! i = Some WExited -> ingestShards_ (disp c) !! i = Some q ->
     mpmc_items (A := task) q = []).

Lemma draining_step acc c c' : draining acc c -> step c c' -> draining acc c'.
Proof.
  intros (Hr & Hw & Ha & He) Hst.
  destruct Hst as [d ws ss ac ex i t Hi | d ws ss ac ex i t d' Hi Hwr | d ws ss ac ex i t Hi Hwr
    | d ws ss ac ex i q Hi Hq | d ws ss ac ex i q t q' Hi Hq Hrd | d ws ss ac ex i q Hi Hq Hrd
    | d ws ss ac ex i t Hi | d ws ss ac ex Hrun]; cbn in *; try congruence.
  - rewrite Hr; cbn. split_and!; cbn; try done.
    intros u [?|?]%elem_of_insert_inv; [done|by eapply Hw].
  - exfalso. eapply Hw. by eapply list_elem_of_lookup_2.
  - exfalso. eapply Hw. by eapply list_elem_of_lookup_2.
  - rewrite Hr; cbn. split_and!; cbn; try done.
    intros j p [(<- & Hb & _)|[_ ?]]%list_lookup_insert_Some Hp; [|by eapply He].
    simplify_eq. destruct (0 <? _) eqn:E; [done|]. unfold mpmc_size in E. to_props.
    apply nil_length_inv. lia.
  - split_and!; cbn; try done.
    intros j p [(_ & ? & _)|[? Hj]]%list_lookup_insert_Some Hp; [done|].
    rewrite list_lookup_insert_ne in Hp by done. by eapply He.
  - split_and!; cbn; try done.
    intros j p [(_ & ? & _)|[? Hj]]%list_lookup_insert_Some Hp; [done|]. by eapply He.
  - split_and!; cbn; try done.
    intros j p [(_ & ? & _)|[? Hj]]%list_lookup_insert_Some Hp; [done|]. by eapply He.
Qed.

(** C38. A quiet [stop] loses nothing.  If no submitter is between its check and
    its write when [stop] clears the flag, then when all shard workers have
    exited every task accepted before has been run, nothing was accepted
    after, and each shard ran its tasks in the order of acceptance. *)
Theorem ingest_drain cfg ts c0 c1 c2 :
  rtc step (started cfg ts) c0 -> no_writer c0 -> running_ (disp c0) = true ->
  c1 = mk_config (set_running (disp c0) false) (workers c0) (submitters c0) (accepted c0) (executed c0) ->
  rtc step c1 c2 -> (forall w, w ∈ workers c2 -> w = WExited) ->
  accepted c2 = accepted c0 /\
  forall i q, ingestShards_ (disp c2) !! i = Some q ->
    in_shard (length (ingestShards_ (disp c2))) i (executed c2) =
    in_shard (length (ingestShards_ (disp c2))) i (accepted c2).
Proof.
  intros Hr0 Hw Hrun -> Hr2 Hex.
  pose proof (ingest_reachable_inv _ _ _ Hr0) as (_ & _ & _ & _ & Hx).
  assert (Hst : step c0 (mk_config (set_running (disp c0) false) (workers c0) (submitters c0)
                  (accepted c0) (executed c0))) by (destruct c0; by apply stop).
  assert (Hd : draining (accepted c0) c2).
  { eapply rtc_invariant; [apply draining_step| |done]. split_and!; cbn; try done.
    intros i q Hi. by rewrite (Hx _ Hi) in Hrun. }
  destruct Hd as (_ & _ & Ha & He). split; [done|]. intros i q Hq.
  destruct (ingest_reachable_inv cfg ts c2) as (Hl & Hlw & Hs & _).
  { etrans; [done|]. by eapply rtc_l. }
  destruct (lookup_lt_is_Some_2 (workers c2) i) as [w Hi].
  { rewrite Hlw, <- Hl. by eapply lookup_lt_Some. }
  pose proof (Hex w (list_elem_of_lookup_2 _ _ _ Hi)) as ->.
  destruct (Hs _ _ Hq) as (E & _). rewrite Hl, E, Hi, (He _ _ Hi Hq). cbn. by rewrite app_nil_r.
Qed.
End Ingest.

(** A dispatcher with one shard of capacity 2. *)
Definition one_shard : ManagerConfig :=
  loadManagerConfigFromEnv
    (fun n => if String.eqb n "MANAGER_INGEST_SHARD_COUNT" then Some "1"
              else if String.eqb n "MANAGER_INGEST_QUEUE_CAPACITY_PER_SHARD" then Some "2" else None) 4.

Definition sample (n : Z) : ManagerTask Z := mk_task MonitorPush "host-a" n.

Abbreviation step1 := (step (R := Z) (Q := Z * list (ManagerTask Z)) (fun _ => 0)).
Abbreviation started1 := (started (R := Z) (Q := Z * list (ManagerTask Z)) one_shard).

(** Take the step of the given constructor on thread 0. *)
Ltac take c := eapply rtc_l; [eapply c with (i := 0%nat); reflexivity|cbn].

Lemma one_sample_runs :
  rtc step1 (started1 [sample 7])
    (mk_config (set_running (make_dispatcher (R := Z) one_shard) true) [WLoop]
       [SDone (sample 7) true] [sample 7] [sample 7]).
Proof.
  take @sub_check. take @sub_write. take @w_check. take @w_read. take @w_run. apply rtc_refl.
Qed.

Lemma ingest_fifo_witness :
  of_key "host-a" [sample 7] `prefix_of` of_key "host-a" [sample 7].
Proof.
  exact (proj1 (ingest_fifo (Q := Z * list (ManagerTask Z)) (fun _ => 0) one_shard [sample 7] _ one_sample_runs) "host-a").
Defined.

Lemma ingest_drain_witness :
  in_shard (R := Z) (fun _ => 0) 1 0 [sample 7] = in_shard (fun _ => 0) 1 0 [sample 7].
Proof.
  eapply (ingest_drain (Q := Z * list (ManagerTask Z)) (fun _ => 0) one_shard [sample 7] _ _
    (mk_config (set_running (make_dispatcher (R := Z) one_shard) false) [WExited]
       [SDone (sample 7) true] [sample 7] [sample 7]) one_sample_runs).
  - intros t Ht. cbn in Ht. set_solver.
  - reflexivity.
  - reflexivity.
  - take @w_check. apply rtc_refl.
  - intros w Hw. cbn in Hw. set_solver.
  - reflexivity.
Defined.

(** An accepted sample can be lost at shutdown.  A submitter that passed the
    check of the running flag can write after [stop] cleared the flag and the
    shard's worker saw an empty queue and exited; its submission returns true,
    the sample stays in the queue, and no worker is left to run it. *)
Theorem ingest_lost_at_stop :
  exists c, rtc step1 (started1 [sample 7]) c /\
    running_ (disp c) = false /\ workers c = [WExited] /\
    submitters c = [SDone (sample 7) true] /\ accepted c = [sample 7] /\ executed c = [].
Proof.
  eexists. split.
  - take @sub_check. eapply rtc_l; [eapply stop; reflexivity|cbn].
    take @w_check. take @sub_write. apply rtc_refl.
  - cbn. done.
Qed.
End Ingest.
