(* ===== verification/Grpc.v ===== *)
(** * Grpc: call statuses

    The part of [grpc::Status] that the manager's handlers build and test. *)

From S2P Require Import Prelude.

Inductive StatusCode :=
  OK | INVALID_ARGUMENT | DEADLINE_EXCEEDED | NOT_FOUND | ALREADY_EXISTS | PERMISSION_DENIED
| RESOURCE_EXHAUSTED | FAILED_PRECONDITION | UNIMPLEMENTED | INTERNAL | UNAVAILABLE
| UNAUTHENTICATED | CANCELLED | UNKNOWN | ABORTED | OUT_OF_RANGE | DATA_LOSS.

#[export] Instance StatusCode_eq_dec : EqDecision StatusCode.
Proof. solve_decision. Defined.

Record Status := mk_Status { error_code : StatusCode; error_message : string }.

(** [grpc::Status::OK]. *)
Definition status_ok : Status := mk_Status OK "".

Definition ok (s : Status) : bool := match error_code s with OK => true | _ => false end.
