(* ===== verification/Collector.v ===== *)
(** * Collector: the worker's monitors behind one interface

    [MonitorInter.h], [MetricCollector.cpp] and [GrpcManagerImpl.cpp]: the
    interface of the monitors, the list of them that the constructor builds, and
    [collectAll], which calls them one after the other on the same message.

    An object that implements [MonitorInter] is a record of its operation and of
    the slot it keeps: its own members and its own part of the message.  The
    laws of the class say that a monitor depends on its slot alone and changes
    nothing else; the theorem about [collectAll] is proved from the laws. *)

From S2P Require Import NetStats CpuMonitors ProcMonitors DeviceMonitors HostMonitors ServiceMonitors Messages CFloat CString Streams KernelCollectors Grpc Prelude.

(** ** The interface *)

(** [X] is what the monitors act on together, [W] what they find outside. *)
Record MonitorInter (X W : Type) := mk_monitor {
  slot : Type;
  get : X -> slot;
  put : slot -> X -> X;
  updateOnce : W -> X -> res X
}.
Arguments mk_monitor {X W}.
Arguments slot {X W}. Arguments get {X W}. Arguments put {X W}. Arguments updateOnce {X W}.

(** What a monitor promises: its slot is a lens, and a reading that starts from
    the same slot gives the same result, in the slot and nowhere else. *)
Class Lawful {X W} (M : MonitorInter X W) := {
  get_put : forall v x, get M (put M v x) = v;
  put_get : forall x, put M (get M x) x = x;
  updateOnce_local : forall w x y, get M x = get M y ->
    updateOnce M w y = match updateOnce M w x with
                       | Done x' => Done (put M (get M x') y)
                       | Throws => Throws
                       | Undefined => Undefined
                       end
}.

(** The slots of two monitors do not overlap. *)
Class Apart {X W} (M N : MonitorInter X W) := {
  get_put_apart : forall v x, get M (put N v x) = get M x
}.

(** The loop of [collectAll]. *)
Fixpoint run_monitors {X W} (ms : list (MonitorInter X W)) (w : W) (x : X) : res X :=
  match ms with
  | [] => Done x
  | M :: ms => x ← updateOnce M w x; run_monitors ms w x
  end.

Section Client.
Context {X W : Type}.
Implicit Types (M N : MonitorInter X W) (ms : list (MonitorInter X W)).

(** Every monitor of a list obeys the laws, and each is apart from the others. *)
Inductive independent : list (MonitorInter X W) -> Prop :=
| independent_nil : independent []
| independent_cons M ms :
    Lawful M -> Forall (Apart M) ms -> Forall (fun N => Apart N M) ms ->
    independent ms -> independent (M :: ms).

(** The reading of a monitor on its own, from [x], ended in the part [M] has in
    [x']. *)
Definition read_alone (w : W) (x x' : X) M : Prop :=
  exists y, updateOnce M w x = Done y /\ get M x' = get M y.

Definition fails_alone (w : W) (x : X) (r : res X) M : Prop := updateOnce M w x = r.

Lemma updateOnce_frame M N w x x' :
  Lawful M -> Apart N M -> updateOnce M w x = Done x' -> get N x' = get N x.
Proof.
  intros HM HN E. pose proof (updateOnce_local w x x eq_refl) as Hl. rewrite E in Hl.
  injection Hl as Hl. rewrite Hl. apply get_put_apart.
Qed.

Lemma updateOnce_same M w x y :
  Lawful M -> get M x = get M y ->
  match updateOnce M w x with
  | Done x' => exists y', updateOnce M w y = Done y' /\ get M y' = get M x'
  | r => updateOnce M w y = r
  end.
Proof.
  intros HM E. rewrite (updateOnce_local w x y E). destruct (updateOnce M w x); [|done..].
  eexists. split; [done|]. apply get_put.
Qed.

Lemma run_monitors_frame ms w N : forall x x',
  independent ms -> Forall (Apart N) ms -> run_monitors ms w x = Done x' -> get N x' = get N x.
Proof.
  induction ms as [|M ms IH]; intros x x' Hi Ha; cbn [run_monitors]; [by intros [= <-]|].
  inversion_clear Hi as [|? ? HM _ _ Hi']. apply Forall_cons in Ha as [HN Ha].
  destruct (updateOnce M w x) as [x1| |] eqn:E; [|done..]. cbn. intros Hr.
  rewrite (IH _ _ Hi' Ha Hr). by eapply updateOnce_frame.
Qed.

(** The loop gives what each monitor gives on its own; the failure of the loop
    is the failure of one of them. *)
Lemma run_monitors_spec ms w : forall x,
  independent ms ->
  match run_monitors ms w x with
  | Done x' => Forall (read_alone w x x') ms /\
               (forall N, Forall (Apart N) ms -> get N x' = get N x)
  | r => Exists (fails_alone w x r) ms
  end.
Proof.
  induction ms as [|M ms IH]; intros x Hi; cbn [run_monitors]; [by split; [constructor|]|].
  assert (Hi0 := Hi). inversion_clear Hi as [|? ? HM HMs HsM Hi'].
  destruct (updateOnce M w x) as [x1| |] eqn:E; cbn; [|by constructor..].
  assert (Hsame : Forall (fun N => get N x1 = get N x) ms).
  { eapply Forall_impl; [exact HsM|]. intros N HN. by eapply updateOnce_frame. }
  specialize (IH x1 Hi').
  assert (Hlaw : Forall Lawful ms) by (clear -Hi'; induction Hi'; by constructor).
  destruct (run_monitors ms w x1) as [x2| |] eqn:Er.
  - destruct IH as [Hall Hframe]. split.
    + constructor; [exists x1; split; [done|by apply Hframe]|].
      rewrite Forall_forall in Hall, Hsame, Hlaw |- *. intros N HN.
      destruct (Hall N HN) as (y & Ey & Hy).
      pose proof (updateOnce_same N w x1 x (Hlaw N HN) (Hsame N HN)) as H. rewrite Ey in H.
      destruct H as (y' & Ey' & Hy'). exists y'. split; [done|congruence].
    + intros N HN. eapply (run_monitors_frame (M :: ms)); [done|done|]. cbn. by rewrite E.
  - apply Exists_cons_tl. apply Exists_exists in IH as (N & HN & Hf). apply Exists_exists.
    exists N. split; [done|]. rewrite Forall_forall in Hsame, Hlaw.
    pose proof (updateOnce_same N w x1 x (Hlaw N HN) (Hsame N HN)) as H.
    unfold fails_alone in *. by rewrite Hf in H.
  - apply Exists_cons_tl. apply Exists_exists in IH as (N & HN & Hf). apply Exists_exists.
    exists N. split; [done|]. rewrite Forall_forall in Hsame, Hlaw.
    pose proof (updateOnce_same N w x1 x (Hlaw N HN) (Hsame N HN)) as H.
    unfold fails_alone in *. by rewrite Hf in H.
Qed.
End Client.

(** ** The monitors of the worker *)

(** The members of the monitors that are kept between two readings. *)
Record members := mk_members {
  cpuStatMap_ : gmap string CpuStatMonitor.CpuStat;
  softIrqMap_ : gmap string CpuSoftIrqMonitor.SoftIrq;
  lastNetInfo_ : gmap string NetMonitor.NetInfo;
  netEbpf_ : NetEbpfMonitor.state;
  diskMaps_ : DiskMonitor.state;
  mysql_ : MysqlMonitor.MysqlMonitor;
  redis_ : RedisMonitor.RedisMonitor;
  hostInfo_ : HostInfoMonitor.state
}.

(** What one round of readings finds: devices, files, clocks and servers. *)
Record world := mk_world {
  load_device : option (list Z);
  proc_loadavg : CpuLoadMonitor.proc_loadavg;
  stat_device : option (list CpuStatCollector.cpu_stat);
  softirq_device : option (list SoftirqCollector.softirq_stat);
  softirq_now : Z;                       (* a steady clock, in nanoseconds *)
  proc_meminfo : option string;
  proc_net_dev : option string;
  net_now : Z;
  bpf_map : NetEbpfMonitor.world;
  proc_diskstats : option string;
  time_now : Z;
  mysql_client : MysqlMonitor.client;
  redis_connect : RedisMonitor.ConnectionOptions -> RedisMonitor.server;
  host_system : HostInfoMonitor.system
}.

(** The members and the message that is being filled. *)
Definition X : Type := members * MonitorInfo.t.

Definition cpu_load_monitor : MonitorInter X world :=
  mk_monitor (option CpuLoad.t)
    (fun x => MonitorInfo.cpu_load x.2)
    (fun v x => (x.1, MonitorInfo.set_cpu_load v x.2))
    (fun w x => Done (x.1, CpuLoadMonitor.updateOnce (load_device w) (proc_loadavg w) x.2)).

Definition cpu_stat_monitor : MonitorInter X world :=
  mk_monitor (gmap string CpuStatMonitor.CpuStat * list CpuStat.t)
    (fun x => (cpuStatMap_ x.1, MonitorInfo.cpu_stat x.2))
    (fun v x =>
       let s := x.1 in
       (mk_members v.1 (softIrqMap_ s) (lastNetInfo_ s) (netEbpf_ s) (diskMaps_ s) (mysql_ s)
          (redis_ s) (hostInfo_ s), MonitorInfo.set_cpu_stat v.2 x.2))
    (fun w x =>
       let s := x.1 in
       let '(cache, m) := CpuStatMonitor.updateOnce (stat_device w) (cpuStatMap_ s) x.2 in
       Done (mk_members cache (softIrqMap_ s) (lastNetInfo_ s) (netEbpf_ s) (diskMaps_ s)
               (mysql_ s) (redis_ s) (hostInfo_ s), m)).

Definition soft_irq_monitor : MonitorInter X world :=
  mk_monitor (gmap string CpuSoftIrqMonitor.SoftIrq * list SoftIrq.t)
    (fun x => (softIrqMap_ x.1, MonitorInfo.soft_irq x.2))
    (fun v x =>
       let s := x.1 in
       (mk_members (cpuStatMap_ s) v.1 (lastNetInfo_ s) (netEbpf_ s) (diskMaps_ s) (mysql_ s)
          (redis_ s) (hostInfo_ s), MonitorInfo.set_soft_irq v.2 x.2))
    (fun w x =>
       let s := x.1 in
       '(cache, m) ← or_undefined (CpuSoftIrqMonitor.updateOnce (softirq_device w) (softirq_now w)
                                     (softIrqMap_ s) x.2);
       Done (mk_members (cpuStatMap_ s) cache (lastNetInfo_ s) (netEbpf_ s) (diskMaps_ s)
               (mysql_ s) (redis_ s) (hostInfo_ s), m)).

Definition mem_monitor : MonitorInter X world :=
  mk_monitor (option MemInfo.t)
    (fun x => MonitorInfo.mem_info x.2)
    (fun v x => (x.1, MonitorInfo.set_mem_info v x.2))
    (fun w x => m ← MemMonitor.updateOnce (proc_meminfo w) x.2; Done (x.1, m)).

Definition net_ebpf_monitor : MonitorInter X world :=
  mk_monitor (NetEbpfMonitor.state * list NetInfo.t)
    (fun x => (netEbpf_ x.1, MonitorInfo.net_info x.2))
    (fun v x =>
       let s := x.1 in
       (mk_members (cpuStatMap_ s) (softIrqMap_ s) (lastNetInfo_ s) v.1 (diskMaps_ s) (mysql_ s)
          (redis_ s) (hostInfo_ s), MonitorInfo.set_net_info v.2 x.2))
    (fun w x =>
       let s := x.1 in
       '(st, m) ← or_undefined (NetEbpfMonitor.updateOnce (bpf_map w) (netEbpf_ s) x.2);
       Done (mk_members (cpuStatMap_ s) (softIrqMap_ s) (lastNetInfo_ s) st (diskMaps_ s)
               (mysql_ s) (redis_ s) (hostInfo_ s), m)).

Definition net_monitor : MonitorInter X world :=
  mk_monitor (gmap string NetMonitor.NetInfo * list NetInfo.t)
    (fun x => (lastNetInfo_ x.1, MonitorInfo.net_info x.2))
    (fun v x =>
       let s := x.1 in
       (mk_members (cpuStatMap_ s) (softIrqMap_ s) v.1 (netEbpf_ s) (diskMaps_ s) (mysql_ s)
          (redis_ s) (hostInfo_ s), MonitorInfo.set_net_info v.2 x.2))
    (fun w x =>
       let s := x.1 in
       '(cache, m) ← NetMonitor.updateOnce (proc_net_dev w) (net_now w) (lastNetInfo_ s) x.2;
       Done (mk_members (cpuStatMap_ s) (softIrqMap_ s) cache (netEbpf_ s) (diskMaps_ s)
               (mysql_ s) (redis_ s) (hostInfo_ s), m)).

Definition disk_monitor : MonitorInter X world :=
  mk_monitor (DiskMonitor.state * list DiskInfo.t)
    (fun x => (diskMaps_ x.1, MonitorInfo.disk_info x.2))
    (fun v x =>
       let s := x.1 in
       (mk_members (cpuStatMap_ s) (softIrqMap_ s) (lastNetInfo_ s) (netEbpf_ s) v.1 (mysql_ s)
          (redis_ s) (hostInfo_ s), MonitorInfo.set_disk_info v.2 x.2))
    (fun w x =>
       let s := x.1 in
       '(st, m) ← or_undefined (DiskMonitor.updateOnce (proc_diskstats w) (time_now w)
                                  (diskMaps_ s) x.2);
       Done (mk_members (cpuStatMap_ s) (softIrqMap_ s) (lastNetInfo_ s) (netEbpf_ s) st
               (mysql_ s) (redis_ s) (hostInfo_ s), m)).

Definition mysql_monitor : MonitorInter X world :=
  mk_monitor (MysqlMonitor.MysqlMonitor * list MysqlInfo.t)
    (fun x => (mysql_ x.1, MonitorInfo.mysql_info x.2))
    (fun v x =>
       let s := x.1 in
       (mk_members (cpuStatMap_ s) (softIrqMap_ s) (lastNetInfo_ s) (netEbpf_ s) (diskMaps_ s)
          v.1 (redis_ s) (hostInfo_ s), MonitorInfo.set_mysql_info v.2 x.2))
    (fun w x => Done (x.1, (MysqlMonitor.updateOnce (mysql_client w) (mysql_ x.1) x.2).1)).

Definition redis_monitor : MonitorInter X world :=
  mk_monitor (RedisMonitor.RedisMonitor * list RedisInfo.t)
    (fun x => (redis_ x.1, MonitorInfo.redis_info x.2))
    (fun v x =>
       let s := x.1 in
       (mk_members (cpuStatMap_ s) (softIrqMap_ s) (lastNetInfo_ s) (netEbpf_ s) (diskMaps_ s)
          (mysql_ s) v.1 (hostInfo_ s), MonitorInfo.set_redis_info v.2 x.2))
    (fun w x =>
       m ← or_undefined (RedisMonitor.updateOnce (redis_connect w) (redis_ x.1) x.2);
       Done (x.1, m)).

Definition host_info_monitor : MonitorInter X world :=
  mk_monitor (HostInfoMonitor.state * option HostInfo.t)
    (fun x => (hostInfo_ x.1, MonitorInfo.host_info x.2))
    (fun v x =>
       let s := x.1 in
       (mk_members (cpuStatMap_ s) (softIrqMap_ s) (lastNetInfo_ s) (netEbpf_ s) (diskMaps_ s)
          (mysql_ s) (redis_ s) v.1, MonitorInfo.set_host_info v.2 x.2))
    (fun w x =>
       let s := x.1 in
       let '(st, m) := HostInfoMonitor.updateOnce (host_system w) (hostInfo_ s) x.2 in
       Done (mk_members (cpuStatMap_ s) (softIrqMap_ s) (lastNetInfo_ s) (netEbpf_ s)
               (diskMaps_ s) (mysql_ s) (redis_ s) st, m)).

(** ** MetricCollector.cpp *)

(** The macros of the build. *)
Record build := mk_build {
  ENABLE_EBPF : bool; ENABLE_MYSQL_MONITOR : bool; ENABLE_REDIS_MONITOR : bool }.

(** The list the constructor builds. *)
Definition monitors_ (b : build) : list (MonitorInter X world) :=
  [cpu_load_monitor; cpu_stat_monitor; soft_irq_monitor; mem_monitor;
   if ENABLE_EBPF b then net_ebpf_monitor else net_monitor; disk_monitor]
  ++ (if ENABLE_MYSQL_MONITOR b then [mysql_monitor] else [])
  ++ (if ENABLE_REDIS_MONITOR b then [redis_monitor] else [])
  ++ [host_info_monitor].

(** [hostname_], from [gethostname] in the constructor. *)
Definition hostname_ (gethostname : option string) : string := default "unknown" gethostname.

Definition collectAll (b : build) (hostname : string) (w : world) (x : X) : res X :=
  run_monitors (monitors_ b) w (x.1, MonitorInfo.set_name hostname x.2).

(** ** GrpcManagerImpl.cpp *)

Definition GetMonitorInfo (b : build) (hostname : string) (w : world) (s : members)
    (response : MonitorInfo.t) : res (Status * X) :=
  x ← collectAll b hostname w (s, response); Done (status_ok, x).

(** ** The monitors obey the laws *)

Ltac slots := unfold cpu_load_monitor, cpu_stat_monitor, soft_irq_monitor, mem_monitor,
  net_ebpf_monitor, net_monitor, disk_monitor, mysql_monitor, redis_monitor,
  host_info_monitor in *; cbn [slot get put updateOnce fst snd] in *.

(** The lens laws, by cases on the members and the message. *)
Ltac lens := split; slots; [first [done | by intros [] ?]|by intros [[] []]|].

#[export] Instance cpu_load_lawful : Lawful cpu_load_monitor.
Proof.
  lens. intros w [s []] [s' []] E; cbn in *; subst. f_equal. f_equal.
  unfold CpuLoadMonitor.updateOnce. destruct (load_device w); [done|].
  destruct (CpuLoadMonitor.readLoadFromProc _) as [[[] ]|]; done.
Qed.

#[export] Instance cpu_stat_lawful : Lawful cpu_stat_monitor.
Proof.
  lens. intros w [[] []] [[] []] [= -> ->]. cbn.
  unfold CpuStatMonitor.updateOnce. by destruct (stat_device w).
Qed.

#[export] Instance soft_irq_lawful : Lawful soft_irq_monitor.
Proof.
  lens. intros w [[] []] [[] []] [= -> ->]. cbn.
  unfold CpuSoftIrqMonitor.updateOnce. destruct (softirq_device w); [|done]. cbn.
  by destruct (CpuSoftIrqMonitor.read_cpus _ _ _ _) as [[]|].
Qed.

#[export] Instance mem_lawful : Lawful mem_monitor.
Proof.
  lens. intros w [s []] [s' []] E; cbn in *; subst. unfold MemMonitor.updateOnce.
  destruct (MemMonitor.read_meminfo _ _ _) as [v| |]; cbn -[MemMonitor.mem_message]; [|done..].
  by destruct (MemMonitor.mem_message v).
Qed.

#[export] Instance net_ebpf_lawful : Lawful net_ebpf_monitor.
Proof.
  lens. intros w [[] []] [[] []] [= -> ->]. cbn. unfold NetEbpfMonitor.updateOnce. cbn.
  destruct (_ || _); [done|]. cbn.
  by destruct (NetEbpfMonitor.read_entries _ _ _ _) as [[]|].
Qed.

#[export] Instance net_lawful : Lawful net_monitor.
Proof.
  lens. intros w [[] []] [[] []] [= -> ->]. cbn. unfold NetMonitor.updateOnce. cbn.
  destruct (NetMonitor.GetNetStatsFromProc _) as [stats| |]; cbn; [|done..].
  by destruct (foldl _ _ _).
Qed.

#[export] Instance disk_lawful : Lawful disk_monitor.
Proof.
  lens. intros w [[] []] [[] []] [= -> ->]. unfold DiskMonitor.updateOnce. cbn -[getlines].
  match goal with |- context [getlines ?a ?b ?c] => destruct (getlines a b c) end; cbn; [|done].
  by destruct (foldl _ _ _).
Qed.

#[export] Instance mysql_lawful : Lawful mysql_monitor.
Proof.
  lens. intros w [[] []] [[] []] [= -> ->]. cbn. unfold MysqlMonitor.updateOnce. cbn.
  by destruct (MysqlMonitor.enabled_ _).
Qed.

#[export] Instance redis_lawful : Lawful redis_monitor.
Proof.
  lens. intros w [[] []] [[] []] [= -> ->]. cbn. unfold RedisMonitor.updateOnce. cbn.
  destruct (RedisMonitor.enabled_ _); [|done]. cbn -[mapM].
  by destruct (mapM _ _).
Qed.

#[export] Instance host_info_lawful : Lawful host_info_monitor.
Proof. lens. intros w [[] []] [[] []] [= -> ->]. done. Qed.

(** The list of any build. *)
Lemma monitors_independent b : independent (monitors_ b).
Proof.
  destruct b as [[] [] []]; unfold monitors_; cbn [ENABLE_EBPF ENABLE_MYSQL_MONITOR
    ENABLE_REDIS_MONITOR app];
    repeat (apply independent_cons; [apply _|repeat constructor; split; slots; by intros ? []
                                    |repeat constructor; split; slots; by intros ? []|]);
    constructor.
Qed.

(** The name of the message, as the slot of an object that does nothing. *)
Definition name_slot : MonitorInter X world :=
  mk_monitor string (fun x => MonitorInfo.name x.2)
    (fun v x => (x.1, MonitorInfo.set_name v x.2)) (fun _ x => Done x).

Lemma name_apart b : Forall (Apart name_slot) (monitors_ b).
Proof.
  destruct b as [[] [] []]; repeat constructor; cbn [get put name_slot];
    slots; by intros ? [].
Qed.

Lemma apart_name b : Forall (fun M => forall v x, get M (put name_slot v x) = get M x) (monitors_ b).
Proof. destruct b as [[] [] []]; repeat constructor; by intros v [[] []]. Qed.

Lemma read_alone_same {Y V} (w : V) (x y x' : Y) (M : MonitorInter Y V) :
  Lawful M -> get M x = get M y -> read_alone w x x' M -> read_alone w y x' M.
Proof.
  intros HM E (z & Ez & Hz). pose proof (updateOnce_same M w x y HM E) as H. rewrite Ez in H.
  destruct H as (z' & Ez' & Hz'). exists z'. split; [done|congruence].
Qed.

Lemma fails_alone_same {Y V} (w : V) (x y : Y) r (M : MonitorInter Y V) :
  Lawful M -> get M x = get M y -> fails_alone w x r M -> (forall z, r <> Done z) ->
  fails_alone w y r M.
Proof.
  intros HM E Hf Hr. unfold fails_alone in *. pose proof (updateOnce_same M w x y HM E) as H.
  rewrite Hf in H. destruct r; [by destruct (Hr a)|done..].
Qed.

Lemma independent_lawful {Y V} (ms : list (MonitorInter Y V)) : independent ms -> Forall Lawful ms.
Proof. induction 1; by constructor. Qed.

Lemma collectAll_spec b hostname w x :
  match collectAll b hostname w x with
  | Done x' =>
      MonitorInfo.name x'.2 = hostname /\
      Forall (read_alone w x x') (monitors_ b) /\
      (forall N, Forall (Apart N) (monitors_ b) ->
         get N x' = get N (x.1, MonitorInfo.set_name hostname x.2))
  | r => Exists (fails_alone w x r) (monitors_ b)
  end.
Proof.
  unfold collectAll. set (x0 := (x.1, MonitorInfo.set_name hostname x.2)).
  pose proof (monitors_independent b) as Hi. pose proof (independent_lawful _ Hi) as Hl.
  pose proof (apart_name b) as Hn. rewrite Forall_forall in Hl, Hn.
  assert (Hsame : forall M, M ∈ monitors_ b -> get M x0 = get M x)
    by (intros M HM; apply (Hn M HM hostname)).
  pose proof (run_monitors_spec (monitors_ b) w x0 Hi) as H.
  destruct (run_monitors (monitors_ b) w x0) as [x'| |].
  - destruct H as [Hall Hframe]. split; [apply (Hframe name_slot), name_apart|]. split; [|done].
    rewrite Forall_forall in Hall |- *. intros M HM.
    by apply (read_alone_same w x0); [apply Hl|apply Hsame|apply Hall].
  - apply Exists_exists in H as (M & HM & Hf). apply Exists_exists. exists M. split; [done|].
    by apply (fails_alone_same w x0); [apply Hl|apply Hsame| |].
  - apply Exists_exists in H as (M & HM & Hf). apply Exists_exists. exists M. split; [done|].
    by apply (fails_alone_same w x0); [apply Hl|apply Hsame| |].
Qed.

(** C18. [collectAll] gathers the readings of the monitors without mixing them.
    In every build, when the round succeeds, the message carries the name of
    the host, and each monitor has left in its own members and its own part of
    the message exactly what it gives when it is called alone on the state
    before the round; what no monitor of the build owns is as before.  When the
    round throws or is undefined, one of the monitors called alone throws or is
    undefined: an exception of one monitor loses the readings of all. *)
Theorem collect_all_gathers b hostname w x :
  match collectAll b hostname w x with
  | Done x' =>
      MonitorInfo.name x'.2 = hostname /\
      Forall (read_alone w x x') (monitors_ b) /\
      (forall N, Forall (Apart N) (monitors_ b) ->
         get N x' = get N (x.1, MonitorInfo.set_name hostname x.2))
  | r => Exists (fails_alone w x r) (monitors_ b)
  end.
Proof. apply collectAll_spec. Qed.

(** The two network monitors report different units: a megabyte received in a
    second is 1024 here and 1048576 in [NetEbpfMonitor], where [net_info.proto]
    asks for bytes per second. *)
Lemma net_monitors_disagree :
  let old := NetMonitor.mk_NetStat "eth0" 0 0 0 0 0 0 0 0 in
  let new := NetMonitor.mk_NetStat "eth0" 1048576 0 0 0 0 0 0 0 in
  NetInfo.rcv_rate (NetMonitor.message_of 1000000000 (Some (NetMonitor.mk_NetInfo old 0)) new) = f32_of_Z 1024 /\
  NetEbpfMonitor.rate (NetEbpfMonitor.counter_diff 1048576 0)
    (NetEbpfMonitor.elapsed_ms 1000000000 0) = Some (f32_of_Z 1048576).
Proof. by vm_compute. Qed.

