(* ===== verification/QueryDispatch.v ===== *)
(** * QueryDispatch: query tasks and the workers that run them

    The query half of [src/manager/src/ManagerDispatcher.cpp] and
    [ManagerDispatcher.h]: [submitQueryTask] as a function of what its thread
    observes, and the threads that share the query queue and the worker counter
    ([queryWorkerLoop], [maybeScaleUpQuery], [spawnQueryWorker]) as a step
    relation whose steps are the accesses to the shared variables. *)

From S2P Require Import Prelude ManagerConfig Dispatcher Grpc.

(** ** [submitQueryTask] *)
Module Submit.

(** What running the task gives: its status and the response it filled, or the
    exception it threw. *)
Inductive outcome (Response : Type) :=
| Returned (status : Status) (result : Response)
| Threw (what : string)
| ThrewUnknown.
Arguments Returned {Response}.
Arguments Threw {Response}.
Arguments ThrewUnknown {Response}.

(** What the submitting thread observes of the other threads: the two readings
    of the queue's size, whether the enqueue succeeds, and the future ([None]:
    not ready within [task_timeout]). *)
Record observation (Response : Type) := mk_observation {
  first_size : Z; second_size : Z; enqueued : bool; future : option (outcome Response) }.
Arguments mk_observation {Response}.
Arguments first_size {Response}.
Arguments second_size {Response}.
Arguments enqueued {Response}.
Arguments future {Response}.

(** The value the task sets its promise to. *)
Definition promised {Response} (o : outcome Response) : Status :=
  match o with
  | Returned st _ => st
  | Threw what => mk_Status INTERNAL ("manager query task failed: " +++ what)
  | ThrewUnknown => mk_Status INTERNAL "manager query task failed with unknown error"
  end.

Definition count_rejected (m : ManagerMetrics) : ManagerMetrics :=
  mk_metrics (worker_requests m) (query_requests m) (queue_rejected m + 1)
    (dropped_monitor_samples m) (task_timeouts m) (task_errors m) (mysql_errors m)
    (redis_errors m) (pool_timeouts m) (pool_reconnects m).
Definition count_query (m : ManagerMetrics) : ManagerMetrics :=
  mk_metrics (worker_requests m) (query_requests m + 1) (queue_rejected m)
    (dropped_monitor_samples m) (task_timeouts m) (task_errors m) (mysql_errors m)
    (redis_errors m) (pool_timeouts m) (pool_reconnects m).
Definition count_timeout (m : ManagerMetrics) : ManagerMetrics :=
  mk_metrics (worker_requests m) (query_requests m) (queue_rejected m)
    (dropped_monitor_samples m) (task_timeouts m + 1) (task_errors m) (mysql_errors m)
    (redis_errors m) (pool_timeouts m) (pool_reconnects m).

(** [response] is [None] for a null pointer; the new contents of the response
    are returned. *)
Definition submitQueryTask {Response} (cfg : ManagerConfig) (o : observation Response)
    (response : option Response) (m : ManagerMetrics)
    : Status * option Response * ManagerMetrics :=
  match response with
  | None => (mk_Status INVALID_ARGUMENT "null response", response, m)
  | Some _ =>
      if (query_queue_high_watermark cfg <=? first_size o) &&
         (query_queue_capacity cfg <=? second_size o)
      then (mk_Status RESOURCE_EXHAUSTED "manager query queue is full", response, count_rejected m)
      else if negb (enqueued o)
      then (mk_Status RESOURCE_EXHAUSTED "manager query queue is full", response, count_rejected m)
      else
        let m := count_query m in
        match future o with
        | None => (mk_Status DEADLINE_EXCEEDED "manager query task timed out", response, count_timeout m)
        | Some out =>
            let status := promised out in
            (status,
             if ok status then match out with Returned _ result => Some result | _ => response end
             else response, m)
        end
  end.

End Submit.

(** ** The query workers *)
Module Workers.
Section Workers.
Context {R Q : Type} `{MPMCQueueLaws Q (ManagerTask R)} (cfg : ManagerConfig).
Abbreviation task := (ManagerTask R).

(** Where a worker is in [queryWorkerLoop]; [since] is its [idleSince]. *)
Inductive worker :=
| QLoop (since : Z)            (* the test of the loop *)
| QRead (since : Z)
| QIdle (since : Z)            (* nothing to read: the test for shrinking *)
| QShrink                      (* the test passed: about to decrement *)
| QRun (t : task) (since : Z)
| QLeave                       (* the loop is over: about to decrement *)
| QExited.

(** Where a thread is in [maybeScaleUpQuery]. *)
Inductive spawner :=
| PStart                       (* queue size against the high watermark *)
| PCheck                       (* first test of the worker count *)
| PSpawn                       (* [spawnQueryWorker]: second test *)
| PAdd                         (* about to increment *)
| PEmplace                     (* about to start the thread *)
| PEnd.

Record config := mk_config {
  queue : Q;
  running : bool;
  count : Z;                   (* queryWorkerCount_ *)
  now : Z;                     (* steady clock, seconds *)
  workers : list worker;
  spawners : list spawner
}.

(** The next state of a worker that touches only the shared flag, the queue's
    size and the counter. *)
Definition after_test (c : config) (w : worker) : option worker :=
  match w with
  | QLoop since =>
      Some (if running c || (0 <? mpmc_size (A := task) (queue c)) then QRead since else QLeave)
  | QIdle since =>
      Some (if (query_threads_min cfg <? count c) && (query_idle_shrink cfg <=? now c - since)
            then QShrink else QLoop since)
  | QRun _ since => Some (QLoop since)
  | _ => None
  end.

Definition after_check (c : config) (p : spawner) : option spawner :=
  match p with
  | PStart =>
      Some (if mpmc_size (A := task) (queue c) <? query_queue_high_watermark cfg then PEnd else PCheck)
  | PCheck => Some (if query_threads_max cfg <=? count c then PEnd else PSpawn)
  | PSpawn => Some (if query_threads_max cfg <=? count c then PEnd else PAdd)
  | _ => None
  end.

Definition with_worker (c : config) (i : nat) (w : worker) : config :=
  mk_config (queue c) (running c) (count c) (now c) (<[i := w]> (workers c)) (spawners c).
Definition with_spawner (c : config) (i : nat) (p : spawner) : config :=
  mk_config (queue c) (running c) (count c) (now c) (workers c) (<[i := p]> (spawners c)).
Definition with_count (c : config) (n : Z) : config :=
  mk_config (queue c) (running c) n (now c) (workers c) (spawners c).
Definition with_queue (c : config) (q : Q) : config :=
  mk_config q (running c) (count c) (now c) (workers c) (spawners c).

Inductive step : config -> config -> Prop :=
| worker_test c i w w' :
    workers c !! i = Some w -> after_test c w = Some w' -> step c (with_worker c i w')
| worker_read c i since t q' :
    workers c !! i = Some (QRead since) -> mpmc_read (queue c) = Some (t, q') ->
    step c (with_worker (with_queue c q') i (QRun t (now c)))
| worker_empty c i since :
    workers c !! i = Some (QRead since) -> mpmc_read (queue c) = None (A := task * Q) ->
    step c (with_worker c i (QIdle since))
| worker_exit c i w :
    workers c !! i = Some w -> w = QShrink \/ w = QLeave ->
    step c (with_worker (with_count c (count c - 1)) i QExited)
| spawner_check c i p p' :
    spawners c !! i = Some p -> after_check c p = Some p' -> step c (with_spawner c i p')
| spawner_add c i :
    spawners c !! i = Some PAdd ->
    step c (with_spawner (with_count c (count c + 1)) i PEmplace)
| spawner_emplace c i :
    spawners c !! i = Some PEmplace ->
    step c (mk_config (queue c) (running c) (count c) (now c)
              (workers c ++ [QLoop (now c)]) (<[i := PEnd]> (spawners c)))
| submit c t q' :
    running c = true -> mpmc_write (queue c) t = Some q' -> step c (with_queue c q')
| tick c : step c (mk_config (queue c) (running c) (count c) (now c + 1) (workers c) (spawners c))
| stop c : step c (mk_config (queue c) false (count c) (now c) (workers c) (spawners c)).

(** [start]: [n] calls of [spawnQueryWorker], one after the other. *)
Fixpoint spawn_initial (n : nat) (c : config) : config :=
  match n with
  | O => c
  | S n' =>
      let c' :=
        if query_threads_max cfg <=? count c then c
        else mk_config (queue c) (running c) (count c + 1) (now c)
               (workers c ++ [QLoop (now c)]) (spawners c) in
      spawn_initial n' c'
  end.

(** The started dispatcher, with [n] threads about to call [maybeScaleUpQuery]. *)
Definition started (n : nat) : config :=
  spawn_initial (Z.to_nat (Z.max 1 (Z.min (query_threads_min cfg) (query_threads_max cfg))))
    (mk_config (mpmc_new (Z.max 1 (query_queue_capacity cfg))) true 0 0 [] (replicate n PStart)).

(** *** The invariant *)

(** A worker that the counter still counts, and a spawner that has counted
    one more than there is. *)
Definition alive (w : worker) : Z := match w with QExited => 0 | _ => 1 end.
Definition pending (p : spawner) : Z := match p with PEmplace => 1 | _ => 0 end.
Definition about_to_add (p : spawner) : Z := match p with PAdd => 1 | _ => 0 end.

Fixpoint total {A} (f : A -> Z) (l : list A) : Z :=
  match l with [] => 0 | x :: r => f x + total f r end.

Definition inv (n : nat) (c : config) : Prop :=
  length (spawners c) = n /\
  count c = total alive (workers c) + total pending (spawners c) /\
  count c + total about_to_add (spawners c)
    <= Z.max 0 (query_threads_max cfg) + Z.max 0 (Z.of_nat n - 1).

(** *** Lemmas *)

Lemma total_worker_insert {A} (f : A -> Z) l i x y :
  l !! i = Some x -> total f (<[i := y]> l) = total f l - f x + f y.
Proof.
  revert i; induction l as [|z l IH]; intros [|i] Hi; cbn in *; simplify_eq; [lia|].
  rewrite IH by done. lia.
Qed.

Lemma total_app {A} (f : A -> Z) l k : total f (l ++ k) = total f l + total f k.
Proof. induction l; cbn; lia. Qed.

Lemma total_bounds {A} (f : A -> Z) l :
  (forall x, 0 <= f x <= 1) -> 0 <= total f l <= Z.of_nat (length l).
Proof. intros Hf. induction l as [|x l IH]; cbn; [lia|]. pose proof (Hf x). lia. Qed.

Lemma total_bounds_but {A} (f : A -> Z) l i x :
  (forall x, 0 <= f x <= 1) -> l !! i = Some x -> f x = 0 ->
  total f l <= Z.of_nat (length l) - 1.
Proof.
  intros Hf. revert i; induction l as [|y l IH]; intros [|i] Hi Hx; cbn in *; simplify_eq.
  - pose proof (total_bounds f l Hf). lia.
  - specialize (IH i Hi Hx). pose proof (Hf y). lia.
Qed.

Lemma amounts_bounds w p : 0 <= alive w <= 1 /\ 0 <= pending p <= 1 /\ 0 <= about_to_add p <= 1.
Proof. destruct w, p; cbn; lia. Qed.

Lemma workers_inv_step n c c' : inv n c -> step c c' -> inv n c'.
Proof.
  intros (Hn & Hc & Hb) Hst.
  destruct Hst as [c i w w' Hi Ht | c i since t q' Hi Hr | c i since Hi Hr | c i w Hi Hw
    | c i p p' Hi Hp | c i Hi | c i Hi | c t q' Hr Hw | c | c]; unfold inv; cbn.
  1-4: rewrite (total_worker_insert _ _ _ _ _ Hi); split; [done|].
  - assert (alive w = 1 /\ alive w' = 1) as [-> ->]
      by (destruct w; cbn in Ht; simplify_eq; repeat break_if; done).
    lia.
  - cbn. lia.
  - cbn. lia.
  - destruct Hw as [-> | ->]; cbn; lia.
  - rewrite length_insert, !(total_worker_insert _ _ _ _ _ Hi). split; [done|].
    assert (Hz : pending p = 0 /\ pending p' = 0 /\ about_to_add p = 0)
      by (destruct p; cbn in Hp; simplify_eq; repeat break_if; done).
    destruct Hz as (-> & -> & Hz). rewrite Hz. split; [lia|].
    destruct (about_to_add p' =? 0) eqn:E; to_props; [lia|].
    assert (count c < query_threads_max cfg /\ about_to_add p' = 1) as [Hlt ->].
    { destruct p; cbn in Hp; simplify_eq; repeat break_if; to_props; cbn in E; try lia; done. }
    pose proof (total_bounds_but about_to_add (spawners c) i p) as Hbb.
    specialize (Hbb (fun x => proj2 (proj2 (amounts_bounds QLeave x))) Hi Hz).
    pose proof (lookup_lt_Some _ _ _ Hi). lia.
  - rewrite length_insert, !(total_worker_insert _ _ _ _ _ Hi). cbn. lia.
  - rewrite length_insert, !(total_worker_insert _ _ _ _ _ Hi), total_app. cbn. lia.
  - done.
  - done.
  - done.
Qed.

Lemma spawn_initial_inv k n c :
  inv n c -> spawners c = replicate n PStart -> inv n (spawn_initial k c).
Proof.
  revert c; induction k as [|k IH]; intros c Hinv Hs; [done|]. cbn. apply IH.
  - break_if; [done|]. to_props. destruct Hinv as (Hn & Hc & Hb). unfold inv; cbn.
    rewrite total_app, Hs. split; [by rewrite length_replicate|]. split.
    + rewrite Hs in Hc. cbn. lia.
    + assert (Hz : total about_to_add (replicate n PStart) = 0)
        by (clear; induction n; cbn; lia).
      lia.
  - by break_if.
Qed.

Lemma workers_started_inv n : inv n (started n).
Proof.
  apply spawn_initial_inv; [|done]. unfold inv; cbn. rewrite length_replicate.
  assert (Hz : total about_to_add (replicate n PStart) = 0 /\ total pending (replicate n PStart) = 0)
    by (clear; induction n; cbn; lia).
  lia.
Qed.

(** C25. The worker counter counts the query workers.  In every reachable state,
    whatever the interleaving of workers, scaling threads, submitters and
    [stop], the counter is the number of workers that have not left plus the
    threads being started, so it is never negative; and it exceeds the
    configured maximum by at most the number of concurrent scaling threads
    less one. *)
Theorem query_worker_count n c :
  rtc step (started n) c ->
  count c = total alive (workers c) + total pending (spawners c) /\ 0 <= count c /\
  count c <= Z.max 0 (query_threads_max cfg) + Z.max 0 (Z.of_nat n - 1).
Proof.
  intros Hr. assert (Hi : inv n c).
  { eapply rtc_invariant; [intros a b; apply workers_inv_step|apply workers_started_inv|done]. }
  destruct Hi as (_ & Hc & Hb).
  pose proof (total_bounds alive (workers c) (fun w => proj1 (amounts_bounds w PEnd))).
  pose proof (total_bounds pending (spawners c) (fun p => proj1 (proj2 (amounts_bounds QLeave p)))).
  pose proof (total_bounds about_to_add (spawners c) (fun p => proj2 (proj2 (amounts_bounds QLeave p)))).
  lia.
Qed.
End Workers.
End Workers.

(** *** Runs *)

(** At least one query thread, at most two, and one that scales up at once. *)
Definition small_pool : ManagerConfig :=
  loadManagerConfigFromEnv
    (fun n => if String.eqb n "MANAGER_QUERY_THREADS_MIN" then Some "1"
              else if String.eqb n "MANAGER_QUERY_THREADS_MAX" then Some "2"
              else if String.eqb n "MANAGER_QUERY_QUEUE_CAPACITY" then Some "1"
              else if String.eqb n "MANAGER_QUERY_IDLE_SHRINK_SECONDS" then Some "1" else None) 4.

Abbreviation list_q := (Z * list (ManagerTask Z))%type.

Ltac act c n := eapply rtc_l; [eapply c with (i := n); reflexivity|cbn].

(** One scaling thread starts the second worker. *)
Lemma scaled_up :
  rtc (Workers.step small_pool) (Workers.started (Q := list_q) small_pool 1)
    (Workers.mk_config (1, []) true 2 0 [Workers.QLoop 0; Workers.QLoop 0] [Workers.PEnd]).
Proof.
  vm_compute Workers.started.
  act @Workers.spawner_check 0%nat. act @Workers.spawner_check 0%nat.
  act @Workers.spawner_check 0%nat. act @Workers.spawner_add 0%nat.
  act @Workers.spawner_emplace 0%nat. apply rtc_refl.
Qed.

Lemma query_worker_count_witness : 0 <= 2 <= Z.max 0 (query_threads_max small_pool) + Z.max 0 (Z.of_nat 1 - 1).
Proof.
  destruct (Workers.query_worker_count (Q := list_q) small_pool 1 _ scaled_up) as (_ & H0 & H1).
  split; [exact H0|exact H1].
Defined.

(** The minimum and the maximum of the query pool are not kept under
    concurrency.  Two idle workers that both see the counter above the minimum
    both leave, and a running dispatcher is left with no query worker although
    the minimum is 1; two scaling threads that both see the counter below the
    maximum both start a worker, one more than the maximum of 2. *)
Theorem query_pool_limits_race :
  (exists c, rtc (Workers.step small_pool) (Workers.started (Q := list_q) small_pool 1) c /\
     Workers.running c = true /\ Workers.count c = 0 /\
     Workers.workers c = [Workers.QExited; Workers.QExited] /\ query_threads_min small_pool = 1) /\
  (exists c, rtc (Workers.step small_pool) (Workers.started (Q := list_q) small_pool 2) c /\
     Workers.count c = 3 /\ query_threads_max small_pool = 2 /\
     Workers.total Workers.alive (Workers.workers c) = 3).
Proof.
  split.
  - eexists. split.
    + etrans; [exact scaled_up|].
      act @Workers.worker_test 0%nat. act @Workers.worker_test 1%nat.
      act @Workers.worker_empty 0%nat. act @Workers.worker_empty 1%nat.
      eapply rtc_l; [apply Workers.tick|cbn].
      act @Workers.worker_test 0%nat. act @Workers.worker_test 1%nat.
      eapply rtc_l; [eapply Workers.worker_exit with (i := 0%nat); [reflexivity|by left]|cbn].
      eapply rtc_l; [eapply Workers.worker_exit with (i := 1%nat); [reflexivity|by left]|cbn].
      apply rtc_refl.
    + done.
  - eexists. split.
    + vm_compute Workers.started.
      act @Workers.spawner_check 0%nat. act @Workers.spawner_check 1%nat.
      act @Workers.spawner_check 0%nat. act @Workers.spawner_check 1%nat.
      act @Workers.spawner_check 0%nat. act @Workers.spawner_check 1%nat.
      act @Workers.spawner_add 0%nat. act @Workers.spawner_add 1%nat.
      act @Workers.spawner_emplace 0%nat. act @Workers.spawner_emplace 1%nat.
      apply rtc_refl.
    + done.
Qed.

(** A query submission is answered on every branch, and the response is
    written exactly when the status is OK: a null response is refused, a full
    queue gives RESOURCE_EXHAUSTED and counts one rejection, an accepted query
    is counted once and either times out (counted once more) or returns the
    task's own status, an exception becoming INTERNAL. *)
Theorem submit_query_outcomes {Response} cfg (o : Submit.observation Response) response m :
  let '(st, response', m') := Submit.submitQueryTask cfg o response m in
  (response = None -> error_code st = INVALID_ARGUMENT /\ m' = m) /\
  (ok st = false -> response' = response) /\
  (ok st = true -> exists r st', response' = Some r /\ Submit.future o = Some (Submit.Returned st' r)) /\
  (response <> None ->
     (queue_rejected m' = queue_rejected m + 1 /\ query_requests m' = query_requests m /\
      task_timeouts m' = task_timeouts m /\ error_code st = RESOURCE_EXHAUSTED /\
      (Submit.enqueued o = false \/ query_queue_capacity cfg <= Submit.second_size o)) \/
     (queue_rejected m' = queue_rejected m /\ query_requests m' = query_requests m + 1 /\
      Submit.enqueued o = true /\
      match Submit.future o with
      | None => task_timeouts m' = task_timeouts m + 1 /\ error_code st = DEADLINE_EXCEEDED
      | Some out => task_timeouts m' = task_timeouts m /\ st = Submit.promised out
      end)).
Proof.
  unfold Submit.submitQueryTask. destruct response as [r|]; [|cbn; naive_solver].
  destruct ((query_queue_high_watermark cfg <=? Submit.first_size o) &&
            (query_queue_capacity cfg <=? Submit.second_size o)) eqn:E1.
  { to_props. cbn. split_and!; try done. intros _. left. split_and!; auto. }
  destruct (Submit.enqueued o) eqn:E2; cbn; [|split_and!; try done; intros _; left; split_and!; auto].
  destruct (Submit.future o) as [[st r'|w|]|] eqn:E3; cbn; split_and!; try done;
    try (intros _; right; split_and!; by auto).
  - by intros ->.
  - intros ->. eauto.
Qed.

Lemma submit_query_outcomes_witness :
  fst (fst (Submit.submitQueryTask small_pool
    (Submit.mk_observation 0 0 true (Some (Submit.Threw (Response := Z) "db"))) (Some 1) zero_metrics))
  = mk_Status INTERNAL "manager query task failed: db".
Proof.
  destruct (submit_query_outcomes small_pool
    (Submit.mk_observation 0 0 true (Some (Submit.Threw (Response := Z) "db"))) (Some 1) zero_metrics)
    as (_ & _ & _ & H).
  destruct (H ltac:(discriminate)) as [(Hq & _)|(_ & _ & _ & _ & Hst)]; [discriminate Hq|exact Hst].
Defined.
