(* ===== verification/Pools.v ===== *)
(** * Pools: the MySQL and the Redis connection pool

    [src/manager/src/MysqlConnectionPool.cpp],
    [src/manager/src/RedisConnectionPool.cpp] and their headers.  The two pools
    have the same operations; they differ in who closes a connection that is
    overwritten (a raw pointer does not, a [unique_ptr] does), in the test of
    [mysql_errno] on release and in what the health check repairs.  The shared
    operations take a [kind]; each pool has its own health check.

    The client libraries are outside: connections are numbered handles, and the
    answers to connect, ping and errno calls are an input of the run.  Every
    critical section of the pool's mutex is one function; the threads that use
    a pool interleave in the step relation of [Section Clients]. *)

From S2P Require Import Prelude CString.

(** ** The outside world *)

Record world := mk_world {
  answers : list bool;      (* results of the coming calls: true for success *)
  fresh : Z;                (* the next handle a connect returns *)
  live : list Z;            (* handles opened and not closed *)
  misuse : bool;            (* a handle was closed twice, or used while null *)
  errors : Z;               (* mysql_errors or redis_errors of the metrics *)
  pool_timeouts : Z; pool_reconnects : Z }.

Definition count_error (w : world) : world :=
  mk_world (answers w) (fresh w) (live w) (misuse w) (errors w + 1) (pool_timeouts w)
    (pool_reconnects w).
Definition count_timeout (w : world) : world :=
  mk_world (answers w) (fresh w) (live w) (misuse w) (errors w) (pool_timeouts w + 1)
    (pool_reconnects w).

(** One call of the client library; a call without an answer left fails. *)
Definition ask (w : world) : bool * world :=
  match answers w with
  | [] => (false, w)
  | b :: r => (b, mk_world r (fresh w) (live w) (misuse w) (errors w) (pool_timeouts w)
                    (pool_reconnects w))
  end.

(** Closing a handle. *)
Definition close (h : Z) (w : world) : world :=
  mk_world (answers w) (fresh w) (filter (fun x => x <> h) (live w))
    (misuse w || negb (bool_decide (h ∈ live w))) (errors w) (pool_timeouts w)
    (pool_reconnects w).

(** A call on the connection of an entry, which must not be null. *)
Definition call_on (c : option Z) (w : world) : bool * world :=
  match c with
  | Some _ => ask w
  | None => (false, mk_world (answers w) (fresh w) (live w) true (errors w)
                      (pool_timeouts w) (pool_reconnects w))
  end.

(** ** The pool *)

Record Entry := mk_Entry {
  conn : option Z; inUse : bool; healthy : bool; failures : Z; lastUsed : Z }.

Record pool := mk_pool {
  entries : list Entry; minSize : Z; maxSize : Z; idleTtl : Z; running : bool }.

(** [owning]: the connection is a [unique_ptr]; [checks_errno]: [release] tests
    [mysql_errno]. *)
Record kind := mk_kind { owning : bool; checks_errno : bool }.
Definition mysql_kind : kind := mk_kind false true.
Definition redis_kind : kind := mk_kind true false.

(** The constructors. *)
Definition make_pool (min max ttl : Z) : pool :=
  let m := Z.max 0 min in mk_pool [] m (Z.max m max) ttl false.

Definition set_entries (p : pool) (es : list Entry) : pool :=
  mk_pool es (minSize p) (maxSize p) (idleTtl p) (running p).

(** [toSeconds]: milliseconds to whole seconds, rounded up, at least one. *)
Definition toSeconds (ms : Z) : Z := u32_wrap (Z.max 1 (Z.quot (ms + 999) 1000)).

Section Operations.
Variable k : kind.

(** [connect()]: for MySQL, [mysql_init] and the connection itself; a handle
    made for a connection that fails is closed again. *)
Definition connect (w : world) : option Z * world :=
  let '(init, w) := if owning k then (true, w) else ask w in
  if negb init then (None, w)
  else
    let '(b, w) := ask w in
    if b then
      (Some (fresh w),
       mk_world (answers w) (fresh w + 1) (fresh w :: live w) (misuse w) (errors w)
         (pool_timeouts w) (pool_reconnects w + 1))
    else (None, count_error w).

(** [entry.conn = c]. *)
Definition assign (e : Entry) (c : option Z) (w : world) : Entry * world :=
  (mk_Entry c (inUse e) (bool_decide (c <> None)) (failures e) (lastUsed e),
   match conn e with
   | Some old => if owning k then close old w else w
   | None => w
   end).

Definition closeEntry (e : Entry) (w : world) : Entry * world :=
  (mk_Entry None false false (failures e) (lastUsed e),
   match conn e with Some h => close h w | None => w end).

(** Connect and store the result in the entry. *)
Definition reconnect (e : Entry) (w : world) : Entry * world :=
  let '(c, w) := connect w in assign e c w.

Definition ensureHealthy (e : Entry) (w : world) : bool * Entry * world :=
  match conn e with
  | None => let '(e, w) := reconnect e w in (healthy e, e, w)
  | Some _ =>
      let '(alive, w) := call_on (conn e) w in
      if alive then (true, mk_Entry (conn e) (inUse e) true 0 (lastUsed e), w)
      else
        let '(e, w) := closeEntry e (count_error w) in
        let '(e, w) := reconnect e w in
        (healthy e, e, w)
  end.

(** [start]: [minSize] entries; [n] is how many are still to be made. *)
Fixpoint make_entries (n : nat) (now : Z) (w : world) : list Entry * world :=
  match n with
  | O => ([], w)
  | S n' =>
      let '(c, w) := connect w in
      let '(es, w) := make_entries n' now w in
      (mk_Entry c false (bool_decide (c <> None)) 0 now :: es, w)
  end.

Definition start (p : pool) (now : Z) (w : world) : pool * world :=
  if running p then (p, w)
  else
    let '(es, w) := make_entries (Z.to_nat (minSize p)) now w in
    (mk_pool (entries p ++ es) (minSize p) (maxSize p) (idleTtl p) true, w).

(** The loop of [acquire] over the entries: the entries after it, and the
    index and connection of the entry that was taken. *)
Definition take_entry (e : Entry) : Entry :=
  mk_Entry (conn e) true (healthy e) (failures e) (lastUsed e).

Fixpoint try_entries (es : list Entry) (w : world)
    : list Entry * option (nat * option Z) * world :=
  match es with
  | [] => ([], None, w)
  | e :: rest =>
      let skip e w :=
        let '(rest', r, w') := try_entries rest w in
        (e :: rest', (fun '(i, c) => (S i, c)) <$> r, w') in
      if inUse e then skip e w
      else if healthy e then (take_entry e :: rest, Some (0%nat, conn e), w)
      else
        let '(good, e', w') := ensureHealthy e w in
        if good then (take_entry e' :: rest, Some (0%nat, conn e'), w')
        else skip e' w'
  end.

(** One turn of the loop of [acquire], from getting the mutex to the return or
    the wait. *)
Inductive outcome := Got (i : nat) (c : option Z) | MustWait | NotRunning.

Definition acquire_turn (p : pool) (now : Z) (w : world) : outcome * pool * world :=
  if negb (running p) then (NotRunning, p, w)
  else
    let '(es, r, w) := try_entries (entries p) w in
    match r with
    | Some (i, c) => (Got i c, set_entries p es, w)
    | None =>
        if Z.of_nat (length es) <? maxSize p then
          let '(c, w) := connect w in
          let good := bool_decide (c <> None) in
          let p' := set_entries p (es ++ [mk_Entry c good good 0 now]) in
          if good then (Got (length es) c, p', w) else (MustWait, p', w)
        else (MustWait, set_entries p es, w)
    end.

(** [release]: the guard's index and its [healthy_] flag. *)
Definition release (p : pool) (index : nat) (good : bool) (now : Z) (w : world) : pool * world :=
  match entries p !! index with
  | None => (p, w)
  | Some e =>
      let e := mk_Entry (conn e) false (healthy e) (failures e) now in
      let '(bad, w) :=
        if negb good then (true, w)
        else if checks_errno k then let '(fine, w) := call_on (conn e) w in (negb fine, w)
        else (false, w) in
      if bad
      then (set_entries p (<[index := mk_Entry (conn e) false false (failures e + 1) now]> (entries p)),
            count_error w)
      else (set_entries p (<[index := e]> (entries p)), w)
  end.

Definition availableCount (p : pool) : Z :=
  Z.of_nat (length (filter (fun e => negb (inUse e) && healthy e && bool_decide (conn e <> None) = true)
                      (entries p))).

(** A loop over all entries that threads the world. *)
Fixpoint for_entries (f : Entry -> world -> Entry * world) (es : list Entry) (w : world)
    : list Entry * world :=
  match es with
  | [] => ([], w)
  | e :: rest =>
      let '(e, w) := f e w in
      let '(rest, w) := for_entries f rest w in
      (e :: rest, w)
  end.

(** The part of [healthLoop] that closes connections idle for too long. *)
Fixpoint close_idle (now ttl minSize openConnections : Z) (es : list Entry) (w : world)
    : list Entry * world :=
  match es with
  | [] => ([], w)
  | e :: rest =>
      if openConnections <=? minSize then (e :: rest, w)      (* break *)
      else if negb (inUse e) && bool_decide (conn e <> None) && (ttl <? now - lastUsed e) then
        let '(e, w) := closeEntry e w in
        let '(rest, w) := close_idle now ttl minSize (openConnections - 1) rest w in
        (e :: rest, w)
      else
        let '(rest, w) := close_idle now ttl minSize openConnections rest w in
        (e :: rest, w)
  end.

Definition open_count (es : list Entry) : Z :=
  Z.of_nat (length (filter (fun e => conn e <> None) es)).

(** One turn of [healthLoop] after its sleep, with the pool's own check of one
    entry. *)
Definition health_turn (check : Z -> Entry -> world -> Entry * world) (p : pool) (now : Z)
    (w : world) : pool * world :=
  if negb (running p) then (p, w)
  else
    let '(es, w) := for_entries (check now) (entries p) w in
    let '(es, w) := close_idle now (idleTtl p) (minSize p) (open_count es) es w in
    (set_entries p es, w).

(** [stop]: the flag, then, the health thread joined, the connections. *)
Definition stop_flag (p : pool) : pool :=
  mk_pool (entries p) (minSize p) (maxSize p) (idleTtl p) false.

Definition stop_close (p : pool) (w : world) : pool * world :=
  let '(_, w) := for_entries closeEntry (entries p) w in (set_entries p [], w).
End Operations.

(** ** The two health checks of an entry *)

Definition set_lastUsed (now : Z) (e : Entry) : Entry :=
  mk_Entry (conn e) (inUse e) (healthy e) (failures e) now.

Definition mysql_check (now : Z) (e : Entry) (w : world) : Entry * world :=
  if inUse e then (e, w)
  else if negb (healthy e) || negb (bool_decide (conn e <> None)) then
    let '(e, w) := reconnect mysql_kind e w in (set_lastUsed now e, w)
  else
    let '(alive, w) := call_on (conn e) w in
    if alive then (e, w)
    else let '(e, w) := closeEntry e w in (e, count_error w).

Definition redis_check (now : Z) (e : Entry) (w : world) : Entry * world :=
  if inUse e then (e, w)
  else if negb (bool_decide (conn e <> None)) then
    let '(e, w) := reconnect redis_kind e w in (set_lastUsed now e, w)
  else
    let '(alive, w) := call_on (conn e) w in
    if alive then (mk_Entry (conn e) (inUse e) true (failures e) (lastUsed e), w)
    else let '(e, w) := closeEntry e w in (e, count_error w).

(** ** Lemmas *)

(** The handles the entries hold. *)
Definition oc (e : Entry) : list Z := option_list (conn e).
Definition handles (es : list Entry) : list Z := es ≫= oc.

Lemma handles_cons e es : handles (e :: es) = oc e ++ handles es.
Proof. done. Qed.

Lemma handles_app es es' : handles (es ++ es') = handles es ++ handles es'.
Proof. unfold handles. by rewrite bind_app. Qed.

(** The handles [hs] are distinct and open; for a pool of owning pointers
    nothing else is open; nothing was misused. *)
Record ledger_ok (k : kind) (hs : list Z) (w : world) : Prop := {
  ledger_misuse : misuse w = false;
  ledger_nodup : NoDup hs;
  ledger_live h : h ∈ hs -> h ∈ live w;
  ledger_fresh h : h ∈ live w -> h < fresh w;
  ledger_owned h : owning k = true -> h ∈ live w -> h ∈ hs
}.

#[export] Instance ledger_ok_perm k : Proper ((≡ₚ) ==> (=) ==> iff) (ledger_ok k).
Proof.
  intros hs hs' Hp w ? <-. split; intros [? ? ? ? ?]; split; try done.
  - by rewrite <- Hp.
  - intros h. rewrite <- Hp. auto.
  - intros h. rewrite <- Hp. auto.
  - by rewrite Hp.
  - intros h. rewrite Hp. auto.
  - intros h. rewrite Hp. auto.
Qed.

(** The worlds of a ledger that differ only in what the ledger does not see. *)
Lemma ledger_ok_same k hs w w' :
  ledger_ok k hs w -> misuse w' = misuse w -> live w' = live w -> fresh w' = fresh w ->
  ledger_ok k hs w'.
Proof. intros [? ? ? ? ?] E1 E2 E3. split; rewrite ?E1, ?E2, ?E3; done. Qed.

Lemma ask_same w b w' :
  ask w = (b, w') -> misuse w' = misuse w /\ live w' = live w /\ fresh w' = fresh w.
Proof. unfold ask. destruct (answers w); intros [= <- <-]; done. Qed.

Lemma ledger_ok_ask k hs w b w' : ledger_ok k hs w -> ask w = (b, w') -> ledger_ok k hs w'.
Proof. intros H (? & ? & ?)%ask_same. by eapply ledger_ok_same. Qed.

Lemma ledger_ok_count k hs w : ledger_ok k hs w -> ledger_ok k hs (count_error w).
Proof. intros H. by eapply ledger_ok_same. Qed.

(** Closing a held handle takes it out of the ledger. *)
Lemma ledger_ok_close k h hs w : ledger_ok k (h :: hs) w -> ledger_ok k hs (close h w).
Proof.
  intros [Hm Hn Hl Hf Ho]. apply NoDup_cons in Hn as [Hh Hn]. split; cbn; try done.
  - rewrite Hm, bool_decide_true; [done|]. apply Hl. by left.
  - intros x Hx. apply list_elem_of_filter. split; [by intros ->|]. apply Hl. by right.
  - intros x [_ Hx]%list_elem_of_filter. by apply Hf.
  - intros x Hk [Hne Hx]%list_elem_of_filter. specialize (Ho x Hk Hx). set_solver.
Qed.

(** Forgetting a held handle: harmless only for raw pointers. *)
Lemma ledger_ok_forget k h hs w :
  owning k = false -> ledger_ok k (h :: hs) w -> ledger_ok k hs w.
Proof.
  intros Hk [Hm Hn Hl Hf Ho]. apply NoDup_cons in Hn as [Hh Hn]. split; try done.
  - intros x Hx. apply Hl. by right.
  - intros x Hk'. congruence.
Qed.

(** A connect opens a new handle or none. *)
Lemma ledger_ok_connect k hs w c w' :
  ledger_ok k hs w -> connect k w = (c, w') -> ledger_ok k (option_list c ++ hs) w'.
Proof.
  intros H0 Hc. unfold connect in Hc.
  destruct (if owning k then _ else _) as [init w1] eqn:E0.
  assert (H1 : ledger_ok k hs w1)
    by (destruct (owning k); [by injection E0 as _ <-|by eapply ledger_ok_ask]).
  destruct init; cbn in Hc; [|by simplify_eq].
  destruct (ask w1) as [b w2] eqn:E1. pose proof (ledger_ok_ask _ _ _ _ _ H1 E1) as H2.
  destruct b; simplify_eq; [|by apply ledger_ok_count].
  destruct H2 as [Hm Hn Hl Hf Ho]. split; cbn; try done.
  - apply NoDup_cons. split; [|done]. intros Hin%Hl%Hf. lia.
  - intros x [->|Hx]%elem_of_cons; [by left|]. right. auto.
  - intros x [->|Hx]%elem_of_cons; [lia|]. specialize (Hf x Hx). lia.
  - intros x Hk [->|Hx]%elem_of_cons; [by left|]. right. auto.
Qed.

(** *** What an operation may do to one entry *)

Definition entry_ok (e : Entry) : Prop := healthy e = true -> conn e <> None.

Definition entry_step (k : kind) (f : Entry -> world -> Entry * world) : Prop :=
  forall e w e' w' rest,
    ledger_ok k (oc e ++ rest) w -> entry_ok e -> f e w = (e', w') ->
    ledger_ok k (oc e' ++ rest) w' /\ entry_ok e' /\ (inUse e = true -> e' = e) /\
    (inUse e = false -> inUse e' = false).

#[local] Arguments closeEntry : simpl never.
#[local] Arguments connect : simpl never.

Section EntryLemmas.
Variable k : kind.

Lemma ledger_closeEntry e w e' w' rest :
  ledger_ok k (oc e ++ rest) w -> closeEntry e w = (e', w') ->
  ledger_ok k rest w' /\ e' = mk_Entry None false false (failures e) (lastUsed e).
Proof.
  unfold closeEntry, oc. intros H [= <- <-]. split; [|done].
  destruct (conn e); cbn in *; [by apply ledger_ok_close|done].
Qed.

Lemma ledger_reconnect e w e' w' rest :
  ledger_ok k (oc e ++ rest) w -> reconnect k e w = (e', w') ->
  ledger_ok k (oc e' ++ rest) w' /\ entry_ok e' /\ inUse e' = inUse e /\
  (healthy e' = true <-> conn e' <> None).
Proof.
  unfold reconnect, assign. destruct (connect k w) as [c w1] eqn:E. intros H [= <- <-].
  pose proof (ledger_ok_connect _ _ _ _ _ H E) as H1. unfold oc in *. cbn.
  split; [|split; [intros Hh; by apply bool_decide_eq_true in Hh|]].
  - destruct (conn e) as [old|]; cbn in *; [|done].
    assert (H2 : ledger_ok k (old :: option_list c ++ rest) w1)
      by (by rewrite Permutation_middle).
    destruct (owning k) eqn:Ek; [by apply ledger_ok_close|by eapply ledger_ok_forget].
  - split; [done|]. apply bool_decide_eq_true.
Qed.

Lemma ledger_call_on e w b w' hs :
  conn e <> None -> ledger_ok k hs w -> call_on (conn e) w = (b, w') -> ledger_ok k hs w'.
Proof. unfold call_on. destruct (conn e); [|done]. intros _. apply ledger_ok_ask. Qed.

Lemma ledger_ensureHealthy e w good e' w' rest :
  ledger_ok k (oc e ++ rest) w -> inUse e = false -> ensureHealthy k e w = (good, e', w') ->
  ledger_ok k (oc e' ++ rest) w' /\ entry_ok e' /\ inUse e' = false /\
  (good = true -> conn e' <> None).
Proof.
  intros H Hu. unfold ensureHealthy. destruct (conn e) as [h|] eqn:Ec.
  - destruct (call_on _ w) as [alive w1] eqn:E1.
    assert (H1 : ledger_ok k (oc e ++ rest) w1) by (cbn in E1; by eapply ledger_ok_ask).
    destruct alive.
    + intros [= <- <- <-]. unfold oc in *. rewrite Ec in H1. by cbn.
    + destruct (closeEntry e _) as [e2 w2] eqn:E2.
      apply (ledger_closeEntry _ _ _ _ rest) in E2 as [H2 ->]; [|by apply ledger_ok_count].
      destruct (reconnect k _ w2) as [e3 w3] eqn:E3. intros [= <- <- <-].
      apply (ledger_reconnect _ _ _ _ rest) in E3 as (? & ? & Hu3 & Hh); [|done].
      cbn in Hu3. split_and!; try done.
  - destruct (reconnect k e w) as [e3 w3] eqn:E3. intros [= <- <- <-].
    apply (ledger_reconnect _ _ _ _ rest) in E3 as (? & ? & Hu3 & Hh); [|done].
    split_and!; try done. by rewrite Hu3.
Qed.

(** *** What an operation may do to the entries *)

Lemma ledger_swap hs1 hs2 hs3 w :
  ledger_ok k (hs1 ++ hs2 ++ hs3) w <-> ledger_ok k (hs2 ++ hs1 ++ hs3) w.
Proof. by rewrite Permutation_app_swap_app. Qed.

(** Entries in use are untouched, the others stay free. *)
Definition kept (e e' : Entry) : Prop :=
  (inUse e = true -> e' = e) /\ (inUse e = false -> inUse e' = false).

Lemma for_entries_spec f es w es' w' rest :
  entry_step k f -> ledger_ok k (handles es ++ rest) w -> Forall entry_ok es ->
  for_entries f es w = (es', w') ->
  ledger_ok k (handles es' ++ rest) w' /\ Forall entry_ok es' /\ Forall2 kept es es'.
Proof.
  intros Hf. revert w es' w' rest. induction es as [|e es IH]; intros w es' w' rest H Hok Hr; cbn in Hr.
  { simplify_eq. auto. }
  apply Forall_cons in Hok as [He Hok].
  destruct (f e w) as [e1 w1] eqn:E1. destruct (for_entries f es w1) as [es1 w2] eqn:E2.
  simplify_eq. rewrite handles_cons, <- app_assoc in H.
  destruct (Hf _ _ _ _ _ H He E1) as (H1 & He1 & Hu1 & Hu2).
  rewrite ledger_swap in H1. destruct (IH _ _ _ _ H1 Hok E2) as (H2 & Hok2 & Hk).
  rewrite handles_cons, <- app_assoc, ledger_swap.
  split_and!; [done|by constructor|by constructor; [split|]].
Qed.

Lemma close_idle_spec now ttl mn n es w es' w' rest :
  ledger_ok k (handles es ++ rest) w -> Forall entry_ok es ->
  close_idle now ttl mn n es w = (es', w') ->
  ledger_ok k (handles es' ++ rest) w' /\ Forall entry_ok es' /\ Forall2 kept es es'.
Proof.
  revert n w es' w' rest. induction es as [|e es IH]; intros n w es' w' rest H Hok Hr; cbn in Hr.
  { simplify_eq. auto. }
  destruct (n <=? mn).
  { simplify_eq. split_and!; try done. apply Forall_Forall2_diag, Forall_forall. by split. }
  apply Forall_cons in Hok as [He Hok]. rewrite handles_cons, <- app_assoc in H.
  destruct (negb (inUse e) && _ && _) eqn:Ec.
  - destruct (closeEntry e w) as [e1 w1] eqn:E1.
    destruct (ledger_closeEntry _ _ _ _ _ H E1) as [H1 ->].
    destruct (close_idle now ttl mn (n - 1) es w1) as [es1 w2] eqn:E2. simplify_eq.
    destruct (IH _ _ _ _ _ H1 Hok E2) as (H2 & Hok2 & Hk). cbn.
    split_and!; [done|by constructor|constructor; [|done]].
    to_props. split; [congruence|done].
  - destruct (close_idle now ttl mn n es w) as [es1 w2] eqn:E2. simplify_eq.
    rewrite ledger_swap in H. destruct (IH _ _ _ _ _ H Hok E2) as (H2 & Hok2 & Hk).
    rewrite handles_cons, <- app_assoc, ledger_swap. split_and!; try done.
    + by constructor.
    + constructor; [by split|done].
Qed.
End EntryLemmas.

(** ** The threads that use a pool *)
Section Clients.
Variable k : kind.
Variable check : Z -> Entry -> world -> Entry * world.

(** A client does not have a connection, waits on the condition variable, or
    holds a guard: the index, the connection, and the [healthy_] flag. *)
Inductive client := CIdle | CWaiting | CHolding (i : nat) (c : Z) (good : bool).

Record config := mk_config { pl : pool; wd : world; clients : list client }.

Definition after_turn (o : outcome) : client :=
  match o with
  | Got i (Some c) => CHolding i c true
  | Got _ None => CIdle          (* a guard that tests false *)
  | MustWait => CWaiting
  | NotRunning => CIdle
  end.

(** The steps; the clock may show any time.  [stop] is two critical sections;
    the second one, which closes the connections, comes when no thread holds a
    guard any more.  [stop] does not test this: it is an assumption on its caller,
    which [main] meets, since it joins the dispatcher's workers and destroys the
    host manager before the pools ([Lifetimes]). *)
Inductive step : config -> config -> Prop :=
| c_acquire p w cs j c now o p' w' :
    cs !! j = Some c -> c = CIdle \/ c = CWaiting ->
    acquire_turn k p now w = (o, p', w') ->
    step (mk_config p w cs) (mk_config p' w' (<[j := after_turn o]> cs))
| c_timeout p w cs j :
    cs !! j = Some CWaiting ->
    step (mk_config p w cs) (mk_config p (count_timeout w) (<[j := CIdle]> cs))
| c_mark p w cs j i c g :
    cs !! j = Some (CHolding i c g) ->
    step (mk_config p w cs) (mk_config p w (<[j := CHolding i c false]> cs))
| c_release p w cs j i c g now p' w' :
    cs !! j = Some (CHolding i c g) -> release k p i g now w = (p', w') ->
    step (mk_config p w cs) (mk_config p' w' (<[j := CIdle]> cs))
| c_health p w cs now p' w' :
    health_turn check p now w = (p', w') ->
    step (mk_config p w cs) (mk_config p' w' cs)
| c_stop p w cs : step (mk_config p w cs) (mk_config (stop_flag p) w cs)
| c_close p w cs p' w' :
    running p = false -> (forall j i c g, cs !! j <> Some (CHolding i c g)) ->
    stop_close p w = (p', w') ->
    step (mk_config p w cs) (mk_config p' w' cs).

(** *** The invariant *)

Definition holds_ok (p : pool) (cs : list client) : Prop :=
  (forall j i c g, cs !! j = Some (CHolding i c g) ->
     exists e, entries p !! i = Some e /\ inUse e = true /\ conn e = Some c) /\
  (forall j j' i c c' g g', cs !! j = Some (CHolding i c g) ->
     cs !! j' = Some (CHolding i c' g') -> j = j').

Definition inv (x : config) : Prop :=
  ledger_ok k (handles (entries (pl x))) (wd x) /\ Forall entry_ok (entries (pl x)) /\
  Z.of_nat (length (entries (pl x))) <= maxSize (pl x) /\ holds_ok (pl x) (clients x).

(** *** Lemmas *)

Lemma try_entries_spec es w es' r w' rest :
  ledger_ok k (handles es ++ rest) w -> Forall entry_ok es ->
  try_entries k es w = (es', r, w') ->
  ledger_ok k (handles es' ++ rest) w' /\ Forall entry_ok es' /\ length es' = length es /\
  (forall j e, es !! j = Some e -> inUse e = true -> es' !! j = Some e) /\
  (forall i c, r = Some (i, c) -> exists e e' h, es !! i = Some e /\ inUse e = false /\
     es' !! i = Some e' /\ inUse e' = true /\ conn e' = Some h /\ c = Some h).
Proof.
  revert w es' r w' rest. induction es as [|e es IH]; intros w es' r w' rest H Hok Ht; cbn in Ht.
  { simplify_eq. split_and!; done. }
  apply Forall_cons in Hok as [He Hok]. rewrite handles_cons, <- app_assoc in H.
  (* skipping an entry [e1] that replaces [e] *)
  assert (Hskip : forall e1 w1 es2 r2 w2, ledger_ok k (oc e1 ++ handles es ++ rest) w1 ->
      entry_ok e1 -> (inUse e = true -> e1 = e) -> try_entries k es w1 = (es2, r2, w2) ->
      es' = e1 :: es2 -> r = (fun '(i, c) => (S i, c)) <$> r2 -> w' = w2 ->
      ledger_ok k (handles es' ++ rest) w' /\ Forall entry_ok es' /\ length es' = S (length es) /\
      (forall j e0, (e :: es) !! j = Some e0 -> inUse e0 = true -> es' !! j = Some e0) /\
      (forall i c, r = Some (i, c) -> exists e0 e' h, (e :: es) !! i = Some e0 /\ inUse e0 = false /\
         es' !! i = Some e' /\ inUse e' = true /\ conn e' = Some h /\ c = Some h)).
  { intros e1 w1 es2 r2 w2 H1 He1 Hu1 E -> -> ->. rewrite ledger_swap in H1.
    destruct (IH _ _ _ _ _ H1 Hok E) as (H2 & Hok2 & Hl & Hj & Hi).
    rewrite handles_cons, <- app_assoc, ledger_swap. split_and!; cbn; [done|by constructor|by rewrite Hl| |].
    - intros [|j] e0 He0 Hu; cbn in *; [|by apply Hj]. simplify_eq. by rewrite Hu1.
    - intros i c. destruct r2 as [[i2 c2]|]; cbn; [|done]. intros [= <- <-]. by apply Hi. }
  assert (Htake : forall e1 w1 h, ledger_ok k (oc e1 ++ handles es ++ rest) w1 ->
      inUse e = false -> entry_ok e1 -> conn e1 = Some h ->
      es' = take_entry e1 :: es -> r = Some (0%nat, conn e1) -> w' = w1 ->
      ledger_ok k (handles es' ++ rest) w' /\ Forall entry_ok es' /\ length es' = S (length es) /\
      (forall j e0, (e :: es) !! j = Some e0 -> inUse e0 = true -> es' !! j = Some e0) /\
      (forall i c, r = Some (i, c) -> exists e0 e' h, (e :: es) !! i = Some e0 /\ inUse e0 = false /\
         es' !! i = Some e' /\ inUse e' = true /\ conn e' = Some h /\ c = Some h)).
  { intros e1 w1 h H1 Hu He1 Hc -> -> ->. rewrite handles_cons, <- app_assoc.
    split_and!; cbn; [done|by constructor|done| |].
    - intros [|j] e0 He0 Hu0; cbn in *; [congruence|done].
    - intros i c [= <- <-]. exists e, (take_entry e1), h. done. }
  destruct (inUse e) eqn:Hu.
  { destruct (try_entries k es w) as [[es2 r2] w2] eqn:E. simplify_eq. by eapply Hskip. }
  destruct (healthy e) eqn:Hh.
  { assert (exists h, conn e = Some h) as [h Ec].
    { specialize (He Hh). destruct (conn e); [eauto|done]. }
    injection Ht as <- <- <-. by apply (Htake e w h). }
  destruct (ensureHealthy k e w) as [[good e1] w1] eqn:E1.
  destruct (ledger_ensureHealthy _ _ _ _ _ _ _ H Hu E1) as (H1 & He1 & Hu1 & Hg).
  destruct good.
  - assert (exists h, conn e1 = Some h) as [h Ec].
    { specialize (Hg eq_refl). destruct (conn e1); [eauto|done]. }
    injection Ht as <- <- <-. by apply (Htake e1 w1 h).
  - destruct (try_entries k es w1) as [[es2 r2] w2] eqn:E2. simplify_eq. by eapply Hskip.
Qed.

(** Entries in use stay where they are. *)
Definition in_use_kept (es es' : list Entry) : Prop :=
  forall i e, es !! i = Some e -> inUse e = true -> es' !! i = Some e.

Lemma kept_in_use es es' : Forall2 kept es es' -> in_use_kept es es'.
Proof.
  intros H i e He Hu. destruct (Forall2_lookup_l _ _ _ _ _ H He) as (e' & He' & [Hk _]).
  by rewrite He', Hk.
Qed.

Lemma acquire_turn_spec p now w o p' w' :
  ledger_ok k (handles (entries p)) w -> Forall entry_ok (entries p) ->
  Z.of_nat (length (entries p)) <= maxSize p -> acquire_turn k p now w = (o, p', w') ->
  ledger_ok k (handles (entries p')) w' /\ Forall entry_ok (entries p') /\
  Z.of_nat (length (entries p')) <= maxSize p' /\ in_use_kept (entries p) (entries p') /\
  (forall i c, o = Got i c ->
     (forall e, entries p !! i = Some e -> inUse e = false) /\
     exists e' h, entries p' !! i = Some e' /\ inUse e' = true /\ conn e' = Some h /\ c = Some h).
Proof.
  intros H Hok Hmax. unfold acquire_turn. destruct (running p); cbn;
    [|intros [= <- <- <-]; split_and!; by try intros ? ?].
  destruct (try_entries k (entries p) w) as [[es r] w1] eqn:Et.
  rewrite <- (app_nil_r (handles _)) in H.
  destruct (try_entries_spec _ _ _ _ _ _ H Hok Et) as (H1 & Hok1 & Hl & Hk & Hi).
  rewrite app_nil_r in H1. destruct r as [[i c]|].
  { intros [= <- <- <-]. cbn. split_and!; try done; [by rewrite Hl|].
    intros i' c' [= <- <-]. destruct (Hi i c eq_refl) as (e & e' & h & He & Hu & He' & Hu' & Hc & ->).
    split; [intros e0; congruence|]. eauto 6. }
  destruct (Z.of_nat (length es) <? maxSize p) eqn:Em; cycle 1.
  { intros [= <- <- <-]. cbn. split_and!; try done. by rewrite Hl. }
  to_props. destruct (connect k w1) as [c w2] eqn:Ec.
  pose proof (ledger_ok_connect _ _ _ _ _ H1 Ec) as H2.
  set (e := mk_Entry c (bool_decide (c <> None)) (bool_decide (c <> None)) 0 now).
  assert (Hnew : ledger_ok k (handles (es ++ [e])) w2).
  { rewrite handles_app. change (handles [e]) with (option_list c ++ []). rewrite app_nil_r.
    by rewrite Permutation_app_comm. }
  assert (Hoknew : Forall entry_ok (es ++ [e])).
  { apply Forall_app. split; [done|]. constructor; [|done]. intros Hh. by apply bool_decide_eq_true in Hh. }
  assert (Hknew : in_use_kept (entries p) (es ++ [e])).
  { intros i e0 He0 Hu. apply lookup_app_l_Some. by apply Hk. }
  assert (Hlnew : Z.of_nat (length (es ++ [e])) <= maxSize p) by (rewrite length_app; cbn; lia).
  destruct (bool_decide (c <> None)) eqn:Eb; intros [= <- <- <-]; cbn; split_and!; try done.
  intros i c' [= <- <-]. apply bool_decide_eq_true in Eb. destruct c as [h|]; [|done]. split.
  - intros e0 He0. apply lookup_lt_Some in He0. lia.
  - exists e, h. rewrite list_lookup_middle by done. done.
Qed.

(** [release] of a held entry: the handles stay, the entry becomes free. *)
Lemma release_spec p i e c good now w p' w' :
  ledger_ok k (handles (entries p)) w -> Forall entry_ok (entries p) ->
  entries p !! i = Some e -> conn e = Some c -> release k p i good now w = (p', w') ->
  ledger_ok k (handles (entries p')) w' /\ Forall entry_ok (entries p') /\
  length (entries p') = length (entries p) /\ maxSize p' = maxSize p /\
  (forall j e, j <> i -> entries p !! j = Some e -> entries p' !! j = Some e).
Proof.
  intros H Hok He Hc. unfold release. rewrite He.
  pose proof (Forall_lookup_1 _ _ _ _ Hok He) as Hoke.
  destruct (if negb good then _ else _) as [bad w1] eqn:E1. intros Hr.
  assert (H1 : ledger_ok k (handles (entries p)) w1).
  { destruct good; cbn in E1; [|by simplify_eq].
    destruct (checks_errno k); [|by simplify_eq].
    destruct (call_on (conn e) w) as [fine w2] eqn:E2. simplify_eq.
    eapply ledger_call_on; [by rewrite Hc|done|done]. }
  assert (Hh : forall e', conn e' = conn e -> handles (<[i := e']> (entries p)) = handles (entries p)).
  { intros e' Hc'. clear -He Hc'. revert i He. induction (entries p) as [|x l IH]; intros [|i] He; cbn in *; simplify_eq.
    - unfold handles; cbn. unfold oc. by rewrite Hc'.
    - change (oc x ++ handles (<[i := e']> l) = oc x ++ handles l). by rewrite IH. }
  destruct bad; simplify_eq; cbn; rewrite Hh, length_insert by done;
    (split_and!; [|apply Forall_insert; [done|]|done|done|by intros; rewrite list_lookup_insert_ne]).
  - by apply ledger_ok_count.
  - done.
  - done.
  - done.
Qed.

Hypothesis check_ok : forall now, entry_step k (check now).

Lemma health_turn_spec p now w p' w' :
  ledger_ok k (handles (entries p)) w -> Forall entry_ok (entries p) ->
  health_turn check p now w = (p', w') ->
  ledger_ok k (handles (entries p')) w' /\ Forall entry_ok (entries p') /\
  length (entries p') = length (entries p) /\ maxSize p' = maxSize p /\
  in_use_kept (entries p) (entries p').
Proof.
  intros H Hok. unfold health_turn. destruct (running p); cbn; [|intros [= <- <-]; split_and!; by try intros ? ?].
  destruct (for_entries (check now) (entries p) w) as [es1 w1] eqn:E1.
  destruct (close_idle _ _ _ _ es1 w1) as [es2 w2] eqn:E2. intros [= <- <-]. cbn.
  rewrite <- (app_nil_r (handles _)) in H.
  destruct (for_entries_spec k _ _ _ _ _ _ (check_ok now) H Hok E1) as (H1 & Hok1 & Hk1).
  destruct (close_idle_spec k _ _ _ _ _ _ _ _ _ H1 Hok1 E2) as (H2 & Hok2 & Hk2).
  rewrite app_nil_r in H2. split_and!; try done.
  - rewrite <- (Forall2_length _ _ _ Hk2). by rewrite <- (Forall2_length _ _ _ Hk1).
  - intros i e He Hu. apply (kept_in_use _ _ Hk2); [|done]. by apply (kept_in_use _ _ Hk1).
Qed.

(** Closing every entry: nothing is held any more, and the entries are gone. *)
Lemma close_all_ledger es w es' w' :
  ledger_ok k (handles es) w -> for_entries closeEntry es w = (es', w') -> ledger_ok k [] w'.
Proof.
  revert w es' w'. induction es as [|e es IH]; intros w es' w' H Hr; cbn in Hr; [by simplify_eq|].
  destruct (closeEntry e w) as [e1 w1] eqn:E1.
  destruct (for_entries closeEntry es w1) as [es1 w2] eqn:E2. simplify_eq.
  eapply IH; [|done]. by eapply ledger_closeEntry.
Qed.

Lemma stop_close_spec p w p' w' :
  ledger_ok k (handles (entries p)) w -> stop_close p w = (p', w') ->
  ledger_ok k [] w' /\ p' = set_entries p [].
Proof.
  intros H. unfold stop_close. destruct (for_entries _ _ _) as [es' w1] eqn:E.
  intros [= <- <-]. split; [by eapply close_all_ledger|done].
Qed.

(** Guards survive when the entries in use are kept. *)
Lemma holds_ok_kept p p' cs :
  holds_ok p cs -> in_use_kept (entries p) (entries p') -> holds_ok p' cs.
Proof.
  intros [Hh Hx] Hk. split; [|done]. intros j i c g Hj.
  destruct (Hh _ _ _ _ Hj) as (e & He & Hu & Hc). eauto.
Qed.

(** A client that gives up its guard or had none. *)
Lemma holds_ok_drop p cs j c' :
  holds_ok p cs -> (forall i c g, c' <> CHolding i c g) -> holds_ok p (<[j := c']> cs).
Proof.
  intros [Hh Hx] Hc. split.
  - intros j' i c g [(_ & E & _)|[_ Hj]]%list_lookup_insert_Some; [by apply Hc in E|eauto].
  - intros j1 j2 i c1 c2 g1 g2 [(_ & E & _)|[_ H1]]%list_lookup_insert_Some; [by apply Hc in E|].
    intros [(_ & E & _)|[_ H2]]%list_lookup_insert_Some; [by apply Hc in E|eauto].
Qed.

Lemma holds_ok_new p cs j i c g e :
  holds_ok p cs -> entries p !! i = Some e -> inUse e = true -> conn e = Some c ->
  (forall j' c' g', cs !! j' = Some (CHolding i c' g') -> j' = j) ->
  holds_ok p (<[j := CHolding i c g]> cs).
Proof.
  intros [Hh Hx] He Hu Hc Hfree. split.
  - intros j' i' c' g' [(_ & [= -> -> ->] & _)|[_ Hj]]%list_lookup_insert_Some; eauto.
  - intros j1 j2 i' c1 c2 g1 g2 H1 H2.
    apply list_lookup_insert_Some in H1 as [(<- & E1 & _)|[N1 H1]];
      apply list_lookup_insert_Some in H2 as [(<- & E2 & _)|[N2 H2]]; simplify_eq; eauto.
    symmetry; eauto.
Qed.

Lemma pool_inv_step x x' : inv x -> step x x' -> inv x'.
Proof.
  intros (H & Hok & Hmax & Hh) Hst. destruct Hst as [p w cs j c now o p' w' Hj Hc Ha | p w cs j Hj
    | p w cs j i c g Hj | p w cs j i c g now p' w' Hj Hr | p w cs now p' w' Hr | p w cs
    | p w cs p' w' Hrun Hno Hr]; cbn in *.
  - destruct (acquire_turn_spec _ _ _ _ _ _ H Hok Hmax Ha) as (H1 & Hok1 & Hmax1 & Hk & Hg).
    split_and!; try done; cbn. apply (holds_ok_kept p p') in Hh as Hh'; [|done].
    destruct o as [i [h|]| |]; cbn; try by apply holds_ok_drop.
    destruct (Hg i (Some h) eq_refl) as (Hfree & e' & h' & He' & Hu' & Hc' & [= <-]).
    eapply holds_ok_new; eauto. intros j' c' g' Hj'.
    destruct (proj1 Hh _ _ _ _ Hj') as (e & He & Hu & _). rewrite (Hfree _ He) in Hu. done.
  - split_and!; try done; [by eapply ledger_ok_same|]. by apply holds_ok_drop.
  - split_and!; try done. destruct (proj1 Hh _ _ _ _ Hj) as (e & He & Hu & Hc).
    cbn. eapply holds_ok_new; eauto. intros j' c' g' Hj'. by eapply (proj2 Hh).
  - destruct (proj1 Hh _ _ _ _ Hj) as (e & He & Hu & Hc).
    destruct (release_spec _ _ _ _ _ _ _ _ _ H Hok He Hc Hr) as (H1 & Hok1 & Hl & Hm & Hk).
    split_and!; try done; cbn; [by rewrite Hl, Hm|]. split.
    + intros j' i' c' g' [(_ & ? & _)|[Hne Hj']]%list_lookup_insert_Some; [done|].
      destruct (proj1 Hh _ _ _ _ Hj') as (e' & He' & Hu' & Hc'). exists e'.
      split; [|done]. apply Hk; [|done]. intros ->. apply Hne. by eapply (proj2 Hh).
    + intros j1 j2 i' c1 c2 g1 g2 [(_ & ? & _)|[_ H1']]%list_lookup_insert_Some; [done|].
      intros [(_ & ? & _)|[_ H2']]%list_lookup_insert_Some; [done|]. by eapply (proj2 Hh).
  - destruct (health_turn_spec _ _ _ _ _ H Hok Hr) as (H1 & Hok1 & Hl & Hm & Hk).
    split_and!; try done; cbn; [by rewrite Hl, Hm|]. by eapply holds_ok_kept.
  - by split_and!.
  - apply stop_close_spec in Hr as [H1 ->]; [|done]. split_and!; try done; cbn; [lia|].
    split; intros; exfalso; by eapply Hno.
Qed.
End Clients.

Lemma mysql_check_ok now : entry_step mysql_kind (mysql_check now).
Proof.
  intros e w e' w' rest H He. unfold mysql_check. destruct (inUse e) eqn:Hu.
  { by intros [= <- <-]. }
  destruct (negb (healthy e) || _) eqn:Ec.
  - destruct (reconnect mysql_kind e w) as [e1 w1] eqn:E1. intros [= <- <-].
    apply (ledger_reconnect _ _ _ _ _ rest) in E1 as (H1 & He1 & Hu1 & _); [|done].
    split_and!; try done; intros; cbn in *; congruence.
  - destruct (call_on (conn e) w) as [alive w1] eqn:E1. to_props.
    assert (HL : ledger_ok mysql_kind (oc e ++ rest) w1).
    { eapply ledger_call_on; [|done|done]. match goal with E : bool_decide _ = true |- _ => by apply bool_decide_eq_true in E end. }
    destruct alive; [by intros [= <- <-]|].
    destruct (closeEntry e w1) as [e2 w2] eqn:E2. intros [= <- <-].
    destruct (ledger_closeEntry _ _ _ _ _ _ HL E2) as [H2 ->].
    split_and!; try done. by apply ledger_ok_count.
Qed.

Lemma redis_check_ok now : entry_step redis_kind (redis_check now).
Proof.
  intros e w e' w' rest H He. unfold redis_check. destruct (inUse e) eqn:Hu.
  { by intros [= <- <-]. }
  destruct (negb (bool_decide _)) eqn:Ec.
  - destruct (reconnect redis_kind e w) as [e1 w1] eqn:E1. intros [= <- <-].
    apply (ledger_reconnect _ _ _ _ _ rest) in E1 as (H1 & He1 & Hu1 & _); [|done].
    split_and!; try done; intros; cbn in *; congruence.
  - destruct (call_on (conn e) w) as [alive w1] eqn:E1. to_props. apply bool_decide_eq_true in Ec.
    assert (HL : ledger_ok redis_kind (oc e ++ rest) w1) by (by eapply ledger_call_on).
    destruct alive; [intros [= <- <-]; split_and!; try done; by intros _|].
    destruct (closeEntry e w1) as [e2 w2] eqn:E2. intros [= <- <-].
    destruct (ledger_closeEntry _ _ _ _ _ _ HL E2) as [H2 ->].
    split_and!; try done. by apply ledger_ok_count.
Qed.

(** ** Properties *)

(** A world with nothing open. *)
Definition new_world (ans : list bool) : world := mk_world ans 0 [] false 0 0 0.

(** A pool that was just started, and [n] threads that will use it. *)
Definition started (k : kind) (min max ttl now : Z) (ans : list bool) (n : nat) : config :=
  let '(p, w) := start k (make_pool min max ttl) now (new_world ans) in
  mk_config p w (replicate n CIdle).

Lemma make_entries_spec k n now w es w' rest :
  ledger_ok k rest w -> make_entries k n now w = (es, w') ->
  ledger_ok k (handles es ++ rest) w' /\ Forall entry_ok es /\ length es = n.
Proof.
  revert w es w' rest; induction n as [|n IH]; intros w es w' rest H Hm; cbn in Hm.
  { by simplify_eq. }
  destruct (connect k w) as [c w1] eqn:Ec. destruct (make_entries k n now w1) as [es1 w2] eqn:Em.
  simplify_eq. pose proof (ledger_ok_connect _ _ _ _ _ H Ec) as H1.
  destruct (IH _ _ _ _ H1 Em) as (H2 & Hok & Hl).
  split_and!; [|constructor; [|done]|by cbn; rewrite Hl].
  - rewrite handles_cons, <- app_assoc. unfold oc; cbn. by rewrite ledger_swap.
  - intros Hh. by apply bool_decide_eq_true in Hh.
Qed.

Lemma pool_started_inv k min max ttl now ans n :
  inv k (started k min max ttl now ans n) /\
  maxSize (pl (started k min max ttl now ans n)) = Z.max (Z.max 0 min) max.
Proof.
  unfold started, start, make_pool; cbn.
  destruct (make_entries k _ now _) as [es w] eqn:Em. cbn.
  assert (H0 : ledger_ok k [] (new_world ans)) by (split; cbn; (done || apply NoDup_nil_2 || set_solver)).
  destruct (make_entries_spec _ _ _ _ _ _ _ H0 Em) as (H & Hok & Hl). rewrite app_nil_r in H.
  split; [|done]. split_and!; cbn; try done; [lia|]. split.
  - intros j i c g [? _]%lookup_replicate. done.
  - intros j j' i c c' g g' [? _]%lookup_replicate. done.
Qed.

Lemma step_maxSize k check x x' : step k check x x' -> maxSize (pl x') = maxSize (pl x).
Proof.
  destruct 1 as [p w cs j c now o p' w' Hj Hc Ha | | | p w cs j i c g now p' w' Hj Hr
    | p w cs now p' w' Hr | | p w cs p' w' Hrun Hno Hr]; cbn; try done.
  - unfold acquire_turn in Ha. destruct (running p); cbn in Ha; [|by simplify_eq].
    destruct (try_entries _ _ _) as [[es r] w1]. destruct r as [[i c']|]; [by simplify_eq|].
    destruct (_ <? _); [|by simplify_eq]. destruct (connect k w1) as [c1 w2].
    destruct (bool_decide _); by simplify_eq.
  - unfold release in Hr. destruct (entries p !! i); [|by simplify_eq].
    destruct (if negb g then _ else _) as [[] w1]; by simplify_eq.
  - unfold health_turn in Hr. destruct (running p); cbn in Hr; [|by simplify_eq].
    destruct (for_entries _ _ _). destruct (close_idle _ _ _ _ _ _). by simplify_eq.
  - unfold stop_close in Hr. destruct (for_entries _ _ _). by simplify_eq.
Qed.

(** The two pools of the program. *)
Inductive a_pool : kind -> (Z -> Entry -> world -> Entry * world) -> Prop :=
| mysql_pool : a_pool mysql_kind mysql_check
| redis_pool : a_pool redis_kind redis_check.

Lemma a_pool_check k check : a_pool k check -> forall now, entry_step k (check now).
Proof. destruct 1; [exact mysql_check_ok|exact redis_check_ok]. Qed.

Lemma pool_reachable_inv k check min max ttl now ans n x :
  a_pool k check -> rtc (step k check) (started k min max ttl now ans n) x ->
  inv k x /\ maxSize (pl x) = Z.max (Z.max 0 min) max.
Proof.
  intros Hp. destruct (pool_started_inv k min max ttl now ans n) as [Hi Hm].
  apply (rtc_invariant (step k check) (fun x => inv k x /\ maxSize (pl x) = Z.max (Z.max 0 min) max)).
  - intros a b [Ha Hma] Hs. split; [|by rewrite (step_maxSize _ _ _ _ Hs)].
    by eapply pool_inv_step; [apply (a_pool_check _ _ Hp)|..].
  - by split.
Qed.

Lemma in_handles es i e c : es !! i = Some e -> conn e = Some c -> c ∈ handles es.
Proof.
  intros He Hc. apply list_elem_of_bind. exists e. split; [|by eapply list_elem_of_lookup_2].
  unfold oc. rewrite Hc. set_solver.
Qed.

Lemma handles_unique es i i' e e' c :
  NoDup (handles es) -> es !! i = Some e -> es !! i' = Some e' ->
  conn e = Some c -> conn e' = Some c -> i = i'.
Proof.
  intros Hnd He He' Hc Hc'. revert i i' He He' Hnd.
  induction es as [|y l IH]; intros [|i] [|i'] He He' Hnd; rewrite ?handles_cons in Hnd;
    cbn in He, He'; simplify_eq; try done.
  - exfalso. unfold oc in Hnd. rewrite Hc in Hnd. apply NoDup_cons in Hnd as [Hn _].
    apply Hn. by eapply in_handles.
  - exfalso. unfold oc in Hnd. rewrite Hc' in Hnd. apply NoDup_cons in Hnd as [Hn _].
    apply Hn. by eapply in_handles.
  - f_equal. apply IH; try done. by apply NoDup_app in Hnd as (_ & _ & ?).
Qed.

(** C5. A pool hands a connection to one thread at a time.  In every reachable
    state of either pool, whatever the library calls answer and however
    acquiring, releasing, health checks and stopping interleave: there are at
    most [maxSize] entries, no handle was closed twice or used while null, and
    two threads that hold guards hold different, open connections. *)
Theorem pool_exclusive k check min max ttl now ans n x :
  a_pool k check -> rtc (step k check) (started k min max ttl now ans n) x ->
  Z.of_nat (length (entries (pl x))) <= Z.max (Z.max 0 min) max /\
  misuse (wd x) = false /\
  (forall j i c g, clients x !! j = Some (CHolding i c g) -> c ∈ live (wd x)) /\
  (forall j j' i i' c c' g g', clients x !! j = Some (CHolding i c g) ->
     clients x !! j' = Some (CHolding i' c' g') -> j <> j' -> c <> c').
Proof.
  intros Hp Hr. destruct (pool_reachable_inv _ _ _ _ _ _ _ _ _ Hp Hr) as [(H & Hok & Hmax & Hh & Hx) Hm].
  assert (Hin : forall j i c g, clients x !! j = Some (CHolding i c g) ->
    exists e, entries (pl x) !! i = Some e /\ conn e = Some c).
  { intros j i c g Hj. destruct (Hh _ _ _ _ Hj) as (e & ? & _ & ?). eauto. }
  split_and!; [lia|apply H| |].
  - intros j i c g Hj. apply H. destruct (Hin _ _ _ _ Hj) as (e & He & Hc).
    by eapply in_handles.
  - intros j j' i i' c c' g g' Hj Hj' Hne <-. apply Hne.
    destruct (Hin _ _ _ _ Hj) as (e & He & Hc), (Hin _ _ _ _ Hj') as (e' & He' & Hc').
    assert (i = i') as <-; [|by eapply Hx].
    by eapply (handles_unique (entries (pl x))); [apply H|..].
Qed.

(** C28. The Redis pool leaks no connection: in every reachable state the open
    connections are exactly those its entries hold, each once. *)
Theorem redis_pool_no_leak min max ttl now ans n x :
  rtc (step redis_kind redis_check) (started redis_kind min max ttl now ans n) x ->
  NoDup (handles (entries (pl x))) /\
  forall h, h ∈ live (wd x) <-> h ∈ handles (entries (pl x)).
Proof.
  intros Hr. destruct (pool_reachable_inv _ _ _ _ _ _ _ _ _ redis_pool Hr) as [(H & _) _].
  split; [apply H|]. intros h. split; [by apply (ledger_owned _ _ _ H)|apply (ledger_live _ _ _ H)].
Qed.

(** A thread acquires a connection, marks it unhealthy and releases it; then the
    health check runs.  Every library call answers success. *)
Definition one_client (k : kind) : config := started k 1 1 60 0 (replicate 6 true) 1.

Ltac client c := eapply rtc_l; [eapply c with (j := 0%nat); try reflexivity; by left|cbn].

Lemma unhealthy_run k check :
  a_pool k check ->
  exists x, rtc (step k check) (one_client k) x /\
    clients x = [CIdle] /\ length (entries (pl x)) = 1%nat /\
    (if owning k then live (wd x) = [0] else live (wd x) = [1; 0] /\ handles (entries (pl x)) = [1]).
Proof.
  destruct 1.
  - eexists. split.
    + eapply rtc_l; [eapply c_acquire with (j := 0%nat) (now := 1); [reflexivity|by left|reflexivity]|cbn].
      eapply rtc_l; [eapply c_mark with (j := 0%nat); reflexivity|cbn].
      eapply rtc_l; [eapply c_release with (j := 0%nat) (now := 2); reflexivity|cbn].
      eapply rtc_l; [eapply c_health with (now := 3); reflexivity|cbn]. apply rtc_refl.
    + done.
  - eexists. split.
    + eapply rtc_l; [eapply c_acquire with (j := 0%nat) (now := 1); [reflexivity|by left|reflexivity]|cbn].
      eapply rtc_l; [eapply c_mark with (j := 0%nat); reflexivity|cbn].
      eapply rtc_l; [eapply c_release with (j := 0%nat) (now := 2); reflexivity|cbn].
      eapply rtc_l; [eapply c_health with (now := 3); reflexivity|cbn]. apply rtc_refl.
    + done.
Qed.

Lemma pool_exclusive_witness :
  exists x, rtc (step mysql_kind mysql_check) (one_client mysql_kind) x /\ misuse (wd x) = false.
Proof.
  destruct (unhealthy_run _ _ mysql_pool) as (x & Hx & _).
  exists x. split; [exact Hx|].
  exact (proj1 (proj2 (pool_exclusive _ _ 1 1 60 0 (replicate 6 true) 1 x mysql_pool Hx))).
Defined.

Lemma redis_pool_no_leak_witness :
  exists x, rtc (step redis_kind redis_check) (one_client redis_kind) x /\
    NoDup (handles (entries (pl x))).
Proof.
  destruct (unhealthy_run _ _ redis_pool) as (x & Hx & _).
  exists x. split; [exact Hx|].
  exact (proj1 (redis_pool_no_leak 1 1 60 0 (replicate 6 true) 1 x Hx)).
Defined.

(** The MySQL pool leaks connections.  When a thread releases a connection
    it marked unhealthy and the health check comes before the next acquire, the
    check overwrites the pointer with a new connection without closing the old
    one: an open connection is left that no entry holds. *)
Theorem mysql_pool_leaks :
  exists x h, rtc (step mysql_kind mysql_check) (one_client mysql_kind) x /\
    clients x = [CIdle] /\ h ∈ live (wd x) /\ h ∉ handles (entries (pl x)).
Proof.
  destruct (unhealthy_run _ _ mysql_pool) as (x & Hx & Hc & _ & Hl & Hh).
  exists x, 0. rewrite Hl, Hh. split_and!; [done|done|set_solver|set_solver].
Qed.
