(* ===== verification/Guards.v ===== *)
(** * Guards: the objects that hold a pooled connection

    [MysqlConnectionPool::Guard] and [RedisConnectionPool::Guard]: construction,
    moving, assignment, [markUnhealthy] and destruction, over the pool of
    [Pools].  A guard is an object with a null or non-null pool and connection;
    the threads of [Pools], which hold a connection or not, are what the guards
    refine.  The two classes have the same code. *)

From S2P Require Import Prelude Pools.

(** [pool_]: the pointer to the pool is not null. *)
Record Guard := mk_Guard { pool_ : bool; index_ : nat; conn_ : option Z; healthy_ : bool }.

Definition no_guard : Guard := mk_Guard false 0 None true.

(** [operator bool]. *)
Definition guard_ok (g : Guard) : bool := bool_decide (conn_ g <> None).

(** The result of a move: the new object and the one that was moved from. *)
Definition move_construct (other : Guard) : Guard * Guard :=
  (mk_Guard (pool_ other) (index_ other) (conn_ other) (healthy_ other),
   mk_Guard false (index_ other) None (healthy_ other)).

Definition markUnhealthy (g : Guard) : Guard := mk_Guard (pool_ g) (index_ g) (conn_ g) false.

Section Operations.
Variable k : kind.

(** [Guard::release], which the destructor calls. *)
Definition guard_release (g : Guard) (now : Z) (p : pool) (w : world) : Guard * pool * world :=
  let '(p, w) :=
    if pool_ g && bool_decide (conn_ g <> None) then release k p (index_ g) (healthy_ g) now w
    else (p, w) in
  (mk_Guard false (index_ g) None (healthy_ g), p, w).

(** [operator=(Guard &&)] on another object; on itself it does nothing. *)
Definition move_assign (g other : Guard) (now : Z) (p : pool) (w : world)
    : Guard * Guard * pool * world :=
  let '(_, p, w) := guard_release g now p w in
  let '(g, other) := move_construct other in
  (g, other, p, w).
End Operations.

(** A place of the program where a guard can be: an object, or a call of
    [acquire] that waits and whose result will be the object. *)
Inductive slot := Object (g : Guard) | Acquiring.

(** The guard that [acquire] returns. *)
Definition returned (o : outcome) : slot :=
  match o with
  | Got i c => Object (mk_Guard true i c true)
  | MustWait => Acquiring
  | NotRunning => Object no_guard
  end.

(** The pool, the world, and the guards of all threads. *)
Record state := mk_state { gp : pool; gw : world; slots : list slot }.

Section Steps.
Variable k : kind.
Variable check : Z -> Entry -> world -> Entry * world.

(** No guard of the state holds a connection. *)
Definition none_held (ss : list slot) : Prop :=
  forall j g, ss !! j = Some (Object g) -> conn_ g = None.

Inductive gstep : state -> state -> Prop :=
| g_acquire p w ss j s now o p' w' :
    (* an object that holds nothing is constructed anew *)
    ss !! j = Some s -> s = Acquiring \/ (exists g, s = Object g /\ conn_ g = None) ->
    acquire_turn k p now w = (o, p', w') ->
    gstep (mk_state p w ss) (mk_state p' w' (<[j := returned o]> ss))
| g_timeout p w ss j :
    ss !! j = Some Acquiring ->
    gstep (mk_state p w ss) (mk_state p (count_timeout w) (<[j := Object no_guard]> ss))
| g_mark p w ss j g :
    ss !! j = Some (Object g) ->
    gstep (mk_state p w ss) (mk_state p w (<[j := Object (markUnhealthy g)]> ss))
| g_destroy p w ss j g now g' p' w' :
    ss !! j = Some (Object g) -> guard_release k g now p w = (g', p', w') ->
    gstep (mk_state p w ss) (mk_state p' w' (<[j := Object g']> ss))
| g_construct p w ss j j' g old g' g0 :
    (* [Guard b(std::move(a))] *)
    ss !! j = Some (Object g) -> ss !! j' = Some (Object old) -> j <> j' -> conn_ old = None ->
    move_construct g = (g', g0) ->
    gstep (mk_state p w ss) (mk_state p w (<[j' := Object g']> (<[j := Object g0]> ss)))
| g_assign p w ss j j' g old now g' g0 p' w' :
    (* [b = std::move(a)] *)
    ss !! j = Some (Object g) -> ss !! j' = Some (Object old) -> j <> j' ->
    move_assign k old g now p w = (g', g0, p', w') ->
    gstep (mk_state p w ss) (mk_state p' w' (<[j' := Object g']> (<[j := Object g0]> ss)))
| g_health p w ss now p' w' :
    health_turn check p now w = (p', w') -> gstep (mk_state p w ss) (mk_state p' w' ss)
| g_stop p w ss : gstep (mk_state p w ss) (mk_state (stop_flag p) w ss)
| g_close p w ss p' w' :
    running p = false -> none_held ss -> stop_close p w = (p', w') ->
    gstep (mk_state p w ss) (mk_state p' w' ss).

(** ** The threads a state of guards stands for *)

Definition client_of (s : slot) : client :=
  match s with
  | Acquiring => CWaiting
  | Object g =>
      match conn_ g with
      | Some c => if pool_ g then CHolding (index_ g) c (healthy_ g) else CIdle
      | None => CIdle
      end
  end.

Definition abs (x : state) : config := mk_config (gp x) (gw x) (map client_of (slots x)).

(** The objects are sound: a connection comes with a pool. *)
Definition guard_wf (s : slot) : Prop :=
  forall g c, s = Object g -> conn_ g = Some c -> pool_ g = true.

(** Moving a guard gives the place of one thread to another. *)
Inductive swap : config -> config -> Prop :=
| swap_clients p w cs j j' c :
    cs !! j = Some c -> cs !! j' = Some CIdle -> j <> j' ->
    swap (mk_config p w cs) (mk_config p w (<[j' := c]> (<[j := CIdle]> cs))).

Definition client_step (a b : config) : Prop := step k check a b \/ swap a b.
End Steps.

(** ** Guards refine threads *)

Section Refinement.
Variable k : kind.
Variable check : Z -> Entry -> world -> Entry * world.

#[local] Notation client_step := (client_step k check).
#[local] Arguments release : simpl never.

Lemma map_client_insert ss j s :
  map client_of (<[j := s]> ss) = <[j := client_of s]> (map client_of ss).
Proof. apply list_fmap_insert. Qed.

Lemma map_client_lookup ss j s :
  ss !! j = Some s -> map client_of ss !! j = Some (client_of s).
Proof. intros H. change (map client_of) with (fmap (M := list) client_of). by rewrite list_lookup_fmap, H. Qed.

Lemma map_client_same ss j s s' :
  ss !! j = Some s -> client_of s' = client_of s -> map client_of (<[j := s']> ss) = map client_of ss.
Proof.
  intros H E. rewrite map_client_insert, E. apply list_insert_id. by apply map_client_lookup.
Qed.

Lemma guard_release_empty g now p w g' p' w' :
  guard_release k g now p w = (g', p', w') -> conn_ g' = None.
Proof.
  unfold guard_release. destruct (pool_ g && _); [destruct (release k p (index_ g) (healthy_ g) now w)|];
    by intros [= <- _ _].
Qed.

(** Destroying a guard, or emptying it before an assignment, releases what it
    holds. *)
Lemma guard_release_refines p w ss j g now g' p' w' :
  ss !! j = Some (Object g) -> guard_release k g now p w = (g', p', w') ->
  conn_ g' = None /\
  rtc client_step (mk_config p w (map client_of ss))
    (mk_config p' w' (map client_of (<[j := Object g']> ss))).
Proof.
  intros Hj. unfold guard_release. pose proof (map_client_lookup _ _ _ Hj) as Hc.
  rewrite map_client_insert. cbn in *.
  destruct (pool_ g) eqn:Ep, (conn_ g) as [c|] eqn:Ec; cbn; rewrite ?bool_decide_false by congruence;
    cbn; try (intros [= <- <- <-]; split; [done|]; rewrite list_insert_id by done; apply rtc_refl).
  destruct (release k p (index_ g) (healthy_ g) now w) as [p1 w1] eqn:Er. intros [= <- <- <-].
  split; [done|]. apply rtc_once. left. by eapply c_release.
Qed.

Lemma move_construct_client g g' g0 :
  move_construct g = (g', g0) ->
  client_of (Object g') = client_of (Object g) /\ client_of (Object g0) = CIdle.
Proof. intros [= <- <-]. by split. Qed.

(** A move from one place to another, once the target holds nothing. *)
Lemma move_refines p w ss j j' g old g' g0 :
  ss !! j = Some (Object g) -> ss !! j' = Some (Object old) -> conn_ old = None -> j <> j' ->
  move_construct g = (g', g0) ->
  client_step (mk_config p w (map client_of ss))
    (mk_config p w (map client_of (<[j' := Object g']> (<[j := Object g0]> ss)))).
Proof.
  intros Hj Hj' Hold Hne Hm. destruct (move_construct_client _ _ _ Hm) as [E E0]. right.
  rewrite !map_client_insert, E, E0. eapply swap_clients; [by apply map_client_lookup| |done].
  rewrite (map_client_lookup _ _ _ Hj'). cbn. by rewrite Hold.
Qed.

Lemma gstep_refines x x' : gstep k check x x' -> rtc client_step (abs x) (abs x').
Proof.
  intros Hs. destruct Hs as [p w ss j s now o p' w' Hj Hs Ha|p w ss j Hj|p w ss j g Hj
    |p w ss j g now g' p' w' Hj Hr|p w ss j j' g old g' g0 Hj Hj' Hne Hold Hm
    |p w ss j j' g old now g' g0 p' w' Hj Hj' Hne Hm|p w ss now p' w' Hh|p w ss|p w ss p' w' Hrun Hno Hc];
    unfold abs; cbn.
  - apply rtc_once. left. rewrite map_client_insert.
    replace (client_of (returned o)) with (after_turn o) by (by destruct o as [i [c|]| |]).
    eapply c_acquire; [by apply map_client_lookup| |done].
    destruct Hs as [->|(g & -> & Hg)]; [by right|left]. cbn. by rewrite Hg.
  - apply rtc_once. left. rewrite map_client_insert. apply c_timeout. exact (map_client_lookup _ _ _ Hj).
  - pose proof (map_client_lookup _ _ _ Hj) as Hc. rewrite map_client_insert. cbn in *.
    destruct (conn_ g) as [c|] eqn:Ec; [destruct (pool_ g) eqn:Ep|];
      [|rewrite list_insert_id by done; apply rtc_refl..].
    apply rtc_once. left. by eapply c_mark.
  - by eapply guard_release_refines.
  - apply rtc_once. by eapply move_refines.
  - unfold move_assign in Hm. destruct (guard_release k old now p w) as [[g1 p1] w1] eqn:Er.
    destruct (move_construct g) as [a b] eqn:Em. simplify_eq.
    destruct (guard_release_refines _ _ _ _ _ _ _ _ _ Hj' Er) as [Hn Hr].
    etrans; [exact Hr|]. apply rtc_once.
    assert (E : <[j' := Object g']> (<[j := Object g0]> ss) =
      <[j' := Object g']> (<[j := Object g0]> (<[j' := Object g1]> ss)))
      by (by rewrite (list_insert_insert_ne _ j j'), list_insert_insert_eq).
    rewrite E. eapply move_refines; [| | |done|done].
    + by rewrite list_lookup_insert_ne.
    + apply list_lookup_insert_eq. by eapply lookup_lt_Some.
    + done.
  - apply rtc_once. left. by eapply c_health.
  - apply rtc_once. left. apply c_stop.
  - apply rtc_once. left. eapply c_close; [done| |done].
    intros j i c g Hj. apply list_lookup_fmap_Some in Hj as ([g'|] & E & Hj); cbn in E; [|done].
    by rewrite (Hno _ _ Hj) in E.
Qed.

(** ** No connection is lost *)

(** An entry in use is held by a thread. *)
Definition no_orphan (x : config) : Prop :=
  forall i e, entries (pl x) !! i = Some e -> inUse e = true ->
  exists j c g, clients x !! j = Some (CHolding i c g).

Lemma ensureHealthy_free e w good e' w' :
  inUse e = false -> ensureHealthy k e w = (good, e', w') -> inUse e' = false.
Proof.
  intros Hu. unfold ensureHealthy, reconnect, assign.
  destruct (conn e); [destruct (call_on _ w) as [[] w1]|].
  - by intros [= <- <- <-].
  - destruct (closeEntry e _) as [e1 w2] eqn:E1. injection E1 as <- _.
    destruct (connect k w2). by intros [= <- <- <-].
  - destruct (connect k w). by intros [= <- <- <-].
Qed.

(** The entries in use after a turn of [acquire]: those before, and the one it
    took. *)
Lemma try_entries_in_use es w es' r w' :
  try_entries k es w = (es', r, w') ->
  forall i e', es' !! i = Some e' -> inUse e' = true ->
  (exists e, es !! i = Some e /\ inUse e = true) \/ (exists c, r = Some (i, c)).
Proof.
  revert w es' r w'. induction es as [|e es IH]; intros w es' r w' Ht; cbn in Ht.
  { by simplify_eq. }
  assert (Hskip : forall e1 w1 es2 r2 w2, inUse e1 = inUse e -> try_entries k es w1 = (es2, r2, w2) ->
      forall i e', (e1 :: es2) !! i = Some e' -> inUse e' = true ->
      (exists e0, (e :: es) !! i = Some e0 /\ inUse e0 = true) \/
      (exists c, (fun '(i, c) => (S i, c)) <$> r2 = Some (i, c))).
  { intros e1 w1 es2 r2 w2 Eu E [|i] e' Hi Hu; cbn in Hi.
    - simplify_eq. left. exists e. split; [done|congruence].
    - destruct (IH _ _ _ _ E _ _ Hi Hu) as [?|[c ->]]; [by left|right]. by exists c. }
  assert (Htake : forall e1 c, r = Some (0%nat, c) -> es' = take_entry e1 :: es ->
      forall i e', es' !! i = Some e' -> inUse e' = true ->
      (exists e0, (e :: es) !! i = Some e0 /\ inUse e0 = true) \/ (exists c, r = Some (i, c))).
  { intros e1 c -> -> [|i] e' Hi Hu; [right; eauto|left; eauto]. }
  destruct (inUse e) eqn:Hu.
  { destruct (try_entries k es w) as [[es2 r2] w2] eqn:E. simplify_eq. by eapply Hskip. }
  destruct (healthy e); [simplify_eq; by eapply Htake|].
  destruct (ensureHealthy k e w) as [[[] e1] w1] eqn:E1; [simplify_eq; by eapply Htake|].
  destruct (try_entries k es w1) as [[es2 r2] w2] eqn:E2. simplify_eq.
  eapply Hskip; [|done]. by eapply ensureHealthy_free.
Qed.

Lemma acquire_turn_in_use p now w o p' w' :
  acquire_turn k p now w = (o, p', w') ->
  forall i e', entries p' !! i = Some e' -> inUse e' = true ->
  (exists e, entries p !! i = Some e /\ inUse e = true) \/ (exists c, o = Got i c).
Proof.
  unfold acquire_turn. destruct (running p); cbn; [|intros [= <- <- <-]; eauto].
  destruct (try_entries k (entries p) w) as [[es r] w1] eqn:Et.
  pose proof (try_entries_in_use _ _ _ _ _ Et) as Hu. destruct r as [[i0 c0]|].
  { intros [= <- <- <-] i e' Hi He. destruct (Hu i e' Hi He) as [?|[c [= <- <-]]]; eauto. }
  assert (Hold : forall i e', es !! i = Some e' -> inUse e' = true ->
    exists e, entries p !! i = Some e /\ inUse e = true).
  { intros i e' Hi He. destruct (Hu i e' Hi He) as [?|[c [=]]]; done. }
  destruct (_ <? _); [|intros [= <- <- <-]; eauto].
  destruct (connect k w1) as [c w2]. destruct (bool_decide (c <> None)) eqn:Eb;
    intros [= <- <- <-] i e'; cbn; intros [Hi|[Hi Hl]]%lookup_app_Some He; eauto.
  - apply list_lookup_singleton_Some in Hl as [Hn _]. right. exists c. f_equal. lia.
  - apply list_lookup_singleton_Some in Hl as [_ <-]. done.
Qed.

Lemma health_turn_in_use p now w p' w' :
  (forall now, entry_step k (check now)) ->
  ledger_ok k (handles (entries p)) w -> Forall entry_ok (entries p) ->
  health_turn check p now w = (p', w') ->
  forall i e', entries p' !! i = Some e' -> inUse e' = true ->
  exists e, entries p !! i = Some e /\ inUse e = true.
Proof.
  intros Hck H Hok. unfold health_turn. destruct (running p); cbn; [|intros [= <- <-]; eauto].
  destruct (for_entries (check now) (entries p) w) as [es1 w1] eqn:E1.
  destruct (close_idle _ _ _ _ es1 w1) as [es2 w2] eqn:E2. intros [= <- <-]. cbn.
  rewrite <- (app_nil_r (handles _)) in H.
  destruct (for_entries_spec k _ _ _ _ _ _ (Hck now) H Hok E1) as (H1 & Hok1 & Hk1).
  destruct (close_idle_spec k _ _ _ _ _ _ _ _ _ H1 Hok1 E2) as (_ & _ & Hk2).
  intros i e2 Hi Hu. destruct (Forall2_lookup_r _ _ _ _ _ Hk2 Hi) as (e1 & Hi1 & _ & Hb).
  destruct (Forall2_lookup_r _ _ _ _ _ Hk1 Hi1) as (e & He & _ & Ha).
  exists e. split; [done|]. destruct (inUse e); [done|].
  by rewrite Hb in Hu by (by apply Ha).
Qed.

Lemma release_in_use p i good now w p' w' :
  release k p i good now w = (p', w') ->
  forall j e', entries p' !! j = Some e' -> inUse e' = true -> j <> i /\ entries p !! j = Some e'.
Proof.
  unfold release. destruct (entries p !! i) as [e|] eqn:He; cycle 1.
  { intros [= <- <-] j e' Hj Hu. split; [intros ->; congruence|done]. }
  destruct (if negb good then _ else _) as [[] w1]; intros [= <- <-] j e'; cbn;
    intros [(-> & <- & _)|[? Hj]]%list_lookup_insert_Some Hu; done.
Qed.

Hypothesis check_ok : forall now, entry_step k (check now).

Lemma no_orphan_step x x' : inv k x -> no_orphan x -> step k check x x' -> no_orphan x'.
Proof.
  intros (H & Hok & Hmax & Hh & Hx) Hn Hst.
  assert (Hkeep : forall i e j c', entries (pl x) !! i = Some e -> inUse e = true ->
    (forall c g, clients x !! j <> Some (CHolding i c g)) ->
    exists j0 c g, <[j := c']> (clients x) !! j0 = Some (CHolding i c g)).
  { intros i e j c' He Hu Hj. destruct (Hn _ _ He Hu) as (j0 & c & g & Hj0). exists j0, c, g.
    rewrite list_lookup_insert_ne; [done|]. intros ->. by eapply Hj. }
  destruct Hst as [p w cs j c now o p' w' Hj Hc Ha | p w cs j Hj | p w cs j i c g Hj
    | p w cs j i c g now p' w' Hj Hr | p w cs now p' w' Hr | p w cs | p w cs p' w' Hrun Hno Hr];
    cbn in *; intros i0 e0 He0 Hu0; cbn in *.
  - destruct (acquire_turn_in_use _ _ _ _ _ _ Ha _ _ He0 Hu0) as [(e & He & Hu)|[c0 ->]].
    + eapply Hkeep; [done..|]. intros c1 g1. rewrite Hj. by destruct Hc as [-> | ->].
    + destruct (acquire_turn_spec k _ _ _ _ _ _ H Hok Hmax Ha) as (_ & _ & _ & _ & Hg).
      destruct (Hg _ _ eq_refl) as (_ & e1 & h & _ & _ & _ & ->). exists j, h, true. cbn.
      apply list_lookup_insert_eq. by eapply lookup_lt_Some.
  - eapply Hkeep; [done..|]. intros c g. by rewrite Hj.
  - destruct (Hn _ _ He0 Hu0) as (j0 & c0 & g0 & Hj0). cbn in Hj0.
    destruct (decide (j0 = j)) as [->|Hne].
    + rewrite Hj in Hj0. injection Hj0 as <- <- <-. exists j, c, false.
      apply list_lookup_insert_eq. by eapply lookup_lt_Some.
    + exists j0, c0, g0. by rewrite list_lookup_insert_ne.
  - destruct (release_in_use _ _ _ _ _ _ _ Hr _ _ He0 Hu0) as [Hne He].
    eapply Hkeep; [done..|]. intros c0 g0. rewrite Hj. congruence.
  - destruct (health_turn_in_use _ _ _ _ _ check_ok H Hok Hr _ _ He0 Hu0) as (e & He & Hu). eauto.
  - eauto.
  - apply stop_close_spec with (k := k) in Hr as [_ ->]; done.
Qed.

(** Moving a guard changes neither. *)
Lemma swap_lookup (cs : list client) (j j' : nat) c (j0 i : nat) h g :
  cs !! j = Some c -> cs !! j' = Some CIdle -> j <> j' ->
  <[j' := c]> (<[j := CIdle]> cs) !! j0 = Some (CHolding i h g) ->
  cs !! (if decide (j0 = j') then j else j0) = Some (CHolding i h g) /\ j0 <> j.
Proof.
  intros Hj Hj' Hne [(-> & -> & _)|[N Hl]]%list_lookup_insert_Some.
  - by rewrite decide_True.
  - rewrite decide_False by done. by apply list_lookup_insert_Some in Hl as [(_ & ? & _)|[? ?]].
Qed.

Lemma swap_inv x x' : inv k x /\ no_orphan x -> swap x x' -> inv k x' /\ no_orphan x'.
Proof.
  intros [(H & Hok & Hmax & Hh & Hx) Hn] Hs. destruct Hs as [p w cs j j' c Hj Hj' Hne]. cbn in *.
  split; [split_and!; try done; split|].
  - intros j0 i h g [Hl _]%swap_lookup; [|done..]. by eapply Hh.
  - intros j1 j2 i c1 c2 g1 g2 [H1 N1]%swap_lookup [H2 N2]%swap_lookup; [|done..].
    pose proof (Hx _ _ _ _ _ _ _ H1 H2) as E. by repeat case_decide; subst.
  - intros i e He Hu. destruct (Hn _ _ He Hu) as (j0 & h & g & Hl). cbn in Hl.
    assert (j0 <> j') by (intros ->; congruence). destruct (decide (j0 = j)) as [->|Hj0].
    + rewrite Hj in Hl. injection Hl as ->. exists j', h, g. cbn.
      apply list_lookup_insert_eq. rewrite length_insert. by eapply lookup_lt_Some.
    + exists j0, h, g. cbn. by rewrite !list_lookup_insert_ne.
Qed.

Lemma client_step_inv x x' :
  inv k x /\ no_orphan x -> client_step x x' -> inv k x' /\ no_orphan x'.
Proof.
  intros [Hi Hn] [Hs|Hs]; [|by eapply swap_inv]. split.
  - by eapply pool_inv_step.
  - by eapply no_orphan_step.
Qed.

(** A connection comes with a pool. *)
Definition guards_wf (ss : list slot) : Prop :=
  forall j g, ss !! j = Some (Object g) -> conn_ g <> None -> pool_ g = true.

Lemma guards_wf_insert ss j s :
  guards_wf ss -> (forall g, s = Object g -> conn_ g <> None -> pool_ g = true) ->
  guards_wf (<[j := s]> ss).
Proof. intros H Hs j0 g [(_ & E & _)|[_ Hj]]%list_lookup_insert_Some; [by apply Hs|by eapply H]. Qed.

Lemma guards_wf_step x x' : guards_wf (slots x) -> gstep k check x x' -> guards_wf (slots x').
Proof.
  intros H Hs. destruct Hs as [p w ss j s now o p' w' Hj Hs Ha|p w ss j Hj|p w ss j g Hj
    |p w ss j g now g' p' w' Hj Hr|p w ss j j' g old g' g0 Hj Hj' Hne Hold Hm
    |p w ss j j' g old now g' g0 p' w' Hj Hj' Hne Hm|p w ss now p' w' Hh|p w ss|p w ss p' w' Hrun Hno Hc];
    cbn in *; try done.
  - apply guards_wf_insert; [done|]. intros g E. destruct o; cbn in E; by simplify_eq.
  - apply guards_wf_insert; [done|]. by intros g [= <-].
  - apply guards_wf_insert; [done|]. intros g' [= <-]. exact (H _ _ Hj).
  - apply guards_wf_insert; [done|]. intros g1 [= <-].
    by rewrite (guard_release_empty _ _ _ _ _ _ _ Hr).
  - unfold move_construct in Hm. injection Hm as <- <-.
    apply guards_wf_insert; [apply guards_wf_insert; [done|]|]; intros g1 [= <-]; [done|exact (H _ _ Hj)].
  - unfold move_assign in Hm. destruct (guard_release k old now p w) as [[g1 p1] w1].
    injection Hm as <- <- _ _.
    apply guards_wf_insert; [apply guards_wf_insert; [done|]|]; intros g2 [= <-]; [done|exact (H _ _ Hj)].
Qed.
End Refinement.

(** ** Properties *)

(** The pool just started, and [n] places for guards. *)
Definition started_guards (k : kind) (min max ttl now : Z) (ans : list bool) (n : nat) : state :=
  let x := started k min max ttl now ans n in
  mk_state (pl x) (wd x) (replicate n (Object no_guard)).

Lemma make_entries_free k n now w es w' :
  make_entries k n now w = (es, w') -> Forall (fun e => inUse e = false) es.
Proof.
  revert w es w'; induction n as [|n IH]; intros w es w' Hm; cbn in Hm; [by simplify_eq|].
  destruct (connect k w) as [c w1]. destruct (make_entries k n now w1) as [es1 w2] eqn:Em.
  simplify_eq. constructor; [done|]. by eapply IH.
Qed.

Lemma started_abs k min max ttl now ans n :
  abs (started_guards k min max ttl now ans n) = started k min max ttl now ans n.
Proof.
  unfold abs, started_guards. cbn. change (map client_of) with (fmap (M := list) client_of).
  rewrite fmap_replicate. unfold started. by destruct (start _ _ _ _).
Qed.

Lemma started_no_orphan k min max ttl now ans n : no_orphan (started k min max ttl now ans n).
Proof.
  unfold started, start, make_pool. cbn. destruct (make_entries _ _ _ _) as [es w] eqn:Em.
  intros i e He Hu. cbn in He. pose proof (make_entries_free _ _ _ _ _ _ Em) as Hf.
  by rewrite (Forall_lookup_1 _ _ _ _ Hf He) in Hu.
Qed.

Lemma guards_reachable k check min max ttl now ans n x :
  a_pool k check -> rtc (gstep k check) (started_guards k min max ttl now ans n) x ->
  inv k (abs x) /\ no_orphan (abs x) /\ guards_wf (slots x).
Proof.
  intros Hp Hr.
  eapply (rtc_invariant (gstep k check)
    (fun x => inv k (abs x) /\ no_orphan (abs x) /\ guards_wf (slots x))); [| |exact Hr].
  - intros a b (Hi & Hn & Hw) Hs. cut ((inv k (abs b) /\ no_orphan (abs b)) /\ guards_wf (slots b)); [tauto|].
    split; [|by eapply guards_wf_step].
    apply gstep_refines in Hs. eapply (rtc_invariant (client_step k check)
      (fun x => inv k x /\ no_orphan x)); [|by split|exact Hs].
    intros ? ?. apply client_step_inv. by apply a_pool_check.
  - rewrite started_abs. split_and!; [apply pool_started_inv|apply started_no_orphan|].
    intros j g [[= ->] _]%lookup_replicate. done.
Qed.

Lemma object_client x j i c g :
  clients (abs x) !! j = Some (CHolding i c g) ->
  exists o, slots x !! j = Some (Object o) /\ index_ o = i /\ conn_ o = Some c.
Proof.
  intros ([o|] & E & Hj)%list_lookup_fmap_Some; cbn in E; [|done]. exists o. split; [done|].
  destruct (conn_ o); [destruct (pool_ o)|]; simplify_eq; done.
Qed.

(** C6. Whatever guards are constructed, moved, assigned, marked and destroyed, on
    whatever threads, while the pool acquires, repairs, closes and stops: a guard
    that tests true holds the connection of an entry that is in use, which is open;
    no two guards hold the same entry; and every entry in use is held by a guard,
    so no connection is released twice, and none is lost to the pool. *)
Theorem guards_own_entries k check min max ttl now ans n x :
  a_pool k check -> rtc (gstep k check) (started_guards k min max ttl now ans n) x ->
  misuse (gw x) = false /\
  (forall j g, slots x !! j = Some (Object g) -> guard_ok g = true ->
     exists e c, entries (gp x) !! index_ g = Some e /\ inUse e = true /\
       conn e = Some c /\ conn_ g = Some c /\ c ∈ live (gw x)) /\
  (forall j j' g g', slots x !! j = Some (Object g) -> slots x !! j' = Some (Object g') ->
     guard_ok g = true -> guard_ok g' = true -> index_ g = index_ g' -> j = j') /\
  (forall i e, entries (gp x) !! i = Some e -> inUse e = true ->
     exists j g, slots x !! j = Some (Object g) /\ guard_ok g = true /\ index_ g = i).
Proof.
  intros Hp Hr. destruct (guards_reachable _ _ _ _ _ _ _ _ _ Hp Hr) as ((H & _ & _ & Hh & Hx) & Hn & Hw).
  assert (Hc : forall j g, slots x !! j = Some (Object g) -> guard_ok g = true ->
    exists c, conn_ g = Some c /\ clients (abs x) !! j = Some (CHolding (index_ g) c (healthy_ g))).
  { intros j g Hj Hg. apply bool_decide_eq_true in Hg. pose proof (Hw _ _ Hj Hg) as Hpool.
    pose proof (map_client_lookup _ _ _ Hj) as E. cbn in E. rewrite Hpool in E.
    destruct (conn_ g) as [c|]; [by exists c|done]. }
  split_and!; [apply H| | |].
  - intros j g Hj Hg. destruct (Hc _ _ Hj Hg) as (c & Eg & Ec).
    destruct (Hh _ _ _ _ Ec) as (e & He & Hu & Hec). exists e, c. split_and!; try done.
    apply H. by eapply in_handles.
  - intros j j' g g' Hj Hj' Hg Hg' E. destruct (Hc _ _ Hj Hg) as (c & _ & Ec).
    destruct (Hc _ _ Hj' Hg') as (c' & _ & Ec'). rewrite E in Ec. by eapply Hx.
  - intros i e He Hu. destruct (Hn _ _ He Hu) as (j & c & b & Hj).
    destruct (object_client _ _ _ _ _ Hj) as (o & Ho & <- & Eo). exists j, o. split_and!; try done.
    unfold guard_ok. by rewrite Eo.
Qed.

(** A guard is acquired, moved into another and that one destroyed. *)
Lemma moved_guard k check :
  a_pool k check ->
  exists x, rtc (gstep k check) (started_guards k 1 1 60 0 (replicate 6 true) 2) x /\
    slots x !! 0%nat = Some (Object (mk_Guard false 0 None true)) /\
    (exists c, slots x !! 1%nat = Some (Object (mk_Guard true 0 (Some c) true))) /\
    inUse <$> entries (gp x) !! 0%nat = Some true.
Proof.
  destruct 1; (eexists; split;
    [eapply rtc_l; [eapply g_acquire with (j := 0%nat) (now := 1); [reflexivity|right; by eexists|reflexivity]|cbn];
     apply rtc_once; eapply (g_construct _ _ _ _ _ 0 1); [reflexivity..|done|reflexivity|reflexivity]
    |split_and!; [reflexivity|eexists; reflexivity|reflexivity]]).
Qed.

Lemma guards_own_entries_witness :
  exists x, rtc (gstep mysql_kind mysql_check)
      (started_guards mysql_kind 1 1 60 0 (replicate 6 true) 2) x /\
    (exists c, slots x !! 1%nat = Some (Object (mk_Guard true 0 (Some c) true)) /\ c ∈ live (gw x)).
Proof.
  destruct (moved_guard _ _ mysql_pool) as (x & Hr & _ & (c & Hj) & _).
  exists x. split; [exact Hr|]. exists c. split; [exact Hj|].
  destruct (proj1 (proj2 (guards_own_entries _ _ 1 1 60 0 (replicate 6 true) 2 x mysql_pool Hr)) _ _ Hj eq_refl)
    as (e & c' & _ & _ & _ & [= <-] & Hl). exact Hl.
Defined.
