(* ===== verification/ScoreCache.v ===== *)
(** * ScoreCache: RedisCache over the connection pool

    The class [RedisCache] of [src/manager/src/RedisConnectionPool.cpp]: [set]
    and [get] take a connection of the pool, send one command, and give the
    connection back through the guard's destructor, marked unhealthy when the
    command throws.  The Redis server is outside; its keys expire [ttl] seconds
    after they were set.  A command that throws may have reached the server, which
    may execute it later: a run of calls has these late executions as steps of
    their own.  [QueryService] uses the cache as a map; here it is the
    pool, the server and the clock. *)

From S2P Require Import Prelude Pools Guards.

(** The server: SETEX with a time to live, and GET at a time. *)
Class RedisServer (S : Type) := {
  setex : Z -> Z -> string -> string -> S -> S;
  redis_get : Z -> string -> S -> option string
}.

Class RedisServerLaws (S : Type) `{RedisServer S} := {
  get_setex now t ttl key value (s : S) :
    redis_get now key (setex t ttl key value s) = if now <? t + ttl then Some value else None;
  get_setex_ne now t ttl key key' value (s : S) :
    key <> key' -> redis_get now key' (setex t ttl key value s) = redis_get now key' s
}.

(** A map from keys to values and the times at which they expire is one. *)
#[export] Instance map_server : RedisServer (gmap string (string * Z)) := {
  setex t ttl key value s := <[key := (value, t + ttl)]> s;
  redis_get now key s := '(value, expires) ← s !! key; if now <? expires then Some value else None
}.

#[export] Instance map_server_laws : RedisServerLaws (gmap string (string * Z)).
Proof.
  split; intros; cbn.
  - by rewrite lookup_insert_eq.
  - by rewrite lookup_insert_ne.
Qed.

Section Server.
Context {server : Type} `{RedisServerLaws server}.

(** What a call knows of its command: the answer; that it threw, with no word of
    whether the server executes it; or that there was no connection for it. *)
Inductive outcome (A : Type) := Answered (a : A) | Threw | NotSent.
#[local] Arguments Answered {A} a.
#[local] Arguments Threw {A}.
#[local] Arguments NotSent {A}.

(** The cache: its pool ([pool_] may be null), and the server behind it. *)
Record cache := mk_cache { pool_ : option pool; net : world; redis : server }.

(** [acquire(50ms)] of a thread that nobody wakes: it does not get a connection
    when it has to wait. *)
Definition acquire (p : pool) (now : Z) (w : world) : option nat * pool * world :=
  match acquire_turn redis_kind p now w with
  | (Got i (Some _), p, w) => (Some i, p, w)
  | (Got i None, p, w) => (None, p, w)
  | (MustWait, p, w) => (None, p, count_timeout w)
  | (NotRunning, p, w) => (None, p, w)
  end.

(** One command on a connection of the pool.  The guard is destroyed at the end. *)
Definition with_connection {A} (now : Z) (command : server -> A * server) (c : cache)
    : outcome A * cache :=
  match pool_ c with
  | None => (NotSent, c)
  | Some p =>
      match acquire p now (net c) with
      | (None, p, w) => (NotSent, mk_cache (Some p) w (redis c))
      | (Some i, p, w) =>
          let '(good, w) := ask w in
          if good then
            let '(a, s) := command (redis c) in
            let '(p, w) := release redis_kind p i true now w in
            (Answered a, mk_cache (Some p) w s)
          else
            let '(p, w) := release redis_kind p i false now (count_error w) in
            (Threw, mk_cache (Some p) w (redis c))
      end
  end.

Variable ttl_ : Z.

Definition send_set (now : Z) (key value : string) (c : cache) : outcome unit * cache :=
  with_connection now (fun s => (tt, setex now ttl_ key value s)) c.

Definition set (now : Z) (key value : string) (c : cache) : bool * cache :=
  let '(r, c) := send_set now key value c in
  (match r with Answered _ => true | Threw | NotSent => false end, c).

Definition get (now : Z) (key : string) (c : cache) : option string * cache :=
  let '(r, c) := with_connection now (fun s => (redis_get now key s, s)) c in
  (match r with Answered v => v | Threw | NotSent => None end, c).

Definition availableCount (c : cache) : Z :=
  match pool_ c with Some p => Pools.availableCount p | None => 0 end.

(** The server executes a SETEX whose call has thrown. *)
Definition execute_late (now : Z) (key value : string) (c : cache) : cache :=
  mk_cache (pool_ c) (net c) (setex now ttl_ key value (redis c)).

(** ** A run of calls *)

(** The calls, and the late execution of the [n]-th command in flight. *)
Inductive op :=
| OSet (now : Z) (key value : string) | OGet (now : Z) (key : string) | OLate (now : Z) (n : nat).

(** A SETEX that the server executed: time, key and value. *)
Definition stored : Type := Z * string * string.

(** [executed]: the commands that the server executed, in order; [successes]: the
    calls of [set] that returned true; [in_flight]: keys and values of those that
    threw and were not executed so far. *)
Record history := mk_history {
  now_ : cache; executed : list stored; successes : list stored;
  in_flight : list (string * string) }.

Definition run_op (x : history) (o : op) : history :=
  match o with
  | OSet now key value =>
      match send_set now key value (now_ x) with
      | (Answered _, c) =>
          mk_history c (executed x ++ [(now, key, value)]) (successes x ++ [(now, key, value)])
            (in_flight x)
      | (Threw, c) => mk_history c (executed x) (successes x) (in_flight x ++ [(key, value)])
      | (NotSent, c) => mk_history c (executed x) (successes x) (in_flight x)
      end
  | OGet now key => mk_history (get now key (now_ x)).2 (executed x) (successes x) (in_flight x)
  | OLate now n =>
      match in_flight x !! n with
      | Some (key, value) =>
          mk_history (execute_late now key value (now_ x)) (executed x ++ [(now, key, value)])
            (successes x) (delete n (in_flight x))
      | None => x
      end
  end.

Definition run (ops : list op) (c : cache) : history :=
  foldl run_op (mk_history c [] [] []) ops.

(** The keys and values of the calls of [set]. *)
Definition sets_of (ops : list op) : list (string * string) :=
  omap (fun o => match o with OSet _ key value => Some (key, value) | _ => None end) ops.

Definition key_value (x : stored) : string * string := (x.1.2, x.2).

(** ** Lemmas *)

Lemma with_connection_server {A} now (command : server -> A * server) c :
  let '(r, c') := with_connection now command c in
  match r with
  | Answered a => command (redis c) = (a, redis c')
  | Threw | NotSent => redis c' = redis c
  end.
Proof using.
  unfold with_connection. destruct (pool_ c) as [p|]; [|done].
  destruct (acquire p now (net c)) as [[[i|] p1] w1]; [|done].
  destruct (ask w1) as [[] w2].
  - destruct (command (redis c)) as [a s] eqn:Ec. by destruct (release _ _ _ _ _ _) as [p2 w3].
  - by destruct (release _ _ _ _ _ _) as [p2 w3].
Qed.

(** [get] answers the server's value, or nothing, and leaves the server alone. *)
Lemma get_server now key c :
  ((get now key c).1 = None \/ (get now key c).1 = redis_get now key (redis c)) /\
  redis (get now key c).2 = redis c.
Proof using.
  unfold get. pose proof (with_connection_server now (fun s => (redis_get now key s, s)) c) as Hs.
  destruct (with_connection _ _ _) as [[v| |] c']; cbn [fst snd]; [|by auto..].
  injection Hs as -> ->. auto.
Qed.

(** The last value executed under a key. *)
Definition latest (key : string) (log : list stored) : option (string * Z) :=
  foldl (fun l x => if String.eqb x.1.2 key then Some (x.2, x.1.1 + ttl_) else l) None log.

Lemma latest_snoc key log now key' value :
  latest key (log ++ [(now, key', value)]) =
    if String.eqb key' key then Some (value, now + ttl_) else latest key log.
Proof using. unfold latest. by rewrite foldl_app. Qed.

(** What the commands leave under a key at a time. *)
Definition expected (now : Z) (key : string) (log : list stored) : option string :=
  '(value, expires) ← latest key log; if now <? expires then Some value else None.

Definition holds (s : server) (log : list stored) : Prop :=
  forall now key, redis_get now key s = expected now key log.

Lemma holds_setex s log now key value :
  holds s log -> holds (setex now ttl_ key value s) (log ++ [(now, key, value)]).
Proof using All.
  intros Hs t k. unfold expected. rewrite latest_snoc.
  destruct (String.eqb_spec key k) as [->|Hne]; [by rewrite get_setex|].
  rewrite get_setex_ne by done. apply Hs.
Qed.

(** The invariant of a run: the server holds what was executed; every execution
    is that of a call of [set], each call executed at most once; the calls that
    returned true are executed, in order. *)
Definition history_ok (calls : list (string * string)) (x : history) : Prop :=
  holds (redis (now_ x)) (executed x) /\
  (exists unsent, map key_value (executed x) ++ in_flight x ++ unsent ≡ₚ calls) /\
  successes x `sublist_of` executed x.

Lemma run_op_ok calls x o :
  history_ok calls x -> history_ok (calls ++ sets_of [o]) (run_op x o).
Proof using All.
  intros (Hs & [unsent Hp] & Hsub). destruct o as [now key value|now key|now n]; cbn [run_op sets_of omap list_omap].
  - unfold send_set.
    pose proof (with_connection_server now (fun s => (tt, setex now ttl_ key value s)) (now_ x)) as Hc.
    destruct (with_connection _ _ _) as [[[]| |] c]; split_and!; cbn [now_ executed successes in_flight].
    + injection Hc as <-. by apply holds_setex.
    + exists unsent. rewrite map_app, <- Hp. cbn. solve_Permutation.
    + by apply sublist_app.
    + by rewrite Hc.
    + exists unsent. rewrite <- Hp. solve_Permutation.
    + done.
    + by rewrite Hc.
    + exists (unsent ++ [(key, value)]). rewrite <- Hp. solve_Permutation.
    + done.
  - destruct (get_server now key (now_ x)) as [_ E].
    split_and!; cbn [now_ executed successes in_flight]; [by rewrite E| |done].
    exists unsent. by rewrite app_nil_r.
  - rewrite app_nil_r. destruct (in_flight x !! n) as [[key value]|] eqn:En; [|by split_and!; eauto].
    split_and!; cbn [now_ executed successes in_flight execute_late redis].
    + by apply holds_setex.
    + exists unsent. pose proof (delete_Permutation _ _ _ En) as Hd.
      revert Hp Hd. generalize (delete n (in_flight x)). intros rest Hp Hd.
      rewrite map_app, <- Hp, Hd. cbn. solve_Permutation.
    + by apply sublist_inserts_r.
Qed.

Lemma run_ok_from ops : forall calls x,
  history_ok calls x -> history_ok (calls ++ sets_of ops) (foldl run_op x ops).
Proof using All.
  induction ops as [|o ops IH]; intros calls x Hx; cbn [foldl]; [by rewrite app_nil_r|].
  replace (sets_of (o :: ops)) with (sets_of [o] ++ sets_of ops)
    by (unfold sets_of; by rewrite <- omap_app).
  rewrite app_assoc. by apply IH, run_op_ok.
Qed.

Lemma run_ok ops c :
  (forall now key, redis_get now key (redis c) = None) -> history_ok (sets_of ops) (run ops c).
Proof using All.
  intros Hc. apply (run_ok_from ops []). split_and!; [intros now key; apply Hc|by exists []|done].
Qed.

(** The last value under a key is that of the last command with this key. *)
Lemma latest_split key log v e :
  latest key log = Some (v, e) ->
  exists before after, log = before ++ (e - ttl_, key, v) :: after /\
    Forall (fun x => x.1.2 <> key) after.
Proof using.
  induction log as [|[[now k] value] log IH] using rev_ind; [done|]. rewrite latest_snoc.
  destruct (String.eqb_spec k key) as [->|Hne].
  - intros [= -> <-]. exists log, []. split; [|constructor]. by rewrite Z.add_simpl_r.
  - intros (before & after & -> & Ha)%IH. exists before, (after ++ [(now, k, value)]).
    split; [by rewrite <- app_assoc|]. apply Forall_app. split; [done|]. by constructor.
Qed.

(** C27. The cache is never older than its time to live.  A command that throws
    may have been sent, and the server executes it at any later time or never.
    However the calls, the failures of the pool and the server, and these late
    executions follow each other: what [get] answers for a key is the value of the
    last SETEX of that key that the server executed, which was less than [ttl]
    seconds before; the commands executed are those of calls of [set], none twice;
    and those whose call returned true are among them, in order and at the time of
    the call, so that an answer is not older than the last [set] of the key that
    succeeded.  A call that fails answers nothing. *)
Theorem cache_bounded_staleness ops c now key :
  (forall now key, redis_get now key (redis c) = None) ->
  let x := run ops c in
  (exists others, map key_value (executed x) ++ others ≡ₚ sets_of ops) /\
  successes x `sublist_of` executed x /\
  match (get now key (now_ x)).1 with
  | Some v => exists t before after,
      executed x = before ++ (t, key, v) :: after /\ Forall (fun y => y.1.2 <> key) after /\
      now < t + ttl_
  | None => True
  end.
Proof using All.
  intros Hc x. destruct (run_ok ops c Hc) as (Hs & [unsent Hp] & Hsub). fold x in Hs, Hp, Hsub.
  split_and!; [by eexists|done|].
  destruct (get_server now key (now_ x)) as [[E|E] _]; rewrite E; [done|]. rewrite Hs.
  unfold expected. destruct (latest key (executed x)) as [[v e]|] eqn:El; [|done]. cbn [mbind option_bind].
  destruct (now <? e) eqn:En; [|done]. to_props.
  destruct (latest_split _ _ _ _ El) as (before & after & Eb & Ha). exists (e - ttl_), before, after.
  split_and!; [done|done|lia].
Qed.

(** A call gives its connection back: the entries in use after it were in use
    before. *)
Theorem cache_returns_connection {A} now (command : server -> A * server) p w s c' :
  ledger_ok redis_kind (handles (entries p)) w -> Forall entry_ok (entries p) ->
  Z.of_nat (length (entries p)) <= maxSize p ->
  (with_connection now command (mk_cache (Some p) w s)).2 = c' ->
  exists p', pool_ c' = Some p' /\
    forall i e', entries p' !! i = Some e' -> inUse e' = true ->
      exists e, entries p !! i = Some e /\ inUse e = true.
Proof using.
  intros Hl Hok Hm <-. unfold with_connection; cbn. unfold acquire.
  destruct (acquire_turn redis_kind p now w) as [[o p1] w1] eqn:Ea.
  pose proof (acquire_turn_in_use _ _ _ _ _ _ _ Ea) as Hu.
  destruct o as [i [h|]| |].
  - assert (Hrel : forall good w2 p3 w3, release redis_kind p1 i good now w2 = (p3, w3) ->
      forall j e', entries p3 !! j = Some e' -> inUse e' = true ->
      exists e, entries p !! j = Some e /\ inUse e = true).
    { intros good w2 p3 w3 Hr j e' Hj He'. destruct (release_in_use _ _ _ _ _ _ _ _ Hr _ _ Hj He') as [Hne Hj1].
      destruct (Hu _ _ Hj1 He') as [?|[h' [= -> _]]]; done. }
    destruct (ask w1) as [[] w2].
    + destruct (command s) as [a s']. destruct (release _ _ _ true _ _) as [p3 w3] eqn:Er. cbn. eauto.
    + destruct (release _ _ _ false _ _) as [p3 w3] eqn:Er. cbn. eauto.
  - destruct (acquire_turn_spec redis_kind _ _ _ _ _ _ Hl Hok Hm Ea) as (_ & _ & _ & _ & Hg).
    by destruct (Hg _ _ eq_refl) as (_ & e' & h & _ & _ & _ & ?).
  - exists p1. split; [done|]. intros i e' Hi He'. destruct (Hu _ _ Hi He') as [?|[? ?]]; done.
  - exists p1. split; [done|]. intros i e' Hi He'. destruct (Hu _ _ Hi He') as [?|[? ?]]; done.
Qed.
End Server.
Arguments cache : clear implicits.
Arguments Answered {A} a.
Arguments Threw {A}.
Arguments NotSent {A}.

(** ** The theorems at concrete inputs *)

(** A started pool of one connection in front of an empty server. *)
Definition fresh_cache (answers : list bool) : cache (gmap string (string * Z)) :=
  let '(p, w) := start redis_kind (make_pool 1 1 60) 0 (new_world answers) in
  mk_cache (Some p) w ∅.

(** The second [set] throws, and the server executes it at 30. *)
Lemma cache_bounded_staleness_witness :
  let ops := [OSet 0 "k" "v"; OSet 10 "k" "w"; OLate 30 0; OGet 40 "k"] in
  let x := run 60 ops (fresh_cache [true; true; false; true; true; true; true]) in
  successes x = [(0, "k", "v")] /\ (get 89 "k" (now_ x)).1 = Some "w" /\
  (exists t before after, executed x = before ++ (t, "k", "w") :: after /\
     Forall (fun y => y.1.2 <> "k") after /\ 89 < t + 60) /\
  (get 90 "k" (now_ x)).1 = None.
Proof.
  intros ops x.
  pose proof (cache_bounded_staleness 60 ops (fresh_cache [true; true; false; true; true; true; true])
    89 "k" (fun _ _ => eq_refl)) as (_ & _ & H).
  split; [by vm_compute|]. split; [by vm_compute|]. split; [exact H|by vm_compute].
Defined.

(** The late execution may also undo a [set] that succeeded since. *)
Theorem late_set_overwrites :
  let x := run 60 [OSet 0 "k" "old"; OSet 10 "k" "new"; OLate 20 0]
             (fresh_cache [true; false; true; true; true; true; true]) in
  successes x = [(10, "k", "new")] /\ (get 30 "k" (now_ x)).1 = Some "old".
Proof. by vm_compute. Qed.

Lemma cache_returns_connection_witness :
  exists c' p', c' = (with_connection 5 (fun s => (tt, s)) (fresh_cache [true; false])).2 /\
    pool_ c' = Some p' /\ forall i e', entries p' !! i = Some e' -> inUse e' = false.
Proof.
  destruct (pool_started_inv redis_kind 1 1 60 0 [true; false] 0) as [(Hl & Hok & Hm & _) _].
  destruct (cache_returns_connection 5 (fun s : gmap string (string * Z) => (tt, s)) _ _ ∅ _ Hl Hok Hm eq_refl) as (p' & Hp & Hu).
  eexists _, p'. split; [reflexivity|]. split; [exact Hp|]. intros i e' Hi.
  destruct (inUse e') eqn:Eu; [|done]. destruct (Hu i e' Hi Eu) as (e & He & He').
  destruct i as [|i]; [injection He as <-; done|done].
Defined.

(** One command that throws is counted twice in [redis_errors]: by [set], and
    again by [release] of the guard that [set] marked unhealthy. *)
Theorem failed_command_counted_twice now key value ttl :
  let '(ok, c) := set ttl now key value (fresh_cache [true; false]) in
  ok = false /\ errors (net c) = 2.
Proof. by vm_compute. Qed.
