(* ===== verification/HostManager.v ===== *)
(** * HostManager: admission, scoring and queueing of monitor data

    [src/manager/src/HostManager.cpp] and [HostManager.h] up to the writing of
    the samples to MySQL: which workers are accepted ([resolveWorkerScope]),
    the score of a host, [onDataReceived], the bounded write queue, the removal
    of stale hosts and [getBestHost]; with [WorkerIdentity.h].

    MySQL is outside: [db] answers a query text, [escape] is
    [mysql_real_escape_string], [show] prints a [double] as a stream does. *)

From S2P Require Import Prelude CFloat CString ManagerConfig Messages Dispatcher.

(** ** WorkerIdentity.h *)

Record WorkerIdentity := mk_WorkerIdentity { worker_id : string; worker_token : string }.

Record WorkerScope := mk_WorkerScope {
  tenant_id : string; team_id : string; cluster_id : string; server_id : Z }.

(** ** HostManager.h *)

Record HostScore := mk_HostScore {
  info : MonitorInfo.t; score : f64; timestamp : Z (* system clock, nanoseconds *) }.

Record HostMonitoringData := mk_HostMonitoringData {
  host_name : string; scope : WorkerScope; host_score : HostScore;
  net_in_rate : f64; net_out_rate : f64;
  cpu_percent_rate : f32; usr_percent_rate : f32; system_percent_rate : f32;
  nice_percent_rate : f32; idle_percent_rate : f32; io_wait_percent_rate : f32;
  irq_percent_rate : f32; soft_irq_percent_rate : f32; steal_percent_rate : f32;
  guest_percent_rate : f32; guest_nice_percent_rate : f32;
  load_avg_1_rate : f32; load_avg_3_rate : f32; load_avg_15_rate : f32;
  mem_used_percent_rate : f32; mem_total_rate : f32; mem_free_rate : f32; mem_avail_rate : f32;
  net_in_rate_rate : f32; net_out_rate_rate : f32;
  net_in_drop_rate_rate : f32; net_out_drop_rate_rate : f32 }.

(** ** The aggregate CPU entry and the number of cores *)

Fixpoint find_aggregate (cpus : list CpuStat.t) (legacyCpu : option CpuStat.t)
    : option CpuStat.t * bool :=
  match cpus with
  | [] => (legacyCpu, false)
  | cpu :: rest =>
      if String.eqb (CpuStat.cpu_name cpu) "all" then (Some cpu, true)
      else
        match legacyCpu with
        | None => find_aggregate rest
                    (if String.eqb (CpuStat.cpu_name cpu) "cpu" then Some cpu else None)
        | Some _ => find_aggregate rest legacyCpu
        end
  end.

Definition selectAggregateCpuStat (i : MonitorInfo.t) : option CpuStat.t :=
  match find_aggregate (MonitorInfo.cpu_stat i) None with
  | (Some cpu, _) => Some cpu
  | (None, _) => head (MonitorInfo.cpu_stat i)
  end.

(** [name.size() > 3], the prefix "cpu", and only digits after it. *)
Definition isPerCoreCpuName (name : string) : bool :=
  match name with
  | String a (String b (String c rest)) =>
      String.eqb (String a (String b (String c EmptyString))) "cpu" &&
      negb (is_empty rest) && str_all is_digit rest
  | _ => false
  end.

Definition countCpuCores (i : MonitorInfo.t) : Z :=
  let cores := Z.of_nat (length
    (filter (fun cpu => isPerCoreCpuName (CpuStat.cpu_name cpu) = true) (MonitorInfo.cpu_stat i))) in
  if 0 <? cores then cores else 1.

(** ** The score *)

Definition fone : f64 := f64_of_Z 1.
Definition fhundred : f64 := f64_of_Z 100.

Definition clamp (value : f64) : f64 :=
  if flt value fzero then fzero else if fgt value fone then fone else value.

(** The weights, the I/O factor and the bandwidth of the source. *)
Definition cpuWeight : f64 := f64_lit 35 100.
Definition memWeight : f64 := f64_lit 30 100.
Definition loadWeight : f64 := f64_lit 15 100.
Definition diskWeight : f64 := f64_lit 15 100.
Definition netWeight : f64 := f64_lit 5 100.
Definition loadCoefficient : f64 := f64_lit 3 2.
Definition maxBandWidth : f64 := f64_of_Z 125000000.

Definition max_disk_util (disks : list DiskInfo.t) : f64 :=
  foldl (fun diskUtil d =>
    let util := DiskInfo.util_percent d in if fgt util diskUtil then util else diskUtil)
    fzero disks.

(** The inputs of the score. *)
Definition cpu_percent_of (i : MonitorInfo.t) : f64 :=
  match selectAggregateCpuStat i with
  | Some cpu => f64_of_f32 (CpuStat.cpu_percent cpu) | None => fzero end.
Definition cpu_cores_of (i : MonitorInfo.t) : Z :=
  match selectAggregateCpuStat i with Some _ => countCpuCores i | None => 1 end.
Definition load_of (i : MonitorInfo.t) : f64 :=
  match MonitorInfo.cpu_load i with
  | Some l => f64_of_f32 (CpuLoad.load_avg_1 l) | None => fzero end.
Definition mem_percent_of (i : MonitorInfo.t) : f64 :=
  match MonitorInfo.mem_info i with
  | Some m => f64_of_f32 (MemInfo.used_percent m) | None => fzero end.
Definition rcv_rate_of (i : MonitorInfo.t) : f64 :=
  match MonitorInfo.net_info i with
  | n :: _ => f64_of_f32 (NetInfo.rcv_rate n) | [] => fzero end.
Definition send_rate_of (i : MonitorInfo.t) : f64 :=
  match MonitorInfo.net_info i with
  | n :: _ => f64_of_f32 (NetInfo.send_rate n) | [] => fzero end.

Definition calculateScore (i : MonitorInfo.t) : f64 :=
  let part x limit := clamp (f64_sub fone (f64_div x limit)) in
  let cpuScore := part (cpu_percent_of i) fhundred in
  let memScore := part (mem_percent_of i) fhundred in
  let loadScore := part (load_of i) (f64_mul (f64_of_Z (cpu_cores_of i)) loadCoefficient) in
  let diskScore := part (max_disk_util (MonitorInfo.disk_info i)) fhundred in
  let netRecvScore := part (rcv_rate_of i) maxBandWidth in
  let netSendScore := part (send_rate_of i) maxBandWidth in
  let netScore := f64_div (f64_add netRecvScore netSendScore) (f64_of_Z 2) in
  let score :=
    f64_add (f64_add (f64_add (f64_add
      (f64_mul cpuWeight cpuScore) (f64_mul memWeight memScore))
      (f64_mul loadWeight loadScore)) (f64_mul diskWeight diskScore))
      (f64_mul netWeight netScore) in
  let score := f64_mul score fhundred in
  if flt score fzero then fzero else if fgt score fhundred then fhundred else score.

(** ** The host's identifier *)

Definition hostID (i : MonitorInfo.t) : string :=
  let id :=
    match MonitorInfo.host_info i with
    | Some h =>
        let hostName := HostInfo.hostname h in
        let ip := HostInfo.ip_address h in
        if negb (is_empty hostName) && negb (is_empty ip) then hostName +++ "_" +++ ip
        else if negb (is_empty ip) then ip
        else if negb (is_empty hostName) then hostName
        else ""
    | None => ""
    end in
  if is_empty id then MonitorInfo.name i else id.

(** ** Change rates *)

Record PerfSample := mk_PerfSample {
  cpu_percent : f32; usr_percent : f32; system_percent : f32; nice_percent : f32;
  idle_percent : f32; io_wait_percent : f32; irq_percent : f32; soft_irq_percent : f32;
  load_avg_1 : f32; load_avg_3 : f32; load_avg_15 : f32;
  mem_used_percent : f32; mem_total : f32; mem_free : f32; mem_avail : f32;
  p_net_in_rate : f32; p_net_out_rate : f32; p_score : f32 }.

Definition zero_sample : PerfSample :=
  mk_PerfSample fzero fzero fzero fzero fzero fzero fzero fzero fzero fzero fzero fzero
    fzero fzero fzero fzero fzero fzero.

(** [rate]: the relative change, 0 when there was nothing before. *)
Definition rate (nowVal lastVal : f32) : f32 :=
  if feq lastVal fzero then fzero else f32_div (f32_sub nowVal lastVal) lastVal.

(** A rate in MB/s. *)
Definition to_MB (r : f64) : f64 := f64_div r (f64_of_Z 1048576).

Definition curr_sample (i : MonitorInfo.t) (score : f64) : PerfSample :=
  let cpu := default CpuStat.empty (selectAggregateCpuStat i) in
  let load := get_cpu_load i in
  let mem := get_mem_info i in
  {| cpu_percent := CpuStat.cpu_percent cpu; usr_percent := CpuStat.usr_percent cpu;
     system_percent := CpuStat.system_percent cpu; nice_percent := CpuStat.nice_percent cpu;
     idle_percent := CpuStat.idle_percent cpu; io_wait_percent := CpuStat.io_wait_percent cpu;
     irq_percent := CpuStat.irq_percent cpu; soft_irq_percent := CpuStat.soft_irq_percent cpu;
     load_avg_1 := CpuLoad.load_avg_1 load; load_avg_3 := CpuLoad.load_avg_3 load;
     load_avg_15 := CpuLoad.load_avg_15 load;
     mem_used_percent := MemInfo.used_percent mem; mem_total := MemInfo.total mem;
     mem_free := MemInfo.free mem; mem_avail := MemInfo.avail mem;
     p_net_in_rate := f32_of_f64 (to_MB (rcv_rate_of i));
     p_net_out_rate := f32_of_f64 (to_MB (send_rate_of i));
     p_score := f32_of_f64 score |}.

(** The record queued for MySQL. *)
Definition monitoring_data (id : string) (sc : WorkerScope) (hs : HostScore)
    (curr last : PerfSample) : HostMonitoringData :=
  {| host_name := id; scope := sc; host_score := hs;
     net_in_rate := f64_of_f32 (p_net_in_rate curr);
     net_out_rate := f64_of_f32 (p_net_out_rate curr);
     cpu_percent_rate := rate (cpu_percent curr) (cpu_percent last);
     usr_percent_rate := rate (usr_percent curr) (usr_percent last);
     system_percent_rate := rate (system_percent curr) (system_percent last);
     nice_percent_rate := rate (nice_percent curr) (nice_percent last);
     idle_percent_rate := rate (idle_percent curr) (idle_percent last);
     io_wait_percent_rate := rate (io_wait_percent curr) (io_wait_percent last);
     irq_percent_rate := rate (irq_percent curr) (irq_percent last);
     soft_irq_percent_rate := rate (soft_irq_percent curr) (soft_irq_percent last);
     steal_percent_rate := fzero; guest_percent_rate := fzero; guest_nice_percent_rate := fzero;
     load_avg_1_rate := rate (load_avg_1 curr) (load_avg_1 last);
     load_avg_3_rate := rate (load_avg_3 curr) (load_avg_3 last);
     load_avg_15_rate := rate (load_avg_15 curr) (load_avg_15 last);
     mem_used_percent_rate := rate (mem_used_percent curr) (mem_used_percent last);
     mem_total_rate := rate (mem_total curr) (mem_total last);
     mem_free_rate := rate (mem_free curr) (mem_free last);
     mem_avail_rate := rate (mem_avail curr) (mem_avail last);
     net_in_rate_rate := rate (p_net_in_rate curr) (p_net_in_rate last);
     net_out_rate_rate := rate (p_net_out_rate curr) (p_net_out_rate last);
     net_in_drop_rate_rate := fzero; net_out_drop_rate_rate := fzero |}.

(** ** The manager's state *)

Record state := mk_state {
  hostScores_ : gmap string HostScore;
  lastPerfSamples : gmap string PerfSample;
  mysqlWriteQueue_ : list HostMonitoringData;
  redis_commands : list (string * string);     (* the SETEX commands sent *)
  dropped : Z                                  (* dropped_monitor_samples *)
}.

Definition count_dropped (st : state) : state :=
  mk_state (hostScores_ st) (lastPerfSamples st) (mysqlWriteQueue_ st) (redis_commands st)
    (dropped st + 1).

Definition enqueueMysqlWrite (cfg : ManagerConfig) (data : HostMonitoringData) (st : state) : state :=
  let capacity := Z.max 1 (task_queue_capacity cfg) in
  let st :=
    if capacity <=? Z.of_nat (length (mysqlWriteQueue_ st))
    then count_dropped (mk_state (hostScores_ st) (lastPerfSamples st)
           (tail (mysqlWriteQueue_ st)) (redis_commands st) (dropped st))
    else st in
  mk_state (hostScores_ st) (lastPerfSamples st) (mysqlWriteQueue_ st ++ [data])
    (redis_commands st) (dropped st).

(** One turn of [mysqlWriteLoop] with the queue's mutex: the record to write,
    whether the thread returns, and the queue. *)
Inductive turn := Return | Continue | Write (data : HostMonitoringData).

Definition mysqlWriteLoop_turn (running : bool) (st : state) : turn * state :=
  match mysqlWriteQueue_ st with
  | [] => (if running then Continue else Return, st)
  | data :: rest =>
      (Write data, mk_state (hostScores_ st) (lastPerfSamples st) rest (redis_commands st) (dropped st))
  end.

(** The body of [processLoop] after its sleep. *)
Definition age_seconds (now t : Z) : Z := Z.quot (now - t) 1000000000.

Definition remove_stale (now : Z) (scores : gmap string HostScore) : gmap string HostScore :=
  filter (fun kv => ~ 60 < age_seconds now (timestamp kv.2)) scores.

Definition getAllHostScores (st : state) : gmap string HostScore := hostScores_ st.

(** [getBestHost] over the hosts in the order the hash map walks them. *)
Definition better (best : string * f64) (entry : string * HostScore) : string * f64 :=
  if fgt (score entry.2) best.2 then (entry.1, score entry.2) else best.

Definition getBestHost (entries : list (string * HostScore)) : string :=
  (foldl better ("", f64_of_Z INT_MIN) entries).1.

Section Admission.
(** The outcome of [mysql_query] and [mysql_store_result]. *)
Inductive select_outcome :=
| QueryError
| NoResult
| Rows (rows : list (list (option string))).

Variable db : string -> select_outcome.
Variable escape : string -> string.
Variable show : f64 -> string.

Definition quoteSqlString (value : string) : string := "'" +++ escape value +++ "'".

Definition registry_query (id : string) : string :=
  "SELECT tenant_id, team_id, cluster_id, COALESCE(server_id, 0), token_hash " +++
  "FROM worker_registrations WHERE worker_id=" +++ quoteSqlString id +++
  " AND status='active' LIMIT 1".

(** [row[i] ? row[i] : ""]. *)
Definition field (row : list (option string)) (i : nat) : string :=
  default "" (default None (row !! i)).

(** [connected]: the pool is configured and gave a connection. *)
Definition resolveWorkerScope (connected : bool) (w : WorkerIdentity) : option WorkerScope :=
  if is_empty (worker_id w) then None
  else if negb connected then None
  else
    match db (registry_query (worker_id w)) with
    | QueryError | NoResult | Rows [] => None
    | Rows (row :: _) =>
        let expectedToken := field row 4 in
        if negb (is_empty expectedToken) && negb (String.eqb expectedToken (worker_token w))
        then None
        else
          let sc := mk_WorkerScope (field row 0) (field row 1) (field row 2)
                      (match strtoul (field row 3) with Some (v, _) => v | None => 0 end) in
          if negb (is_empty (tenant_id sc)) && negb (is_empty (team_id sc)) &&
             negb (is_empty (cluster_id sc))
          then Some sc else None
    end.

(** The JSON text of the latest score. *)
Definition score_json (id : string) (s : f64) : string :=
  "{" +++ dquote +++ "server_name" +++ dquote +++ ":" +++ dquote +++ id +++ dquote +++ "," +++
  dquote +++ "score" +++ dquote +++ ":" +++ show s +++ "}".

(** [redis]: the cache is configured. *)
Definition onDataReceived (cfg : ManagerConfig) (connected redis : bool) (now : Z)
    (i : MonitorInfo.t) (w : WorkerIdentity) (st : state) : state :=
  match resolveWorkerScope connected w with
  | None => count_dropped st
  | Some sc =>
      let id := hostID i in
      if is_empty id then st
      else
        let s := calculateScore i in
        let curr := curr_sample i s in
        let last := default zero_sample (lastPerfSamples st !! id) in
        let hs := mk_HostScore i s now in
        let data := monitoring_data id sc hs curr last in
        enqueueMysqlWrite cfg data
          (mk_state (<[id := hs]> (hostScores_ st)) (<[id := curr]> (lastPerfSamples st))
             (mysqlWriteQueue_ st)
             (if redis
              then redis_commands st ++ [("manager:latest_score:" +++ id, score_json id s)]
              else redis_commands st)
             (dropped st))
  end.
End Admission.

(** ** The score lies between 0 and 100 *)

Section Score.
Implicit Types i : MonitorInfo.t.

Lemma clamp_nonneg x : is_nan x = false -> nonneg (clamp x) = true.
Proof.
  intros Hx. unfold clamp. destruct (flt x fzero) eqn:E; [done|].
  destruct (fgt x fone); [done|]. by apply not_flt_zero_nonneg.
Qed.

Lemma part_nonneg x d :
  is_nan x = false ->
  (exists s m e, d = S754_finite s m e) ->
  nonneg (clamp (f64_sub fone (f64_div x d))) = true.
Proof.
  intros Hx (s & m & e & ->). apply clamp_nonneg. unfold f64_sub, f64_div.
  apply SFsub_not_nan; [done|]. by apply SFdiv_not_nan.
Qed.

(** The divisor of the load, for machines of up to 8192 cores. *)
Definition max_cores : Z := 8192.

Lemma load_divisor_finite c :
  1 <= c <= max_cores ->
  exists s m e, f64_mul (f64_of_Z c) loadCoefficient = S754_finite s m e.
Proof.
  intros Hc.
  assert (H : forallb (fun n => match f64_mul (f64_of_Z (Z.of_nat n)) loadCoefficient with
                                | S754_finite _ _ _ => true | _ => false end)
                (seq 1 (Z.to_nat max_cores)) = true) by (vm_compute; reflexivity).
  rewrite forallb_forall in H. specialize (H (Z.to_nat c)).
  rewrite Z2Nat.id in H by lia.
  destruct (f64_mul (f64_of_Z c) loadCoefficient) as [| | |s m e]; try eauto;
    (exfalso; cut (false = true); [done|]; apply H, in_seq; lia).
Qed.

(** The inputs of the score that the worker sends are numbers. *)
Definition numeric_inputs i : Prop :=
  is_nan (cpu_percent_of i) = false /\ is_nan (load_of i) = false /\
  is_nan (mem_percent_of i) = false /\ is_nan (rcv_rate_of i) = false /\
  is_nan (send_rate_of i) = false.

(** A NaN never becomes the largest utilisation. *)
Lemma max_disk_util_not_nan disks : is_nan (max_disk_util disks) = false.
Proof.
  unfold max_disk_util.
  assert (H : forall acc, is_nan acc = false -> is_nan (foldl (fun diskUtil d =>
    let util := DiskInfo.util_percent d in if fgt util diskUtil then util else diskUtil)
    acc disks) = false); [|by apply H].
  induction disks as [|d ds IH]; intros acc Hacc; [done|]. cbn. apply IH.
  destruct (fgt _ acc) eqn:E; [|done]. by destruct (flt_not_nan _ _ E).
Qed.

Lemma cpu_cores_pos i : 1 <= cpu_cores_of i.
Proof.
  unfold cpu_cores_of, countCpuCores. destruct (selectAggregateCpuStat i); [|lia].
  break_if; to_props; lia.
Qed.

Lemma nonneg_times_100 x : nonneg x = true -> nonneg (f64_mul x fhundred) = true.
Proof. apply SFmul_nonneg_pos. Qed.

Lemma net_score_nonneg x y :
  nonneg x = true -> nonneg y = true ->
  nonneg (f64_div (f64_add x y) (f64_of_Z 2)) = true.
Proof. intros. by apply SFdiv_nonneg_pos, SFadd_nonneg. Qed.

(** The last line of [calculateScore]. *)
Lemma final_clamp x :
  is_nan x = false ->
  let r := if flt x fzero then fzero else if fgt x fhundred then fhundred else x in
  fle fzero r = true /\ fle r fhundred = true.
Proof.
  intros Hx r. unfold r. destruct (flt x fzero) eqn:E0; [done|].
  destruct (fgt x fhundred) eqn:E1; [done|].
  split; apply not_flt_fle; done.
Qed.
End Score.

Ltac part_tac := apply part_nonneg; [done | first [ by apply load_divisor_finite | by do 3 eexists ]].

(** C15. The score of a host whose measurements are numbers is a number between
    0 and 100, whatever the measurements are: negative, infinite or above their
    nominal range. *)
Theorem score_in_range i :
  numeric_inputs i -> cpu_cores_of i <= max_cores ->
  fle fzero (calculateScore i) = true /\ fle (calculateScore i) fhundred = true.
Proof.
  intros (Hcpu & Hload & Hmem & Hrcv & Hsend) Hcores.
  pose proof (cpu_cores_pos i) as Hpos.
  pose proof (max_disk_util_not_nan (MonitorInfo.disk_info i)) as Hdisk.
  unfold calculateScore. apply final_clamp, nonneg_not_nan, nonneg_times_100.
  repeat apply SFadd_nonneg.
  1-4: apply SFmul_pos_nonneg; part_tac.
  apply SFmul_pos_nonneg, net_score_nonneg; part_tac.
Qed.

(** A sample of one aggregate entry and two cores, with negative, infinite and
    excessive measurements. *)
Definition sample_cpu (name : string) (percent : f32) : CpuStat.t :=
  CpuStat.mk name percent fzero fzero fzero fzero fzero fzero fzero.

Definition sample_info : MonitorInfo.t :=
  MonitorInfo.mk "legacy" (Some (HostInfo.mk "web" "10.0.0.1")) []
    (Some (CpuLoad.mk (f32_of_Z 9) fzero fzero))
    [sample_cpu "cpu0" (f32_of_Z 10); sample_cpu "all" (f32_of_Z (-40)); sample_cpu "cpu1" fzero]
    None
    [NetInfo.mk "eth0" (S754_infinity false) (f32_of_Z 100) fzero fzero 0 0 0 0] [] [] [].

Lemma score_in_range_witness :
  numeric_inputs sample_info /\ cpu_cores_of sample_info = 2 /\
  fle fzero (calculateScore sample_info) = true /\
  fle (calculateScore sample_info) fhundred = true.
Proof.
  split; [by vm_compute|]. split; [done|].
  by apply (score_in_range sample_info); vm_compute.
Defined.

(** ** The best host *)

Section BestHost.
Implicit Types (e : string * HostScore) (best : string * f64).

Lemma better_cases best e :
  (better best e = (e.1, score e.2) /\ flt best.2 (score e.2) = true) \/
  (better best e = best /\ flt best.2 (score e.2) = false).
Proof.
  unfold better. change (fgt (score e.2) best.2) with (flt best.2 (score e.2)).
  destruct (flt _ _); auto.
Qed.

Lemma not_flt_trans x y z : flt y x = false -> flt y z = true -> flt z x = false.
Proof.
  intros H Hyz. apply not_true_is_false. intros Hzx.
  by rewrite (flt_trans _ _ _ Hyz Hzx) in H.
Qed.

(** No host beats the result, which is one of the hosts or the start. *)
Lemma best_fold entries : forall best r,
  foldl better best entries = r ->
  (r = best \/ exists e, e ∈ entries /\ r = (e.1, score e.2)) /\
  (r = best \/ flt best.2 r.2 = true) /\
  forall e, e ∈ entries -> flt r.2 (score e.2) = false.
Proof.
  induction entries as [|e es IH]; intros best r Hr.
  - subst. split; [by left|]. split; [by left|]. intros e He. by apply not_elem_of_nil in He.
  - cbn [foldl] in Hr. destruct (IH _ _ Hr) as (Hin & Hlt & Hmax).
    setoid_rewrite elem_of_cons.
    destruct (better_cases best e) as [[Hb E]|[Hb E]]; rewrite Hb in *.
    + split; [destruct Hin as [->|(e' & ? & ->)]; eauto|].
      split; [destruct Hlt as [->|Hlt]; eauto using flt_trans|].
      intros e' [->|He']; [|by apply Hmax].
      destruct Hlt as [->|Hlt]; [apply flt_irrefl|].
      eapply not_flt_trans; [apply flt_irrefl|done].
    + split; [destruct Hin as [->|(e' & ? & ->)]; eauto|]. split; [done|].
      intros e' [->|He']; [|by apply Hmax].
      destruct Hlt as [->|Hlt]; [done|]. by eapply not_flt_trans.
Qed.
End BestHost.

(** In whatever order the hash map walks the hosts, [getBestHost] names a
    host that no host beats, or returns the empty name when no host has a score
    that is a number above [INT_MIN]; a host with a NaN score is never chosen. *)
Theorem best_host_maximal entries :
  (exists hs, (getBestHost entries, hs) ∈ entries /\
     is_nan (score hs) = false /\
     forall e, e ∈ entries -> fgt (score e.2) (score hs) = false) \/
  (getBestHost entries = "" /\
     forall e, e ∈ entries -> fgt (score e.2) (f64_of_Z INT_MIN) = false).
Proof.
  unfold getBestHost, fgt.
  destruct (best_fold entries ("", f64_of_Z INT_MIN) _ eq_refl) as (Hin & Hlt & Hmax).
  destruct Hin as [Hr|(e & He & Hr)].
  - right. rewrite Hr in *. done.
  - destruct Hlt as [Hr'|Hlt]; [right; rewrite Hr' in *; done|].
    left. exists e.2. rewrite Hr in *. destruct (flt_not_nan _ _ Hlt) as [_ Hn].
    split; [by destruct e|]. done.
Qed.

(** ** Stale hosts *)

(** A sweep of [processLoop] removes exactly the hosts whose last sample is
    at least 61 seconds old (the age is truncated to whole seconds before it is
    compared with 60), and leaves the scores of the others as they are. *)
Lemma remove_stale_exact now scores id hs :
  remove_stale now scores !! id = Some hs <->
  scores !! id = Some hs /\ now - timestamp hs < 61 * 10 ^ 9.
Proof.
  unfold remove_stale, age_seconds. rewrite map_lookup_filter_Some. cbn.
  split; intros [H Ha]; (split; [done|]); Z.to_euclidean_division_equations; lia.
Qed.

(** ** The write queue *)

Section WriteQueue.
Variable cfg : ManagerConfig.

Definition capacity : nat := Z.to_nat (Z.max 1 (task_queue_capacity cfg)).

(** What happens to the queue: a sample arrives, or a writer takes one. *)
Inductive queue_op := Arrive (data : HostMonitoringData) | Take (running : bool).

(** The samples taken so far, and the state. *)
Definition queue_step (s : list HostMonitoringData * state) (op : queue_op)
    : list HostMonitoringData * state :=
  match op with
  | Arrive data => (s.1, enqueueMysqlWrite cfg data s.2)
  | Take running =>
      match mysqlWriteLoop_turn running s.2 with
      | (Write data, st) => (s.1 ++ [data], st)
      | (_, st) => (s.1, st)
      end
  end.

Definition arrivals (ops : list queue_op) : list HostMonitoringData :=
  omap (fun op => match op with Arrive data => Some data | Take _ => None end) ops.

(** The taken and the queued samples are the arrivals, in order, without
    the dropped ones. *)
Definition queue_inv (before : Z) (arrived : list HostMonitoringData)
    (s : list HostMonitoringData * state) : Prop :=
  (s.1 ++ mysqlWriteQueue_ s.2) `sublist_of` arrived /\
  Z.of_nat (length arrived) =
    Z.of_nat (length s.1 + length (mysqlWriteQueue_ s.2)) + (dropped s.2 - before) /\
  (length (mysqlWriteQueue_ s.2) <= capacity)%nat.

Lemma enqueue_inv before arrived s data :
  queue_inv before arrived s ->
  queue_inv before (arrived ++ [data]) (s.1, enqueueMysqlWrite cfg data s.2).
Proof.
  destruct s as [written st]. unfold queue_inv, enqueueMysqlWrite, capacity; cbn.
  intros (Hsub & Hlen & Hcap). destruct (_ <=? _) eqn:E; to_props; cbn;
    rewrite !List.length_app; cbn; rewrite app_assoc.
  - destruct (mysqlWriteQueue_ st) as [|d q]; cbn in *; [lia|].
    split; [|lia]. apply sublist_app; [|done]. etrans; [|done].
    by apply sublist_app, sublist_cons.
  - split; [|lia]. by apply sublist_app.
Qed.

Lemma take_inv before arrived s running :
  queue_inv before arrived s -> queue_inv before arrived (queue_step s (Take running)).
Proof.
  destruct s as [written st]. unfold queue_inv; cbn. unfold mysqlWriteLoop_turn.
  destruct (mysqlWriteQueue_ st) as [|d q] eqn:Eq.
  - destruct running; cbn; rewrite Eq; done.
  - intros (? & ? & ?). cbn in *. rewrite List.length_app, <- app_assoc. cbn. split; [done|]. lia.
Qed.

Lemma queue_run_inv ops : forall before arrived s,
  queue_inv before arrived s ->
  queue_inv before (arrived ++ arrivals ops) (foldl queue_step s ops).
Proof.
  induction ops as [|[data|running] ops IH]; intros before arrived s H.
  - by rewrite app_nil_r.
  - change (arrivals (Arrive data :: ops)) with ([data] ++ arrivals ops).
    rewrite app_assoc. by apply IH, enqueue_inv.
  - by apply IH, take_inv.
Qed.
End WriteQueue.

(** C13. Whatever the order in which samples arrive and the writer threads take
    them, the queue never holds more than its capacity, the samples are taken
    in the order of their arrival and at most once, and every one that is
    neither taken nor queued is counted in [dropped_monitor_samples]. *)
Theorem write_queue_conserves cfg ops st :
  mysqlWriteQueue_ st = [] ->
  let r := foldl (queue_step cfg) ([], st) ops in
  (r.1 ++ mysqlWriteQueue_ r.2) `sublist_of` arrivals ops /\
  dropped r.2 - dropped st =
    Z.of_nat (length (arrivals ops)) - Z.of_nat (length r.1 + length (mysqlWriteQueue_ r.2)) /\
  (length (mysqlWriteQueue_ r.2) <= capacity cfg)%nat.
Proof.
  intros Hq r.
  assert (H0 : queue_inv cfg (dropped st) [] ([], st)).
  { unfold queue_inv; cbn. rewrite Hq; cbn. split; [done|]. lia. }
  destruct (queue_run_inv cfg ops _ _ _ H0) as (? & Hlen & ?).
  split; [done|]. split; [|done]. subst r. cbn [app] in Hlen. lia.
Qed.


(** A capacity of two, three arrivals, one sample taken. *)
Definition sample_data (id : string) : HostMonitoringData :=
  monitoring_data id (mk_WorkerScope "t" "a" "c" 0)
    (mk_HostScore sample_info (calculateScore sample_info) 0) zero_sample zero_sample.

Definition empty_state : state := mk_state ∅ ∅ [] [] 0.

Definition queue_of_two : ManagerConfig :=
  loadManagerConfigFromEnv (fun name => if String.eqb name "MANAGER_TASK_QUEUE_CAPACITY" then Some "2" else None) 4.

Lemma write_queue_conserves_witness :
  mysqlWriteQueue_ empty_state = [] /\
  let ops := [Arrive (sample_data "a"); Arrive (sample_data "b"); Arrive (sample_data "c");
              Take true] in
  let r := foldl (queue_step queue_of_two) ([], empty_state) ops in
  map host_name r.1 = ["b"] /\ dropped r.2 = 1 /\
  (length (mysqlWriteQueue_ r.2) <= capacity queue_of_two)%nat.
Proof.
  split; [done|]. cbv zeta. split; [by vm_compute|]. split; [by vm_compute|].
  by apply (write_queue_conserves queue_of_two
    [Arrive (sample_data "a"); Arrive (sample_data "b"); Arrive (sample_data "c"); Take true]
    empty_state).
Defined.

(** ** Admission: who may store a sample, and under which scope *)

(** A row of the table [worker_registrations]. *)
Record registration := mk_registration {
  reg_scope : WorkerScope; token_hash : string; active : bool }.

Definition registry_row (r : registration) : list (option string) :=
  [Some (tenant_id (reg_scope r)); Some (team_id (reg_scope r)); Some (cluster_id (reg_scope r));
   Some (to_string (server_id (reg_scope r))); Some (token_hash r)].

(** The registered workers that the code accepts with the token [token]. *)
Definition accepts (r : registration) (token : string) : bool :=
  active r && (is_empty (token_hash r) || String.eqb (token_hash r) token) &&
  negb (is_empty (tenant_id (reg_scope r))) && negb (is_empty (team_id (reg_scope r))) &&
  negb (is_empty (cluster_id (reg_scope r))).

(** The reference: look the worker up in the table.  [registry]: the row whose
    [worker_id] the server finds equal to a text.  The key of the table is unique,
    but its collation decides what is equal: spellings that differ in the case of
    letters may have one row. *)
Definition registered_scope (registry : string -> option registration) (w : WorkerIdentity)
    : option WorkerScope :=
  if is_empty (worker_id w) then None
  else r ← registry (worker_id w);
       if accepts r (worker_token w) then Some (reg_scope r) else None.

Definition server_id_ok (registry : string -> option registration) : Prop :=
  forall id r, registry id = Some r -> 0 <= server_id (reg_scope r) <= ULLONG_MAX.

Section AdmissionFacts.
Variable escape : string -> string.
Variable show : f64 -> string.
Variable db : string -> select_outcome.
Variable registry : string -> option registration.

(** MySQL answers the registry query, whose literal is escaped, with the active
    row of the worker, if it has one. *)
Hypothesis db_registry : forall id,
  db (registry_query escape id) =
    Rows (match registry id with
          | Some r => if active r then [registry_row r] else []
          | None => []
          end).
Hypothesis ids_ok : server_id_ok registry.

Lemma resolve_registered w :
  resolveWorkerScope db escape true w = registered_scope registry w.
Proof using ids_ok db_registry.
  unfold resolveWorkerScope, registered_scope. destruct (is_empty (worker_id w)); [done|].
  cbn [negb]. rewrite db_registry.
  destruct (registry (worker_id w)) as [r|] eqn:Er; [|done]. cbn [mbind option_bind].
  pose proof (ids_ok _ _ Er) as Hid. cbn in Hid.
  unfold accepts. destruct (active r); [|done]. cbn.
  rewrite strtoul_to_string by done.
  destruct r as [[tn tm cl sid] tok act]; cbn.
  by destruct (is_empty tok), (String.eqb tok (worker_token w)), (is_empty tn), (is_empty tm),
    (is_empty cl).
Qed.

(** The samples a sequence of calls receives. *)
Record call := mk_call { at_time : Z; message : MonitorInfo.t; identity : WorkerIdentity }.

Definition receive (cfg : ManagerConfig) (redis : bool) (st : state) (c : call) : state :=
  onDataReceived db escape show cfg true redis (at_time c) (message c) (identity c) st.

(** A queued record belongs to the scope of the worker that sent it. *)
Definition from_call (c : call) (d : HostMonitoringData) : Prop :=
  registered_scope registry (identity c) = Some (scope d) /\
  host_name d = hostID (message c) /\ host_name d <> "" /\
  score (host_score d) = calculateScore (message c).

Definition from_calls (cs : list call) (st : state) : Prop :=
  (forall d, d ∈ mysqlWriteQueue_ st -> exists c, c ∈ cs /\ from_call c d) /\
  (forall id hs, hostScores_ st !! id = Some hs -> exists c, c ∈ cs /\
     is_Some (registered_scope registry (identity c)) /\ hostID (message c) = id /\
     score hs = calculateScore (message c)).

Lemma queue_member cfg data st d :
  d ∈ mysqlWriteQueue_ (enqueueMysqlWrite cfg data st) -> d = data \/ d ∈ mysqlWriteQueue_ st.
Proof using.
  unfold enqueueMysqlWrite. break_if; cbn; rewrite elem_of_app, list_elem_of_singleton; [|tauto].
  destruct (mysqlWriteQueue_ st); cbn; [tauto|]. rewrite elem_of_cons. tauto.
Qed.

Lemma enqueue_scores cfg data st :
  hostScores_ (enqueueMysqlWrite cfg data st) = hostScores_ st.
Proof using. unfold enqueueMysqlWrite. by break_if. Qed.

Lemma from_calls_weaken cs c st : from_calls cs st -> from_calls (cs ++ [c]) st.
Proof using.
  intros [Hq Hs]. split.
  - intros d Hd. destruct (Hq d Hd) as (c' & ? & ?). exists c'. by rewrite elem_of_app; auto.
  - intros id hs Hh. destruct (Hs id hs Hh) as (c' & ? & ?). exists c'. by rewrite elem_of_app; auto.
Qed.

Lemma receive_from_calls cfg redis cs st c :
  from_calls cs st -> from_calls (cs ++ [c]) (receive cfg redis st c).
Proof using ids_ok db_registry.
  intros H. pose proof (from_calls_weaken cs c st H) as [Hq Hs].
  unfold receive, onDataReceived. rewrite resolve_registered.
  destruct (registered_scope registry (identity c)) as [sc|] eqn:Esc; [|done].
  destruct (is_empty (hostID (message c))) eqn:Eid; [done|].
  assert (Hc : c ∈ cs ++ [c]) by (rewrite elem_of_app, list_elem_of_singleton; auto).
  split.
  - intros d [->|Hd]%queue_member; [|by apply Hq]. exists c. split; [done|].
    repeat split; cbn; [done|..]. by destruct (hostID (message c)).
  - intros id hs. rewrite enqueue_scores. cbn. rewrite lookup_insert_Some.
    intros [[<- <-]|[_ Hh]]; [|by apply Hs]. exists c. rewrite Esc. repeat split; eauto.
Qed.

(** Admission is exactly the registry's: whatever is received, every record
    queued for MySQL carries the tenant, team, cluster and server of the active
    registration of the worker that sent it, whose token it presented (a
    registration without a token accepts any), under the non-empty identifier
    of its host and with its score; no other host gets a score. *)
Theorem admitted_scope_is_registered cfg redis cs st :
  mysqlWriteQueue_ st = [] -> hostScores_ st = ∅ ->
  from_calls cs (foldl (receive cfg redis) st cs).
Proof using ids_ok db_registry.
  intros Hq Hs. induction cs as [|c cs IH] using rev_ind.
  - split; [intros d; cbn; rewrite Hq; by intros ?%not_elem_of_nil|].
    intros id hs; cbn. by rewrite Hs, lookup_empty.
  - rewrite foldl_app. by apply receive_from_calls.
Qed.

(** One call of [onDataReceived], on every branch: a worker the registry does
    not accept only counts a dropped sample, a message without any identifier
    changes nothing, and any other sample becomes the last record of the write
    queue and the score of its host. *)
Theorem admission_outcome cfg redis st c :
  let st' := receive cfg redis st c in
  match registered_scope registry (identity c) with
  | None => st' = count_dropped st
  | Some sc =>
      if is_empty (hostID (message c)) then st' = st
      else exists d,
        last (mysqlWriteQueue_ st') = Some d /\ from_call c d /\ scope d = sc /\
        hostScores_ st' = <[hostID (message c) := host_score d]> (hostScores_ st)
  end.
Proof using ids_ok db_registry.
  cbn zeta. unfold receive, onDataReceived. rewrite resolve_registered.
  destruct (registered_scope registry (identity c)) as [sc|] eqn:Esc; [|done].
  destruct (is_empty (hostID (message c))) eqn:Eid; [done|].
  eexists. split; [unfold enqueueMysqlWrite; apply last_snoc|].
  rewrite enqueue_scores. repeat split; [done|]. cbn. by destruct (hostID (message c)).
Qed.
End AdmissionFacts.

(** A registry of one worker, and a database that answers for it. *)
Definition one_scope : WorkerScope := mk_WorkerScope "tenant" "team" "cluster" 7.

Definition one_worker (id : string) : option registration :=
  if String.eqb id "worker-a" then Some (mk_registration one_scope "token-a" true) else None.

Definition no_escape (s : string) : string := s.

Definition one_worker_db (q : string) : select_outcome :=
  Rows (if String.eqb q (registry_query no_escape "worker-a")
        then [registry_row (mk_registration one_scope "token-a" true)] else []).

Lemma registry_query_inj a b :
  registry_query no_escape a = registry_query no_escape b -> a = b.
Proof.
  unfold registry_query, quoteSqlString, no_escape.
  intros H%(inj (String.append _)). apply (inj (String.append _)) in H.
  apply append_cancel_r, (inj (String.append "'")) in H. by apply append_cancel_r in H.
Qed.

Lemma one_worker_db_registry id :
  one_worker_db (registry_query no_escape id) =
    Rows (match one_worker id with
          | Some r => if active r then [registry_row r] else []
          | None => []
          end).
Proof.
  unfold one_worker_db, one_worker. destruct (decide (id = "worker-a")) as [->|Hne].
  - by rewrite !String.eqb_refl.
  - rewrite (proj2 (String.eqb_neq id "worker-a")) by done.
    destruct (String.eqb_spec (registry_query no_escape id) (registry_query no_escape "worker-a"));
      [|done]. by destruct Hne; apply registry_query_inj.
Qed.

Lemma one_worker_ids_ok : server_id_ok one_worker.
Proof.
  intros id r. unfold one_worker. destruct (String.eqb id _); [|done]. intros [= <-]. cbn.
  wrap_unfold; lia.
Qed.

Definition good_call : call := mk_call 5 sample_info (mk_WorkerIdentity "worker-a" "token-a").
Definition forged_call : call := mk_call 6 sample_info (mk_WorkerIdentity "worker-a" "guess").

Definition receive_one : state -> call -> state :=
  receive no_escape (fun _ => "0") one_worker_db queue_of_two true.

Lemma admitted_scope_is_registered_witness :
  let st := foldl receive_one empty_state [good_call; forged_call] in
  map (fun d => (host_name d, scope d)) (mysqlWriteQueue_ st) = [("web_10.0.0.1", one_scope)] /\
  dropped st = 1 /\ from_calls one_worker [good_call; forged_call] st.
Proof.
  split; [by vm_compute|]. split; [by vm_compute|].
  by apply (admitted_scope_is_registered no_escape (fun _ => "0") one_worker_db one_worker
    one_worker_db_registry one_worker_ids_ok queue_of_two true [good_call; forged_call] empty_state).
Defined.

Lemma admission_outcome_witness :
  receive_one empty_state forged_call = count_dropped empty_state /\
  exists d, last (mysqlWriteQueue_ (receive_one empty_state good_call)) = Some d /\
    scope d = one_scope.
Proof.
  split.
  - apply (admission_outcome no_escape (fun _ => "0") one_worker_db one_worker
      one_worker_db_registry one_worker_ids_ok queue_of_two true empty_state forged_call).
  - destruct (admission_outcome no_escape (fun _ => "0") one_worker_db one_worker
      one_worker_db_registry one_worker_ids_ok queue_of_two true empty_state good_call)
      as (d & Hd & _ & Hs & _).
    by exists d.
Defined.
