(* ===== verification/GrpcServer.v ===== *)
(** * GrpcServer: the service that receives the samples

    [src/manager/src/rpc/GrpcServer.cpp] and [GrpcServer.h]: the identifier of a
    host, the worker's identity from the call's metadata, [SetMonitorInfo] with
    the latest sample of each host and the hand-over to the dispatcher, and the
    reading operations.

    The dispatcher is the one of [Dispatcher] with any queue; the task put on it
    is the closure's captures, the message and the identity.  [main.cpp] binds
    the callback to [HostManager::onDataReceived]. *)

From S2P Require Import Prelude CFloat CString ManagerConfig Messages Dispatcher Grpc HostManager.

Record HostData := mk_HostData { data_info : MonitorInfo.t; data_timestamp : Z }.

Definition resolveHostID (i : MonitorInfo.t) : string :=
  match MonitorInfo.host_info i with
  | Some h =>
      let hostName := HostInfo.hostname h in
      let ip := HostInfo.ip_address h in
      if negb (is_empty hostName) && negb (is_empty ip) then hostName +++ "_" +++ ip
      else if negb (is_empty ip) then ip
      else if negb (is_empty hostName) then hostName
      else MonitorInfo.name i
  | None => MonitorInfo.name i
  end.

(** The metadata of a call, as the multimap lists its entries. *)
Definition ServerContext : Type := list (string * string).

Definition metadataValue (context : option ServerContext) (key : string) : string :=
  match context with
  | None => ""
  | Some metadata =>
      match list_find (fun kv => kv.1 = key) metadata with
      | None => ""
      | Some (_, kv) => kv.2
      end
  end.

(** What the closure of the task holds, and the calls it leads to. *)
Definition callback_args : Type := MonitorInfo.t * WorkerIdentity.

Section Service.
Context {Q : Type} `{MPMCQueue Q (ManagerTask callback_args)} (hash : string -> Z).

Record service := mk_service {
  hostDatas_ : gmap string HostData;
  callback_ : bool;                          (* a callback is set *)
  dispatcher_ : option (dispatcher Q);
  metrics_ : ManagerMetrics;
  called : list callback_args                (* the callbacks run by the handler itself *)
}.

(** [GrpcServerImpl()] before the setters. *)
Definition new_service : service := mk_service ∅ false None zero_metrics [].
Definition setDataReceivedCallback (s : service) : service :=
  mk_service (hostDatas_ s) true (dispatcher_ s) (metrics_ s) (called s).
Definition setDispatcher (d : option (dispatcher Q)) (s : service) : service :=
  mk_service (hostDatas_ s) (callback_ s) d (metrics_ s) (called s).

Definition worker_identity (context : option ServerContext) : WorkerIdentity :=
  mk_WorkerIdentity (metadataValue context "x-monitor-worker-id")
    (metadataValue context "x-monitor-worker-token").

Definition SetMonitorInfo (context : option ServerContext) (request : option MonitorInfo.t)
    (now : Z) (s : service) : Status * service :=
  match request with
  | None => (mk_Status INVALID_ARGUMENT "Empty request", s)
  | Some request =>
      let workerIdentity := worker_identity context in
      if is_empty (worker_id workerIdentity)
      then (mk_Status UNAUTHENTICATED "Missing worker identity", s)
      else
        let hostname := resolveHostID request in
        if is_empty hostname then (mk_Status INVALID_ARGUMENT "Missing hostname", s)
        else
          let datas := <[hostname := mk_HostData request now]> (hostDatas_ s) in
          match dispatcher_ s, callback_ s with
          | Some d, true =>
              let '(_, d', m) :=
                submitMonitorTask hash d (metrics_ s) hostname (request, workerIdentity) in
              (status_ok, mk_service datas true (Some d') m (called s))
          | None, true =>
              (status_ok, mk_service datas true None (metrics_ s)
                            (called s ++ [(request, workerIdentity)]))
          | d, false => (status_ok, mk_service datas false d (metrics_ s) (called s))
          end
  end.

(** [begin] is the first element of the hash map, if there is one. *)
Definition GetMonitorInfo (begin : gmap string HostData -> option (string * HostData))
    (s : service) : Status * option MonitorInfo.t :=
  match begin (hostDatas_ s) with
  | Some (_, d) => (status_ok, Some (data_info d))
  | None => (mk_Status NOT_FOUND "No monitor data available", None)
  end.

Definition getAllHostDatas (s : service) : gmap string HostData := hostDatas_ s.

Definition getHostData (hostID : string) (hostData : HostData) (s : service) : bool * HostData :=
  match hostDatas_ s !! hostID with
  | Some d => (true, d)
  | None => (false, hostData)
  end.
End Service.
Arguments service : clear implicits.

(** ** Theorems *)

(** The service and the host manager, which resolve the identifier of a host
    in two separate pieces of code, always agree on it; so the samples of a host
    are partitioned over the shards by the key its scores are stored under. *)
Lemma resolve_host_id_agrees i : resolveHostID i = hostID i.
Proof.
  unfold resolveHostID, hostID. destruct (MonitorInfo.host_info i) as [h|]; [|done].
  by destruct (HostInfo.hostname h), (HostInfo.ip_address h).
Qed.

Section EndToEnd.
Context {Q : Type} `{MPMCQueueLaws Q (ManagerTask callback_args)}.
Variable hash : string -> Z.

(** The request can be handed over. *)
Definition well_formed (context : option ServerContext) (request : option MonitorInfo.t) : Prop :=
  worker_id (worker_identity context) <> "" /\
  exists r, request = Some r /\ hostID r <> "".

(** The tasks on the shard of a host. *)
Definition shard_items (d : dispatcher Q) (host : string) : option (list (ManagerTask callback_args)) :=
  q ← ingestShards_ d !! shardIndexFor hash (length (ingestShards_ d)) host;
  Some (mpmc_items q).

Definition the_task (r : MonitorInfo.t) (w : WorkerIdentity) : ManagerTask callback_args :=
  mk_task MonitorPush (hostID r) (r, w).

Lemma write_shard_items d t d' :
  write_shard hash d t = Some d' ->
  exists l, shard_items d (partition_key t) = Some l /\
            shard_items d' (partition_key t) = Some (l ++ [t]).
Proof using All.
  unfold write_shard, shard_items. destruct (_ !! _) as [q|] eqn:Eq; [|done]; cbn.
  destruct (mpmc_write q t) as [q'|] eqn:Ew; [|done]. intros [= <-]; cbn.
  apply mpmc_write_items in Ew as [Hi _]. rewrite length_insert, list_lookup_insert_eq.
  - exists (mpmc_items q). by rewrite <- Hi.
  - by eapply lookup_lt_Some.
Qed.

Lemma SetMonitorInfo_spec context request now s d :
  dispatcher_ s = Some d -> callback_ s = true ->
  let '(status, s') := SetMonitorInfo hash context request now s in
  (ok status = false /\ s' = s /\ ~ well_formed context request) \/
  (ok status = true /\ exists r d',
     request = Some r /\ hostID r <> "" /\ dispatcher_ s' = Some d' /\
     hostDatas_ s' = <[hostID r := mk_HostData r now]> (hostDatas_ s) /\
     ((exists l, shard_items d (hostID r) = Some l /\
         shard_items d' (hostID r) = Some (l ++ [the_task r (worker_identity context)]) /\
         dropped_monitor_samples (metrics_ s') = dropped_monitor_samples (metrics_ s)) \/
      (d' = d /\ dropped_monitor_samples (metrics_ s') =
                 dropped_monitor_samples (metrics_ s) + 1))).
Proof using All.
  intros Hd Hc. unfold SetMonitorInfo, well_formed.
  destruct request as [r|]; [|left; split_and!; naive_solver].
  destruct (is_empty (worker_id (worker_identity context))) eqn:Ew.
  { left. split_and!; [done..|]. intros [Hw _]. by apply is_empty_false in Hw; rewrite Hw in Ew. }
  rewrite resolve_host_id_agrees. destruct (is_empty (hostID r)) eqn:Eh.
  { left. split_and!; [done..|]. intros (_ & r' & [= <-] & Hr).
    apply is_empty_false in Hr. by rewrite Hr in Eh. }
  apply is_empty_false in Eh. rewrite Hd, Hc. unfold submitMonitorTask, enqueueIngest.
  destruct (negb (running_ d) || _).
  { right. split; [done|]. exists r, d. split_and!; try done. by right. }
  destruct (write_shard hash d (mk_task MonitorPush (hostID r) (r, _))) as [d'|] eqn:Ewr; right;
    (split; [done|]).
  - exists r, d'. split_and!; try done. left.
    destruct (write_shard_items _ _ _ Ewr) as (l & ? & ?). by exists l.
  - exists r, d. split_and!; try done. by right.
Qed.

(** [SetMonitorInfo] with a dispatcher and a callback: a call without a
    worker identity or without a host identifier is refused and changes nothing;
    every other call answers OK, stores the sample as the latest one of its host,
    and either appends exactly this message and identity to the shard of the host
    or, when the shard is full or the dispatcher stopped, counts the sample as
    dropped and leaves the dispatcher as it was. *)
Theorem set_monitor_info_outcomes context request now s d :
  dispatcher_ s = Some d -> callback_ s = true ->
  let '(status, s') := SetMonitorInfo hash context request now s in
  (ok status = false /\ s' = s /\ ~ well_formed context request) \/
  (ok status = true /\ exists r d',
     request = Some r /\ hostID r <> "" /\ dispatcher_ s' = Some d' /\
     hostDatas_ s' = <[hostID r := mk_HostData r now]> (hostDatas_ s) /\
     ((exists l, shard_items d (hostID r) = Some l /\
         shard_items d' (hostID r) = Some (l ++ [the_task r (worker_identity context)]) /\
         dropped_monitor_samples (metrics_ s') = dropped_monitor_samples (metrics_ s)) \/
      (d' = d /\ dropped_monitor_samples (metrics_ s') =
                 dropped_monitor_samples (metrics_ s) + 1))).
Proof using All. apply SetMonitorInfo_spec. Qed.
End EndToEnd.

(** The registry is asked in a task that runs later: a call with any worker
    identifier stores its message at once as the latest one of its host, where
    [GetMonitorInfo] and the lookups find it, and no call removes a host. *)
Theorem unregistered_message_is_served {Q} `{MPMCQueue Q (ManagerTask callback_args)} hash context
    request now (s : service Q) :
  well_formed context (Some request) ->
  let s' := (SetMonitorInfo hash context (Some request) now s).2 in
  hostDatas_ s' !! hostID request = Some (mk_HostData request now) /\
  (forall context' request' now', dom (hostDatas_ s) ⊆
     dom (hostDatas_ (SetMonitorInfo hash context' request' now' s).2)).
Proof.
  intros [Hw (r & [= <-] & Hh)] s'. split.
  - unfold s', SetMonitorInfo. rewrite resolve_host_id_agrees.
    destruct (is_empty (worker_id _)) eqn:Ew; [by apply is_empty_false in Hw; rewrite Hw in Ew|].
    destruct (is_empty (hostID request)) eqn:Eh; [by apply is_empty_false in Hh; rewrite Hh in Eh|].
    destruct (dispatcher_ s), (callback_ s); try destruct (submitMonitorTask _ _ _ _ _) as [[? ?] ?];
      cbn [snd hostDatas_]; by rewrite lookup_insert_eq.
  - intros context' request' now'. unfold SetMonitorInfo.
    repeat (case_match; try done); cbn [snd hostDatas_]; try (rewrite dom_insert; set_solver).
Qed.

(** A dispatcher of one shard that is running, and the calls of two workers. *)
Definition running_dispatcher : dispatcher (Z * list (ManagerTask callback_args)) :=
  let d := make_dispatcher queue_of_two in
  mk_dispatcher (ingestShards_ d) (queryQueue_ d) true 0.

Definition bound_service : service (Z * list (ManagerTask callback_args)) :=
  setDataReceivedCallback (setDispatcher (Some running_dispatcher) new_service).

Definition worker_call : option ServerContext :=
  Some [("x-monitor-worker-id", "worker-a"); ("x-monitor-worker-token", "token-a")].

Lemma set_monitor_info_outcomes_witness :
  (SetMonitorInfo (fun _ => 3) None (Some sample_info) 5 bound_service).1 =
    mk_Status UNAUTHENTICATED "Missing worker identity" /\
  let '(status, s') := SetMonitorInfo (fun _ => 3) worker_call (Some sample_info) 5 bound_service in
  status = status_ok /\
  exists d', dispatcher_ s' = Some d' /\
    hostDatas_ s' = {[ "web_10.0.0.1" := mk_HostData sample_info 5 ]}.
Proof.
  split; [done|].
  pose proof (set_monitor_info_outcomes (fun _ => 3) worker_call (Some sample_info) 5
    bound_service running_dispatcher eq_refl eq_refl) as H.
  destruct (SetMonitorInfo _ _ _ _ _) as [status s'] eqn:E.
  assert (Hst : status = status_ok) by (vm_compute in E; injection E as <- _; done).
  destruct H as [(Hok & _)|(_ & r & d' & [= <-] & _ & Hd & Hdata & _)]; [by rewrite Hst in Hok|].
  split; [done|]. exists d'. split; [done|]. rewrite Hdata. by vm_compute.
Defined.
