(* ===== verification/Pusher.v ===== *)
(** * Pusher: the worker process

    [src/worker/src/main.cpp] and [src/worker/src/rpc/MonitorPusher.cpp]: the
    arguments of the process, one push (collect, attach the identity, call the
    manager), and the thread that pushes at an interval until it is stopped.
    The last part joins the worker with the service of the manager that
    receives the push.  The log that a push prints is in [Logs]. *)

From S2P Require Import CString Messages HostMonitors Collector ManagerConfig Dispatcher Grpc HostManager GrpcServer Prelude.

(** ** main.cpp *)

Record config := mk_config {
  managerAddress_ : string; intervalSeconds_ : Z; workerID_ : string; workerToken_ : string }.

Definition kDefaultManagerAddress : string := "localhost:50051".
Definition kDefaultPushInterval : Z := 10.

(** The arguments with the program's name first; [Throws]: the interval is not
    a number, and nothing catches the exception of [std::stoi]. *)
Definition main_config (argv : list string) (env : environment) : res config :=
  interval ← match argv !! 2%nat with
             | Some arg =>
                 n ← or_throw (stoi arg);
                 Done (if n <=? 0 then kDefaultPushInterval else n)
             | None => Done kDefaultPushInterval
             end;
  let workerID := default (default "" (env "WORKER_ID")) (argv !! 3%nat) in
  let workerToken := default (default "" (env "WORKER_TOKEN")) (argv !! 4%nat) in
  Done (mk_config (default kDefaultManagerAddress (argv !! 1%nat)) interval workerID workerToken).

(** ** MonitorPusher::pushOnce *)

(** The metadata of the call. *)
Definition metadata (c : config) : ServerContext :=
  (if negb (is_empty (workerID_ c)) then [("x-monitor-worker-id", workerID_ c)] else []) ++
  (if negb (is_empty (workerToken_ c)) then [("x-monitor-worker-token", workerToken_ c)] else []).

(** [stub] is [stub_->SetMonitorInfo] on whatever serves the call, which it
    leaves changed; the result is the one of [pushOnce], the members of the
    collector and the server after the call. *)
Definition pushOnce {R} (c : config) (b : build) (hostname : string)
    (stub : ServerContext -> MonitorInfo.t -> R -> Status * R) (w : world) (s : members) (server : R)
    : res (bool * members * R) :=
  x ← collectAll b hostname w (s, MonitorInfo.empty);
  let '(status, server) := stub (metadata c) x.2 server in
  Done (ok status, x.1, server).

(** ** The thread *)

(** Where [pushLoop] is; [Crashed]: an exception left the thread. *)
Inductive loop_pc := AtTest | Pushing | Sleeping (i : Z) | Exited | Crashed.

#[export] Instance loop_pc_eq_dec : EqDecision loop_pc.
Proof. solve_decision. Defined.

(** The thread, with the results of its pushes and the seconds it slept. *)
Record push_thread := mk_thread { pc : loop_pc; pushes : list bool; slept : Z }.

Definition new_thread : push_thread := mk_thread AtTest [] 0.

(** One step of [pushLoop]: a test of [running_], a push with its outcome, or a
    turn of the sleeping loop. *)
Definition loop_step (interval : Z) (running : bool) (push : res bool) (t : push_thread)
    : push_thread :=
  match pc t with
  | AtTest => mk_thread (if running then Pushing else Exited) (pushes t) (slept t)
  | Pushing =>
      match push with
      | Done r => mk_thread (Sleeping 0) (pushes t ++ [r]) (slept t)
      | _ => mk_thread Crashed (pushes t) (slept t)
      end
  | Sleeping i =>
      if (i <? interval) && running then mk_thread (Sleeping (i + 1)) (pushes t) (slept t + 1)
      else mk_thread AtTest (pushes t) (slept t)
  | Exited => t
  | Crashed => t
  end.

(** The object: its flag, its thread ([thread_] and whether it is joinable),
    and whether the caller waits in [join]. *)
Record pusher := mk_pusher {
  running_ : bool; thread_ : option push_thread; joinable : bool; joining : bool }.

Definition new_pusher : pusher := mk_pusher false None false false.

(** The steps of the caller, who calls [start] and [stop] in turn, and of the
    thread.  [start] replaces [thread_]; the destructor of a joinable thread
    would end the process, which is the last rule. *)
Inductive pstep (interval : Z) : pusher -> option pusher -> Prop :=
| start_running p : joining p = false -> running_ p = true -> pstep interval p (Some p)
| start_thread p :
    joining p = false -> running_ p = false -> joinable p = false ->
    pstep interval p (Some (mk_pusher true (Some new_thread) true false))
| start_terminates p :
    joining p = false -> running_ p = false -> joinable p = true -> pstep interval p None
| stop_flag p :
    joining p = false ->
    pstep interval p (Some (mk_pusher false (thread_ p) (joinable p) (joinable p)))
| stop_join p t :
    joining p = true -> thread_ p = Some t -> pc t = Exited ->
    pstep interval p (Some (mk_pusher (running_ p) (thread_ p) false false))
| thread_turn p t push :
    thread_ p = Some t -> joinable p = true -> pc t <> Exited ->
    pc (loop_step interval (running_ p) push t) <> Crashed ->
    pstep interval p
      (Some (mk_pusher (running_ p) (Some (loop_step interval (running_ p) push t))
               (joinable p) (joining p)))
| thread_crashes p t push :
    thread_ p = Some t -> joinable p = true ->
    pc (loop_step interval (running_ p) push t) = Crashed ->
    pstep interval p None.

Definition alive_step (interval : Z) (p p' : pusher) : Prop := pstep interval p (Some p').

(** ** Starting and stopping *)

(** The invariant: between two calls the flag says whether there is a thread to
    join; a caller waits only for a thread, with the flag down. *)
Definition pusher_inv (p : pusher) : Prop :=
  (if joining p then joinable p = true /\ running_ p = false else running_ p = joinable p) /\
  (joinable p = true -> exists t, thread_ p = Some t /\ pc t <> Crashed).

Lemma pusher_inv_step interval p p' : pusher_inv p -> alive_step interval p p' -> pusher_inv p'.
Proof.
  intros [Hj Ht] Hs. unfold alive_step in Hs.
  inversion Hs as [q Hq Hr|q Hq Hr Hjn| |q Hq|q t Hq Hth Hpc|q t r Hth Hjn Hne Hnc|]; subst; clear Hs.
  - by split.
  - split; [done|]. intros _. by exists new_thread.
  - rewrite Hq in Hj. split; cbn; [by destruct (joinable p)|done].
  - split; cbn; [|done]. rewrite Hq in Hj. by destruct Hj.
  - split; cbn; [done|]. intros _. eauto.
Qed.

Lemma pusher_reachable interval p : rtc (alive_step interval) new_pusher p -> pusher_inv p.
Proof. by apply (rtc_invariant _ _ _ _ (pusher_inv_step interval)). Qed.

(** Whatever the caller and the thread do, [start] never replaces a thread
    that has not been joined: from a reachable state the process can only end
    because a push let an exception out of the thread. *)
Theorem pusher_ends_only_by_exception interval p :
  rtc (alive_step interval) new_pusher p -> pstep interval p None ->
  exists t push, thread_ p = Some t /\ pc t = Pushing /\ (forall r : bool, push <> Done r).
Proof.
  intros Hr Hs. apply pusher_reachable in Hr as [Hj Ht].
  inversion Hs as [| |q Hq Hrun Hjn| | | |q t r Hth Hjn Hc]; subst; clear Hs.
  - rewrite Hq, Hrun, Hjn in Hj. done.
  - exists t, r. split; [done|]. destruct (Ht Hjn) as (t' & Ht' & Hnc). rewrite Hth in Ht'. injection Ht' as <-.
    unfold loop_step in Hc. destruct (pc t) eqn:E; try done.
    + by destruct (running_ p).
    + split; [done|]. by intros b ->.
    + by destruct (_ && _).
    + congruence.
Qed.

(** The steps while the caller waits. *)
Definition joining_step (interval : Z) (p p' : pusher) : Prop :=
  joining p = true /\ alive_step interval p p'.

Definition rank (p : pusher) : nat :=
  if joining p then
    match pc <$> thread_ p with
    | Some Pushing => 4 | Some (Sleeping _) => 3 | Some AtTest => 2 | _ => 1
    end
  else 0.

Definition push_count (p : pusher) : nat :=
  match thread_ p with Some t => length (pushes t) | None => 0 end.

(** A push may still be under way. *)
Definition push_due (p : pusher) : nat :=
  match pc <$> thread_ p with Some Pushing => 1 | _ => 0 end.

Lemma joining_step_rank interval p p' :
  pusher_inv p -> joining_step interval p p' ->
  (rank p' < rank p)%nat /\ (push_count p' + push_due p' <= push_count p + push_due p)%nat.
Proof.
  intros [Hj Ht] [Hjo Hs]. rewrite Hjo in Hj. destruct Hj as [Hjn Hrun].
  unfold alive_step in Hs.
  inversion Hs as [q Hq Hr|q Hq Hr Hn| |q Hq|q t Hq Hth Hpc|q t r Hth Hn Hne Hnc|];
    subst; clear Hs; try congruence.
  - unfold rank, push_count, push_due. cbn. rewrite Hjo, Hth. cbn. rewrite Hpc. lia.
  - rewrite Hrun in *. unfold rank, push_count, push_due. cbn. rewrite Hjo, Hth. cbn.
    unfold loop_step in *. destruct (pc t) eqn:E; cbn in *; try lia; try done.
    + destruct r; cbn in *; try done. rewrite length_app. cbn. lia.
    + destruct (_ <? _); cbn; lia.
Qed.

Lemma joining_progress interval p :
  pusher_inv p -> joining p = true -> exists p', alive_step interval p p'.
Proof.
  intros [Hj Ht] Hjo. rewrite Hjo in Hj. destruct Hj as [Hjn Hrun].
  destruct (Ht Hjn) as (t & Hth & Hnc).
  destruct (decide (pc t = Exited)) as [He|He]; [eexists; by eapply stop_join|].
  eexists. eapply (thread_turn _ _ t (Done true)); [done..|].
  unfold loop_step. rewrite Hrun. destruct (pc t) as [| |i| |]; try done. by destruct (i <? interval).
Qed.

(** C23. [stop] returns.  Once it has lowered the flag of a pusher that runs, the
    thread and the join can always make a step, no sequence of such steps is
    longer than four, and during them at most the push that is already under
    way adds a result.  (A push is one step: it ends when its call ends.) *)
Theorem pusher_stop_terminates interval p :
  rtc (alive_step interval) new_pusher p -> joining p = true ->
  (exists p', joining_step interval p p') /\
  forall n p', nsteps (joining_step interval) n p p' ->
    (n <= 4)%nat /\ (push_count p' <= push_count p + 1)%nat /\
    (joining p' = true \/ (running_ p' = false /\ joinable p' = false)).
Proof.
  intros Hr Hjo. apply pusher_reachable in Hr as Hi. split.
  { destruct (joining_progress interval p Hi Hjo) as (p' & Hs). by exists p'. }
  intros n p' Hn.
  assert (H : (rank p' + n <= rank p)%nat /\
              (push_count p' + push_due p' <= push_count p + push_due p)%nat /\
              pusher_inv p' /\ (joining p' = true \/ running_ p' = false)).
  { clear Hr. assert (Hf : joining p = true \/ running_ p = false) by (by left).
    clear Hjo. induction Hn as [q|n q q1 q2 Hs Hn IH].
    - split_and!; [lia|lia|done|done].
    - pose proof (joining_step_rank _ _ _ Hi Hs) as [H1 H2]. destruct Hs as [Hjq Hs].
      pose proof (pusher_inv_step _ _ _ Hi Hs) as Hi1.
      destruct IH as (H3 & H4 & H5 & H6); [done| |split_and!; [lia|lia|done|done]].
      destruct (joining q1) eqn:E; [by left|right]. destruct Hi as [Hjq' _]. rewrite Hjq in Hjq'.
      destruct Hjq' as [_ Hrun]. unfold alive_step in Hs. by inversion Hs; subst; cbn in *; congruence. }
  destruct H as (H1 & H2 & [Hj' _] & H4).
  assert (rank p <= 4)%nat by (unfold rank; destruct (joining p), (pc <$> thread_ p) as [[]|]; lia).
  assert (push_due p <= 1)%nat by (unfold push_due; destruct (pc <$> thread_ p) as [[]|]; lia).
  split; [lia|]. split; [lia|].
  destruct (joining p'); [by left|right]. destruct H4 as [|H4]; [done|]. by rewrite <- Hj', H4.
Qed.

(** ** The schedule of the pushes *)

(** The thread while nobody stops it; the [k]-th push gives [push k]. *)
Definition undisturbed (interval : Z) (push : nat -> bool) (t : push_thread) : push_thread :=
  loop_step interval true (Done (push (length (pushes t)))) t.

Lemma sleeps interval push ps sl n : forall i,
  0 <= i -> i + Z.of_nat n <= interval ->
  Nat.iter n (undisturbed interval push) (mk_thread (Sleeping i) ps sl) =
    mk_thread (Sleeping (i + Z.of_nat n)) ps (sl + Z.of_nat n).
Proof.
  induction n as [|n IH]; intros i Hi Hn; [cbn; f_equal; [f_equal; lia|lia]|].
  change (Nat.iter (S n) ?f ?x) with (f (Nat.iter n f x)). rewrite IH by lia. unfold undisturbed, loop_step. cbn [pc pushes slept].
  rewrite (proj2 (Z.ltb_lt _ _)) by lia. cbn. f_equal; [f_equal|]; lia.
Qed.

Lemma one_round interval push ps sl :
  0 <= interval ->
  Nat.iter (Z.to_nat interval + 3) (undisturbed interval push) (mk_thread AtTest ps sl) =
    mk_thread AtTest (ps ++ [push (length ps)]) (sl + interval).
Proof.
  intros Hi. replace (Z.to_nat interval + 3)%nat with (1 + (Z.to_nat interval + 2))%nat by lia.
  rewrite !Nat.iter_add. change (Nat.iter 2 _ _) with (mk_thread (Sleeping 0) (ps ++ [push (length ps)]) sl).
  rewrite sleeps by lia. cbn. unfold undisturbed, loop_step. cbn [pc pushes slept].
  rewrite (proj2 (Z.ltb_ge _ _)) by lia. cbn. f_equal. lia.
Qed.

(** The thread pushes for ever at its interval: while nobody stops it,
    after [k] rounds of [interval + 3] steps it has made exactly [k] pushes,
    kept their results in order, and slept [interval] seconds after each; a
    push that fails does not end the loop or change its pace. *)
Theorem push_schedule interval push k :
  0 <= interval ->
  Nat.iter (k * (Z.to_nat interval + 3)) (undisturbed interval push) new_thread =
    mk_thread AtTest (map push (seq 0 k)) (Z.of_nat k * interval).
Proof.
  intros Hi. induction k as [|k IH]; [done|].
  change (S k * (Z.to_nat interval + 3))%nat
    with ((Z.to_nat interval + 3) + k * (Z.to_nat interval + 3))%nat.
  rewrite Nat.iter_add, IH, one_round by done.
  rewrite length_map, length_seq, seq_S, map_app. cbn [map Nat.add]. f_equal. lia.
Qed.

(** ** From the worker to the manager *)

Section EndToEnd.
Context {Q : Type} `{MPMCQueueLaws Q (ManagerTask callback_args)}.
Variable hash : string -> Z.

(** The host names a worker can remember are not empty. *)
Definition host_named (s : HostInfoMonitor.state) : Prop :=
  HostInfoMonitor.infoCached_ s = true -> HostInfoMonitor.cachedHostName_ s <> "".

Lemma host_info_named w (x y : X) :
  host_named (hostInfo_ x.1) -> HostInfoMonitor.gethostname (host_system w) <> Some "" ->
  updateOnce host_info_monitor w x = Done y ->
  host_named (hostInfo_ y.1) /\
  exists h, MonitorInfo.host_info y.2 = Some h /\ HostInfo.hostname h <> "".
Proof.
  intros Hn Hg. unfold host_info_monitor, host_named in *. cbn [updateOnce].
  unfold HostInfoMonitor.updateOnce, HostInfoMonitor.getHostname.
  destruct (HostInfoMonitor.infoCached_ (hostInfo_ x.1)) eqn:Ec; cbn [negb]; intros [= <-]; cbn.
  - split; [intros _; by apply Hn|]. eexists. split; [done|]. by apply Hn.
  - assert (default "unknown" (HostInfoMonitor.gethostname (host_system w)) <> "").
    { destruct (HostInfoMonitor.gethostname _) as [h|]; [cbn; congruence|done]. }
    split; [done|]. eexists. by split.
Qed.

Lemma host_info_in_build b : host_info_monitor ∈ monitors_ b.
Proof. unfold monitors_. set_solver. Qed.

(** A message of the collector can always be filed under a host. *)
Lemma collected_host b hostname w (x x' : X) :
  host_named (hostInfo_ x.1) -> HostInfoMonitor.gethostname (host_system w) <> Some "" ->
  collectAll b hostname w x = Done x' ->
  host_named (hostInfo_ x'.1) /\ hostID x'.2 <> "".
Proof.
  intros Hn Hg E. pose proof (collectAll_spec b hostname w x) as Hs. rewrite E in Hs.
  destruct Hs as (_ & Hall & _). rewrite Forall_forall in Hall.
  destruct (Hall _ (host_info_in_build b)) as (y & Ey & Hy).
  destruct (host_info_named w x y Hn Hg Ey) as (Hny & h & Hh & Hne).
  cbn in Hy. injection Hy as Hy1 Hy2. rewrite Hy1. split; [done|].
  unfold hostID. rewrite Hy2, Hh. apply is_empty_false in Hne. rewrite Hne. cbn [negb andb].
  destruct (HostInfo.hostname h) as [|c r]; [done|].
  destruct (HostInfo.ip_address h) as [|c' r']; cbn; done.
Qed.

Lemma identity_of_metadata c :
  worker_identity (Some (metadata c)) = mk_WorkerIdentity (workerID_ c) (workerToken_ c).
Proof.
  unfold worker_identity, metadataValue, metadata.
  destruct (workerID_ c) as [|a i], (workerToken_ c) as [|b t]; done.
Qed.

(** The stub of a worker whose calls reach the manager at the time [now]. *)
Definition manager_stub (now : Z) (context : ServerContext) (request : MonitorInfo.t)
    (srv : service Q) : Status * service Q :=
  SetMonitorInfo hash (Some context) (Some request) now srv.

(** C17. A push of a worker arrives.  When the round of readings succeeds, the
    host has a name and the worker an identity, a push whose call reaches the
    manager counts as successful and leaves there what was collected: the
    manager's latest sample of the host is the collected message, and the
    dispatcher has queued it, once, with the worker's identity and token, on the
    shard of the host -- or counted it as dropped.  A worker without an identity
    is refused, and the manager is left as it was. *)
Theorem push_arrives c b hostname w s x' now (srv : service Q) d :
  host_named (hostInfo_ s) -> HostInfoMonitor.gethostname (host_system w) <> Some "" ->
  collectAll b hostname w (s, MonitorInfo.empty) = Done x' ->
  dispatcher_ srv = Some d -> callback_ srv = true ->
  let pushed := pushOnce c b hostname (manager_stub now) w s srv in
  if is_empty (workerID_ c) then pushed = Done (false, x'.1, srv)
  else exists srv' d',
    pushed = Done (true, x'.1, srv') /\ host_named (hostInfo_ x'.1) /\
    hostDatas_ srv' = <[hostID x'.2 := mk_HostData x'.2 now]> (hostDatas_ srv) /\
    dispatcher_ srv' = Some d' /\
    ((exists l, shard_items hash d (hostID x'.2) = Some l /\
        shard_items hash d' (hostID x'.2) =
          Some (l ++ [the_task x'.2 (mk_WorkerIdentity (workerID_ c) (workerToken_ c))])) \/
     (d' = d /\ dropped_monitor_samples (metrics_ srv') =
                dropped_monitor_samples (metrics_ srv) + 1)).
Proof using All.
  intros Hn Hg E Hd Hc pushed.
  destruct (collected_host b hostname w (s, MonitorInfo.empty) x' Hn Hg E) as [Hn' Hid].
  pose proof (SetMonitorInfo_spec hash (Some (metadata c)) (Some x'.2) now srv d Hd Hc) as Hs.
  unfold pushed, pushOnce, manager_stub. rewrite E. cbn [mbind res_bind].
  rewrite identity_of_metadata in Hs. unfold well_formed in Hs. rewrite identity_of_metadata in Hs.
  destruct (SetMonitorInfo hash (Some (metadata c)) (Some x'.2) now srv) as [status srv'] eqn:Es.
  destruct (is_empty (workerID_ c)) eqn:Ei.
  - unfold SetMonitorInfo in Es. rewrite identity_of_metadata in Es. cbn [worker_id] in Es.
    rewrite Ei in Es. by injection Es as <- <-.
  - apply is_empty_false in Ei.
    destruct Hs as [(Hok & _ & Hwf)|(Hok & r & d' & [= <-] & _ & Hd' & Hh & Hq)].
    { exfalso. apply Hwf. split; [done|]. by exists x'.2. }
    exists srv', d'. rewrite Hok. split_and!; try done.
    destruct Hq as [(l & H1 & H2 & _)|Hq]; [left; by exists l|by right].
Qed.
End EndToEnd.

(** ** The theorems at concrete inputs *)

Definition idle_thread : push_thread := mk_thread Pushing [] 0.

Lemma started_reachable :
  rtc (alive_step 10) new_pusher (mk_pusher true (Some idle_thread) true false).
Proof.
  eapply rtc_l; [by apply start_thread|]. eapply rtc_l; [|apply rtc_refl].
  by apply (thread_turn 10 (mk_pusher true (Some new_thread) true false) new_thread (Done true)).
Qed.

Lemma pusher_ends_only_by_exception_witness :
  exists t (push : res bool), thread_ (mk_pusher true (Some idle_thread) true false) = Some t /\
    pc t = Pushing /\ (forall r, push <> Done r).
Proof.
  apply (pusher_ends_only_by_exception 10); [apply started_reachable|].
  by apply (thread_crashes 10 _ idle_thread Throws).
Defined.

Lemma pusher_stop_terminates_witness :
  let p := mk_pusher false (Some idle_thread) true true in
  (exists p', joining_step 10 p p') /\
  forall n p', nsteps (joining_step 10) n p p' ->
    (n <= 4)%nat /\ (push_count p' <= push_count p + 1)%nat /\
    (joining p' = true \/ (running_ p' = false /\ joinable p' = false)).
Proof.
  apply (pusher_stop_terminates 10); [|reflexivity].
  eapply rtc_r; [apply started_reachable|]. by apply (stop_flag 10 (mk_pusher true (Some idle_thread) true false)).
Defined.

Lemma push_schedule_witness :
  Nat.iter (2 * 13) (undisturbed 10 (fun k => Nat.even k)) new_thread =
    mk_thread AtTest [true; false] 20.
Proof. apply (push_schedule 10 (fun k => Nat.even k) 2). lia. Defined.

Definition sample_members : members :=
  mk_members ∅ ∅ ∅ (NetStats.NetEbpfMonitor.mk_state ∅ ∅ 0 false 0)
    (DeviceMonitors.DiskMonitor.mk_state ∅ ∅)
    (ServiceMonitors.MysqlMonitor.mk_MysqlMonitor false 3 [])
    (ServiceMonitors.RedisMonitor.mk_RedisMonitor false 3 []) HostInfoMonitor.initial.

Definition sample_world : world :=
  mk_world None None None None 0
    (Some (ProcMonitors.MemReading.print_meminfo ProcMonitors.MemReading.sample_entries))
    None 0 (NetStats.NetEbpfMonitor.Build_world 0 (fun _ => None) []) None 0
    (ServiceMonitors.MysqlMonitor.mk_client (fun _ => false) (fun _ _ => None))
    (fun _ => ServiceMonitors.RedisMonitor.mk_server None None)
    (HostInfoMonitor.mk_system (Some "web-1") None).

Definition sample_build : build := mk_build false true true.

Definition sample_round : X :=
  match collectAll sample_build "web-1" sample_world (sample_members, MonitorInfo.empty) with
  | Done x => x
  | _ => (sample_members, MonitorInfo.empty)
  end.

Lemma push_arrives_witness :
  exists srv',
    pushOnce (mk_config "manager:50051" 10 "w1" "t1") sample_build "web-1"
      (manager_stub (fun _ => 0) 0) sample_world sample_members bound_service =
      Done (true, sample_round.1, srv') /\
    HostInfo.hostname <$> (hostDatas_ srv' !! "web-1" ≫= fun x => MonitorInfo.host_info (data_info x)) = Some "web-1".
Proof.
  destruct (push_arrives (fun _ => 0) (mk_config "manager:50051" 10 "w1" "t1") sample_build
    "web-1" sample_world sample_members sample_round 0 bound_service running_dispatcher
    ltac:(done) ltac:(done) ltac:(vm_compute; reflexivity) eq_refl eq_refl)
    as (srv' & d' & Hp & _ & Hh & _).
  exists srv'. split; [exact Hp|]. rewrite Hh. vm_compute. reflexivity.
Defined.

(** The interval of a worker that starts is positive, so that the loop does not
    spin. *)
Lemma main_interval argv env c :
  main_config argv env = Done c -> 0 < intervalSeconds_ c <= INT_MAX.
Proof.
  unfold main_config. destruct (argv !! 2%nat) as [arg|]; cbn; [|by intros [= <-]].
  destruct (stoi arg) as [n|] eqn:E; cbn; [|done]. intros [= <-]. cbn.
  unfold stoi in E. destruct (read_integer arg) as [[[neg m] r]|]; cbn in E; [|done].
  destruct (_ && _) eqn:Er in E; [|done]. injection E as <-. to_props.
  destruct (_ <=? 0) eqn:El; to_props; [done|lia].
Qed.
