(* ===== verification/Logs.v ===== *)
(** * Logs: what the worker and the manager print

    The text of [MonitorPusher::pushOnce], [start] and [pushLoop]
    ([src/worker/src/rpc/MonitorPusher.cpp]), of the worker's [main], and the
    verbose log of [HostManager::onDataReceived].  A log is the list of the
    lines that end with [std::endl]; a heading, which the code prints with a line
    feed in front, is an empty line and itself.  [print] is the [operator<<] of
    a double, to which a float is promoted. *)

From S2P Require Import Prelude CFloat CString Streams Messages HostMonitors Collector ManagerConfig Dispatcher Grpc HostManager GrpcServer Pusher.

Section Logs.
Variable print : f64 -> string.

Definition pf (x : f32) : string := print (f64_of_f32 x).
Definition yes_no (b : bool) : string := if b then "yes" else "no".
Definition heading (s : string) : list string := [""; "--- " +++ s +++ " ---"].

(** A repeated field: its heading and the lines of each element, or nothing. *)
Definition section {A} (title : string) (lines : A -> list string) (l : list A) : list string :=
  match l with [] => [] | _ => heading title ++ (l ≫= lines) end.

(** ** MonitorPusher::pushOnce *)

Definition cpu_stat_lines (c : CpuStat.t) : list string :=
  ["[" +++ CpuStat.cpu_name c +++ "] Total: " +++ pf (CpuStat.cpu_percent c) +++
   "%, User: " +++ pf (CpuStat.usr_percent c) +++ "%, System: " +++ pf (CpuStat.system_percent c) +++
   "%, Nice: " +++ pf (CpuStat.nice_percent c) +++ "%, Idle: " +++ pf (CpuStat.idle_percent c) +++
   "%, IOWait: " +++ pf (CpuStat.io_wait_percent c) +++ "%, IRQ: " +++ pf (CpuStat.irq_percent c) +++
   "%, SoftIRQ: " +++ pf (CpuStat.soft_irq_percent c) +++ "%"].

Definition cpu_load_lines (l : CpuLoad.t) : list string :=
  ["[Load] 1min: " +++ pf (CpuLoad.load_avg_1 l) +++ ", 5min: " +++ pf (CpuLoad.load_avg_3 l) +++
   ", 15min: " +++ pf (CpuLoad.load_avg_15 l)].

Definition mem_lines (m : MemInfo.t) : list string :=
  ["[Memory] Used: " +++ pf (MemInfo.used_percent m) +++ "%";
   "  Total: " +++ pf (MemInfo.total m) +++ " MB, Free: " +++ pf (MemInfo.free m) +++
   " MB, Avail: " +++ pf (MemInfo.avail m) +++ " MB";
   "  Buffers: " +++ pf (MemInfo.buffers m) +++ " MB, Cached: " +++ pf (MemInfo.cached m) +++
   " MB, SwapCached: " +++ pf (MemInfo.swap_cached m) +++ " MB";
   "  Active: " +++ pf (MemInfo.active m) +++ " MB, Inactive: " +++ pf (MemInfo.inactive m) +++ " MB";
   "  ActiveAnon: " +++ pf (MemInfo.active_anon m) +++ " MB, InactiveAnon: " +++
   pf (MemInfo.inactive_anon m) +++ " MB";
   "  ActiveFile: " +++ pf (MemInfo.active_file m) +++ " MB, InactiveFile: " +++
   pf (MemInfo.inactive_file m) +++ " MB";
   "  Dirty: " +++ pf (MemInfo.dirty m) +++ " MB, Writeback: " +++ pf (MemInfo.writeback m) +++ " MB";
   "  AnonPages: " +++ pf (MemInfo.anon_pages m) +++ " MB, Mapped: " +++ pf (MemInfo.mapped m) +++ " MB";
   "  KReclaimable: " +++ pf (MemInfo.kReclaimable m) +++ " MB, SReclaimable: " +++
   pf (MemInfo.sReclaimable m) +++ " MB, SUnreclaim: " +++ pf (MemInfo.sUnreclaim m) +++ " MB"].

Definition net_lines (n : NetInfo.t) : list string :=
  ["[" +++ NetInfo.name n +++ "]";
   "  Recv: " +++ pf (NetInfo.rcv_rate n) +++ " B/s (" +++ pf (NetInfo.rcv_packets_rate n) +++ " pkt/s)";
   "  Send: " +++ pf (NetInfo.send_rate n) +++ " B/s (" +++ pf (NetInfo.send_packets_rate n) +++ " pkt/s)";
   "  Errors(in/out): " +++ to_string (NetInfo.err_in n) +++ "/" +++ to_string (NetInfo.err_out n) +++
   ", Drops(in/out): " +++ to_string (NetInfo.drop_in n) +++ "/" +++ to_string (NetInfo.drop_out n)].

(** Bytes to kilobytes: [x / 1024.0]. *)
Definition to_KB (x : f64) : f64 := f64_div x (f64_of_Z 1024).

Definition disk_lines (d : DiskInfo.t) : list string :=
  ["[" +++ DiskInfo.name d +++ "]";
   "  Read: " +++ print (to_KB (DiskInfo.read_bytes_per_sec d)) +++ " KB/s, IOPS: " +++
   print (DiskInfo.read_iops d) +++ ", Latency: " +++ print (DiskInfo.avg_read_latency_ms d) +++ " ms";
   "  Write: " +++ print (to_KB (DiskInfo.write_bytes_per_sec d)) +++ " KB/s, IOPS: " +++
   print (DiskInfo.write_iops d) +++ ", Latency: " +++ print (DiskInfo.avg_write_latency_ms d) +++ " ms";
   "  Util: " +++ print (DiskInfo.util_percent d) +++ "%, IO_InProgress: " +++
   to_string (DiskInfo.io_in_progress d);
   "  Reads: " +++ to_string (DiskInfo.reads d) +++ ", Writes: " +++ to_string (DiskInfo.writes d) +++
   ", SectorsRead: " +++ to_string (DiskInfo.sectors_read d) +++ ", SectorsWritten: " +++
   to_string (DiskInfo.sectors_written d)].

Definition softirq_lines (s : SoftIrq.t) : list string :=
  ["[" +++ SoftIrq.cpu s +++ "] HI: " +++ pf (SoftIrq.hi s) +++ ", TIMER: " +++ pf (SoftIrq.timer s) +++
   ", NET_TX: " +++ pf (SoftIrq.net_tx s) +++ ", NET_RX: " +++ pf (SoftIrq.net_rx s) +++
   ", BLOCK: " +++ pf (SoftIrq.block s) +++ ", IRQ_POLL: " +++ pf (SoftIrq.irq_poll s) +++
   ", TASKLET: " +++ pf (SoftIrq.tasklet s) +++ ", SCHED: " +++ pf (SoftIrq.sched s) +++
   ", HRTIMER: " +++ pf (SoftIrq.hrtimer s) +++ ", RCU: " +++ pf (SoftIrq.rcu s)].

Definition mysql_lines (m : MysqlInfo.t) : list string :=
  ["[" +++ MysqlInfo.instance m +++ "] Up: " +++ yes_no (MysqlInfo.up m) +++ ", Role: " +++
   MysqlInfo.role m +++ ", Version: " +++ MysqlInfo.version m;
   "  Connections: " +++ to_string (MysqlInfo.threads_connected m) +++ "/" +++
   to_string (MysqlInfo.max_connections m) +++ ", Running: " +++ to_string (MysqlInfo.threads_running m) +++
   ", Questions: " +++ to_string (MysqlInfo.questions m) +++ ", Slow: " +++
   to_string (MysqlInfo.slow_queries m);
   "  InnoDB hit: " +++ print (MysqlInfo.innodb_buffer_pool_hit_percent m) +++ "%, Row lock waits: " +++
   to_string (MysqlInfo.innodb_row_lock_waits m)] ++
  (if MysqlInfo.replication_configured m then
     ["  Replication: " +++ (if MysqlInfo.replication_running m then "running" else "stopped") +++
      ", Lag: " +++ print (MysqlInfo.replication_lag_seconds m) +++ "s"]
   else []).

Definition redis_lines (r : RedisInfo.t) : list string :=
  ["[" +++ RedisInfo.instance r +++ "] Up: " +++ yes_no (RedisInfo.up r) +++ ", Role: " +++
   RedisInfo.role r +++ ", Version: " +++ RedisInfo.version r;
   "  Clients: " +++ to_string (RedisInfo.connected_clients r) +++ "/" +++
   to_string (RedisInfo.maxclients r) +++ ", Memory: " +++ print (RedisInfo.memory_used_percent r) +++
   "%, Ops/s: " +++ print (RedisInfo.instantaneous_ops_per_sec r);
   "  Hit: " +++ print (RedisInfo.keyspace_hit_percent r) +++ "%, Evicted: " +++
   to_string (RedisInfo.evicted_keys r) +++ ", Slowlog: " +++ to_string (RedisInfo.slowlog_len r)].

(** The heading of the CPU statistics is printed without an element too. *)
Definition metrics_log (i : MonitorInfo.t) : list string :=
  [""; "============== Collected Metrics ============="] ++
  match MonitorInfo.host_info i with
  | Some h => ["[Host] Hostname: " +++ HostInfo.hostname h]
  | None => []
  end ++
  heading "CPU Statistics" ++ (MonitorInfo.cpu_stat i ≫= cpu_stat_lines) ++
  section "CPU Load" cpu_load_lines (option_list (MonitorInfo.cpu_load i)) ++
  section "Memory Info" mem_lines (option_list (MonitorInfo.mem_info i)) ++
  section "Network Info" net_lines (MonitorInfo.net_info i) ++
  section "Disk Info" disk_lines (MonitorInfo.disk_info i) ++
  section "SoftIRQ Info" softirq_lines (MonitorInfo.soft_irq i) ++
  section "MySQL Info" mysql_lines (MonitorInfo.mysql_info i) ++
  section "Redis Info" redis_lines (MonitorInfo.redis_info i) ++
  ["=============================================="].

(** The lines on standard output and on standard error. *)
Record output := mk_output { out : list string; err : list string }.

(** [pushOnce] with what it prints; [errorMessage]: the text of the status. *)
Definition pushOnce_printed {R} (c : config) (b : build) (hostname errorMessage : string)
    (stub : ServerContext -> MonitorInfo.t -> R -> Status * R) (w : world) (s : members) (server : R)
    : res (bool * members * R * output) :=
  x ← collectAll b hostname w (s, MonitorInfo.empty);
  let '(status, server) := stub (metadata c) x.2 server in
  if ok status then
    Done (true, x.1, server, mk_output (metrics_log x.2 ++
      [">>> Pushed monitor data to " +++ managerAddress_ c +++ " successfully <<<"]) [])
  else
    Done (false, x.1, server, mk_output (metrics_log x.2) [">>> Push failed: " +++ errorMessage +++ " <<<"]).

(** The turn of [pushLoop] that pushes. *)
Definition loop_output (c : config) (pushed : bool) (o : output) : output :=
  if pushed then o
  else mk_output (out o) (err o ++ ["Failed to push metrics data to " +++ managerAddress_ c]).

(** [main], and [start] of the pusher it creates. *)
Definition started_line (c : config) : string :=
  "MonitorPusher started, pushing to " +++ managerAddress_ c +++ " every " +++
  to_string (intervalSeconds_ c) +++ " seconds.".

Definition main_output (c : config) : list string :=
  ["Starting Monitor Server (Push Mode) ..."; "Manager Address: " +++ managerAddress_ c;
   "Push Interval: " +++ to_string (intervalSeconds_ c) +++ " seconds";
   "Worker ID: " +++ (if is_empty (workerID_ c) then "<empty>" else workerID_ c);
   started_line c; "Press Ctrl + C to exit."].

(** ** HostManager::onDataReceived *)

Definition times (x : f32) (k : Z) : f32 := f32_mul x (f32_of_Z k).

Definition received_net_lines (n : NetInfo.t) : list string :=
  ["  [" +++ NetInfo.name n +++ "] Recv: " +++ pf (NetInfo.rcv_rate n) +++ " B/s, Send: " +++
   pf (NetInfo.send_rate n) +++ " B/s, Drops: " +++ to_string (NetInfo.drop_in n) +++ "/" +++
   to_string (NetInfo.drop_out n)].

Definition received_disk_lines (d : DiskInfo.t) : list string :=
  ["  [" +++ DiskInfo.name d +++ "] Read: " +++ print (to_KB (DiskInfo.read_bytes_per_sec d)) +++
   " KB/s, Write: " +++ print (to_KB (DiskInfo.write_bytes_per_sec d)) +++ " KB/s, Util: " +++
   print (DiskInfo.util_percent d) +++ "%"].

Definition received_redis_lines (r : RedisInfo.t) : list string :=
  ["  [" +++ RedisInfo.instance r +++ "] Up: " +++ yes_no (RedisInfo.up r) +++ ", Role: " +++
   RedisInfo.role r +++ ", Clients: " +++ to_string (RedisInfo.connected_clients r) +++ ", Memory: " +++
   print (RedisInfo.memory_used_percent r) +++ "%, Hit: " +++ print (RedisInfo.keyspace_hit_percent r) +++
   "%"].

(** The verbose log of a sample, in a build with MySQL. *)
Definition received_log (id : string) (s : f64) (i : MonitorInfo.t) (curr last : PerfSample)
    : list string :=
  [""; "================== Received Data =================="; "Server: " +++ id +++ ", Score: " +++ print s] ++
  heading "CPU" ++
  ["  Usage: " +++ pf (cpu_percent curr) +++ "%, User: " +++ pf (usr_percent curr) +++ "%, System: " +++
   pf (system_percent curr) +++ "%";
   "  Nice: " +++ pf (nice_percent curr) +++ "%, Idle: " +++ pf (idle_percent curr) +++ "%, IOWait: " +++
   pf (io_wait_percent curr) +++ "%";
   "  IRQ: " +++ pf (irq_percent curr) +++ "%, SoftIRQ: " +++ pf (soft_irq_percent curr) +++ "%";
   "  Load: " +++ pf (load_avg_1 curr) +++ "/" +++ pf (load_avg_3 curr) +++ "/" +++ pf (load_avg_15 curr)] ++
  heading "Memory" ++
  ["  Used: " +++ pf (mem_used_percent curr) +++ "%, Total: " +++ pf (mem_total curr) +++ " MB";
   "  Free: " +++ pf (mem_free curr) +++ " MB, Avail: " +++ pf (mem_avail curr) +++ " MB"] ++
  heading "Network" ++
  ["  In: " +++ pf (times (times (p_net_in_rate curr) 1024) 1024) +++ " B/s, Out: " +++
   pf (times (times (p_net_out_rate curr) 1024) 1024) +++ " B/s"] ++
  (MonitorInfo.net_info i ≫= received_net_lines) ++
  heading "Disk" ++
  (match MonitorInfo.disk_info i with
   | [] => ["  No disk data"]
   | l => l ≫= received_disk_lines
   end) ++
  section "Redis" received_redis_lines (MonitorInfo.redis_info i) ++
  heading "SoftIRQ" ++
  ["  CPU cores with softirq data: " +++ to_string (Z.of_nat (length (MonitorInfo.soft_irq i)))] ++
  heading "Change Rates" ++
  ["  CPU: " +++ pf (times (rate (cpu_percent curr) (cpu_percent last)) 100) +++ "%, Mem: " +++
   pf (times (rate (mem_used_percent curr) (mem_used_percent last)) 100) +++ "%, Load: " +++
   pf (times (rate (load_avg_1 curr) (load_avg_1 last)) 100) +++ "%";
   "  NetIn: " +++ pf (times (rate (p_net_in_rate curr) (p_net_in_rate last)) 100) +++ "%, NetOut: " +++
   pf (times (rate (p_net_out_rate curr) (p_net_out_rate last)) 100) +++ "%"] ++
  heading "Database" ++
  ["  Data enqueued for MySQL writer pool"; "===================================================="; ""].

(** What [onDataReceived] prints for a message that arrives in a state;
    [errorText] is [mysql_error]. *)
Definition onDataReceived_output (db : string -> select_outcome) (escape : string -> string)
    (errorText : string) (cfg : ManagerConfig) (connected : bool) (i : MonitorInfo.t)
    (w : WorkerIdentity) (st : state) : output :=
  match resolveWorkerScope db escape connected w with
  | None =>
      mk_output []
        ((if negb (is_empty (worker_id w)) && connected then
            match db (registry_query escape (worker_id w)) with
            | QueryError => ["Worker registry query error: " +++ errorText]
            | _ => []
            end
          else []) ++
         ["Drop monitor data from unregistered or unauthorized worker: " +++ worker_id w])
  | Some _ =>
      let id := hostID i in
      if is_empty id then mk_output [] ["Received data with empty server identifier"]
      else if negb (verbose_log cfg) then mk_output [] []
      else
        let s := calculateScore i in
        mk_output (received_log id s i (curr_sample i s)
                     (default zero_sample (lastPerfSamples st !! id))) []
  end.
End Logs.

(** ** Printing changes nothing *)

Lemma pushOnce_erase {R} print c b hostname msg stub w s (server : R) :
  pushOnce c b hostname stub w s server =
  ('(r, s', server', _) ← pushOnce_printed print c b hostname msg stub w s server; Done (r, s', server')).
Proof.
  unfold pushOnce, pushOnce_printed. destruct (collectAll _ _ _ _) as [x| |]; [|done..].
  cbn. destruct (stub _ _ _) as [st srv]. by destruct (ok _).
Qed.

(** ** The lines of a log *)

(** The texts of a message that a log prints. *)
Definition printed_names (i : MonitorInfo.t) : list string :=
  map HostInfo.hostname (option_list (MonitorInfo.host_info i)) ++
  map CpuStat.cpu_name (MonitorInfo.cpu_stat i) ++ map NetInfo.name (MonitorInfo.net_info i) ++
  map DiskInfo.name (MonitorInfo.disk_info i) ++ map SoftIrq.cpu (MonitorInfo.soft_irq i) ++
  (MonitorInfo.mysql_info i ≫= fun m => [MysqlInfo.instance m; MysqlInfo.role m; MysqlInfo.version m]) ++
  (MonitorInfo.redis_info i ≫= fun r => [RedisInfo.instance r; RedisInfo.role r; RedisInfo.version r]).

Definition clean (l : list string) : Prop := Forall (fun s => one_line s = true) l.

(** The number of lines of the log. *)
Definition block {A} (lines : A -> nat) (l : list A) : nat :=
  (match l with [] => 0 | _ => 2 + sum_list_with lines l end)%nat.

Definition log_length (i : MonitorInfo.t) : nat :=
  (5 + length (option_list (MonitorInfo.host_info i)) + length (MonitorInfo.cpu_stat i) +
  block (fun _ => 1%nat) (option_list (MonitorInfo.cpu_load i)) +
  block (fun _ => 9%nat) (option_list (MonitorInfo.mem_info i)) +
  block (fun _ => 4%nat) (MonitorInfo.net_info i) + block (fun _ => 5%nat) (MonitorInfo.disk_info i) +
  block (fun _ => 1%nat) (MonitorInfo.soft_irq i) +
  block (fun m => if MysqlInfo.replication_configured m then 4 else 3)%nat (MonitorInfo.mysql_info i) +
  block (fun _ => 3%nat) (MonitorInfo.redis_info i))%nat.

Section Lines.
Variable print : f64 -> string.
(** A printed number is on one line. *)
Hypothesis Hprint : forall x, one_line (print x) = true.

Lemma one_line_app s t : one_line (s +++ t) = one_line s && one_line t.
Proof using. apply str_all_app. Qed.

Lemma one_line_to_string z : one_line (to_string z) = true.
Proof using.
  apply str_all_to_string; [done|]. intros c Hc. apply negb_true_iff, Ascii.eqb_neq. by intros ->.
Qed.

Lemma one_line_pf x : one_line (pf print x) = true.
Proof using Hprint. apply Hprint. Qed.

Lemma one_line_yes_no b : one_line (yes_no b) = true.
Proof using. by destruct b. Qed.

(** One line of a block, made of constants, numbers and clean names. *)
Ltac line_tac :=
  repeat constructor; rewrite ?one_line_app, ?one_line_pf, ?one_line_to_string, ?one_line_yes_no, ?Hprint;
  repeat match goal with H : one_line _ = true |- _ => rewrite H; clear H end;
  try reflexivity.

Lemma clean_bind {A} (f : A -> list string) (names : A -> list string) l :
  (forall x, clean (names x) -> clean (f x)) -> clean (l ≫= names) -> clean (l ≫= f).
Proof using.
  intros Hf. induction l as [|x l IH]; cbn; [done|]. intros [H1 H2]%Forall_app.
  apply Forall_app. split; [by apply Hf|by apply IH].
Qed.

Lemma clean_section {A} title (f : A -> list string) (names : A -> list string) l :
  one_line title = true -> (forall x, clean (names x) -> clean (f x)) ->
  clean (l ≫= names) -> clean (section title f l).
Proof using.
  intros Ht Hf Hl. unfold section. destruct l as [|x l]; [constructor|].
  apply Forall_app. split; [|by eapply clean_bind].
  repeat constructor. by rewrite !one_line_app, Ht.
Qed.

Lemma map_bind_single {A B} (f : A -> B) l : map f l = (l ≫= fun x => [f x]).
Proof using. induction l as [|x l IH]; [done|]. cbn. by rewrite <- IH. Qed.

Lemma section_length {A} title (f : A -> list string) (n : A -> nat) l :
  (forall x, length (f x) = n x) -> length (section title f l) = block n l.
Proof using.
  intros Hf. assert (Hb : length (l ≫= f) = sum_list_with n l).
  { induction l as [|x l IH]; [done|]. cbn. by rewrite length_app, Hf, IH. }
  unfold section, block. destruct l as [|x l]; [done|]. rewrite length_app, Hb. done.
Qed.

Lemma metrics_log_clean i : clean (printed_names i) -> clean (metrics_log print i).
Proof using Hprint.
  unfold printed_names, metrics_log, clean. rewrite !Forall_app, !map_bind_single.
  intros (Hh & Hc & Hn & Hd & Hs & Hm & Hr).
  split_and!; [by repeat constructor| |by repeat constructor| | | | | | | | |by repeat constructor].
  - destruct (MonitorInfo.host_info i) as [h|]; [|constructor]. apply Forall_cons in Hh as [Hh _].
    line_tac.
  - eapply clean_bind; [|exact Hc]. intros x [Hx _]%Forall_cons. line_tac.
  - apply (clean_section _ _ (fun _ => [])); [done| |destruct (MonitorInfo.cpu_load i); constructor].
    intros x _. line_tac.
  - apply (clean_section _ _ (fun _ => [])); [done| |destruct (MonitorInfo.mem_info i); constructor].
    intros x _. line_tac.
  - eapply clean_section; [done| |exact Hn]. intros x [Hx _]%Forall_cons. line_tac.
  - eapply clean_section; [done| |exact Hd]. intros x [Hx _]%Forall_cons. line_tac.
  - eapply clean_section; [done| |exact Hs]. intros x [Hx _]%Forall_cons. line_tac.
  - eapply clean_section; [done| |exact Hm]. intros x Hx. unfold clean in Hx.
    rewrite !Forall_cons in Hx. destruct Hx as (H1 & H2 & H3 & _). apply Forall_app. split; [line_tac|].
    destruct (MysqlInfo.replication_configured x); [|constructor].
    destruct (MysqlInfo.replication_running x); line_tac.
  - eapply clean_section; [done| |exact Hr]. intros x Hx. unfold clean in Hx.
    rewrite !Forall_cons in Hx. destruct Hx as (H1 & H2 & H3 & _). line_tac.
Qed.

Lemma metrics_log_length i : length (metrics_log print i) = log_length i.
Proof using.
  unfold metrics_log. rewrite !length_app.
  rewrite (section_length _ _ (fun _ => 1%nat)), (section_length _ _ (fun _ => 9%nat)),
    (section_length _ _ (fun _ => 4%nat)), (section_length _ _ (fun _ => 5%nat)),
    (section_length _ _ (fun _ => 1%nat)),
    (section_length _ _ (fun m => if MysqlInfo.replication_configured m then 4 else 3)%nat),
    (section_length _ _ (fun _ => 3%nat)) by (done || intros m; cbn; by destruct (MysqlInfo.replication_configured m)).
  assert (Hc : length (MonitorInfo.cpu_stat i ≫= cpu_stat_lines print) = length (MonitorInfo.cpu_stat i)).
  { induction (MonitorInfo.cpu_stat i) as [|x l IH]; [done|]. cbn. by rewrite IH. }
  rewrite Hc. unfold log_length. destruct (MonitorInfo.host_info i); cbn; lia.
Qed.

(** A reader that takes the worker's log line by line gets the lines of the log
    and nothing else, as many as the message has parts, when no name in the
    message holds a line feed. *)
Theorem metrics_log_read_back i :
  clean (printed_names i) ->
  let text := unlines newline (metrics_log print i) in
  exists lines, getlines (S (String.length text)) newline (istringstream text) = Some lines /\
    lines = metrics_log print i /\ length lines = log_length i.
Proof using Hprint.
  intros Hi text. exists (metrics_log print i). split; [|by rewrite metrics_log_length].
  rewrite getlines_pieces by lia. f_equal. by apply pieces_unlines, metrics_log_clean.
Qed.
End Lines.

(** ** A name with a line feed *)

(** Nothing removes a line feed from a name: the log of a message can hold a line
    that names another host. *)
Definition forging_info : MonitorInfo.t :=
  MonitorInfo.set_host_info
    (Some (HostInfo.mk ("x" +++ String newline "Server: victim") "10.0.0.9")) MonitorInfo.empty.

Example received_log_forged :
  let log := received_log (fun _ => "100") (hostID forging_info) fzero forging_info zero_sample
               zero_sample in
  take 4 (pieces newline (unlines newline log)) =
    [""; "================== Received Data =================="; "Server: x";
     "Server: victim_10.0.0.9, Score: 100"].
Proof. by vm_compute. Qed.

Definition quiet_info : MonitorInfo.t :=
  MonitorInfo.set_host_info (Some (HostInfo.mk "web" "10.0.0.1")) MonitorInfo.empty.

Lemma metrics_log_read_back_witness :
  exists lines, getlines 200 newline (istringstream
      (unlines newline (metrics_log (fun _ => "0") quiet_info))) = Some lines /\
    lines = [""; "============== Collected Metrics ============="; "[Host] Hostname: web"; "";
             "--- CPU Statistics ---"; "=============================================="].
Proof.
  destruct (metrics_log_read_back (fun _ => "0") (fun _ => eq_refl) quiet_info) as (l & _ & Hl & _).
  { by repeat constructor. }
  exists l. rewrite Hl. split; [by vm_compute|done].
Defined.
