(* ===== verification/MysqlWriter.v ===== *)
(** * MysqlWriter: the statements that store a sample

    [HostManager::writeToMysql] of [src/manager/src/HostManager.cpp]: the last
    samples it keeps, and for one record of the write queue the [INSERT]
    statements it runs, one per part of the message.  A statement is its table,
    its columns and its values; [statement_text] is the text given to
    [mysql_query], whose result the code only logs.

    [escape] is [mysql_real_escape_string]; [show32] and [show64] print a number
    as a stream does; [strftime] is the local time of a time point. *)

From S2P Require Import Prelude CFloat CString ManagerConfig Messages Dispatcher HostManager.
From Stdlib Require Import Ascii DecimalString.

(** ** The samples of the previous write *)

Record NetDetailedSample := mk_NetDetailedSample {
  net_recv_bytes_rate : f32; net_send_bytes_rate : f32;
  net_recv_packets_rate : f32; net_send_packets_rate : f32;
  s_err_in : Z; s_err_out : Z; s_drop_in : Z; s_drop_out : Z }.

(** [SoftIrqSample] and [MemDetailSample]: their fields in order. *)
Definition SoftIrqSample : Type := list f32.
Definition MemDetailSample : Type := list f32.
(** [DiskDetailSample]: the [double]s of the message, narrowed to [float]. *)
Definition DiskDetailSample : Type := list f32.

Record MysqlDetailSample := mk_MysqlDetailSample {
  s_questions : Z; s_com_commit : Z; s_com_rollback : Z; s_slow_queries : Z;
  s_innodb_row_lock_waits : Z; mysql_timestamp : Z; mysql_initialized : bool }.

Record RedisDetailSample := mk_RedisDetailSample {
  s_total_commands_processed : Z; s_total_net_input_bytes : Z; s_total_net_output_bytes : Z;
  s_slowlog_len : Z; redis_timestamp : Z; redis_initialized : bool }.

Definition no_net : NetDetailedSample := mk_NetDetailedSample fzero fzero fzero fzero 0 0 0 0.
Definition no_mysql : MysqlDetailSample := mk_MysqlDetailSample 0 0 0 0 0 0 false.
Definition no_redis : RedisDetailSample := mk_RedisDetailSample 0 0 0 0 0 false.

(** The maps from a host, and the name of the part, to its last sample. *)
Record writer := mk_writer {
  lastDiskUtil : gmap string f32;
  lastNetSamples : gmap (string * string) NetDetailedSample;
  lastSoftirqSamples : gmap (string * string) SoftIrqSample;
  lastMemSamples : gmap string MemDetailSample;
  lastDiskSamples : gmap (string * string) DiskDetailSample;
  lastMysqlSamples : gmap (string * string) MysqlDetailSample;
  lastRedisSamples : gmap (string * string) RedisDetailSample }.

Definition new_writer : writer := mk_writer ∅ ∅ ∅ ∅ ∅ ∅ ∅.

(** ** Statements *)

(** A value of a statement: a quoted literal of a text, or a bare word. *)
Inductive value := Quoted (s : string) | Bare (s : string).

Record insert := mk_insert { table : string; columns : list string; values : list value }.

Fixpoint join (sep : string) (l : list string) : string :=
  match l with
  | [] => ""
  | [s] => s
  | s :: rest => s +++ sep +++ join sep rest
  end.

Definition scope_columns : list string :=
  ["tenant_id"; "team_id"; "cluster_id"; "server_id"; "server_name"].

Definition performance_columns : list string :=
  scope_columns ++
  ["cpu_percent"; "usr_percent"; "system_percent"; "nice_percent"; "idle_percent";
   "io_wait_percent"; "irq_percent"; "soft_irq_percent"; "load_avg_1"; "load_avg_3";
   "load_avg_15"; "mem_used_percent"; "total"; "free"; "avail"; "disk_util_percent";
   "send_rate"; "rcv_rate"; "score"; "cpu_percent_rate"; "usr_percent_rate";
   "system_percent_rate"; "nice_percent_rate"; "idle_percent_rate"; "io_wait_percent_rate";
   "irq_percent_rate"; "soft_irq_percent_rate"; "load_avg_1_rate"; "load_avg_3_rate";
   "load_avg_15_rate"; "mem_used_percent_rate"; "total_rate"; "free_rate"; "avail_rate";
   "disk_util_percent_rate"; "send_rate_rate"; "rcv_rate_rate"; "timestamp"].

Definition net_columns : list string :=
  scope_columns ++
  ["net_name"; "err_in"; "err_out"; "drop_in"; "drop_out";
   "rcv_bytes_rate"; "rcv_packets_rate"; "snd_bytes_rate"; "snd_packets_rate";
   "rcv_bytes_rate_rate"; "rcv_packets_rate_rate"; "snd_bytes_rate_rate"; "snd_packets_rate_rate";
   "err_in_rate"; "err_out_rate"; "drop_in_rate"; "drop_out_rate"; "timestamp"].

Definition softirq_fields : list string :=
  ["hi"; "timer"; "net_tx"; "net_rx"; "block"; "irq_poll"; "tasklet"; "sched"; "hrtimer"; "rcu"].

Definition mem_fields : list string :=
  ["total"; "free"; "avail"; "buffers"; "cached"; "swap_cached"; "active"; "inactive";
   "active_anon"; "inactive_anon"; "active_file"; "inactive_file"; "dirty"; "writeback";
   "anon_pages"; "mapped"; "kreclaimable"; "sreclaimable"; "sunreclaim"].

Definition disk_fields : list string :=
  ["read_bytes_per_sec"; "write_bytes_per_sec"; "read_iops"; "write_iops";
   "avg_read_latency_ms"; "avg_write_latency_ms"; "util_percent"].

Definition rate_columns (fields : list string) : list string :=
  map (fun f => f +++ "_rate") fields.

Definition softirq_columns : list string :=
  scope_columns ++ ["cpu_name"] ++ softirq_fields ++ rate_columns softirq_fields ++ ["timestamp"].

Definition mem_columns : list string :=
  scope_columns ++ mem_fields ++ rate_columns mem_fields ++ ["timestamp"].

Definition disk_columns : list string :=
  scope_columns ++
  ["disk_name"; "read_ops"; "write_ops"; "sectors_read"; "sectors_written"; "read_time_ms";
   "write_time_ms"; "io_in_progress"; "io_time_ms"; "weighted_io_time_ms"] ++
  disk_fields ++ rate_columns disk_fields ++ ["timestamp"].

Definition mysql_columns : list string :=
  scope_columns ++
  ["instance"; "mysql_host"; "mysql_port"; "up"; "version"; "`role`"; "max_connections";
   "threads_connected"; "threads_running"; "aborted_connects"; "questions"; "com_select";
   "com_insert"; "com_update"; "com_delete"; "com_commit"; "com_rollback"; "slow_queries";
   "innodb_buffer_pool_read_requests"; "innodb_buffer_pool_reads";
   "innodb_buffer_pool_hit_percent"; "innodb_row_lock_waits"; "innodb_row_lock_time_avg_ms";
   "replication_configured"; "replication_running"; "replication_lag_seconds";
   "connection_used_percent"; "qps"; "tps"; "slow_queries_rate"; "innodb_row_lock_waits_rate";
   "timestamp"].

Definition redis_columns : list string :=
  scope_columns ++
  ["instance"; "redis_host"; "redis_port"; "up"; "version"; "`role`"; "uptime_in_seconds";
   "connected_clients"; "blocked_clients"; "maxclients"; "connection_used_percent";
   "used_memory"; "maxmemory"; "mem_fragmentation_ratio"; "memory_used_percent";
   "total_commands_processed"; "instantaneous_ops_per_sec"; "commands_per_sec";
   "keyspace_hits"; "keyspace_misses"; "keyspace_hit_percent"; "expired_keys"; "evicted_keys";
   "rejected_connections"; "total_error_replies"; "total_net_input_bytes";
   "total_net_output_bytes"; "net_input_bytes_per_sec"; "net_output_bytes_per_sec";
   "replication_configured"; "master_link_up"; "connected_slaves"; "master_last_io_seconds_ago";
   "slowlog_len"; "slowlog_growth"; "timestamp"].

(** ** Derived numbers *)

(** [rateU64]: the subtraction is unsigned. *)
Definition rateU64 (nowVal lastVal : Z) : f32 :=
  if lastVal =? 0 then fzero
  else f32_div (f32_of_Z (u64_sub nowVal lastVal)) (f32_of_Z lastVal).

Definition counterRate (nowVal lastVal : Z) (seconds : f64) : f32 :=
  if fle seconds fzero || (nowVal <? lastVal) then fzero
  else f32_of_f64 (f64_div (f64_of_Z (nowVal - lastVal)) seconds).

Definition counterDelta (nowVal lastVal : Z) : f32 :=
  if nowVal <? lastVal then fzero else f32_of_Z (nowVal - lastVal).

(** [duration<double>(b - a).count()] of two clock readings in nanoseconds. *)
Definition seconds_between (a b : Z) : f64 :=
  f64_div (f64_of_Z (b - a)) (f64_of_Z 1000000000).

Definition used_percent_of (used limit : Z) : f32 :=
  if limit =? 0 then fzero
  else f32_mul (f32_div (f32_of_Z used) (f32_of_Z limit)) (f32_of_Z 100).

(** The name under which an instance is stored. *)
Definition instance_name (instance host : string) (port : Z) : string :=
  let name :=
    if is_empty instance
    then if 0 <? port then host +++ ":" +++ to_string port else host
    else instance in
  if is_empty name then "unknown" else name.

Definition role_name (role : string) : string := if is_empty role then "unknown" else role.

(** ** The statements of one sample *)

Section Writer.
Variable escape : string -> string.
Variables (show32 : f32 -> string) (show64 : f64 -> string) (strftime : Z -> string).

Definition value_text (v : value) : string :=
  match v with Quoted s => quoteSqlString escape s | Bare s => s end.

Definition values_text (vs : list value) : string := join "," (map value_text vs) +++ ")".

Definition statement_text (st : insert) : string :=
  "INSERT INTO " +++ table st +++ " (" +++ join ", " (columns st) +++ ") VALUES (" +++
  values_text (values st).

Definition n32 (x : f32) : value := Bare (show32 x).
Definition n64 (x : f64) : value := Bare (show64 x).
Definition nZ (z : Z) : value := Bare (to_string z).
Definition nbool (b : bool) : value := Bare (if b then "1" else "0").

(** The first five values and the last one of every statement. *)
Definition scope_values (data : HostMonitoringData) : list value :=
  let sc := scope data in
  [Quoted (tenant_id sc); Quoted (team_id sc); Quoted (cluster_id sc);
   Bare (if server_id sc =? 0 then "NULL" else to_string (server_id sc));
   Quoted (host_name data)].

Definition timestamp_value (data : HostMonitoringData) : value :=
  Quoted (strftime (timestamp (host_score data))).

Definition info_of (data : HostMonitoringData) : MonitorInfo.t := info (host_score data).

(** [util] is narrowed to [float] before it is compared. *)
Definition max_disk_util32 (disks : list DiskInfo.t) : f32 :=
  foldl (fun m d =>
    let util := f32_of_f64 (DiskInfo.util_percent d) in if fgt util m then util else m)
    fzero disks.

Definition performance_insert (data : HostMonitoringData) (w : writer) : insert * writer :=
  let i := info_of data in
  let mem := get_mem_info i in
  let load := get_cpu_load i in
  let cpu := default CpuStat.empty (selectAggregateCpuStat i) in
  let net := default NetInfo.empty (head (MonitorInfo.net_info i)) in
  let diskUtilPercent := max_disk_util32 (MonitorInfo.disk_info i) in
  let diskUtilPercentRate :=
    match lastDiskUtil w !! host_name data with
    | Some last => rate diskUtilPercent last
    | None => fzero
    end in
  (mk_insert "server_performance" performance_columns
    (scope_values data ++
     map n32 [CpuStat.cpu_percent cpu; CpuStat.usr_percent cpu; CpuStat.system_percent cpu;
              CpuStat.nice_percent cpu; CpuStat.idle_percent cpu; CpuStat.io_wait_percent cpu;
              CpuStat.irq_percent cpu; CpuStat.soft_irq_percent cpu;
              CpuLoad.load_avg_1 load; CpuLoad.load_avg_3 load; CpuLoad.load_avg_15 load;
              MemInfo.used_percent mem; MemInfo.total mem; MemInfo.free mem; MemInfo.avail mem;
              diskUtilPercent; NetInfo.send_rate net; NetInfo.rcv_rate net] ++
     [n64 (score (host_score data))] ++
     map n32 [cpu_percent_rate data; usr_percent_rate data; system_percent_rate data;
              nice_percent_rate data; idle_percent_rate data; io_wait_percent_rate data;
              irq_percent_rate data; soft_irq_percent_rate data; load_avg_1_rate data;
              load_avg_3_rate data; load_avg_15_rate data; mem_used_percent_rate data;
              mem_total_rate data; mem_free_rate data; mem_avail_rate data;
              diskUtilPercentRate; net_in_rate_rate data; net_out_rate_rate data] ++
     [timestamp_value data]),
   mk_writer (<[host_name data := diskUtilPercent]> (lastDiskUtil w)) (lastNetSamples w)
     (lastSoftirqSamples w) (lastMemSamples w) (lastDiskSamples w) (lastMysqlSamples w)
     (lastRedisSamples w)).

Definition net_insert (data : HostMonitoringData) (w : writer) (net : NetInfo.t)
    : insert * writer :=
  let key := (host_name data, NetInfo.name net) in
  let last := default no_net (lastNetSamples w !! key) in
  let curr := mk_NetDetailedSample (NetInfo.rcv_rate net) (NetInfo.send_rate net)
                (NetInfo.rcv_packets_rate net) (NetInfo.send_packets_rate net)
                (NetInfo.err_in net) (NetInfo.err_out net)
                (NetInfo.drop_in net) (NetInfo.drop_out net) in
  (mk_insert "server_net_detail" net_columns
    (scope_values data ++ [Quoted (NetInfo.name net)] ++
     map nZ [s_err_in curr; s_err_out curr; s_drop_in curr; s_drop_out curr] ++
     map n32 [net_recv_bytes_rate curr; net_recv_packets_rate curr;
              net_send_bytes_rate curr; net_send_packets_rate curr;
              rate (net_recv_bytes_rate curr) (net_recv_bytes_rate last);
              rate (net_recv_packets_rate curr) (net_recv_packets_rate last);
              rate (net_send_bytes_rate curr) (net_send_bytes_rate last);
              rate (net_send_packets_rate curr) (net_send_packets_rate last);
              rateU64 (s_err_in curr) (s_err_in last); rateU64 (s_err_out curr) (s_err_out last);
              rateU64 (s_drop_in curr) (s_drop_in last);
              rateU64 (s_drop_out curr) (s_drop_out last)] ++
     [timestamp_value data]),
   mk_writer (lastDiskUtil w) (<[key := curr]> (lastNetSamples w)) (lastSoftirqSamples w)
     (lastMemSamples w) (lastDiskSamples w) (lastMysqlSamples w) (lastRedisSamples w)).

(** The rates of a list of numbers against the last ones, 0 at first. *)
Definition rates (curr : list f32) (last : option (list f32)) : list f32 :=
  imap (fun i x => rate x (nth i (default [] last) fzero)) curr.

Definition softirq_insert (data : HostMonitoringData) (w : writer) (s : SoftIrq.t)
    : insert * writer :=
  let key := (host_name data, SoftIrq.cpu s) in
  let curr := [SoftIrq.hi s; SoftIrq.timer s; SoftIrq.net_tx s; SoftIrq.net_rx s;
               SoftIrq.block s; SoftIrq.irq_poll s; SoftIrq.tasklet s; SoftIrq.sched s;
               SoftIrq.hrtimer s; SoftIrq.rcu s] in
  (mk_insert "server_softirq_detail" softirq_columns
    (scope_values data ++ [Quoted (SoftIrq.cpu s)] ++
     map n32 (curr ++ rates curr (lastSoftirqSamples w !! key)) ++ [timestamp_value data]),
   mk_writer (lastDiskUtil w) (lastNetSamples w) (<[key := curr]> (lastSoftirqSamples w))
     (lastMemSamples w) (lastDiskSamples w) (lastMysqlSamples w) (lastRedisSamples w)).

Definition mem_insert (data : HostMonitoringData) (w : writer) (m : MemInfo.t)
    : insert * writer :=
  let key := host_name data in
  let curr := [MemInfo.total m; MemInfo.free m; MemInfo.avail m; MemInfo.buffers m;
               MemInfo.cached m; MemInfo.swap_cached m; MemInfo.active m; MemInfo.inactive m;
               MemInfo.active_anon m; MemInfo.inactive_anon m; MemInfo.active_file m;
               MemInfo.inactive_file m; MemInfo.dirty m; MemInfo.writeback m;
               MemInfo.anon_pages m; MemInfo.mapped m; MemInfo.kReclaimable m;
               MemInfo.sReclaimable m; MemInfo.sUnreclaim m] in
  (mk_insert "server_mem_detail" mem_columns
    (scope_values data ++ map n32 (curr ++ rates curr (lastMemSamples w !! key)) ++
     [timestamp_value data]),
   mk_writer (lastDiskUtil w) (lastNetSamples w) (lastSoftirqSamples w)
     (<[key := curr]> (lastMemSamples w)) (lastDiskSamples w) (lastMysqlSamples w)
     (lastRedisSamples w)).

Definition disk_insert (data : HostMonitoringData) (w : writer) (d : DiskInfo.t)
    : insert * writer :=
  let key := (host_name data, DiskInfo.name d) in
  let curr := map f32_of_f64
                [DiskInfo.read_bytes_per_sec d; DiskInfo.write_bytes_per_sec d;
                 DiskInfo.read_iops d; DiskInfo.write_iops d; DiskInfo.avg_read_latency_ms d;
                 DiskInfo.avg_write_latency_ms d; DiskInfo.util_percent d] in
  (mk_insert "server_disk_detail" disk_columns
    (scope_values data ++ [Quoted (DiskInfo.name d)] ++
     map nZ [DiskInfo.reads d; DiskInfo.writes d; DiskInfo.sectors_read d;
             DiskInfo.sectors_written d; DiskInfo.read_time_ms d; DiskInfo.write_time_ms d;
             DiskInfo.io_in_progress d; DiskInfo.io_time_ms d; DiskInfo.weighted_io_time_ms d] ++
     map n32 (curr ++ rates curr (lastDiskSamples w !! key)) ++ [timestamp_value data]),
   mk_writer (lastDiskUtil w) (lastNetSamples w) (lastSoftirqSamples w) (lastMemSamples w)
     (<[key := curr]> (lastDiskSamples w)) (lastMysqlSamples w) (lastRedisSamples w)).

Definition mysql_insert (data : HostMonitoringData) (w : writer) (m : MysqlInfo.t)
    : insert * writer :=
  let instance := instance_name (MysqlInfo.instance m) (MysqlInfo.host m) (MysqlInfo.port m) in
  let key := (host_name data, instance) in
  let last := default no_mysql (lastMysqlSamples w !! key) in
  let curr := mk_MysqlDetailSample (MysqlInfo.questions m) (MysqlInfo.com_commit m)
                (MysqlInfo.com_rollback m) (MysqlInfo.slow_queries m)
                (MysqlInfo.innodb_row_lock_waits m) (timestamp (host_score data)) true in
  let seconds := if mysql_initialized last
                 then seconds_between (mysql_timestamp last) (mysql_timestamp curr) else fzero in
  let per_second now_ last_ :=
    if mysql_initialized last then counterRate now_ last_ seconds else fzero in
  (mk_insert "server_mysql_detail" mysql_columns
    (scope_values data ++
     [Quoted instance; Quoted (MysqlInfo.host m); nZ (MysqlInfo.port m); nbool (MysqlInfo.up m);
      Quoted (MysqlInfo.version m); Quoted (role_name (MysqlInfo.role m))] ++
     map nZ [MysqlInfo.max_connections m; MysqlInfo.threads_connected m;
             MysqlInfo.threads_running m; MysqlInfo.aborted_connects m; MysqlInfo.questions m;
             MysqlInfo.com_select m; MysqlInfo.com_insert m; MysqlInfo.com_update m;
             MysqlInfo.com_delete m; MysqlInfo.com_commit m; MysqlInfo.com_rollback m;
             MysqlInfo.slow_queries m; MysqlInfo.innodb_buffer_pool_read_requests m;
             MysqlInfo.innodb_buffer_pool_reads m] ++
     [n64 (MysqlInfo.innodb_buffer_pool_hit_percent m); nZ (MysqlInfo.innodb_row_lock_waits m);
      n64 (MysqlInfo.innodb_row_lock_time_avg_ms m); nbool (MysqlInfo.replication_configured m);
      nbool (MysqlInfo.replication_running m); n64 (MysqlInfo.replication_lag_seconds m)] ++
     map n32 [used_percent_of (MysqlInfo.threads_connected m) (MysqlInfo.max_connections m);
              per_second (s_questions curr) (s_questions last);
              per_second (u64_add (s_com_commit curr) (s_com_rollback curr))
                         (u64_add (s_com_commit last) (s_com_rollback last));
              per_second (s_slow_queries curr) (s_slow_queries last);
              per_second (s_innodb_row_lock_waits curr) (s_innodb_row_lock_waits last)] ++
     [timestamp_value data]),
   mk_writer (lastDiskUtil w) (lastNetSamples w) (lastSoftirqSamples w) (lastMemSamples w)
     (lastDiskSamples w) (<[key := curr]> (lastMysqlSamples w)) (lastRedisSamples w)).

Definition redis_insert (data : HostMonitoringData) (w : writer) (r : RedisInfo.t)
    : insert * writer :=
  let instance := instance_name (RedisInfo.instance r) (RedisInfo.host r) (RedisInfo.port r) in
  let key := (host_name data, instance) in
  let last := default no_redis (lastRedisSamples w !! key) in
  let curr := mk_RedisDetailSample (RedisInfo.total_commands_processed r)
                (RedisInfo.total_net_input_bytes r) (RedisInfo.total_net_output_bytes r)
                (RedisInfo.slowlog_len r) (timestamp (host_score data)) true in
  let seconds := if redis_initialized last
                 then seconds_between (redis_timestamp last) (redis_timestamp curr) else fzero in
  let per_second now_ last_ :=
    if redis_initialized last then counterRate now_ last_ seconds else fzero in
  let slowlogGrowth :=
    if redis_initialized last then counterDelta (s_slowlog_len curr) (s_slowlog_len last)
    else fzero in
  (mk_insert "server_redis_detail" redis_columns
    (scope_values data ++
     [Quoted instance; Quoted (RedisInfo.host r); nZ (RedisInfo.port r); nbool (RedisInfo.up r);
      Quoted (RedisInfo.version r); Quoted (role_name (RedisInfo.role r));
      nZ (RedisInfo.uptime_in_seconds r); nZ (RedisInfo.connected_clients r);
      nZ (RedisInfo.blocked_clients r); nZ (RedisInfo.maxclients r);
      n32 (used_percent_of (RedisInfo.connected_clients r) (RedisInfo.maxclients r));
      nZ (RedisInfo.used_memory r); nZ (RedisInfo.maxmemory r);
      n64 (RedisInfo.mem_fragmentation_ratio r); n64 (RedisInfo.memory_used_percent r);
      nZ (RedisInfo.total_commands_processed r); n64 (RedisInfo.instantaneous_ops_per_sec r);
      n32 (per_second (s_total_commands_processed curr) (s_total_commands_processed last));
      nZ (RedisInfo.keyspace_hits r); nZ (RedisInfo.keyspace_misses r);
      n64 (RedisInfo.keyspace_hit_percent r); nZ (RedisInfo.expired_keys r);
      nZ (RedisInfo.evicted_keys r); nZ (RedisInfo.rejected_connections r);
      nZ (RedisInfo.total_error_replies r); nZ (RedisInfo.total_net_input_bytes r);
      nZ (RedisInfo.total_net_output_bytes r);
      n32 (per_second (s_total_net_input_bytes curr) (s_total_net_input_bytes last));
      n32 (per_second (s_total_net_output_bytes curr) (s_total_net_output_bytes last));
      nbool (RedisInfo.replication_configured r); nbool (RedisInfo.master_link_up r);
      nZ (RedisInfo.connected_slaves r); n64 (RedisInfo.master_last_io_seconds_ago r);
      nZ (RedisInfo.slowlog_len r); n32 slowlogGrowth] ++
     [timestamp_value data]),
   mk_writer (lastDiskUtil w) (lastNetSamples w) (lastSoftirqSamples w) (lastMemSamples w)
     (lastDiskSamples w) (lastMysqlSamples w) (<[key := curr]> (lastRedisSamples w))).

(** One statement per element of a repeated field, in order. *)
Fixpoint inserts {A} (step : writer -> A -> insert * writer) (l : list A) (w : writer)
    : list insert * writer :=
  match l with
  | [] => ([], w)
  | x :: rest =>
      let '(st, w) := step w x in
      let '(sts, w) := inserts step rest w in
      (st :: sts, w)
  end.

Definition option_list_of {A} (o : option A) : list A := match o with Some x => [x] | None => [] end.

(** The body after the checks. *)
Definition sample_inserts (data : HostMonitoringData) (w : writer) : list insert * writer :=
  let i := info_of data in
  let '(perf, w) := performance_insert data w in
  let '(nets, w) := inserts (net_insert data) (MonitorInfo.net_info i) w in
  let '(softirqs, w) := inserts (softirq_insert data) (MonitorInfo.soft_irq i) w in
  let '(mems, w) := inserts (mem_insert data) (option_list_of (MonitorInfo.mem_info i)) w in
  let '(disks, w) := inserts (disk_insert data) (MonitorInfo.disk_info i) w in
  let '(mysqls, w) := inserts (mysql_insert data) (MonitorInfo.mysql_info i) w in
  let '(redises, w) := inserts (redis_insert data) (MonitorInfo.redis_info i) w in
  ([perf] ++ nets ++ softirqs ++ mems ++ disks ++ mysqls ++ redises, w).

(** [pool]: the write pool is configured; [connected]: it gave a connection. *)
Definition writeToMysql (pool connected : bool) (data : HostMonitoringData)
    (m : ManagerMetrics) (w : writer) : list string * ManagerMetrics * writer :=
  let sc := scope data in
  if negb pool then
    ([], mk_metrics (worker_requests m) (query_requests m) (queue_rejected m)
           (dropped_monitor_samples m) (task_timeouts m) (task_errors m)
           (mysql_errors m + 1) (redis_errors m) (pool_timeouts m) (pool_reconnects m), w)
  else if negb connected then
    ([], mk_metrics (worker_requests m) (query_requests m) (queue_rejected m)
           (dropped_monitor_samples m) (task_timeouts m) (task_errors m)
           (mysql_errors m) (redis_errors m) (pool_timeouts m + 1) (pool_reconnects m), w)
  else if is_empty (tenant_id sc) || is_empty (team_id sc) || is_empty (cluster_id sc) then
    ([], mk_metrics (worker_requests m) (query_requests m) (queue_rejected m)
           (dropped_monitor_samples m + 1) (task_timeouts m) (task_errors m)
           (mysql_errors m) (redis_errors m) (pool_timeouts m) (pool_reconnects m), w)
  else
    let '(sts, w) := sample_inserts data w in
    (map statement_text sts, m, w).
End Writer.

(** ** All statements of a sample *)

Section Sample.
Variables (show32 : f32 -> string) (show64 : f64 -> string) (strftime : Z -> string).
Variable data : HostMonitoringData.

Lemma inserts_Forall {A} (P : insert -> Prop) (f : writer -> A -> insert * writer) l : forall w,
  (forall w x, P (f w x).1) -> Forall P (inserts f l w).1.
Proof using.
  induction l as [|x l IH]; intros w Hf; cbn; [constructor|].
  pose proof (Hf w x) as Hx. destruct (f w x) as [st w1]. pose proof (IH w1 Hf) as Hl.
  destruct (inserts f l w1) as [sts w2]. by constructor.
Qed.

Lemma inserts_length {A} (f : writer -> A -> insert * writer) l : forall w,
  length (inserts f l w).1 = length l.
Proof using.
  induction l as [|x l IH]; intros w; cbn; [done|]. destruct (f w x) as [st w1].
  specialize (IH w1). destruct (inserts f l w1) as [sts w2]. cbn in *. lia.
Qed.

(** What holds of every statement that the writer can make for the sample holds
    of those it makes. *)
Lemma sample_inserts_Forall (P : insert -> Prop) w :
  (forall w, P (performance_insert show32 show64 strftime data w).1) ->
  (forall w x, P (net_insert show32 strftime data w x).1) ->
  (forall w x, P (softirq_insert show32 strftime data w x).1) ->
  (forall w x, P (mem_insert show32 strftime data w x).1) ->
  (forall w x, P (disk_insert show32 strftime data w x).1) ->
  (forall w x, P (mysql_insert show32 show64 strftime data w x).1) ->
  (forall w x, P (redis_insert show32 show64 strftime data w x).1) ->
  Forall P (sample_inserts show32 show64 strftime data w).1.
Proof using.
  intros H0 H1 H2 H3 H4 H5 H6. unfold sample_inserts. specialize (H0 w).
  destruct (performance_insert _ _ _ _ _) as [perf w0]. cbn [fst] in H0.
  do 6 match goal with
  | |- context [ inserts ?f ?l ?w ] =>
      let H := fresh in pose proof (inserts_Forall P f l w) as H; destruct (inserts f l w) as [? ?]
  end.
  cbn [fst] in *. rewrite !Forall_app, Forall_singleton. by split_and!; auto.
Qed.

Lemma sample_inserts_length w :
  let i := info_of data in
  length (sample_inserts show32 show64 strftime data w).1 =
    (1 + length (MonitorInfo.net_info i) + length (MonitorInfo.soft_irq i) +
     length (option_list_of (MonitorInfo.mem_info i)) + length (MonitorInfo.disk_info i) +
     length (MonitorInfo.mysql_info i) + length (MonitorInfo.redis_info i))%nat.
Proof using.
  cbv zeta. unfold sample_inserts. destruct (performance_insert _ _ _ _ _) as [perf w0].
  do 6 match goal with
  | |- context [ inserts ?f ?l ?w ] =>
      let H := fresh in pose proof (inserts_length f l w) as H; destruct (inserts f l w) as [? ?]
  end.
  cbn [fst] in *. rewrite !length_app. cbn. lia.
Qed.
End Sample.

(** ** Statements keep their shape *)

(** How MySQL reads the values of a statement: the text between quotes is a
    literal, in which a backslash takes the next character; outside, a comma
    separates values and the parenthesis must end the statement.  The result is
    the number of values. *)
Inductive lexer := Outside | Inside | Escaped.

Definition chr (n : nat) : ascii := ascii_of_nat n.
Definition quote : ascii := chr 39.
Definition backslash : ascii := chr 92.
Definition comma : ascii := chr 44.
Definition rparen : ascii := chr 41.

Fixpoint scan_values (st : lexer) (n : nat) (s : string) : option nat :=
  match s with
  | EmptyString => None
  | String c r =>
      match st with
      | Outside =>
          if Ascii.eqb c quote then scan_values Inside n r
          else if Ascii.eqb c comma then scan_values Outside (S n) r
          else if Ascii.eqb c rparen then (if is_empty r then Some (S n) else None)
          else scan_values Outside n r
      | Inside =>
          if Ascii.eqb c quote then scan_values Outside n r
          else if Ascii.eqb c backslash then scan_values Escaped n r
          else scan_values Inside n r
      | Escaped => scan_values Inside n r
      end
  end.

(** A character that has no meaning outside a literal. *)
Definition plain_char (c : ascii) : bool :=
  negb (Ascii.eqb c quote) && negb (Ascii.eqb c comma) && negb (Ascii.eqb c rparen).
Definition plain (s : string) : bool := str_all plain_char s.

Lemma scan_plain s : forall n r,
  plain s = true -> scan_values Outside n (s +++ r) = scan_values Outside n r.
Proof.
  induction s as [|c s IH]; intros n r H; [done|]. rewrite append_cons. cbn in *.
  apply andb_true_iff in H as [Hc Hs]. unfold plain_char in Hc. to_props.
  repeat match goal with E : Ascii.eqb c _ = false |- _ => rewrite E; clear E end. by apply IH.
Qed.

Lemma plain_to_string z : plain (to_string z) = true.
Proof.
  apply str_all_to_string; [done|]. intros c Hc. unfold plain_char.
  repeat (apply andb_true_iff; split); apply negb_true_iff, Ascii.eqb_neq; intros ->; done.
Qed.

Section Shape.
Variable escape : string -> string.
Variables (show32 : f32 -> string) (show64 : f64 -> string) (strftime : Z -> string).

(** [mysql_real_escape_string] leaves nothing that ends a literal. *)
Definition escape_ok : Prop := forall s n r,
  scan_values Inside n (escape s +++ r) = scan_values Inside n r.

Hypothesis Hescape : escape_ok.
(** A printed number has no quote, comma or parenthesis. *)
Hypothesis Hshow32 : forall x, plain (show32 x) = true.
Hypothesis Hshow64 : forall x, plain (show64 x) = true.

Definition bare_ok (v : value) : Prop :=
  match v with Quoted _ => True | Bare s => plain s = true end.

Lemma scan_value v n r :
  bare_ok v ->
  scan_values Outside n (value_text escape v +++ r) = scan_values Outside n r.
Proof using Hescape.
  destruct v as [s|s]; intros H; [|by apply scan_plain].
  cbn [value_text]. unfold quoteSqlString. rewrite !append_assoc.
  transitivity (scan_values Inside n (escape s +++ "'" +++ r)); [done|].
  by rewrite Hescape.
Qed.

Lemma scan_text vs : forall n,
  vs <> [] -> Forall bare_ok vs ->
  scan_values Outside n (values_text escape vs) = Some (n + length vs)%nat.
Proof using Hescape.
  unfold values_text. induction vs as [|v vs IH]; intros n Hne H; [done|].
  apply Forall_cons in H as [Hv Hvs]. destruct vs as [|v' vs].
  - cbn [map join]. rewrite scan_value by done. cbn. f_equal. lia.
  - change (join "," (map (value_text escape) (v :: v' :: vs))) with
      (value_text escape v +++ "," +++ join "," (map (value_text escape) (v' :: vs))).
    rewrite !append_assoc, scan_value by done.
    transitivity (scan_values Outside (S n)
      (join "," (map (value_text escape) (v' :: vs)) +++ ")")); [done|].
    rewrite IH by done. f_equal. cbn. lia.
Qed.

(** The columns are distinct, and MySQL finds one value for each. *)
Definition well_shaped (st : insert) : Prop :=
  NoDup (columns st) /\
  scan_values Outside 0 (values_text escape (values st)) = Some (length (columns st)).

Lemma well_shaped_intro st :
  NoDup (columns st) -> length (values st) = length (columns st) -> columns st <> [] ->
  Forall bare_ok (values st) -> well_shaped st.
Proof using Hescape.
  intros Hd Hl Hn Hb. split; [done|]. rewrite scan_text; [by rewrite Hl| |done].
  by destruct (values st), (columns st).
Qed.

Lemma bare_n32 l : Forall bare_ok (map (n32 show32) l).
Proof using Hshow32. apply Forall_map, Forall_true. apply Hshow32. Qed.

Lemma bare_nZ l : Forall bare_ok (map nZ l).
Proof using. apply Forall_map, Forall_true. apply plain_to_string. Qed.

Lemma bare_scope data : Forall bare_ok (scope_values data).
Proof using.
  unfold scope_values. repeat constructor. cbn.
  destruct (_ =? 0); [done|apply plain_to_string].
Qed.

Lemma length_rates curr last : length (rates curr last) = length curr.
Proof using. apply length_imap. Qed.

Ltac bare_tac :=
  cbn [values]; rewrite ?Forall_app; repeat split;
  auto using bare_n32, bare_nZ, bare_scope;
  repeat constructor; try apply plain_to_string; try apply Hshow32; try apply Hshow64;
  cbn; try (by case_match).

Ltac shape_tac :=
  unfold performance_insert, net_insert, softirq_insert, mem_insert, disk_insert,
    mysql_insert, redis_insert; cbn [fst];
  apply well_shaped_intro;
  [ cbn [columns]; apply (bool_decide_unpack _); by vm_compute
  | cbn [values columns]; rewrite ?length_app, ?length_map, ?length_app, ?length_rates; done
  | done
  | bare_tac ].

Abbreviation step f := (forall data w x, well_shaped (f data w x).1).

Lemma performance_shape data w :
  well_shaped (performance_insert show32 show64 strftime data w).1.
Proof using All. shape_tac. Qed.
Lemma net_shape : step (net_insert show32 strftime).
Proof using All. intros data w x. shape_tac. Qed.
Lemma softirq_shape : step (softirq_insert show32 strftime).
Proof using All. intros data w x. shape_tac. Qed.
Lemma mem_shape : step (mem_insert show32 strftime).
Proof using All. intros data w x. shape_tac. Qed.
Lemma disk_shape : step (disk_insert show32 strftime).
Proof using All. intros data w x. shape_tac. Qed.
Lemma mysql_shape : step (mysql_insert show32 show64 strftime).
Proof using All. intros data w x. shape_tac. Qed.
Lemma redis_shape : step (redis_insert show32 show64 strftime).
Proof using All. intros data w x. shape_tac. Qed.

(** C4. Whatever texts a worker sends as names, hosts, versions or roles, every
    statement that stores its sample has distinct columns and, as MySQL reads
    it, exactly one value for each of them: no text can end a literal, add a
    value or end the statement.  There is one statement for the host and one
    for each of the message's parts. *)
Theorem statements_keep_their_shape data w :
  let '(sts, _) := sample_inserts show32 show64 strftime data w in
  let i := info_of data in
  Forall well_shaped sts /\
  length sts = (1 + length (MonitorInfo.net_info i) + length (MonitorInfo.soft_irq i) +
                length (option_list_of (MonitorInfo.mem_info i)) +
                length (MonitorInfo.disk_info i) + length (MonitorInfo.mysql_info i) +
                length (MonitorInfo.redis_info i))%nat.
Proof using Hescape Hshow32 Hshow64.
  pose proof (sample_inserts_Forall show32 show64 strftime data well_shaped) as Hall.
  pose proof (sample_inserts_length show32 show64 strftime data w) as Hlen.
  specialize (Hall w). destruct (sample_inserts _ _ _ _ _) as [sts w']. split; [apply Hall|exact Hlen];
    auto using performance_shape, net_shape, softirq_shape, mem_shape, disk_shape, mysql_shape,
      redis_shape.
Qed.
End Shape.

(** ** Every statement names the scope of its sample *)

Definition scoped_insert (data : HostMonitoringData) (st : insert) : Prop :=
  exists cs vs, columns st = scope_columns ++ cs /\ values st = scope_values data ++ vs /\
    length cs = length vs.

Section Scope.
Variables (show32 : f32 -> string) (show64 : f64 -> string) (strftime : Z -> string).

Ltac scoped_tac :=
  intros; unfold performance_insert, net_insert, softirq_insert, mem_insert, disk_insert,
    mysql_insert, redis_insert, performance_columns, net_columns, softirq_columns, mem_columns,
    disk_columns, mysql_columns, redis_columns; cbn [fst];
  do 2 eexists; cbn [columns values]; split; [reflexivity|split; [reflexivity|]];
  rewrite ?length_app, ?length_map, ?length_app, ?length_imap; reflexivity.

Lemma sample_inserts_scoped data w :
  Forall (scoped_insert data) (sample_inserts show32 show64 strftime data w).1.
Proof using. apply sample_inserts_Forall; scoped_tac. Qed.
End Scope.

(** An escape function, and a sample with a hostile host name. *)
Fixpoint escape_quotes (s : string) : string :=
  match s with
  | EmptyString => EmptyString
  | String c r =>
      if Ascii.eqb c quote || Ascii.eqb c backslash
      then String backslash (String c (escape_quotes r)) else String c (escape_quotes r)
  end.

Lemma escape_quotes_ok : escape_ok escape_quotes.
Proof.
  intros s n r. induction s as [|c s IH]; [done|]. cbn [escape_quotes].
  destruct (Ascii.eqb c quote) eqn:Eq; [done|]. destruct (Ascii.eqb c backslash) eqn:Eb; [done|].
  cbn [orb]. rewrite append_cons. cbn. by rewrite Eq, Eb.
Qed.

Lemma escape_quotes_inj s : forall s', escape_quotes s = escape_quotes s' -> s = s'.
Proof.
  assert (Hb : forall c, Ascii.eqb c quote || Ascii.eqb c backslash = false -> c <> backslash).
  { intros c Hc ->. by vm_compute in Hc. }
  induction s as [|c s IH]; intros [|c' s'] H; cbn [escape_quotes] in H; repeat break_if; try done.
  - injection H as -> H. by rewrite (IH s').
  - injection H as E H. by destruct (Hb c').
  - injection H as E H. by destruct (Hb c).
  - injection H as -> H. by rewrite (IH s').
Qed.

Definition hostile : HostMonitoringData :=
  sample_data ("x'); DROP TABLE servers; -- " +++ String backslash "").

Lemma statements_keep_their_shape_witness :
  let '(sts, _) := sample_inserts (fun _ => "0") (fun _ => "0") (fun _ => "t") hostile new_writer in
  Forall (well_shaped escape_quotes) sts /\ length sts = 2%nat.
Proof.
  apply (statements_keep_their_shape escape_quotes (fun _ => "0") (fun _ => "0") (fun _ => "t")
    escape_quotes_ok (fun _ => eq_refl) (fun _ => eq_refl) hostile new_writer).
Defined.

(** ** The change rates of the network *)

(** The value a statement gives to a column. *)
Definition value_of (column : string) (st : insert) : option value :=
  match list_find (fun c => c = column) (columns st) with
  | Some (i, _) => values st !! i
  | None => None
  end.

Section NetRates.
Variables (show32 : f32 -> string) (show64 : f64 -> string) (strftime : Z -> string).

(** In [server_performance] the rate of change of the received traffic is
    stored as [send_rate_rate] and that of the sent traffic as [rcv_rate_rate],
    while [send_rate] and [rcv_rate] hold what their names say: for every sample
    that [onDataReceived] queues, the two columns are exchanged. *)
Theorem network_rates_exchanged id sc hs last w :
  let curr := curr_sample (info hs) (score hs) in
  let st := (performance_insert show32 show64 strftime (monitoring_data id sc hs curr last) w).1 in
  let net := default NetInfo.empty (head (MonitorInfo.net_info (info hs))) in
  value_of "send_rate" st = Some (Bare (show32 (NetInfo.send_rate net))) /\
  value_of "rcv_rate" st = Some (Bare (show32 (NetInfo.rcv_rate net))) /\
  value_of "send_rate_rate" st =
    Some (Bare (show32 (rate (p_net_in_rate curr) (p_net_in_rate last)))) /\
  value_of "rcv_rate_rate" st =
    Some (Bare (show32 (rate (p_net_out_rate curr) (p_net_out_rate last)))) /\
  p_net_in_rate curr = f32_of_f64 (to_MB (f64_of_f32 (NetInfo.rcv_rate net))) /\
  p_net_out_rate curr = f32_of_f64 (to_MB (f64_of_f32 (NetInfo.send_rate net))).
Proof using.
  cbv zeta. repeat split; try reflexivity.
  all: unfold curr_sample, rcv_rate_of, send_rate_of; cbn;
    by destruct (MonitorInfo.net_info (info hs)).
Qed.
End NetRates.

(** When a network counter starts again from a smaller value, the unsigned
    subtraction of [rateU64] gives a rate of about 2^64 over the last value (after
    a reset from 100 to 0 more than 10^17), where [counterRate], which guards the
    counters of MySQL and Redis, gives 0. *)
Theorem counter_reset_rates nowVal lastVal seconds :
  0 <= nowVal < lastVal -> lastVal < 2 ^ 64 ->
  rateU64 nowVal lastVal =
    f32_div (f32_of_Z (2 ^ 64 - (lastVal - nowVal))) (f32_of_Z lastVal) /\
  counterRate nowVal lastVal seconds = fzero /\
  fgt (rateU64 0 100) (f32_of_Z (10 ^ 17)) = true.
Proof.
  intros H1 H2. split; [|split; [|by vm_compute]].
  - unfold rateU64. rewrite (proj2 (Z.eqb_neq _ _)) by lia.
    replace (u64_sub nowVal lastVal) with (2 ^ 64 - (lastVal - nowVal)); [done|].
    unfold u64_sub. wrap_lia.
  - unfold counterRate. rewrite (proj2 (Z.ltb_lt _ _)) by lia. by rewrite orb_true_r.
Qed.

Lemma counter_reset_rates_witness :
  rateU64 3 7 = f32_div (f32_of_Z (2 ^ 64 - (7 - 3))) (f32_of_Z 7) /\
  counterRate 3 7 fone = fzero.
Proof. split; apply (counter_reset_rates 3 7 fone); lia. Defined.
