(* ===== verification/HostThreads.v ===== *)
(** * HostThreads: the threads of HostManager

    [start], [stop], [processLoop] and [mysqlWriteLoop] of
    [src/manager/src/HostManager.cpp] as a step relation: the thread that
    removes stale hosts, the writers that take samples from the queue and
    write them with [mysqlWriteMutex_] held, the threads that bring samples,
    and the caller of [stop].  A step is one critical section or one blocking
    call. *)

From S2P Require Import Prelude CFloat CString Messages ManagerConfig Dispatcher HostManager MysqlWriter.

(** Where [processLoop] is: at the test of [running_], asleep, or about to
    take [mutex_]. *)
Inductive process_pc := PTest | PAsleep | PSweep | PExited.

#[export] Instance process_pc_eq_dec : EqDecision process_pc.
Proof. solve_decision. Defined.

(** Where [mysqlWriteLoop] is: waiting for a sample, waiting for
    [mysqlWriteMutex_] with one, or in [writeToMysql]. *)
Inductive writer_pc :=
| WWait | WTaken (data : HostMonitoringData) | WWriting (data : HostMonitoringData) | WExited.

(** Where the caller of [start] and [stop] is: outside, joining [thread_],
    joining a writer, or back from [stop]. *)
Inductive caller_pc := COutside | CJoinProcess | CJoinWriter (i : nat) | CStopped.

(** Why [writeToMysql] returns without a statement: no write pool, no connection
    within the time limit, or a scope with an empty part. *)
Inductive reason := NoPool | NoConnection | NoScope.

#[export] Instance reason_eq_dec : EqDecision reason.
Proof. solve_decision. Defined.

(** [host]: the data of the object; [metrics], [statics] and [sent]: the
    metrics, the static maps of [writeToMysql] and the statements it sent.
    Four lists and a number record what became of the samples: [arrived], those
    that were enqueued; [finished], those whose statements were sent, in that
    order; [abandoned], those that [writeToMysql] gave up, with the reason;
    [evicted], those dropped by a full queue; [refused], the number of those of
    workers that were not admitted.  [metrics] holds what the writers count; what
    the queue and [onDataReceived] add to [dropped_monitor_samples] is [dropped]
    of [host]: the two are parts of one atomic counter. *)
Record threads := mk_threads {
  host : state; running_ : bool; process : process_pc; writers : list writer_pc;
  caller : caller_pc; metrics : ManagerMetrics; statics : writer; sent : list string;
  arrived : list HostMonitoringData; finished : list HostMonitoringData;
  abandoned : list (reason * HostMonitoringData); evicted : list HostMonitoringData; refused : Z }.

Definition is_writing (w : writer_pc) : bool :=
  match w with WWriting _ => true | _ => false end.

(** The sample a writer has taken and not yet written. *)
Definition in_hand (w : writer_pc) : option HostMonitoringData :=
  match w with WTaken d | WWriting d => Some d | _ => None end.

(** The fields that other mutexes guard. *)
Definition set_scores (s : gmap string HostScore) (st : state) : state :=
  mk_state s (lastPerfSamples st) (mysqlWriteQueue_ st) (redis_commands st) (dropped st).
Definition set_stores (s : gmap string HostScore) (l : gmap string PerfSample)
    (r : list (string * string)) (st : state) : state :=
  mk_state s l (mysqlWriteQueue_ st) r (dropped st).

Section Threads.
Variable cfg : ManagerConfig.
Variable escape : string -> string.
Variables (show32 : f32 -> string) (show64 : f64 -> string) (strftime : Z -> string).

(** [start], on an object in the state [st]. *)
Definition writerThreads : nat := Z.to_nat (Z.max 1 (mysql_write_pool_max cfg)).

Definition start (st : state) : threads :=
  mk_threads st true PTest (replicate writerThreads WWait) COutside zero_metrics new_writer [] []
    [] [] [] 0.

(** What [enqueueMysqlWrite] drops. *)
Definition drops (st : state) : list HostMonitoringData :=
  if Z.max 1 (task_queue_capacity cfg) <=? Z.of_nat (length (mysqlWriteQueue_ st))
  then take 1 (mysqlWriteQueue_ st) else [].

(** One step of [processLoop]. *)
Definition process_step (now : Z) (t : threads) : threads :=
  let at_pc pc st := mk_threads st (running_ t) pc (writers t) (caller t) (metrics t) (statics t)
                       (sent t) (arrived t) (finished t) (abandoned t) (evicted t) (refused t) in
  match process t with
  | PTest => at_pc (if running_ t then PAsleep else PExited) (host t)
  | PAsleep => at_pc PSweep (host t)
  | PSweep => at_pc PTest (set_scores (remove_stale now (hostScores_ (host t))) (host t))
  | PExited => t
  end.

(** One turn of a writer with the queue's mutex. *)
Definition take_turn (t : threads) : writer_pc * state :=
  match mysqlWriteLoop_turn (running_ t) (host t) with
  | (Return, st) => (WExited, st)
  | (Continue, st) => (WWait, st)
  | (Write d, st) => (WTaken d, st)
  end.

Definition set_writer (i : nat) (w : writer_pc) (st : state) (t : threads) : threads :=
  mk_threads st (running_ t) (process t) (<[i := w]> (writers t)) (caller t) (metrics t)
    (statics t) (sent t) (arrived t) (finished t) (abandoned t) (evicted t) (refused t).

Definition set_caller (running : bool) (c : caller_pc) (ws : list writer_pc) (t : threads) : threads :=
  mk_threads (host t) running (process t) ws c (metrics t) (statics t) (sent t) (arrived t)
    (finished t) (abandoned t) (evicted t) (refused t).

(** A thread that received a message. *)
Inductive arrive_step : threads -> threads -> Prop :=
| t_enqueue t data :
    arrive_step t
      (mk_threads (enqueueMysqlWrite cfg data (host t)) (running_ t) (process t) (writers t)
         (caller t) (metrics t) (statics t) (sent t) (arrived t ++ [data]) (finished t)
         (abandoned t) (evicted t ++ drops (host t)) (refused t))
| t_refuse t :
    arrive_step t
      (mk_threads (count_dropped (host t)) (running_ t) (process t) (writers t) (caller t)
         (metrics t) (statics t) (sent t) (arrived t) (finished t) (abandoned t) (evicted t) (refused t + 1))
| t_store t scores last redis :
    arrive_step t
      (mk_threads (set_stores scores last redis (host t)) (running_ t) (process t) (writers t)
         (caller t) (metrics t) (statics t) (sent t) (arrived t) (finished t) (abandoned t) (evicted t)
         (refused t)).

(** What becomes of a sample in [writeToMysql], by the tests it makes in turn. *)
Definition abandons (pool connected : bool) (d : HostMonitoringData) : option reason :=
  if negb pool then Some NoPool
  else if negb connected then Some NoConnection
  else if is_empty (tenant_id (scope d)) || is_empty (team_id (scope d)) ||
          is_empty (cluster_id (scope d)) then Some NoScope
  else None.

Definition written (pool connected : bool) (d : HostMonitoringData) : list HostMonitoringData :=
  match abandons pool connected d with None => [d] | Some _ => [] end.

Definition given_up (pool connected : bool) (d : HostMonitoringData)
    : list (reason * HostMonitoringData) :=
  match abandons pool connected d with None => [] | Some r => [(r, d)] end.

(** The threads of the object, and the caller in [stop].  [connected] is the
    answer of the write pool. *)
Inductive own_step : threads -> threads -> Prop :=
| t_process t now : process t <> PExited -> own_step t (process_step now t)
| t_take t i w st :
    writers t !! i = Some WWait -> take_turn t = (w, st) -> own_step t (set_writer i w st t)
| t_lock t i d :
    writers t !! i = Some (WTaken d) -> Forall (fun w => is_writing w = false) (writers t) ->
    own_step t (set_writer i (WWriting d) (host t) t)
| t_write t i d pool connected sts m w :
    writers t !! i = Some (WWriting d) ->
    writeToMysql escape show32 show64 strftime pool connected d (metrics t) (statics t) = (sts, m, w) ->
    own_step t
      (mk_threads (host t) (running_ t) (process t) (<[i := WWait]> (writers t)) (caller t) m w
         (sent t ++ sts) (arrived t) (finished t ++ written pool connected d)
         (abandoned t ++ given_up pool connected d) (evicted t) (refused t))
| t_join_process t :
    caller t = CJoinProcess -> process t = PExited ->
    own_step t (set_caller (running_ t) (CJoinWriter 0) (writers t) t)
| t_join_writer t i :
    caller t = CJoinWriter i -> writers t !! i = Some WExited ->
    own_step t (set_caller (running_ t) (CJoinWriter (S i)) (writers t) t)
| t_clear t i :
    caller t = CJoinWriter i -> length (writers t) = i ->
    own_step t (set_caller (running_ t) CStopped [] t).

(** [stop] lowers the flag. *)
Definition lower (t : threads) : threads := set_caller false CJoinProcess (writers t) t.

Inductive step : threads -> threads -> Prop :=
| s_arrive t t' : arrive_step t t' -> step t t'
| s_own t t' : own_step t t' -> step t t'
| s_stop t : caller t = COutside -> step t (lower t).
End Threads.

(** ** The invariant *)

Section Invariant.
Variable cfg : ManagerConfig.
Variable escape : string -> string.
Variables (show32 : f32 -> string) (show64 : f64 -> string) (strftime : Z -> string).

#[local] Notation own_step := (own_step escape show32 show64 strftime).
#[local] Notation step := (step cfg escape show32 show64 strftime).

(** At most one thread is in [writeToMysql]. *)
Definition one_writing (ws : list writer_pc) : Prop :=
  forall i j d d', ws !! i = Some (WWriting d) -> ws !! j = Some (WWriting d') -> i = j.

(** Every sample that arrived was written or abandoned, is in a writer's hands or
    queued, or was dropped by the full queue and counted. *)
Definition accounted (st0 : state) (t : threads) : Prop :=
  arrived t ≡ₚ finished t ++ map snd (abandoned t) ++ omap in_hand (writers t) ++ mysqlWriteQueue_ (host t) ++ evicted t /\
  dropped (host t) - dropped st0 = Z.of_nat (length (evicted t)) + refused t /\
  (length (mysqlWriteQueue_ (host t)) <= capacity cfg)%nat.

(** The statements of the samples one after the other, and the last values then. *)
Fixpoint write_all (ds : list HostMonitoringData) (w : writer) : list string * writer :=
  match ds with
  | [] => ([], w)
  | d :: ds =>
      let '(sts, w1) := sample_inserts show32 show64 strftime d w in
      let '(rest, w2) := write_all ds w1 in
      (map (statement_text escape) sts ++ rest, w2)
  end.

(** The metrics when these samples, and no others, were abandoned. *)
Definition times (r : reason) (l : list (reason * HostMonitoringData)) : Z :=
  Z.of_nat (length (filter (fun x => x.1 = r) l)).

Definition counted (l : list (reason * HostMonitoringData)) : ManagerMetrics :=
  mk_metrics 0 0 0 (times NoScope l) 0 0 (times NoPool l) 0 (times NoConnection l) 0.

(** What was sent is the statements of the samples written, and nothing else; the
    metrics count those abandoned, each under its reason. *)
Definition ledger (t : threads) : Prop :=
  (sent t, statics t) = write_all (finished t) new_writer /\ metrics t = counted (abandoned t).

Definition all_exited (n : nat) (ws : list writer_pc) : Prop :=
  forall j, (j < n)%nat -> ws !! j = Some WExited.

(** What the place of the caller says about the other threads. *)
Definition caller_ok (t : threads) : Prop :=
  match caller t with
  | COutside =>
      running_ t = true /\ process t <> PExited /\ WExited ∉ writers t /\
      (0 < length (writers t))%nat
  | CJoinProcess => running_ t = false
  | CJoinWriter i =>
      running_ t = false /\ process t = PExited /\ all_exited i (writers t) /\
      (i <= length (writers t))%nat
  | CStopped => running_ t = false /\ process t = PExited /\ writers t = []
  end.

Definition inv (st0 : state) (t : threads) : Prop :=
  one_writing (writers t) /\ accounted st0 t /\ caller_ok t.

Lemma one_writing_insert ws i w :
  one_writing ws -> (is_writing w = true -> Forall (fun w => is_writing w = false) ws) ->
  one_writing (<[i := w]> ws).
Proof.
  intros H Hw j1 j2 d1 d2 H1 H2.
  assert (Hno : forall j d, ws !! j = Some (WWriting d) -> is_writing w = true -> False).
  { intros j d Hj Hy. by apply (Forall_lookup_1 _ _ _ _ (Hw Hy)) in Hj. }
  apply list_lookup_insert_Some in H1 as [(<- & -> & _)|[N1 H1]];
    apply list_lookup_insert_Some in H2 as [(<- & E2 & _)|[N2 H2]]; try done.
  - exfalso. by eapply Hno.
  - subst w. exfalso. by eapply Hno.
  - by eapply H.
Qed.

Lemma in_hand_insert ws i w w' :
  ws !! i = Some w ->
  omap in_hand ws ≡ₚ option_list (in_hand w) ++ omap in_hand (others i ws) /\
  omap in_hand (<[i := w']> ws) ≡ₚ option_list (in_hand w') ++ omap in_hand (others i ws).
Proof.
  intros H. rewrite <- !omap_cons_app. split; apply omap_perm; [by apply others_perm|].
  by eapply others_insert_perm.
Qed.

(** A writer's step keeps the places of the other threads. *)
Lemma all_exited_insert n ws i w w' :
  all_exited n ws -> ws !! i = Some w -> w <> WExited -> all_exited n (<[i := w']> ws).
Proof.
  intros H Hi Hw j Hj. rewrite list_lookup_insert_ne; [by apply H|].
  intros ->. rewrite (H _ Hj) in Hi. congruence.
Qed.

(** The queue after an arrival. *)
Lemma enqueue_drops data st :
  mysqlWriteQueue_ st ++ [data] = drops cfg st ++ mysqlWriteQueue_ (enqueueMysqlWrite cfg data st) /\
  dropped (enqueueMysqlWrite cfg data st) = dropped st + Z.of_nat (length (drops cfg st)) /\
  ((length (mysqlWriteQueue_ st) <= capacity cfg)%nat ->
   (length (mysqlWriteQueue_ (enqueueMysqlWrite cfg data st)) <= capacity cfg)%nat).
Proof.
  unfold enqueueMysqlWrite, drops, capacity. destruct (_ <=? _) eqn:E; to_props; cbn.
  - destruct (mysqlWriteQueue_ st) as [|d q]; cbn in *; [lia|]. rewrite take_0, length_app. cbn.
    split_and!; [done|lia|lia].
  - rewrite length_app. cbn. split_and!; [done|lia|lia].
Qed.

(** ** Every step keeps it *)

#[local] Arguments enqueueMysqlWrite : simpl never.

Lemma inv_arrive st0 t t' : inv st0 t -> arrive_step cfg t t' -> inv st0 t'.
Proof.
  intros (H1 & (Hp & Hd & Hq) & Hc) Hs. destruct Hs as [t data|t|t scores last redis]; split_and!; try done; cbn;
    unfold accounted; cbn; [|split_and!; [done|lia|done]].
  destruct (enqueue_drops data (host t)) as (E & Ed & El).
  rewrite Ed, length_app. split_and!; [|lia|by apply El].
  rewrite Hp. rewrite <- !app_assoc. do 3 f_equiv.
  rewrite (Permutation_app_comm (evicted t) [data]), app_assoc, E.
  rewrite (Permutation_app_comm (drops cfg _)), <- app_assoc. f_equiv. apply Permutation_app_comm.
Qed.

(** A writer takes a sample, waits on, or returns. *)
Lemma take_turn_cases t w st :
  take_turn t = (w, st) ->
  (exists d, w = WTaken d /\ mysqlWriteQueue_ (host t) = d :: mysqlWriteQueue_ st /\
     dropped st = dropped (host t)) \/
  (mysqlWriteQueue_ (host t) = [] /\ st = host t /\ w = if running_ t then WWait else WExited).
Proof.
  unfold take_turn, mysqlWriteLoop_turn. destruct (mysqlWriteQueue_ (host t)) as [|d q] eqn:E.
  - destruct (running_ t) eqn:Er; intros [= <- <-]; by right.
  - intros [= <- <-]. left. by exists d.
Qed.

Lemma caller_ok_insert t i w w' st m sts s fin ab :
  caller_ok t -> writers t !! i = Some w -> w <> WExited -> (running_ t = true -> w' <> WExited) ->
  caller_ok (mk_threads st (running_ t) (process t) (<[i := w']> (writers t)) (caller t) m s sts
               (arrived t) fin ab (evicted t) (refused t)).
Proof.
  unfold caller_ok; cbn. intros Hc Hi Hw Hw'. destruct (caller t) as [| |n|].
  - destruct Hc as (Hr & Hp & Hn & Hl). rewrite length_insert. split_and!; try done.
    intros [E|Hin]%elem_of_insert_inv; [|done]. by apply (Hw' Hr).
  - done.
  - destruct Hc as (Hr & Hp & Hx & Hl). rewrite length_insert. split_and!; try done.
    by eapply all_exited_insert.
  - destruct Hc as (? & ? & E). by rewrite E in Hi.
Qed.

Lemma inv_take st0 t i w st :
  inv st0 t -> writers t !! i = Some WWait -> take_turn t = (w, st) -> inv st0 (set_writer i w st t).
Proof.
  intros (H1 & (Hp & Hd & Hq) & Hc) Hi Ht.
  destruct (in_hand_insert _ _ _ w Hi) as [E E']. cbn in E.
  apply take_turn_cases in Ht as [(d & -> & Eq & Ed)|(Eq & -> & ->)].
  - split_and!; cbn.
    + by apply one_writing_insert.
    + unfold accounted; cbn. rewrite Eq in *. cbn in Hq. split_and!; [|by rewrite Ed|lia].
      rewrite Hp, E, E'. cbn. do 2 f_equiv. symmetry. apply Permutation_middle.
    + by eapply caller_ok_insert.
  - split_and!; cbn.
    + apply one_writing_insert; [done|]. by destruct (running_ t).
    + unfold accounted; cbn. split_and!; try done. rewrite Hp, E, E'. by destruct (running_ t).
    + eapply caller_ok_insert; [done..|]. by intros ->.
Qed.

Lemma inv_set_writer st0 t i w w' :
  inv st0 t -> writers t !! i = Some w -> in_hand w = in_hand w' -> w <> WExited -> w' <> WExited ->
  (is_writing w' = true -> Forall (fun w => is_writing w = false) (writers t)) ->
  inv st0 (set_writer i w' (host t) t).
Proof.
  intros (H1 & (Hp & Hd & Hq) & Hc) Hi Eh Hw Hw' Hx.
  destruct (in_hand_insert _ _ _ w' Hi) as [E E']. split_and!; cbn.
  - by apply one_writing_insert.
  - unfold accounted; cbn. split_and!; try done. by rewrite Hp, E, E', Eh.
  - by eapply caller_ok_insert.
Qed.

Lemma written_or_given_up pool connected d :
  written pool connected d ++ map snd (given_up pool connected d) = [d].
Proof. unfold written, given_up. by destruct (abandons _ _ _). Qed.

Lemma inv_write st0 t i d pool connected m w sts :
  inv st0 t -> writers t !! i = Some (WWriting d) ->
  inv st0 (mk_threads (host t) (running_ t) (process t) (<[i := WWait]> (writers t)) (caller t) m w
             sts (arrived t) (finished t ++ written pool connected d)
             (abandoned t ++ given_up pool connected d) (evicted t) (refused t)).
Proof.
  intros (H1 & (Hp & Hd & Hq) & Hc) Hi.
  destruct (in_hand_insert _ _ _ WWait Hi) as [E E']. split_and!; cbn.
  - by apply one_writing_insert.
  - unfold accounted; cbn. split_and!; try done. rewrite Hp, E, E', map_app.
    change (option_list (in_hand (WWriting d))) with [d].
    rewrite <- (written_or_given_up pool connected d). cbn [in_hand option_list]. solve_Permutation.
  - by eapply caller_ok_insert.
Qed.

(** What [writeToMysql] does with a sample that it writes or gives up. *)
Lemma write_all_app l1 : forall l2 w,
  write_all (l1 ++ l2) w =
    let '(sts, w1) := write_all l1 w in let '(rest, w2) := write_all l2 w1 in (sts ++ rest, w2).
Proof.
  induction l1 as [|d l1 IH]; intros l2 w; cbn [app write_all].
  - by destruct (write_all l2 w).
  - destruct (sample_inserts _ _ _ d w) as [sts w1]. rewrite IH. destruct (write_all l1 w1) as [rest w2].
    destruct (write_all l2 w2). by rewrite app_assoc.
Qed.

Lemma times_app r l l' : times r (l ++ l') = times r l + times r l'.
Proof. unfold times. rewrite filter_app, length_app. lia. Qed.

Lemma times_one r r' d : times r [(r', d)] = if decide (r' = r) then 1 else 0.
Proof. unfold times. rewrite filter_cons. cbn. by destruct (decide _). Qed.

Lemma writeToMysql_outcome pool connected d l ab w sts m' w' :
  writeToMysql escape show32 show64 strftime pool connected d (counted ab) w = (sts, m', w') ->
  m' = counted (ab ++ given_up pool connected d) /\
  (forall text, (text, w) = write_all l new_writer ->
     (text ++ sts, w') = write_all (l ++ written pool connected d) new_writer).
Proof.
  assert (Hlost : forall (m'' : ManagerMetrics) rs,
    (([] : list string), m'', w) = (sts, m', w') ->
    m'' = counted (ab ++ rs) ->
    m' = counted (ab ++ rs) /\
    (forall text, (text, w) = write_all l new_writer -> (text ++ sts, w') = write_all (l ++ []) new_writer)).
  { intros m'' rs [= <- <- <-] ->. split; [done|]. intros text Ht. by rewrite !app_nil_r. }
  unfold writeToMysql, written, given_up, abandons.
  destruct pool; [destruct connected; [destruct (is_empty _ || _ || _)|]|]; cbn [negb].
  1, 3, 4: intros H; refine (Hlost _ _ H _); unfold counted; rewrite !times_app, !times_one;
    repeat case_decide; try done; cbn; f_equal; lia.
  destruct (sample_inserts _ _ _ d w) as [l1 w1] eqn:El. intros [= <- <- <-]. rewrite app_nil_r.
  split; [done|]. intros text Ht. rewrite write_all_app, <- Ht. cbn [write_all]. rewrite El. by rewrite app_nil_r.
Qed.

Lemma ledger_step t t' : ledger t -> step t t' -> ledger t'.
Proof.
  intros [Hs Hm] H. destruct H as [t t' H|t t' H|t Hc]; [by destruct H| |done].
  destruct H as [t now Hp|t i w st Hi Ht|t i d Hi Hx|t i d pool conn sts m w Hi Hw
    |t Hc Hp|t i Hc Hi|t i Hc Hl]; try done.
  - unfold process_step. by destruct (process t).
  - rewrite Hm in Hw. destruct (writeToMysql_outcome _ _ _ (finished t) _ _ _ _ _ Hw) as [-> Hall].
    split; [by apply Hall|done].
Qed.

Lemma reachable_ledger st t : rtc step (start cfg st) t -> ledger t.
Proof. by apply (rtc_invariant _ _ _ _ ledger_step). Qed.

Lemma omap_all_exited ws : all_exited (length ws) ws -> omap in_hand ws = [].
Proof.
  induction ws as [|w ws IH]; intros H; [done|]. rewrite omap_cons_app.
  specialize (H 0%nat) as H0; cbn in H0. rewrite IH.
  - injection H0 as ->; [done|lia].
  - intros j Hj. apply (H (S j)). cbn. lia.
Qed.

Lemma inv_own st0 t t' : inv st0 t -> own_step t t' -> inv st0 t'.
Proof.
  intros Hinv Hs.
  destruct Hs as [t now Hp|t i w st Hi Ht|t i d Hi Hx|t i d pool conn sts m w Hi Hw
    |t Hc Hp|t i Hc Hi|t i Hc Hl].
  - destruct Hinv as (H1 & (Hperm & Hd & Hq) & Hc). unfold process_step.
    destruct (process t) eqn:Ep; [| | |done]; split_and!; try done; unfold caller_ok in *; cbn;
      rewrite Ep in Hc; destruct (caller t); destruct_and?; split_and?; try done.
    by destruct (running_ t).
  - by eapply inv_take.
  - by eapply inv_set_writer.
  - by eapply inv_write.
  - destruct Hinv as (H1 & Ha & Hok). split_and!; try done. unfold caller_ok in *. cbn.
    rewrite Hc in Hok. split_and!; [done|done| |lia]. intros j Hj. lia.
  - destruct Hinv as (H1 & Ha & Hok). split_and!; try done. unfold caller_ok in *. cbn.
    rewrite Hc in Hok. destruct Hok as (Hr & Hp & Hx & Hn). split_and!; [done|done| |].
    + intros j Hj. destruct (decide (j = i)) as [->|]; [done|]. apply Hx. lia.
    + apply lookup_lt_Some in Hi. lia.
  - destruct Hinv as (H1 & (Hperm & Hd & Hq) & Hok). unfold caller_ok in *. rewrite Hc in Hok.
    destruct Hok as (Hr & Hp & Hx & _). rewrite <- Hl in Hx. split_and!; cbn.
    + by intros j1 j2 d d' H.
    + unfold accounted; cbn. split_and!; try done. by rewrite Hperm, omap_all_exited.
    + done.
Qed.

Lemma inv_step st0 t t' : inv st0 t -> step t t' -> inv st0 t'.
Proof.
  intros H Hs. destruct Hs as [t t' Hs|t t' Hs|t Hc].
  - by eapply inv_arrive.
  - by eapply inv_own.
  - destruct H as (H1 & Ha & Hok). by split_and!.
Qed.

Lemma start_inv st : mysqlWriteQueue_ st = [] -> inv st (start cfg st).
Proof.
  intros Hq. split_and!; cbn.
  - intros i j d d' [? _]%lookup_replicate. done.
  - unfold accounted; cbn. rewrite Hq. split_and!; [|lia|cbn; lia].
    assert (E : forall n, omap in_hand (replicate n WWait) = []) by (by induction n). by rewrite E.
  - unfold caller_ok; cbn. split_and!; [done|done| |].
    + intros [? _]%elem_of_replicate. done.
    + rewrite length_replicate. unfold writerThreads. lia.
Qed.

Lemma reachable_inv st t :
  mysqlWriteQueue_ st = [] -> rtc step (start cfg st) t -> inv st t.
Proof. intros Hq. apply (rtc_invariant _ _ _ _ (inv_step st)). by apply start_inv. Qed.

(** C14. However the writers, the threads that bring samples, the cleaner and
    the caller of [stop] interleave: one thread at a time is in [writeToMysql],
    whose maps of last values are static; the queue stays within its capacity;
    and every sample that arrived is in exactly one place: written, abandoned by
    [writeToMysql], in the hands of one writer, queued, or dropped by the full
    queue.  Those written are those whose statements were sent, one sample after
    the other and nothing else; an abandoned sample left no statement and no last
    values, and is counted under its reason: [mysql_errors] without a pool,
    [pool_timeouts] without a connection, [dropped_monitor_samples] without a
    scope.  The samples that the full queue dropped and those of workers that were
    refused are counted as dropped. *)
Theorem writers_account st t :
  mysqlWriteQueue_ st = [] -> rtc step (start cfg st) t ->
  (forall i j d d', writers t !! i = Some (WWriting d) -> writers t !! j = Some (WWriting d') -> i = j) /\
  (length (mysqlWriteQueue_ (host t)) <= capacity cfg)%nat /\
  arrived t ≡ₚ finished t ++ map snd (abandoned t) ++ omap in_hand (writers t) ++
                mysqlWriteQueue_ (host t) ++ evicted t /\
  (sent t, statics t) = write_all (finished t) new_writer /\
  metrics t = counted (abandoned t) /\
  dropped (host t) = dropped st + Z.of_nat (length (evicted t)) + refused t.
Proof.
  intros Hq Hr. destruct (reachable_inv _ _ Hq Hr) as (H1 & (Hp & Hd & Hl) & _).
  destruct (reachable_ledger _ _ Hr) as [Hs Hm]. split_and!; [done|done|done|done|done|lia].
Qed.

(** ** Stopping *)

(** What is left to do for a thread. *)
Definition process_work (p : process_pc) : nat :=
  match p with PAsleep => 3 | PSweep => 2 | PTest => 1 | PExited => 0 end.

Definition writer_work (w : writer_pc) : nat :=
  match w with WTaken _ => 3 | WWriting _ => 2 | WWait => 1 | WExited => 0 end.

Definition caller_work (t : threads) : nat :=
  match caller t with
  | COutside => 0
  | CJoinProcess => length (writers t) + 2
  | CJoinWriter i => length (writers t) - i + 1
  | CStopped => 0
  end.

Definition work (t : threads) : nat :=
  process_work (process t) + sum_list_with writer_work (writers t) +
  3 * length (mysqlWriteQueue_ (host t)) + caller_work t.

Lemma own_step_work st0 t t' :
  inv st0 t -> running_ t = false -> own_step t t' -> (work t' < work t)%nat.
Proof.
  intros (_ & _ & Hok) Hr Hs. unfold work.
  destruct Hs as [t now Hp|t i w st Hi Ht|t i d Hi Hx|t i d pool conn sts m w Hi Hw
    |t Hc Hp|t i Hc Hi|t i Hc Hl]; unfold caller_work; cbn.
  - unfold process_step. rewrite Hr. destruct (process t); cbn; try done; lia.
  - rewrite (sum_others _ _ _ _ Hi), (sum_others_insert _ _ _ _ _ Hi), length_insert. cbn.
    apply take_turn_cases in Ht as [(d & -> & Eq & _)|(Eq & -> & ->)].
    + rewrite Eq. cbn. lia.
    + rewrite Hr, Eq. cbn. lia.
  - rewrite (sum_others _ _ _ _ Hi), (sum_others_insert _ _ _ _ _ Hi), length_insert. cbn. lia.
  - rewrite (sum_others _ _ _ _ Hi), (sum_others_insert _ _ _ _ _ Hi), length_insert. cbn. lia.
  - rewrite Hc. lia.
  - rewrite Hc. apply lookup_lt_Some in Hi. lia.
  - rewrite Hc. cbn. lia.
Qed.

(** A thread of the object can step until [stop] has returned. *)
Lemma own_progress st0 t :
  inv st0 t -> running_ t = false -> caller t <> CStopped -> exists t', own_step t t'.
Proof.
  intros (_ & _ & Hok) Hr Hc. unfold caller_ok in Hok.
  destruct (decide (process t = PExited)) as [Hp|Hp]; [|eexists; by apply (t_process _ _ _ _ _ 0)].
  destruct (caller t) as [| |i|] eqn:Ec; [destruct Hok; congruence|by eexists; apply t_join_process| |done].
  destruct Hok as (_ & _ & _ & Hle).
  destruct (writers t !! i) as [w|] eqn:Hi; cycle 1.
  { apply lookup_ge_None in Hi. eexists. eapply t_clear; [done|lia]. }
  destruct w as [|d|d|].
  - destruct (take_turn t) as [w st] eqn:Et. eexists. by eapply t_take.
  - destruct (decide (Forall (fun w => is_writing w = false) (writers t))) as [Hx|Hx].
    + eexists. by eapply t_lock.
    + apply not_Forall_Exists in Hx; [|tc_solve].
      apply Exists_exists in Hx as (w & [j Hj]%list_elem_of_lookup & Hw).
      destruct w as [| |d'|]; try (by destruct Hw).
      destruct (writeToMysql escape show32 show64 strftime true true d' (metrics t) (statics t))
        as [[sts m] s] eqn:Ew.
      eexists. by eapply t_write.
  - destruct (writeToMysql escape show32 show64 strftime true true d (metrics t) (statics t))
      as [[sts m] s] eqn:Ew.
    eexists. by eapply t_write.
  - eexists. by eapply t_join_writer.
Qed.

(** The object's own steps, with nothing arriving. *)
Definition drained (t : threads) : Prop :=
  WExited ∈ writers t \/ writers t = [] -> mysqlWriteQueue_ (host t) = [].

Definition quiet (acc : list HostMonitoringData) (t : threads) : Prop :=
  running_ t = false /\ arrived t = acc /\ drained t.

Lemma drained_insert t t' i w w' :
  drained t -> writers t !! i = Some w -> w <> WExited ->
  writers t' = <[i := w']> (writers t) ->
  (mysqlWriteQueue_ (host t) = [] -> mysqlWriteQueue_ (host t') = []) ->
  (w' = WExited -> mysqlWriteQueue_ (host t') = []) -> drained t'.
Proof.
  intros Hd Hi Hw Ew Hq Hx. unfold drained. rewrite Ew. intros [Hin|Hnil].
  - apply elem_of_insert_inv in Hin as [E|Hin]; [by apply Hx|]. apply Hq, Hd. by left.
  - apply (f_equal length) in Hnil. rewrite length_insert in Hnil.
    apply lookup_lt_Some in Hi. cbn in Hnil. lia.
Qed.

Lemma quiet_own st0 acc t t' : inv st0 t -> quiet acc t -> own_step t t' -> quiet acc t'.
Proof.
  intros (_ & _ & Hok) (Hr & Ha & Hd) Hs.
  destruct Hs as [t now Hp|t i w st Hi Ht|t i d Hi Hx|t i d pool conn sts m w Hi Hw
    |t Hc Hp|t i Hc Hi|t i Hc Hl]; split_and!; try done.
  - unfold process_step. by destruct (process t).
  - unfold process_step. by destruct (process t).
  - unfold process_step. by destruct (process t).
  - apply take_turn_cases in Ht as [(d & -> & Eq & _)|(Eq & -> & ->)].
    + eapply drained_insert; [exact Hd|exact Hi|done|done|by rewrite Eq|done].
    + by eapply drained_insert.
  - by eapply drained_insert.
  - by eapply drained_insert.
  - intros _. apply Hd. destruct (writers t) as [|w ws] eqn:Ew; [by right|left].
    unfold caller_ok in Hok. rewrite Hc in Hok. destruct Hok as (_ & _ & Hx & _).
    apply (list_elem_of_lookup_2 _ 0%nat). rewrite <- Ew. apply Hx. rewrite <- Hl. cbn. lia.
Qed.

(** C8. [stop] returns, and loses nothing.  Once the flag of a running object is
    lowered and no more samples arrive, some thread can always step until [stop]
    has returned, every step lowers [work], so that at most [work] steps are
    left; and when [stop] has returned the queue is empty and every sample that
    arrived was written, which is that its statements and no others were sent; or
    abandoned by [writeToMysql] and counted under the reason (no pool, no
    connection, no scope); or had been dropped by the full queue and counted. *)
Theorem stop_drains st t0 t :
  mysqlWriteQueue_ st = [] -> rtc step (start cfg st) t0 -> caller t0 = COutside ->
  rtc own_step (lower t0) t ->
  (caller t <> CStopped -> exists t', own_step t t') /\
  (forall t', own_step t t' -> (work t' < work t)%nat) /\
  (caller t = CStopped ->
     mysqlWriteQueue_ (host t) = [] /\
     arrived t ≡ₚ finished t ++ map snd (abandoned t) ++ evicted t /\
     arrived t = arrived t0 /\
     (sent t, statics t) = write_all (finished t) new_writer /\
     metrics t = counted (abandoned t) /\
     dropped (host t) = dropped st + Z.of_nat (length (evicted t)) + refused t).
Proof.
  intros Hq Hr Hc Hr'. pose proof (reachable_inv _ _ Hq Hr) as H0.
  assert (H : inv st t /\ quiet (arrived t0) t).
  { eapply (rtc_invariant _ (fun t => inv st t /\ quiet (arrived t0) t)); [|split|exact Hr'].
    - intros a b [Ha Hqa] Hs. split; [by eapply inv_own|by eapply quiet_own].
    - eapply inv_step; [exact H0|by apply s_stop].
    - destruct H0 as (_ & _ & Hok). unfold caller_ok in Hok. rewrite Hc in Hok.
      destruct Hok as (_ & _ & Hn & Hl). split_and!; try done. intros [Hin|E]; [done|].
      cbn in E. rewrite E in Hl. cbn in Hl. lia. }
  destruct H as (Hi & Hrun & Ha & Hd).
  assert (Hl : ledger t).
  { apply (reachable_ledger st). etrans; [exact Hr|].
    eapply rtc_l; [by apply s_stop|]. eapply rtc_subrel; [|exact Hr']. intros a b. apply s_own. }
  split_and!.
  - by eapply own_progress.
  - intros t'. by eapply own_step_work.
  - intros Hs. destruct Hi as (_ & (Hp & Hdr & _) & Hok). unfold caller_ok in Hok. rewrite Hs in Hok.
    destruct Hok as (_ & _ & Hw). assert (Hnil : mysqlWriteQueue_ (host t) = []) by (apply Hd; by right).
    rewrite Hw, Hnil in Hp. destruct Hl as [Hs' Hm]. split_and!; [done..|lia].
Qed.
End Invariant.

(** ** Samples that overtake each other *)

Definition default_config : ManagerConfig := loadManagerConfigFromEnv (fun _ => None) 4.

(** One writer. *)
Definition one_writer : ManagerConfig :=
  loadManagerConfigFromEnv
    (fun name => if String.eqb name "MANAGER_MYSQL_WRITE_POOL_MIN" then Some "1"
                 else if String.eqb name "MANAGER_MYSQL_WRITE_POOL_MAX" then Some "1" else None) 4.

Section Runs.
Variable escape : string -> string.
Variables (show32 : f32 -> string) (show64 : f64 -> string) (strftime : Z -> string).
#[local] Notation step cfg := (step cfg escape show32 show64 strftime).

Lemma enqueue_below cfg data st :
  Z.of_nat (length (mysqlWriteQueue_ st)) < task_queue_capacity cfg ->
  enqueueMysqlWrite cfg data st =
    mk_state (hostScores_ st) (lastPerfSamples st) (mysqlWriteQueue_ st ++ [data])
      (redis_commands st) (dropped st) /\ drops cfg st = [].
Proof.
  intros H. unfold enqueueMysqlWrite, drops. by rewrite (proj2 (Z.leb_gt _ _)) by lia.
Qed.

(** A running object with [ws] as writers and nothing else started. *)
Definition running_at (ws : list writer_pc) (queue arr fin : list HostMonitoringData)
    (m : ManagerMetrics) (s : writer) (sts : list string) : threads :=
  mk_threads (mk_state ∅ ∅ queue [] 0) true PTest ws COutside m s sts arr fin [] [] 0.

Lemma enqueue_run cfg ws q arr fin m s sts d :
  Z.of_nat (length q) < task_queue_capacity cfg ->
  step cfg (running_at ws q arr fin m s sts) (running_at ws (q ++ [d]) (arr ++ [d]) fin m s sts).
Proof.
  intros H. apply s_arrive.
  pose proof (t_enqueue cfg (running_at ws q arr fin m s sts) d) as Hs. cbn in Hs.
  destruct (enqueue_below cfg d (mk_state ∅ ∅ q [] 0)) as [E Ed]; [done|].
  by rewrite E, Ed in Hs.
Qed.

Lemma take_run cfg ws i d q arr fin m s sts :
  ws !! i = Some WWait ->
  step cfg (running_at ws (d :: q) arr fin m s sts)
    (running_at (<[i := WTaken d]> ws) q arr fin m s sts).
Proof.
  intros H. apply s_own.
  exact (t_take _ _ _ _ (running_at ws (d :: q) arr fin m s sts) i _ _ H eq_refl).
Qed.

(** A writer that gets the mutex and writes. *)
Lemma write_run cfg ws i d q arr fin m s sts :
  abandons true true d = None -> ws !! i = Some (WTaken d) -> Forall (fun w => is_writing w = false) ws ->
  exists m' s' sts',
    rtc (step cfg) (running_at ws q arr fin m s sts)
      (running_at (<[i := WWait]> ws) q arr (fin ++ [d]) m' s' sts').
Proof.
  intros Hd Hi Hx.
  destruct (writeToMysql escape show32 show64 strftime true true d m s) as [[l m'] s'] eqn:E.
  exists m', s', (sts ++ l).
  eapply rtc_l; [apply s_own, (t_lock _ _ _ _ (running_at ws q arr fin m s sts) i d Hi Hx)|].
  eapply rtc_l; [apply s_own; eapply (t_write _ _ _ _ _ i d true true l m' s'); [|exact E]|].
  - cbn. apply list_lookup_insert_eq. by eapply lookup_lt_Some.
  - cbn. unfold written, given_up. by rewrite Hd, list_insert_insert_eq.
Qed.

(** With two or more writers, which is the default, samples of one host can
    be written in the other order: a writer that took the older sample waits for
    [mysqlWriteMutex_] while another, with the newer one, gets it first.  The
    rates of change in the statements are then those from the newer to the older
    sample. *)
Theorem samples_overtake cfg d1 d2 :
  2 <= mysql_write_pool_max cfg -> 2 <= task_queue_capacity cfg ->
  abandons true true d1 = None -> abandons true true d2 = None ->
  exists t, rtc (step cfg) (start cfg empty_state) t /\
    arrived t = [d1; d2] /\ finished t = [d2; d1] /\ evicted t = [].
Proof.
  intros Hw Hc Hd1 Hd2. unfold start. unfold writerThreads.
  destruct (Z.to_nat _) as [|[|n]] eqn:En; [lia|lia|]. clear En Hw. cbn [replicate].
  set (ws := replicate n WWait).
  assert (Hws : forall w w', is_writing w = false -> is_writing w' = false ->
    Forall (fun w => is_writing w = false) (w :: w' :: ws)).
  { intros w w' H H'. apply Forall_cons; split; [done|]. apply Forall_cons; split; [done|].
    by apply Forall_replicate. }
  destruct (write_run cfg (WTaken d1 :: WTaken d2 :: ws) 1 d2 [] [d1; d2] [] zero_metrics new_writer [])
    as (m & s & l & R1); [done|done|by apply Hws|].
  destruct (write_run cfg (WTaken d1 :: WWait :: ws) 0 d1 [] [d1; d2] [d2] m s l)
    as (m' & s' & l' & R2); [done|done|by apply Hws|].
  eexists. split.
  - eapply rtc_l; [apply (enqueue_run cfg (WWait :: WWait :: ws) [] [] [] zero_metrics new_writer [] d1); cbn; lia|].
    eapply rtc_l; [apply (enqueue_run cfg (WWait :: WWait :: ws) [d1] [d1] [] zero_metrics new_writer [] d2); cbn; lia|].
    eapply rtc_l; [by apply (take_run cfg (WWait :: WWait :: ws) 0 d1 [d2])|]. cbn.
    eapply rtc_l; [by apply (take_run cfg (WTaken d1 :: WWait :: ws) 1 d2 [])|]. cbn.
    etrans; [exact R1|exact R2].
  - done.
Qed.

(** One writer, two samples queued when [stop] is called: the first is written,
    for the second there is no connection. *)
Lemma stop_run d1 d2 :
  abandons true true d1 = None ->
  exists t, rtc (own_step escape show32 show64 strftime)
      (lower (running_at [WWait] [d1; d2] [d1; d2] [] zero_metrics new_writer [])) t /\
    caller t = CStopped /\ finished t = [d1] /\ abandoned t = [(NoConnection, d2)] /\ evicted t = [].
Proof.
  intros Hd. unfold lower, running_at.
  destruct (writeToMysql escape show32 show64 strftime true true d1 zero_metrics new_writer)
    as [[l m'] s'] eqn:E.
  eexists. split.
  - eapply rtc_l; [by apply (t_process _ _ _ _ _ 0)|cbn].
    eapply rtc_l; [by eapply (t_take _ _ _ _ _ 0)|cbn].
    eapply rtc_l; [eapply (t_lock _ _ _ _ _ 0); [done|by repeat constructor]|cbn].
    eapply rtc_l; [by eapply (t_write _ _ _ _ _ 0 _ true true)|cbn].
    eapply rtc_l; [by eapply (t_take _ _ _ _ _ 0)|cbn].
    eapply rtc_l; [eapply (t_lock _ _ _ _ _ 0); [done|by repeat constructor]|cbn].
    eapply rtc_l; [by eapply (t_write _ _ _ _ _ 0 _ true false)|cbn].
    eapply rtc_l; [by eapply (t_take _ _ _ _ _ 0)|cbn].
    eapply rtc_l; [by eapply t_join_process|cbn].
    eapply rtc_l; [by eapply (t_join_writer _ _ _ _ _ 0)|cbn].
    eapply rtc_l; [by eapply (t_clear _ _ _ _ _ 1)|cbn]. apply rtc_refl.
  - cbn. unfold written, given_up. by rewrite Hd.
Qed.
End Runs.

Lemma samples_overtake_witness :
  exists t, rtc (step default_config no_escape (fun _ => "") (fun _ => "") (fun _ => ""))
      (start default_config empty_state) t /\
    map host_name (arrived t) = ["a"; "b"] /\ map host_name (finished t) = ["b"; "a"].
Proof.
  destruct (samples_overtake no_escape (fun _ => "") (fun _ => "") (fun _ => "") default_config
    (sample_data "a") (sample_data "b")) as (t & Hr & Ha & Hf & _); [by vm_compute..|].
  exists t. rewrite Ha, Hf. by split.
Defined.

(** One writer, two samples queued. *)
Lemma queued_run d1 d2 :
  rtc (step one_writer no_escape (fun _ => "") (fun _ => "") (fun _ => ""))
    (start one_writer empty_state)
    (running_at [WWait] [d1; d2] [d1; d2] [] zero_metrics new_writer []).
Proof.
  eapply rtc_l; [by apply (enqueue_run _ _ _ _ one_writer [WWait] [] [] [] _ _ [] d1)|].
  apply rtc_once. by apply (enqueue_run _ _ _ _ one_writer [WWait] [d1] [d1] []).
Qed.

(** A run to its end, for the accounting of the samples. *)
Lemma writers_account_witness :
  exists t, rtc (step one_writer no_escape (fun _ => "") (fun _ => "") (fun _ => ""))
      (start one_writer empty_state) t /\
    caller t = CStopped /\ finished t = [sample_data "a"] /\
    (sent t, statics t) = write_all no_escape (fun _ => "") (fun _ => "") (fun _ => "")
                            [sample_data "a"] new_writer /\
    pool_timeouts (metrics t) = 1.
Proof.
  destruct (stop_run no_escape (fun _ => "") (fun _ => "") (fun _ => "") (sample_data "a")
    (sample_data "b") eq_refl) as (t & Hr & Hc & Hf & Ha & _). exists t.
  assert (Hrun : rtc (step one_writer no_escape (fun _ => "") (fun _ => "") (fun _ => ""))
    (start one_writer empty_state) t).
  { etrans; [apply (queued_run (sample_data "a") (sample_data "b"))|].
    eapply rtc_l; [by apply s_stop|]. eapply rtc_subrel; [|exact Hr]. intros x y. apply s_own. }
  destruct (writers_account one_writer no_escape (fun _ => "") (fun _ => "") (fun _ => "")
    empty_state t eq_refl Hrun) as (_ & _ & _ & Hs & Hm & _).
  rewrite Hf in Hs. rewrite Ha in Hm. split_and!; [exact Hrun|exact Hc|exact Hf|exact Hs|by rewrite Hm].
Defined.

Lemma stop_drains_witness :
  exists t, rtc (own_step no_escape (fun _ => "") (fun _ => "") (fun _ => ""))
      (lower (running_at [WWait] [sample_data "a"; sample_data "b"] [sample_data "a"; sample_data "b"]
                [] zero_metrics new_writer [])) t /\
    mysqlWriteQueue_ (host t) = [] /\
    arrived t ≡ₚ [sample_data "a"] ++ [sample_data "b"] ++ evicted t /\
    (sent t, statics t) = write_all no_escape (fun _ => "") (fun _ => "") (fun _ => "")
                            [sample_data "a"] new_writer /\
    pool_timeouts (metrics t) = 1.
Proof.
  destruct (stop_run no_escape (fun _ => "") (fun _ => "") (fun _ => "") (sample_data "a")
    (sample_data "b") eq_refl) as (t & Hr & Hc & Hf & Ha & _). exists t. split; [exact Hr|].
  destruct (proj2 (proj2 (stop_drains one_writer no_escape (fun _ => "") (fun _ => "") (fun _ => "")
    empty_state _ t eq_refl (queued_run (sample_data "a") (sample_data "b")) eq_refl Hr)) Hc)
    as (Hq & Hp & _ & Hs & Hm & _).
  rewrite Hf in Hs. rewrite Ha in Hm. rewrite Hf, Ha in Hp. split_and!; [exact Hq|exact Hp|exact Hs|by rewrite Hm].
Defined.
