(* ===== verification/QueryRecords.v ===== *)
(** * QueryRecords: the records of the query side and how rows become them

    The structures of [src/manager/include/QueryManager.h], one module per
    record type, and the readers of [src/manager/src/QueryManager.cpp] that turn
    the cells of a result row into their fields.  A time point is a number of
    nanoseconds.  A reader that calls [std::stoull] or [std::stoll] may throw:
    its result is a [res]. *)

From S2P Require Import Prelude CFloat CString.

(** ** Cells of a row *)

Definition row : Type := list string.

Definition cell (r : row) (i : nat) : string := default "" (r !! i).

Definition toFloat (r : row) (i : nat) : f32 :=
  if is_empty (cell r i) then fzero else f32_of_f64 (atof (cell r i)).

Definition toU64 (r : row) (i : nat) : res Z :=
  if is_empty (cell r i) then Done 0 else or_throw (stoull (cell r i)).

Definition toI64 (r : row) (i : nat) : res Z :=
  if is_empty (cell r i) then Done 0 else or_throw (stoll (cell r i)).

Definition toBool (r : row) (i : nat) : bool :=
  bool_decide (cell r i ∈ ["1"; "true"; "TRUE"; "yes"; "YES"]).

(** The clock and [parseTimeString]. *)
Record clock := mk_clock { now : Z; parseTimeString : string -> Z; formatTimePoint : Z -> string }.

Definition cell_time (ck : clock) (r : row) (i : nat) : Z :=
  if is_empty (cell r i) then now ck else parseTimeString ck (cell r i).

(** ** QueryManager.h *)

Inductive SortOrder := DESC | ASC.
Inductive ServerStatus := ONLINE | OFFLINE.

#[export] Instance ServerStatus_eq_dec : EqDecision ServerStatus.
Proof. solve_decision. Defined.

Record AnomalyThreshold := mk_AnomalyThreshold {
  cpu_threshold : f32; memory_threshold : f32; disk_threshold : f32;
  change_rate_threshold : f32; mysql_connection_threshold : f32;
  mysql_replication_lag_threshold : f32; mysql_slow_query_rate_threshold : f32;
  mysql_lock_wait_rate_threshold : f32; mysql_buffer_pool_hit_threshold : f32;
  redis_connection_threshold : f32; redis_memory_threshold : f32;
  redis_hit_rate_threshold : f32; redis_replication_lag_threshold : f32;
  redis_slowlog_growth_threshold : f32 }.

Definition default_threshold : AnomalyThreshold :=
  let n := f32_of_Z in
  mk_AnomalyThreshold (n 80) (n 90) (n 85) (f32_lit 1 2) (n 90) (n 30) (n 1) (n 1) (n 95) (n 90)
    (n 90) (n 80) (n 30) (n 1).

Record TimeRange := mk_TimeRange { start_time : Z; end_time : Z }.

Record QueryScope := mk_QueryScope { tenant_id : string; team_id : string; cluster_id : string }.

Record AnomalyRecord := mk_AnomalyRecord {
  a_server_name : string; a_timestamp : Z; anomaly_type : string; severity : string;
  a_value : f32; a_threshold : f32; metric_name : string }.

Record ServerScoreSummary := mk_ServerScoreSummary {
  s_server_name : string; s_score : f32; last_updated : Z; status : ServerStatus;
  s_cpu_percent : f32; s_mem_used_percent : f32; s_disk_util_percent : f32; s_load_avg_1 : f32 }.

Record ClusterStats := mk_ClusterStats {
  total_servers : Z; online_servers : Z; offline_servers : Z;
  avg_score : f32; max_score : f32; min_score : f32; best_server : string; worst_server : string }.

Module PerformanceRecord.
Record t := mk {
  server_name : string; timestamp : Z; cpu_percent : f32; usr_percent : f32; sys_percent : f32;
  nice_percent : f32; idle_percent : f32; io_wait_percent : f32; irq_percent : f32;
  soft_irq_percent : f32; load_avg_1 : f32; load_avg_3 : f32; load_avg_15 : f32;
  mem_used_percent : f32; mem_total : f32; mem_free : f32; mem_avail : f32;
  disk_util_percent : f32; net_sent_bytes : f32; net_recv_bytes : f32; score : f32;
  cpu_percent_rate : f32; mem_used_percent_rate : f32; disk_util_percent_rate : f32;
  load_avg_1_rate : f32; net_sent_bytes_rate : f32; net_recv_bytes_rate : f32 }.

(** The loop body that reads a row, in the order of the selected columns. *)
Definition read (ck : clock) (r : row) : t :=
  {| server_name := cell r 0; timestamp := cell_time ck r 1; cpu_percent := toFloat r 2;
     usr_percent := toFloat r 3; sys_percent := toFloat r 4; nice_percent := toFloat r 5;
     idle_percent := toFloat r 6; io_wait_percent := toFloat r 7;
     irq_percent := toFloat r 8; soft_irq_percent := toFloat r 9;
     load_avg_1 := toFloat r 10; load_avg_3 := toFloat r 11; load_avg_15 := toFloat r 12;
     mem_used_percent := toFloat r 13; mem_total := toFloat r 14; mem_free := toFloat r 15;
     mem_avail := toFloat r 16; disk_util_percent := toFloat r 17;
     net_sent_bytes := toFloat r 18; net_recv_bytes := toFloat r 19; score := toFloat r 20;
     cpu_percent_rate := toFloat r 21; mem_used_percent_rate := toFloat r 22;
     disk_util_percent_rate := toFloat r 23; load_avg_1_rate := toFloat r 24;
     net_sent_bytes_rate := toFloat r 25; net_recv_bytes_rate := toFloat r 26 |}.

(** The record with another time stamp. *)
Definition set_timestamp (ts : Z) (x : t) : t :=
  mk (server_name x) ts (cpu_percent x) (usr_percent x) (sys_percent x) (nice_percent x)
    (idle_percent x) (io_wait_percent x) (irq_percent x) (soft_irq_percent x)
    (load_avg_1 x) (load_avg_3 x) (load_avg_15 x) (mem_used_percent x) (mem_total x)
    (mem_free x) (mem_avail x) (disk_util_percent x) (net_sent_bytes x) (net_recv_bytes x)
    (score x) (cpu_percent_rate x) (mem_used_percent_rate x) (disk_util_percent_rate x)
    (load_avg_1_rate x) (net_sent_bytes_rate x) (net_recv_bytes_rate x).

(** The same for the columns of [queryTrend]. *)
Definition read_trend (ck : clock) (r : row) : t :=
  {| server_name := cell r 0; timestamp := cell_time ck r 1; cpu_percent := toFloat r 2;
     usr_percent := toFloat r 3; sys_percent := toFloat r 4; nice_percent := fzero;
     idle_percent := fzero; io_wait_percent := toFloat r 5; irq_percent := fzero;
     soft_irq_percent := fzero; load_avg_1 := toFloat r 6; load_avg_3 := toFloat r 7;
     load_avg_15 := toFloat r 8; mem_used_percent := toFloat r 9; mem_total := fzero;
     mem_free := fzero; mem_avail := fzero; disk_util_percent := toFloat r 10;
     net_sent_bytes := toFloat r 11; net_recv_bytes := toFloat r 12; score := toFloat r 13;
     cpu_percent_rate := toFloat r 14; mem_used_percent_rate := toFloat r 15;
     disk_util_percent_rate := toFloat r 16; load_avg_1_rate := toFloat r 17;
     net_sent_bytes_rate := fzero; net_recv_bytes_rate := fzero |}.
End PerformanceRecord.

Module NetDetailRecord.
Record t := mk {
  server_name : string; net_name : string; timestamp : Z; err_in : Z; err_out : Z; drop_in : Z;
  drop_out : Z; recv_bytes_rate : f32; sent_bytes_rate : f32; recv_packets_rate : f32;
  sent_packets_rate : f32 }.

(** The loop body that reads a row, in the order of the selected columns. *)
Definition read (ck : clock) (r : row) : res t :=
  v3 ← toU64 r 3;
  v4 ← toU64 r 4;
  v5 ← toU64 r 5;
  v6 ← toU64 r 6;
  mret {| server_name := cell r 0; net_name := cell r 1; timestamp := cell_time ck r 2;
     err_in := v3; err_out := v4; drop_in := v5; drop_out := v6;
     recv_bytes_rate := toFloat r 7; sent_bytes_rate := toFloat r 8;
     recv_packets_rate := toFloat r 9; sent_packets_rate := toFloat r 10 |}.

(** The record with another time stamp. *)
Definition set_timestamp (ts : Z) (x : t) : t :=
  mk (server_name x) (net_name x) ts (err_in x) (err_out x) (drop_in x) (drop_out x)
    (recv_bytes_rate x) (sent_bytes_rate x) (recv_packets_rate x) (sent_packets_rate x).
End NetDetailRecord.

Module DiskDetailRecord.
Record t := mk {
  server_name : string; disk_name : string; timestamp : Z; read_bytes_per_sec : f32;
  write_bytes_per_sec : f32; read_iops : f32; write_iops : f32; avg_read_latency_ms : f32;
  avg_write_latency_ms : f32; util_percent : f32 }.

(** The loop body that reads a row, in the order of the selected columns. *)
Definition read (ck : clock) (r : row) : t :=
  {| server_name := cell r 0; disk_name := cell r 1; timestamp := cell_time ck r 2;
     read_bytes_per_sec := toFloat r 3; write_bytes_per_sec := toFloat r 4;
     read_iops := toFloat r 5; write_iops := toFloat r 6;
     avg_read_latency_ms := toFloat r 7; avg_write_latency_ms := toFloat r 8;
     util_percent := toFloat r 9 |}.

(** The record with another time stamp. *)
Definition set_timestamp (ts : Z) (x : t) : t :=
  mk (server_name x) (disk_name x) ts (read_bytes_per_sec x) (write_bytes_per_sec x)
    (read_iops x) (write_iops x) (avg_read_latency_ms x) (avg_write_latency_ms x)
    (util_percent x).
End DiskDetailRecord.

Module MemDetailRecord.
Record t := mk {
  server_name : string; timestamp : Z; mem_total : f32; mem_free : f32; mem_avail : f32;
  buffers : f32; cached : f32; active : f32; inactive : f32; dirty : f32 }.

(** The loop body that reads a row, in the order of the selected columns. *)
Definition read (ck : clock) (r : row) : t :=
  {| server_name := cell r 0; timestamp := cell_time ck r 1; mem_total := toFloat r 2;
     mem_free := toFloat r 3; mem_avail := toFloat r 4; buffers := toFloat r 5;
     cached := toFloat r 6; active := toFloat r 7; inactive := toFloat r 8;
     dirty := toFloat r 9 |}.

(** The record with another time stamp. *)
Definition set_timestamp (ts : Z) (x : t) : t :=
  mk (server_name x) ts (mem_total x) (mem_free x) (mem_avail x) (buffers x) (cached x)
    (active x) (inactive x) (dirty x).
End MemDetailRecord.

Module SoftIrqDetailRecord.
Record t := mk {
  server_name : string; cpu_name : string; timestamp : Z; hi : Z; timer : Z; net_tx : Z;
  net_rx : Z; block : Z; sched : Z }.

(** The loop body that reads a row, in the order of the selected columns. *)
Definition read (ck : clock) (r : row) : res t :=
  v3 ← toI64 r 3;
  v4 ← toI64 r 4;
  v5 ← toI64 r 5;
  v6 ← toI64 r 6;
  v7 ← toI64 r 7;
  v8 ← toI64 r 8;
  mret {| server_name := cell r 0; cpu_name := cell r 1; timestamp := cell_time ck r 2; hi := v3;
     timer := v4; net_tx := v5; net_rx := v6; block := v7; sched := v8 |}.

(** The record with another time stamp. *)
Definition set_timestamp (ts : Z) (x : t) : t :=
  mk (server_name x) (cpu_name x) ts (hi x) (timer x) (net_tx x) (net_rx x) (block x)
    (sched x).
End SoftIrqDetailRecord.

Module MysqlDetailRecord.
Record t := mk {
  server_name : string; instance : string; timestamp : Z; mysql_host : string; mysql_port : Z;
  up : bool; version : string; role : string; max_connections : Z; threads_connected : Z;
  threads_running : Z; aborted_connects : Z; questions : Z; com_select : Z; com_insert : Z;
  com_update : Z; com_delete : Z; com_commit : Z; com_rollback : Z; slow_queries : Z;
  innodb_buffer_pool_read_requests : Z; innodb_buffer_pool_reads : Z;
  innodb_buffer_pool_hit_percent : f32; innodb_row_lock_waits : Z;
  innodb_row_lock_time_avg_ms : f32; replication_configured : bool; replication_running : bool;
  replication_lag_seconds : f32; connection_used_percent : f32; qps : f32; tps : f32;
  slow_queries_rate : f32; innodb_row_lock_waits_rate : f32 }.

(** The loop body that reads a row, in the order of the selected columns. *)
Definition read (ck : clock) (r : row) : res t :=
  v4 ← toI64 r 4;
  v8 ← toU64 r 8;
  v9 ← toU64 r 9;
  v10 ← toU64 r 10;
  v11 ← toU64 r 11;
  v12 ← toU64 r 12;
  v13 ← toU64 r 13;
  v14 ← toU64 r 14;
  v15 ← toU64 r 15;
  v16 ← toU64 r 16;
  v17 ← toU64 r 17;
  v18 ← toU64 r 18;
  v19 ← toU64 r 19;
  v20 ← toU64 r 20;
  v21 ← toU64 r 21;
  v23 ← toU64 r 23;
  mret {| server_name := cell r 0; instance := cell r 1; timestamp := cell_time ck r 2;
     mysql_host := cell r 3; mysql_port := i32_wrap v4; up := toBool r 5;
     version := cell r 6; role := cell r 7; max_connections := v8; threads_connected := v9;
     threads_running := v10; aborted_connects := v11; questions := v12; com_select := v13;
     com_insert := v14; com_update := v15; com_delete := v16; com_commit := v17;
     com_rollback := v18; slow_queries := v19; innodb_buffer_pool_read_requests := v20;
     innodb_buffer_pool_reads := v21; innodb_buffer_pool_hit_percent := toFloat r 22;
     innodb_row_lock_waits := v23; innodb_row_lock_time_avg_ms := toFloat r 24;
     replication_configured := toBool r 25; replication_running := toBool r 26;
     replication_lag_seconds := toFloat r 27; connection_used_percent := toFloat r 28;
     qps := toFloat r 29; tps := toFloat r 30; slow_queries_rate := toFloat r 31;
     innodb_row_lock_waits_rate := toFloat r 32 |}.

(** The record with another time stamp. *)
Definition set_timestamp (ts : Z) (x : t) : t :=
  mk (server_name x) (instance x) ts (mysql_host x) (mysql_port x) (up x) (version x)
    (role x) (max_connections x) (threads_connected x) (threads_running x)
    (aborted_connects x) (questions x) (com_select x) (com_insert x) (com_update x)
    (com_delete x) (com_commit x) (com_rollback x) (slow_queries x)
    (innodb_buffer_pool_read_requests x) (innodb_buffer_pool_reads x)
    (innodb_buffer_pool_hit_percent x) (innodb_row_lock_waits x)
    (innodb_row_lock_time_avg_ms x) (replication_configured x) (replication_running x)
    (replication_lag_seconds x) (connection_used_percent x) (qps x) (tps x)
    (slow_queries_rate x) (innodb_row_lock_waits_rate x).
End MysqlDetailRecord.

Module RedisDetailRecord.
Record t := mk {
  server_name : string; instance : string; timestamp : Z; redis_host : string; redis_port : Z;
  up : bool; version : string; role : string; uptime_in_seconds : Z; connected_clients : Z;
  blocked_clients : Z; maxclients : Z; connection_used_percent : f32; used_memory : Z;
  maxmemory : Z; mem_fragmentation_ratio : f32; memory_used_percent : f32;
  total_commands_processed : Z; instantaneous_ops_per_sec : f32; commands_per_sec : f32;
  keyspace_hits : Z; keyspace_misses : Z; keyspace_hit_percent : f32; expired_keys : Z;
  evicted_keys : Z; rejected_connections : Z; total_error_replies : Z;
  total_net_input_bytes : Z; total_net_output_bytes : Z; net_input_bytes_per_sec : f32;
  net_output_bytes_per_sec : f32; replication_configured : bool; master_link_up : bool;
  connected_slaves : Z; master_last_io_seconds_ago : f32; slowlog_len : Z;
  slowlog_growth : f32 }.

(** The loop body that reads a row, in the order of the selected columns. *)
Definition read (ck : clock) (r : row) : res t :=
  v4 ← toI64 r 4;
  v8 ← toU64 r 8;
  v9 ← toU64 r 9;
  v10 ← toU64 r 10;
  v11 ← toU64 r 11;
  v13 ← toU64 r 13;
  v14 ← toU64 r 14;
  v17 ← toU64 r 17;
  v20 ← toU64 r 20;
  v21 ← toU64 r 21;
  v23 ← toU64 r 23;
  v24 ← toU64 r 24;
  v25 ← toU64 r 25;
  v26 ← toU64 r 26;
  v27 ← toU64 r 27;
  v28 ← toU64 r 28;
  v33 ← toU64 r 33;
  v35 ← toU64 r 35;
  mret {| server_name := cell r 0; instance := cell r 1; timestamp := cell_time ck r 2;
     redis_host := cell r 3; redis_port := i32_wrap v4; up := toBool r 5;
     version := cell r 6; role := cell r 7; uptime_in_seconds := v8;
     connected_clients := v9; blocked_clients := v10; maxclients := v11;
     connection_used_percent := toFloat r 12; used_memory := v13; maxmemory := v14;
     mem_fragmentation_ratio := toFloat r 15; memory_used_percent := toFloat r 16;
     total_commands_processed := v17; instantaneous_ops_per_sec := toFloat r 18;
     commands_per_sec := toFloat r 19; keyspace_hits := v20; keyspace_misses := v21;
     keyspace_hit_percent := toFloat r 22; expired_keys := v23; evicted_keys := v24;
     rejected_connections := v25; total_error_replies := v26; total_net_input_bytes := v27;
     total_net_output_bytes := v28; net_input_bytes_per_sec := toFloat r 29;
     net_output_bytes_per_sec := toFloat r 30; replication_configured := toBool r 31;
     master_link_up := toBool r 32; connected_slaves := v33;
     master_last_io_seconds_ago := toFloat r 34; slowlog_len := v35;
     slowlog_growth := toFloat r 36 |}.

(** The record with another time stamp. *)
Definition set_timestamp (ts : Z) (x : t) : t :=
  mk (server_name x) (instance x) ts (redis_host x) (redis_port x) (up x) (version x)
    (role x) (uptime_in_seconds x) (connected_clients x) (blocked_clients x) (maxclients x)
    (connection_used_percent x) (used_memory x) (maxmemory x) (mem_fragmentation_ratio x)
    (memory_used_percent x) (total_commands_processed x) (instantaneous_ops_per_sec x)
    (commands_per_sec x) (keyspace_hits x) (keyspace_misses x) (keyspace_hit_percent x)
    (expired_keys x) (evicted_keys x) (rejected_connections x) (total_error_replies x)
    (total_net_input_bytes x) (total_net_output_bytes x) (net_input_bytes_per_sec x)
    (net_output_bytes_per_sec x) (replication_configured x) (master_link_up x)
    (connected_slaves x) (master_last_io_seconds_ago x) (slowlog_len x) (slowlog_growth x).
End RedisDetailRecord.
