(* ===== verification/QueryManager.v ===== *)
(** * QueryManager: the queries of the stored samples

    [src/manager/src/QueryManager.cpp]: the scope of a query, the parameters of
    a prepared statement, its execution, and the eleven queries: their guards,
    the statements they run, how rows become records, the classification of
    anomalies, the statistics of a cluster and the pages.

    The MySQL client library is outside: [mysql n sql params] is what happens
    when the [n]-th statement of a query is prepared with the text [sql], bound
    to [params], executed and fetched.  The out parameter [error] is the error
    text of the result, empty when there is none; callers always pass it and
    [totalCount]. *)

From S2P Require Import Prelude CFloat CString QueryRecords.
From Stdlib Require Import Ascii.

(** ** Parameters and the scope *)

Inductive SqlParam := stringParam (s : string) | intParam (v : Z) | doubleParam (v : f64).

Definition validateQueryScope (scope : QueryScope) : option string :=
  if is_empty (tenant_id scope) || is_empty (team_id scope)
  then Some "Missing query tenant or team scope" else None.

Definition scopePredicate (scope : QueryScope) (alias : string) : string :=
  let prefix := if is_empty alias then "" else alias +++ "." in
  let predicate := prefix +++ "tenant_id=? AND " +++ prefix +++ "team_id=?" in
  if is_empty (cluster_id scope) then predicate
  else predicate +++ " AND " +++ prefix +++ "cluster_id=?".

Definition scopeParams (scope : QueryScope) : list SqlParam :=
  [stringParam (tenant_id scope); stringParam (team_id scope)] ++
  (if is_empty (cluster_id scope) then [] else [stringParam (cluster_id scope)]).

(** ** Running a statement *)

(** Where the client library stops, with its error text; a fetch may fail after
    some rows. *)
Inductive stmt_run :=
| InitFailed (e : string) | PrepareFailed (e : string) | BindFailed (e : string)
| ExecuteFailed (e : string) | NoMetadata | BindResultFailed (e : string)
| Fetched (rows : list (list (option string))) (failure : option string).

(** A cell: NULL is the empty text, and the buffer holds 4096 bytes. *)
Definition fetch_cell (c : option string) : string :=
  match c with None => "" | Some s => String.substring 0 4096 s end.

Definition stmt_message (context step e : string) : string :=
  "QueryManager: " +++ context +++ step +++ e.

(** [inl] is the error. *)
Definition executePreparedRows (run : stmt_run) (context : string) : string + list row :=
  match run with
  | InitFailed e => inl (stmt_message context " init statement failed: " e)
  | PrepareFailed e => inl (stmt_message context " prepare failed: " e)
  | BindFailed e => inl (stmt_message context " bind params failed: " e)
  | ExecuteFailed e => inl (stmt_message context " execute failed: " e)
  | NoMetadata => inr []
  | BindResultFailed e => inl (stmt_message context " bind result failed: " e)
  | Fetched rows None => inr (map (map fetch_cell) rows)
  | Fetched rows (Some e) => inl (stmt_message context " fetch failed: " e)
  end.

Definition executePreparedCount (run : stmt_run) (context : string) : string + Z :=
  match executePreparedRows run context with
  | inl e => inl e
  | inr ((c :: _) :: _) => inr (atoi c)
  | inr _ => inr 0
  end.

(** ** The manager *)

Record manager := mk_manager { queryPool_ : bool; initialized_ : bool }.

Definition new_manager : manager := mk_manager false false.

(** [init] with or without a pool. *)
Definition init (pool : bool) (m : manager) : bool * manager :=
  if initialized_ m then (true, m)
  else if pool then (true, mk_manager true true)
  else (false, mk_manager false (initialized_ m)).

Definition close (m : manager) : manager := mk_manager false false.

Definition isInitialized (m : manager) : bool := initialized_ m && queryPool_ m.

Definition validateTimeRange (range : TimeRange) : bool := start_time range <=? end_time range.

(** [acquireConnection]: the error, or a connection; [connected] is the pool's
    answer. *)
Definition acquireConnection (m : manager) (connected : bool) : option string :=
  if negb (initialized_ m) || negb (queryPool_ m) then Some "QueryManager is not initialized"
  else if negb connected then Some "QueryManager query connection acquire timed out"
  else None.

(** What a query returns: the records, the total count and the error. *)
Record answer (A : Type) := mk_answer { records : list A; totalCount : Z; error : string }.
Arguments mk_answer {A}.
Arguments records {A}.
Arguments totalCount {A}.
Arguments error {A}.

Definition failed {A} (total : Z) (e : string) : res (answer A) := Done (mk_answer [] total e).

Definition range_error : string := "Invalid time range: start_time > end_time".

(** The guards at the head of a query; [total] is the caller's initial count. *)
Definition guarded {A} (m : manager) (connected : bool) (scope : QueryScope)
    (range : option TimeRange) (k : res (answer A)) : res (answer A) :=
  match acquireConnection m connected with
  | Some e => failed 0 e
  | None =>
      match validateQueryScope scope with
      | Some e => failed 0 e
      | None =>
          match range with
          | Some r => if validateTimeRange r then k else failed 0 range_error
          | None => k
          end
      end
  end.

Definition fix_page (page : Z) : Z := if page <? 1 then 1 else page.
Definition fix_page_size (pageSize : Z) : Z := if pageSize <? 1 then 100 else pageSize.

(** [int offset = (page - 1) * pageSize]: undefined when it overflows. *)
Definition page_offset (page pageSize : Z) : res Z :=
  or_undefined (i32_checked ((page - 1) * pageSize)).

Fixpoint columns_text (cs : list string) : string :=
  match cs with
  | [] => ""
  | [c] => c
  | c :: rest => c +++ ", " +++ columns_text rest
  end.

(** ** The statements *)

Section Statements.
Variable ck : clock.

(** A statement and its parameters. *)
Definition statement : Type := string * list SqlParam.

Definition server_where (scope : QueryScope) : string :=
  "WHERE " +++ scopePredicate scope "" +++ " AND server_name=? AND timestamp BETWEEN ? AND ?".

Definition server_params (scope : QueryScope) (serverName : string) (range : TimeRange)
    : list SqlParam :=
  scopeParams scope ++
  [stringParam serverName; stringParam (formatTimePoint ck (start_time range));
   stringParam (formatTimePoint ck (end_time range))].

Definition count_statement (table : string) (scope : QueryScope) (serverName : string)
    (range : TimeRange) : statement :=
  ("SELECT COUNT(*) FROM " +++ table +++ " " +++ server_where scope,
   server_params scope serverName range).

Definition page_statement (table : string) (cs : list string) (scope : QueryScope)
    (serverName : string) (range : TimeRange) (pageSize offset : Z) : statement :=
  ("SELECT " +++ columns_text cs +++ " FROM " +++ table +++ " " +++ server_where scope +++
     " ORDER BY timestamp DESC LIMIT ? OFFSET ?",
   server_params scope serverName range ++ [intParam pageSize; intParam offset]).

(** The body of [queryTrend]'s two texts. *)
Definition averaged : list string :=
  ["cpu_percent"; "usr_percent"; "system_percent"; "io_wait_percent"; "load_avg_1"; "load_avg_3";
   "load_avg_15"; "mem_used_percent"; "disk_util_percent"; "send_rate"; "rcv_rate"; "score";
   "cpu_percent_rate"; "mem_used_percent_rate"; "disk_util_percent_rate"; "load_avg_1_rate"].

Definition trend_statement (scope : QueryScope) (serverName : string) (range : TimeRange)
    (intervalSeconds : Z) : statement :=
  if 0 <? intervalSeconds then
    ("SELECT server_name, FROM_UNIXTIME(FLOOR(UNIX_TIMESTAMP(timestamp) / ?) * ?) " +++
       "as time_bucket, " +++
       columns_text (map (fun c => "AVG(" +++ c +++ ") as " +++ c) averaged) +++
       " FROM server_performance " +++ server_where scope +++
       " GROUP BY server_name, time_bucket ORDER BY time_bucket",
     [intParam intervalSeconds; intParam intervalSeconds] ++ server_params scope serverName range)
  else
    ("SELECT " +++ columns_text ("server_name" :: "timestamp" :: averaged) +++
       " FROM server_performance " +++ server_where scope +++ " ORDER BY timestamp",
     server_params scope serverName range).

(** The head of the three conditions of [queryAnomalyRecords]. *)
Definition anomaly_where (scope : QueryScope) (serverName : string) : string :=
  scopePredicate scope "" +++ " AND timestamp BETWEEN ? AND ?" +++
  (if is_empty serverName then "" else " AND server_name=?").

Definition anomaly_params (scope : QueryScope) (serverName : string) (range : TimeRange)
    : list SqlParam :=
  scopeParams scope ++
  [stringParam (formatTimePoint ck (start_time range));
   stringParam (formatTimePoint ck (end_time range))] ++
  (if is_empty serverName then [] else [stringParam serverName]).

Definition thresholds (l : list f32) : list SqlParam := map (fun x => doubleParam (f64_of_f32 x)) l.

Definition host_anomaly_statement (scope : QueryScope) (serverName : string) (range : TimeRange)
    (th : AnomalyThreshold) : statement :=
  ("SELECT server_name, timestamp, cpu_percent, mem_used_percent, disk_util_percent, " +++
     "cpu_percent_rate, mem_used_percent_rate FROM server_performance WHERE " +++
     anomaly_where scope serverName +++
     " AND (cpu_percent > ? OR mem_used_percent > ? OR disk_util_percent > ? " +++
     "OR ABS(cpu_percent_rate) > ? OR ABS(mem_used_percent_rate) > ?)" +++
     " ORDER BY timestamp DESC",
   anomaly_params scope serverName range ++
   thresholds [cpu_threshold th; memory_threshold th; disk_threshold th;
               change_rate_threshold th; change_rate_threshold th]).

Definition mysql_anomaly_statement (scope : QueryScope) (serverName : string) (range : TimeRange)
    (th : AnomalyThreshold) : statement :=
  ("SELECT server_name, timestamp, instance, up, connection_used_percent, " +++
     "replication_lag_seconds, slow_queries_rate, innodb_row_lock_waits_rate, " +++
     "innodb_buffer_pool_hit_percent FROM server_mysql_detail WHERE " +++
     anomaly_where scope serverName +++
     " AND (up=0 OR connection_used_percent > ? " +++
     "OR (replication_configured=1 AND replication_lag_seconds > ?) " +++
     "OR slow_queries_rate > ? OR innodb_row_lock_waits_rate > ? " +++
     "OR (innodb_buffer_pool_hit_percent > 0 AND innodb_buffer_pool_hit_percent < ?))" +++
     " ORDER BY timestamp DESC",
   anomaly_params scope serverName range ++
   thresholds [mysql_connection_threshold th; mysql_replication_lag_threshold th;
               mysql_slow_query_rate_threshold th; mysql_lock_wait_rate_threshold th;
               mysql_buffer_pool_hit_threshold th]).

Definition redis_anomaly_statement (scope : QueryScope) (serverName : string) (range : TimeRange)
    (th : AnomalyThreshold) : statement :=
  ("SELECT server_name, timestamp, instance, up, connection_used_percent, " +++
     "memory_used_percent, keyspace_hit_percent, replication_configured, master_link_up, " +++
     "master_last_io_seconds_ago, rejected_connections, slowlog_growth " +++
     "FROM server_redis_detail WHERE " +++
     anomaly_where scope serverName +++
     " AND (up=0 OR connection_used_percent > ? OR memory_used_percent > ? " +++
     "OR (keyspace_hit_percent > 0 AND keyspace_hit_percent < ?) " +++
     "OR (replication_configured=1 AND master_link_up=0) " +++
     "OR master_last_io_seconds_ago > ? OR rejected_connections > 0 OR slowlog_growth > ?)" +++
     " ORDER BY timestamp DESC",
   anomaly_params scope serverName range ++
   thresholds [redis_connection_threshold th; redis_memory_threshold th;
               redis_hit_rate_threshold th; redis_replication_lag_threshold th;
               redis_slowlog_growth_threshold th]).

(** The latest row of each server. *)
Definition latest_text (scope : QueryScope) (order : string) : string :=
  "SELECT p1.server_name, p1.score, p1.timestamp, p1.cpu_percent, " +++
  "p1.mem_used_percent, p1.disk_util_percent, p1.load_avg_1 " +++
  "FROM server_performance p1 INNER JOIN (" +++
  "  SELECT tenant_id, team_id, cluster_id, server_name, MAX(timestamp) as max_ts " +++
  "  FROM server_performance WHERE " +++ scopePredicate scope "" +++
  " GROUP BY tenant_id, team_id, cluster_id, server_name" +++
  ") p2 ON p1.tenant_id = p2.tenant_id AND p1.team_id = p2.team_id " +++
  "AND p1.cluster_id = p2.cluster_id AND p1.server_name = p2.server_name " +++
  "AND p1.timestamp = p2.max_ts ORDER BY p1.score " +++ order.

Definition rank_count_statement (scope : QueryScope) : statement :=
  ("SELECT COUNT(DISTINCT server_name) FROM server_performance WHERE " +++ scopePredicate scope "",
   scopeParams scope).

Definition order_text (o : SortOrder) : string := match o with ASC => "ASC" | DESC => "DESC" end.

Definition rank_statement (scope : QueryScope) (order : SortOrder) (pageSize offset : Z)
    : statement :=
  (latest_text scope (order_text order +++ " LIMIT ? OFFSET ?"),
   scopeParams scope ++ [intParam pageSize; intParam offset]).

Definition latest_statement (scope : QueryScope) : statement :=
  (latest_text scope "DESC", scopeParams scope).
End Statements.

(** ** Classifying a row *)

Definition f_abs (x : spec_float) : spec_float :=
  match x with
  | S754_zero _ => S754_zero false
  | S754_infinity _ => S754_infinity false
  | S754_finite _ m e => S754_finite false m e
  | S754_nan => S754_nan
  end.

Definition n (z : Z) : f32 := f32_of_Z z.
Definition critical_if (b : bool) : string := if b then "CRITICAL" else "WARNING".

(** [add_anomaly]: the severity depends on the type and the value. *)
Definition host_severity (type : string) (value : f32) : string :=
  if String.eqb type "CPU_HIGH" && fgt value (n 95) then "CRITICAL"
  else if String.eqb type "MEM_HIGH" && fgt value (n 95) then "CRITICAL"
  else if String.eqb type "DISK_HIGH" && fgt value (n 95) then "CRITICAL"
  else if String.eqb type "RATE_SPIKE" && fgt (f64_of_f32 (f_abs value)) (f64_of_Z 1) then "CRITICAL"
  else "WARNING".

Definition when {A} (b : bool) (x : A) : list A := if b then [x] else [].

Definition host_anomalies (ck : clock) (th : AnomalyThreshold) (r : row) : list AnomalyRecord :=
  let name := cell r 0 in
  let ts := cell_time ck r 1 in
  let cpu := toFloat r 2 in
  let mem := toFloat r 3 in
  let disk := toFloat r 4 in
  let cpu_rate := toFloat r 5 in
  let mem_rate := toFloat r 6 in
  let add type metric value threshold :=
    mk_AnomalyRecord name ts type (host_severity type value) value threshold metric in
  when (fgt cpu (cpu_threshold th)) (add "CPU_HIGH" "cpu_percent" cpu (cpu_threshold th)) ++
  when (fgt mem (memory_threshold th))
    (add "MEM_HIGH" "mem_used_percent" mem (memory_threshold th)) ++
  when (fgt disk (disk_threshold th))
    (add "DISK_HIGH" "disk_util_percent" disk (disk_threshold th)) ++
  when (fgt (f_abs cpu_rate) (change_rate_threshold th))
    (add "RATE_SPIKE" "cpu_percent_rate" cpu_rate (change_rate_threshold th)) ++
  when (fgt (f_abs mem_rate) (change_rate_threshold th))
    (add "RATE_SPIKE" "mem_used_percent_rate" mem_rate (change_rate_threshold th)).

(** [add_mysql_anomaly] and [add_redis_anomaly]. *)
Definition instance_anomaly (name : string) (ts : Z) (instance type metric : string)
    (value threshold : f32) (sev : string) : AnomalyRecord :=
  mk_AnomalyRecord name ts type sev value threshold
    (if is_empty instance then metric else instance +++ "." +++ metric).

Definition mysql_anomalies (ck : clock) (th : AnomalyThreshold) (r : row) : list AnomalyRecord :=
  let add := instance_anomaly (cell r 0) (cell_time ck r 1) (cell r 2) in
  let up := toBool r 3 in
  let connectionUsed := toFloat r 4 in
  let replicationLag := toFloat r 5 in
  let slowQueryRate := toFloat r 6 in
  let lockWaitRate := toFloat r 7 in
  let bufferPoolHit := toFloat r 8 in
  let times t k := f32_mul t (n k) in
  when (negb up) (add "MYSQL_DOWN" "up" fzero (n 1) "CRITICAL") ++
  when (fgt connectionUsed (mysql_connection_threshold th))
    (add (if fgt connectionUsed (n 95) then "MYSQL_CONNECTION_CRITICAL" else "MYSQL_CONNECTION_HIGH")
       "connection_used_percent" connectionUsed (mysql_connection_threshold th)
       (critical_if (fgt connectionUsed (n 95)))) ++
  when (fgt replicationLag (mysql_replication_lag_threshold th))
    (add "MYSQL_REPLICATION_LAG" "replication_lag_seconds" replicationLag
       (mysql_replication_lag_threshold th)
       (critical_if (fgt replicationLag (times (mysql_replication_lag_threshold th) 2)))) ++
  when (fgt slowQueryRate (mysql_slow_query_rate_threshold th))
    (add "MYSQL_SLOW_QUERY_SPIKE" "slow_queries_rate" slowQueryRate
       (mysql_slow_query_rate_threshold th)
       (critical_if (fgt slowQueryRate (times (mysql_slow_query_rate_threshold th) 5)))) ++
  when (fgt lockWaitRate (mysql_lock_wait_rate_threshold th))
    (add "MYSQL_LOCK_WAIT_SPIKE" "innodb_row_lock_waits_rate" lockWaitRate
       (mysql_lock_wait_rate_threshold th)
       (critical_if (fgt lockWaitRate (times (mysql_lock_wait_rate_threshold th) 5)))) ++
  when (fgt bufferPoolHit fzero && flt bufferPoolHit (mysql_buffer_pool_hit_threshold th))
    (add "MYSQL_BUFFER_POOL_LOW" "innodb_buffer_pool_hit_percent" bufferPoolHit
       (mysql_buffer_pool_hit_threshold th) (critical_if (flt bufferPoolHit (n 90)))).

Definition redis_anomalies (ck : clock) (th : AnomalyThreshold) (r : row) : list AnomalyRecord :=
  let add := instance_anomaly (cell r 0) (cell_time ck r 1) (cell r 2) in
  let up := toBool r 3 in
  let connectionUsed := toFloat r 4 in
  let memoryUsed := toFloat r 5 in
  let hitRate := toFloat r 6 in
  let replicationConfigured := toBool r 7 in
  let masterLinkUp := toBool r 8 in
  let replicationLag := toFloat r 9 in
  let rejectedConnections := toFloat r 10 in
  let slowlogGrowth := toFloat r 11 in
  let times t k := f32_mul t (n k) in
  when (negb up) (add "REDIS_DOWN" "up" fzero (n 1) "CRITICAL") ++
  when (fgt connectionUsed (redis_connection_threshold th))
    (add (if fgt connectionUsed (n 95) then "REDIS_CONNECTION_CRITICAL" else "REDIS_CONNECTION_HIGH")
       "connection_used_percent" connectionUsed (redis_connection_threshold th)
       (critical_if (fgt connectionUsed (n 95)))) ++
  when (fgt memoryUsed (redis_memory_threshold th))
    (add (if fgt memoryUsed (n 95) then "REDIS_MEMORY_CRITICAL" else "REDIS_MEMORY_HIGH")
       "memory_used_percent" memoryUsed (redis_memory_threshold th)
       (critical_if (fgt memoryUsed (n 95)))) ++
  when (fgt hitRate fzero && flt hitRate (redis_hit_rate_threshold th))
    (add "REDIS_HIT_RATE_LOW" "keyspace_hit_percent" hitRate (redis_hit_rate_threshold th)
       (critical_if (flt hitRate (n 60)))) ++
  when (replicationConfigured && negb masterLinkUp)
    (add "REDIS_REPLICATION_LINK_DOWN" "master_link_up" fzero (n 1) "CRITICAL") ++
  when (fgt replicationLag (redis_replication_lag_threshold th))
    (add "REDIS_REPLICATION_LAG" "master_last_io_seconds_ago" replicationLag
       (redis_replication_lag_threshold th)
       (critical_if (fgt replicationLag (times (redis_replication_lag_threshold th) 2)))) ++
  when (fgt rejectedConnections fzero)
    (add "REDIS_REJECTED_CONNECTIONS" "rejected_connections" rejectedConnections fzero "WARNING") ++
  when (fgt slowlogGrowth (redis_slowlog_growth_threshold th))
    (add "REDIS_SLOWLOG_GROWTH" "slowlog_growth" slowlogGrowth (redis_slowlog_growth_threshold th)
       (critical_if (fgt slowlogGrowth (times (redis_slowlog_growth_threshold th) 5)))).

(** ** Pages and statistics *)

(** The last lines of [queryAnomalyRecords]: the iterators must stay inside the
    vector. *)
Definition page_slice {A} (l : list A) (page pageSize : Z) : res (list A) :=
  offset ← page_offset page pageSize;
  let size := i32_wrap (Z.of_nat (length l)) in
  if size <=? offset then Done []
  else
    last ← or_undefined (i32_checked (offset + pageSize));
    let stop := Z.min last size in
    if (offset <? 0) || (stop <? offset) then Undefined
    else Done (take (Z.to_nat (stop - offset)) (drop (Z.to_nat offset) l)).

Definition server_summary (ck : clock) (at_now : Z) (r : row) : ServerScoreSummary :=
  let updated := if is_empty (cell r 2) then at_now else parseTimeString ck (cell r 2) in
  let age := Z.quot (at_now - updated) 1000000000 in
  {| s_server_name := cell r 0; s_score := toFloat r 1; last_updated := updated;
     status := if 60 <? age then OFFLINE else ONLINE;
     s_cpu_percent := toFloat r 3; s_mem_used_percent := toFloat r 4;
     s_disk_util_percent := toFloat r 5; s_load_avg_1 := toFloat r 6 |}.

(** [100.0f + std::numeric_limits<float>::epsilon()]. *)
Definition float_epsilon : f32 := S754_finite false 8388608 (-46).
Definition MAX_SCORE : f32 := f32_add (n 100) float_epsilon.

(** The running values of [queryLatestServerScores]. *)
Record totals := mk_totals {
  onlineCount : Z; offlineCount : Z; totalScore : f32;
  maxScore : f32; minScore : f32; bestServer : string; worstServer : string }.

Definition no_totals : totals := mk_totals 0 0 fzero fzero MAX_SCORE "" "".

Definition add_server (t : totals) (rec : ServerScoreSummary) : totals :=
  let online := bool_decide (status rec = ONLINE) in
  let s := s_score rec in
  {| onlineCount := if online then onlineCount t + 1 else onlineCount t;
     offlineCount := if online then offlineCount t else offlineCount t + 1;
     totalScore := f32_add (totalScore t) s;
     maxScore := if fgt s (maxScore t) then s else maxScore t;
     minScore := if flt s (minScore t) then s else minScore t;
     bestServer := if fgt s (maxScore t) then s_server_name rec else bestServer t;
     worstServer := if flt s (minScore t) then s_server_name rec else worstServer t |}.

Definition cluster_stats (recs : list ServerScoreSummary) : ClusterStats :=
  let t := foldl add_server no_totals recs in
  let count := Z.of_nat (length recs) in
  {| total_servers := i32_wrap count; online_servers := onlineCount t;
     offline_servers := offlineCount t;
     avg_score := if count =? 0 then fzero else f32_div (totalScore t) (f32_of_Z count);
     max_score := if fgt (maxScore t) fzero then maxScore t else fzero;
     min_score := if flt (minScore t) MAX_SCORE then minScore t else fzero;
     best_server := bestServer t; worst_server := worstServer t |}.

(** ** The selected columns *)

Definition performance_select : list string :=
  ["server_name"; "timestamp"; "cpu_percent"; "usr_percent"; "system_percent"; "nice_percent";
   "idle_percent"; "io_wait_percent"; "irq_percent"; "soft_irq_percent"; "load_avg_1";
   "load_avg_3"; "load_avg_15"; "mem_used_percent"; "total"; "free"; "avail";
   "disk_util_percent"; "send_rate"; "rcv_rate"; "score"; "cpu_percent_rate";
   "mem_used_percent_rate"; "disk_util_percent_rate"; "load_avg_1_rate"; "send_rate_rate";
   "rcv_rate_rate"].

Definition net_select : list string :=
  ["server_name"; "net_name"; "timestamp"; "err_in"; "err_out"; "drop_in"; "drop_out";
   "rcv_bytes_rate"; "snd_bytes_rate"; "rcv_packets_rate"; "snd_packets_rate"].

Definition disk_select : list string :=
  ["server_name"; "disk_name"; "timestamp"; "read_bytes_per_sec"; "write_bytes_per_sec";
   "read_iops"; "write_iops"; "avg_read_latency_ms"; "avg_write_latency_ms"; "util_percent"].

Definition mem_select : list string :=
  ["server_name"; "timestamp"; "total"; "free"; "avail"; "buffers"; "cached"; "active";
   "inactive"; "dirty"].

Definition softirq_select : list string :=
  ["server_name"; "cpu_name"; "timestamp"; "hi"; "timer"; "net_tx"; "net_rx"; "block"; "sched"].

Definition mysql_select : list string :=
  ["server_name"; "instance"; "timestamp"; "mysql_host"; "mysql_port"; "up"; "version"; "`role`";
   "max_connections"; "threads_connected"; "threads_running"; "aborted_connects"; "questions";
   "com_select"; "com_insert"; "com_update"; "com_delete"; "com_commit"; "com_rollback";
   "slow_queries"; "innodb_buffer_pool_read_requests"; "innodb_buffer_pool_reads";
   "innodb_buffer_pool_hit_percent"; "innodb_row_lock_waits"; "innodb_row_lock_time_avg_ms";
   "replication_configured"; "replication_running"; "replication_lag_seconds";
   "connection_used_percent"; "qps"; "tps"; "slow_queries_rate"; "innodb_row_lock_waits_rate"].

Definition redis_select : list string :=
  ["server_name"; "instance"; "timestamp"; "redis_host"; "redis_port"; "up"; "version"; "`role`";
   "uptime_in_seconds"; "connected_clients"; "blocked_clients"; "maxclients";
   "connection_used_percent"; "used_memory"; "maxmemory"; "mem_fragmentation_ratio";
   "memory_used_percent"; "total_commands_processed"; "instantaneous_ops_per_sec";
   "commands_per_sec"; "keyspace_hits"; "keyspace_misses"; "keyspace_hit_percent";
   "expired_keys"; "evicted_keys"; "rejected_connections"; "total_error_replies";
   "total_net_input_bytes"; "total_net_output_bytes"; "net_input_bytes_per_sec";
   "net_output_bytes_per_sec"; "replication_configured"; "master_link_up"; "connected_slaves";
   "master_last_io_seconds_ago"; "slowlog_len"; "slowlog_growth"].

(** ** The queries *)

Section Queries.
Variable ck : clock.
(** The [n]-th statement of a query, and what happens to it. *)
Variable mysql : nat -> statement -> stmt_run.
(** [std::sort] with the comparison [lhs.timestamp > rhs.timestamp]. *)
Variable sort_desc : list AnomalyRecord -> list AnomalyRecord.

Variables (m : manager) (connected : bool).

(** Run a statement and go on with its rows. *)
Definition with_rows {A} (i : nat) (st : statement) (context : string) (total : Z)
    (k : list row -> res (answer A)) : res (answer A) :=
  match executePreparedRows (mysql i st) context with
  | inl e => failed total e
  | inr rows => k rows
  end.

Definition with_count {A} (i : nat) (st : statement) (context : string)
    (k : Z -> res (answer A)) : res (answer A) :=
  match executePreparedCount (mysql i st) context with
  | inl e => failed 0 e
  | inr total => k total
  end.

(** The seven queries of one server over a time range, page by page. *)
Definition paged_query {A} (table context : string) (cs : list string) (read : row -> res A)
    (scope : QueryScope) (serverName : string) (range : TimeRange) (page pageSize : Z)
    : res (answer A) :=
  guarded m connected scope (Some range)
    (let page := fix_page page in
     let pageSize := fix_page_size pageSize in
     with_count 0 (count_statement ck table scope serverName range) (context +++ " count")
       (fun total =>
          offset ← page_offset page pageSize;
          with_rows 1 (page_statement ck table cs scope serverName range pageSize offset)
            (context +++ " query") total
            (fun rows =>
               recs ← mapM read rows;
               Done (mk_answer recs total "")))).

Definition queryPerformanceRecords :=
  paged_query "server_performance" "performance" performance_select
    (fun r => Done (PerformanceRecord.read ck r)).

Definition queryNetDetailRecords :=
  paged_query "server_net_detail" "net detail" net_select
    (NetDetailRecord.read ck).

Definition queryDiskDetailRecords :=
  paged_query "server_disk_detail" "disk detail" disk_select
    (fun r => Done (DiskDetailRecord.read ck r)).

Definition queryMemDetailRecords :=
  paged_query "server_mem_detail" "mem detail" mem_select
    (fun r => Done (MemDetailRecord.read ck r)).

Definition querySoftIrqDetailRecords :=
  paged_query "server_softirq_detail" "softirq detail" softirq_select
    (SoftIrqDetailRecord.read ck).

Definition queryMysqlDetailRecords :=
  paged_query "server_mysql_detail" "mysql detail" mysql_select
    (MysqlDetailRecord.read ck).

Definition queryRedisDetailRecords :=
  paged_query "server_redis_detail" "redis detail" redis_select
    (RedisDetailRecord.read ck).

Definition queryTrend (scope : QueryScope) (serverName : string) (range : TimeRange)
    (intervalSeconds : Z) : res (answer PerformanceRecord.t) :=
  guarded m connected scope (Some range)
    (with_rows 0 (trend_statement ck scope serverName range intervalSeconds) "trend query" 0
       (fun rows => Done (mk_answer (map (PerformanceRecord.read_trend ck) rows) 0 ""))).

(** A failed second or third statement returns the records found so far with
    its error. *)
Definition queryAnomalyRecords (scope : QueryScope) (serverName : string) (range : TimeRange)
    (th : AnomalyThreshold) (page pageSize : Z) : res (answer AnomalyRecord) :=
  guarded m connected scope (Some range)
    (let page := fix_page page in
     let pageSize := fix_page_size pageSize in
     match executePreparedRows (mysql 0 (host_anomaly_statement ck scope serverName range th))
             "anomaly query" with
     | inl e => failed 0 e
     | inr rows =>
         let hosts := rows ≫= host_anomalies ck th in
         match executePreparedRows (mysql 1 (mysql_anomaly_statement ck scope serverName range th))
                 "mysql anomaly query" with
         | inl e => Done (mk_answer hosts 0 e)
         | inr mysqlRows =>
             let dbs := mysqlRows ≫= mysql_anomalies ck th in
             match executePreparedRows (mysql 2 (redis_anomaly_statement ck scope serverName range th))
                     "redis anomaly query" with
             | inl e => Done (mk_answer (hosts ++ dbs) 0 e)
             | inr redisRows =>
                 let caches := redisRows ≫= redis_anomalies ck th in
                 let sorted := sort_desc (hosts ++ dbs ++ caches) in
                 recs ← page_slice sorted page pageSize;
                 Done (mk_answer recs (i32_wrap (Z.of_nat (length sorted))) "")
             end
         end
     end).

Definition queryServerScoreRank (scope : QueryScope) (order : SortOrder) (page pageSize : Z)
    : res (answer ServerScoreSummary) :=
  guarded m connected scope None
    (let page := fix_page page in
     let pageSize := fix_page_size pageSize in
     with_count 0 (rank_count_statement scope) "score rank count"
       (fun total =>
          offset ← page_offset page pageSize;
          with_rows 1 (rank_statement scope order pageSize offset) "score rank query" total
            (fun rows => Done (mk_answer (map (server_summary ck (now ck)) rows) total "")))).

(** With the statistics, which a failure leaves unset. *)
Definition queryLatestServerScores (scope : QueryScope)
    : res (answer ServerScoreSummary * option ClusterStats) :=
  a ← guarded m connected scope None
        (with_rows 0 (latest_statement scope) "latest score query" 0
           (fun rows => Done (mk_answer (map (server_summary ck (now ck)) rows) 0 "")));
  Done (a, if is_empty (error a) then Some (cluster_stats (records a)) else None).
End Queries.

(** ** Every statement stays inside the caller's scope *)

(** The number of placeholders of a text. *)
Fixpoint placeholders (s : string) : nat :=
  match s with
  | EmptyString => 0
  | String c r => if Ascii.eqb c (ascii_of_nat 63) then S (placeholders r) else placeholders r
  end.

(** No [OR] outside parentheses that the text itself opens. *)
Fixpoint conjunctive (depth : Z) (s : string) : bool :=
  match s with
  | EmptyString => true
  | String c r =>
      negb ((depth <=? 0) && String.prefix " OR " s) &&
      conjunctive (if Ascii.eqb c (ascii_of_nat 40) then depth + 1
                   else if Ascii.eqb c (ascii_of_nat 41) then depth - 1 else depth) r
  end.

(** The condition of the statement starts with the scope's predicate, nothing
    after it can widen the condition, there is one parameter for each
    placeholder, and those of the predicate are the scope's. *)
Definition scoped (scope : QueryScope) (st : statement) : Prop :=
  exists pre post before after,
    st.1 = pre +++ "WHERE " +++ scopePredicate scope "" +++ post /\
    st.2 = before ++ scopeParams scope ++ after /\
    length before = placeholders pre /\ length after = placeholders post /\
    conjunctive 0 post = true.

Lemma scoped_intro scope sql params pre post before after :
  sql = pre +++ "WHERE " +++ scopePredicate scope "" +++ post ->
  params = before ++ scopeParams scope ++ after ->
  length before = placeholders pre -> length after = placeholders post ->
  conjunctive 0 post = true -> scoped scope (sql, params).
Proof. intros. by exists pre, post, before, after. Qed.

Section Scoped.
Variable ck : clock.
Implicit Types scope : QueryScope.

Definition server_tail : string := " AND server_name=? AND timestamp BETWEEN ? AND ?".

Lemma count_scoped t scope s r :
  placeholders ("SELECT COUNT(*) FROM " +++ t +++ " ") = 0%nat ->
  scoped scope (count_statement ck t scope s r).
Proof using.
  intros Ht. unfold count_statement, server_where, server_params.
  eapply (scoped_intro _ _ _ ("SELECT COUNT(*) FROM " +++ t +++ " ") server_tail [] _);
    [by rewrite !append_assoc|done|by rewrite Ht|done|done].
Qed.

Lemma page_scoped t cs scope s r ps o :
  placeholders ("SELECT " +++ columns_text cs +++ " FROM " +++ t +++ " ") = 0%nat ->
  scoped scope (page_statement ck t cs scope s r ps o).
Proof using.
  intros Ht. unfold page_statement, server_where, server_params.
  eapply (scoped_intro _ _ _ ("SELECT " +++ columns_text cs +++ " FROM " +++ t +++ " ")
            (server_tail +++ " ORDER BY timestamp DESC LIMIT ? OFFSET ?") [] _);
    [by rewrite !append_assoc|by rewrite <- app_assoc|by rewrite Ht|done|done].
Qed.

Lemma trend_scoped scope s r i : scoped scope (trend_statement ck scope s r i).
Proof using.
  unfold trend_statement, server_where, server_params. destruct (0 <? i).
  - eapply (scoped_intro _ _ _
      ("SELECT server_name, FROM_UNIXTIME(FLOOR(UNIX_TIMESTAMP(timestamp) / ?) * ?) " +++
       "as time_bucket, " +++
       columns_text (map (fun c => "AVG(" +++ c +++ ") as " +++ c) averaged) +++
       " FROM server_performance ")
      (server_tail +++ " GROUP BY server_name, time_bucket ORDER BY time_bucket") [_; _] _);
    [by rewrite !append_assoc|done|by vm_compute|done|by vm_compute].
  - eapply (scoped_intro _ _ _
      ("SELECT " +++ columns_text ("server_name" :: "timestamp" :: averaged) +++
       " FROM server_performance ")
      (server_tail +++ " ORDER BY timestamp") [] _);
    [by rewrite !append_assoc|done|by vm_compute|done|by vm_compute].
Qed.

(** The three conditions of the anomaly query. *)
Lemma anomaly_scoped scope s r pre post th :
  placeholders pre = 0%nat -> length th = placeholders post ->
  conjunctive 0 (" AND timestamp BETWEEN ? AND ?" +++ post) = true ->
  conjunctive 0 (" AND timestamp BETWEEN ? AND ? AND server_name=?" +++ post) = true ->
  scoped scope (pre +++ "WHERE " +++ anomaly_where scope s +++ post,
                anomaly_params ck scope s r ++ thresholds th).
Proof using.
  intros Hpre Hth H1 H2. unfold anomaly_where, anomaly_params. destruct (is_empty s).
  - eapply (scoped_intro _ _ _ pre (" AND timestamp BETWEEN ? AND ?" +++ post) [] _);
      [by rewrite !append_assoc|by rewrite <- app_assoc|by rewrite Hpre| |done].
    cbn. unfold thresholds. by rewrite length_map, Hth.
  - eapply (scoped_intro _ _ _ pre (" AND timestamp BETWEEN ? AND ? AND server_name=?" +++ post) [] _);
      [by rewrite !append_assoc|by rewrite <- app_assoc|by rewrite Hpre| |done].
    cbn. unfold thresholds. by rewrite length_map, Hth.
Qed.

Lemma host_anomaly_scoped scope s r th : scoped scope (host_anomaly_statement ck scope s r th).
Proof using.
  unfold host_anomaly_statement.
  apply (anomaly_scoped scope s r
    ("SELECT server_name, timestamp, cpu_percent, mem_used_percent, disk_util_percent, " +++
     "cpu_percent_rate, mem_used_percent_rate FROM server_performance ")); by vm_compute.
Qed.

Lemma mysql_anomaly_scoped scope s r th : scoped scope (mysql_anomaly_statement ck scope s r th).
Proof using.
  unfold mysql_anomaly_statement.
  apply (anomaly_scoped scope s r
    ("SELECT server_name, timestamp, instance, up, connection_used_percent, " +++
     "replication_lag_seconds, slow_queries_rate, innodb_row_lock_waits_rate, " +++
     "innodb_buffer_pool_hit_percent FROM server_mysql_detail ")); by vm_compute.
Qed.

Lemma redis_anomaly_scoped scope s r th : scoped scope (redis_anomaly_statement ck scope s r th).
Proof using.
  unfold redis_anomaly_statement.
  apply (anomaly_scoped scope s r
    ("SELECT server_name, timestamp, instance, up, connection_used_percent, " +++
     "memory_used_percent, keyspace_hit_percent, replication_configured, master_link_up, " +++
     "master_last_io_seconds_ago, rejected_connections, slowlog_growth " +++
     "FROM server_redis_detail ")); by vm_compute.
Qed.

Definition latest_pre : string :=
  "SELECT p1.server_name, p1.score, p1.timestamp, p1.cpu_percent, " +++
  "p1.mem_used_percent, p1.disk_util_percent, p1.load_avg_1 " +++
  "FROM server_performance p1 INNER JOIN (" +++
  "  SELECT tenant_id, team_id, cluster_id, server_name, MAX(timestamp) as max_ts " +++
  "  FROM server_performance ".

Definition latest_post (order : string) : string :=
  " GROUP BY tenant_id, team_id, cluster_id, server_name" +++
  ") p2 ON p1.tenant_id = p2.tenant_id AND p1.team_id = p2.team_id " +++
  "AND p1.cluster_id = p2.cluster_id AND p1.server_name = p2.server_name " +++
  "AND p1.timestamp = p2.max_ts ORDER BY p1.score " +++ order.

Lemma latest_text_scoped scope order after :
  length after = placeholders (latest_post order) -> conjunctive 0 (latest_post order) = true ->
  scoped scope (latest_text scope order, scopeParams scope ++ after).
Proof using.
  intros. eapply (scoped_intro _ _ _ latest_pre (latest_post order) []);
    [done|done|by vm_compute|done|done].
Qed.

Lemma latest_scoped scope : scoped scope (latest_statement scope).
Proof using.
  unfold latest_statement. rewrite <- (app_nil_r (scopeParams scope)).
  by apply latest_text_scoped; vm_compute.
Qed.

Lemma rank_scoped scope o ps off : scoped scope (rank_statement scope o ps off).
Proof using. unfold rank_statement. by destruct o; apply latest_text_scoped; vm_compute. Qed.

Lemma rank_count_scoped scope : scoped scope (rank_count_statement scope).
Proof using.
  unfold rank_count_statement.
  eapply (scoped_intro _ _ _ "SELECT COUNT(DISTINCT server_name) FROM server_performance " "" [] []);
    [by rewrite append_nil_r|by rewrite app_nil_r|done|done|done].
Qed.
End Scoped.

(** A query only ever looks at the database through statements of its scope:
    two databases that answer those alike cannot be told apart. *)
Definition agree_on (P : statement -> Prop) (mysql mysql' : nat -> statement -> stmt_run) : Prop :=
  forall i st, P st -> mysql i st = mysql' i st.

(** The statements that the queries of a scope run. *)
Definition detail_tables : list (string * list string) :=
  [("server_performance", performance_select); ("server_net_detail", net_select);
   ("server_disk_detail", disk_select); ("server_mem_detail", mem_select);
   ("server_softirq_detail", softirq_select); ("server_mysql_detail", mysql_select);
   ("server_redis_detail", redis_select)].

Inductive issued (ck : clock) (scope : QueryScope) : statement -> Prop :=
| issued_count t cs s r : (t, cs) ∈ detail_tables -> issued ck scope (count_statement ck t scope s r)
| issued_page t cs s r ps o :
    (t, cs) ∈ detail_tables -> issued ck scope (page_statement ck t cs scope s r ps o)
| issued_trend s r i : issued ck scope (trend_statement ck scope s r i)
| issued_host s r th : issued ck scope (host_anomaly_statement ck scope s r th)
| issued_mysql s r th : issued ck scope (mysql_anomaly_statement ck scope s r th)
| issued_redis s r th : issued ck scope (redis_anomaly_statement ck scope s r th)
| issued_rank_count : issued ck scope (rank_count_statement scope)
| issued_rank o ps off : issued ck scope (rank_statement scope o ps off)
| issued_latest : issued ck scope (latest_statement scope).
#[export] Hint Constructors issued : core.

Lemma issued_scoped ck scope st : issued ck scope st -> scoped scope st.
Proof.
  assert (Ht : forall t cs, (t, cs) ∈ detail_tables ->
    placeholders ("SELECT COUNT(*) FROM " +++ t +++ " ") = 0%nat /\
    placeholders ("SELECT " +++ columns_text cs +++ " FROM " +++ t +++ " ") = 0%nat).
  { intros t cs Hin. unfold detail_tables in Hin.
    repeat (apply elem_of_cons in Hin as [[= -> ->]|Hin]; [by vm_compute|]).
    by apply not_elem_of_nil in Hin. }
  destruct 1 as [t cs s r Hin|t cs s r ps o Hin| | | | | | |].
  - by apply count_scoped, (Ht _ _ Hin).
  - by apply page_scoped, (Ht _ _ Hin).
  - apply trend_scoped.
  - apply host_anomaly_scoped.
  - apply mysql_anomaly_scoped.
  - apply redis_anomaly_scoped.
  - apply rank_count_scoped.
  - apply rank_scoped.
  - apply latest_scoped.
Qed.

Section Isolation.
Variable ck : clock.
Variables (m : manager) (connected : bool) (scope : QueryScope).
Variables mysql mysql' : nat -> statement -> stmt_run.
Hypothesis Hagree : agree_on (issued ck scope) mysql mysql'.

Lemma guarded_ext {A} range (k k' : res (answer A)) :
  k = k' -> guarded m connected scope range k = guarded m connected scope range k'.
Proof using. by intros ->. Qed.

Lemma with_rows_ext {A} i st context total (k : list row -> res (answer A)) :
  issued ck scope st ->
  with_rows mysql i st context total k = with_rows mysql' i st context total k.
Proof using Hagree. intros H. unfold with_rows. by rewrite Hagree. Qed.

Lemma with_count_ext {A} i st context (k k' : Z -> res (answer A)) :
  issued ck scope st -> (forall total, k total = k' total) ->
  with_count mysql i st context k = with_count mysql' i st context k'.
Proof using Hagree.
  intros H Hk. unfold with_count. rewrite Hagree by done.
  destruct (executePreparedCount _ _); [done|apply Hk].
Qed.

Lemma paged_ext {A} table context cs (read : row -> res A) s r page ps :
  (table, cs) ∈ detail_tables ->
  paged_query ck mysql m connected table context cs read scope s r page ps =
  paged_query ck mysql' m connected table context cs read scope s r page ps.
Proof using Hagree.
  intros Ht. unfold paged_query. apply guarded_ext, with_count_ext; [by eapply issued_count|].
  intros total. destruct (page_offset _ _); cbn; [|done..]. by apply with_rows_ext, issued_page.
Qed.

Lemma anomaly_ext sort s r th page ps :
  queryAnomalyRecords ck mysql sort m connected scope s r th page ps =
  queryAnomalyRecords ck mysql' sort m connected scope s r th page ps.
Proof using Hagree.
  unfold queryAnomalyRecords. apply guarded_ext. cbn zeta. by rewrite !Hagree by auto.
Qed.

(** The eleven queries answer alike. *)
Definition same_answers (sort : list AnomalyRecord -> list AnomalyRecord) : Prop :=
  (forall s r p ps, queryPerformanceRecords ck mysql m connected scope s r p ps =
                    queryPerformanceRecords ck mysql' m connected scope s r p ps) /\
  (forall s r i, queryTrend ck mysql m connected scope s r i =
                 queryTrend ck mysql' m connected scope s r i) /\
  (forall s r th p ps, queryAnomalyRecords ck mysql sort m connected scope s r th p ps =
                       queryAnomalyRecords ck mysql' sort m connected scope s r th p ps) /\
  (forall o p ps, queryServerScoreRank ck mysql m connected scope o p ps =
                  queryServerScoreRank ck mysql' m connected scope o p ps) /\
  queryLatestServerScores ck mysql m connected scope =
    queryLatestServerScores ck mysql' m connected scope /\
  (forall s r p ps, queryNetDetailRecords ck mysql m connected scope s r p ps =
                    queryNetDetailRecords ck mysql' m connected scope s r p ps) /\
  (forall s r p ps, queryDiskDetailRecords ck mysql m connected scope s r p ps =
                    queryDiskDetailRecords ck mysql' m connected scope s r p ps) /\
  (forall s r p ps, queryMemDetailRecords ck mysql m connected scope s r p ps =
                    queryMemDetailRecords ck mysql' m connected scope s r p ps) /\
  (forall s r p ps, querySoftIrqDetailRecords ck mysql m connected scope s r p ps =
                    querySoftIrqDetailRecords ck mysql' m connected scope s r p ps) /\
  (forall s r p ps, queryMysqlDetailRecords ck mysql m connected scope s r p ps =
                    queryMysqlDetailRecords ck mysql' m connected scope s r p ps) /\
  (forall s r p ps, queryRedisDetailRecords ck mysql m connected scope s r p ps =
                    queryRedisDetailRecords ck mysql' m connected scope s r p ps).

Lemma queries_agree sort : same_answers sort.
Proof using Hagree.
  split_and!; intros; try (apply paged_ext; apply (bool_decide_unpack _); by vm_compute).
  - apply guarded_ext, with_rows_ext; auto.
  - apply anomaly_ext.
  - apply guarded_ext, with_count_ext; [auto|].
    intros total. destruct (page_offset _ _); cbn; [|done..]. apply with_rows_ext; auto.
  - unfold queryLatestServerScores. f_equal. apply guarded_ext, with_rows_ext; auto.
Qed.
End Isolation.

(** C2. No query can see rows outside the caller's scope: each of the eleven
    queries gives the same answer on any two databases that agree on the
    statements whose condition is the conjunction of the caller's tenant, team
    and, when given, cluster, bound to those values, with further conditions;
    and without a tenant or a team no statement is run at all. *)
Theorem queries_stay_in_scope ck m connected scope mysql mysql' sort :
  agree_on (fun st => tenant_id scope <> "" /\ team_id scope <> "" /\ scoped scope st) mysql mysql' ->
  (forall s r p ps, queryPerformanceRecords ck mysql m connected scope s r p ps =
                    queryPerformanceRecords ck mysql' m connected scope s r p ps) /\
  (forall s r i, queryTrend ck mysql m connected scope s r i =
                 queryTrend ck mysql' m connected scope s r i) /\
  (forall s r th p ps, queryAnomalyRecords ck mysql sort m connected scope s r th p ps =
                       queryAnomalyRecords ck mysql' sort m connected scope s r th p ps) /\
  (forall o p ps, queryServerScoreRank ck mysql m connected scope o p ps =
                  queryServerScoreRank ck mysql' m connected scope o p ps) /\
  queryLatestServerScores ck mysql m connected scope =
    queryLatestServerScores ck mysql' m connected scope /\
  (forall s r p ps, queryNetDetailRecords ck mysql m connected scope s r p ps =
                    queryNetDetailRecords ck mysql' m connected scope s r p ps) /\
  (forall s r p ps, queryDiskDetailRecords ck mysql m connected scope s r p ps =
                    queryDiskDetailRecords ck mysql' m connected scope s r p ps) /\
  (forall s r p ps, queryMemDetailRecords ck mysql m connected scope s r p ps =
                    queryMemDetailRecords ck mysql' m connected scope s r p ps) /\
  (forall s r p ps, querySoftIrqDetailRecords ck mysql m connected scope s r p ps =
                    querySoftIrqDetailRecords ck mysql' m connected scope s r p ps) /\
  (forall s r p ps, queryMysqlDetailRecords ck mysql m connected scope s r p ps =
                    queryMysqlDetailRecords ck mysql' m connected scope s r p ps) /\
  (forall s r p ps, queryRedisDetailRecords ck mysql m connected scope s r p ps =
                    queryRedisDetailRecords ck mysql' m connected scope s r p ps).
Proof.
  intros Hagree.
  destruct (validateQueryScope scope) as [e|] eqn:Ev.
  - assert (Hg : forall A range (k k' : res (answer A)),
      guarded m connected scope range k = guarded m connected scope range k').
    { intros. unfold guarded. rewrite Ev. by destruct (acquireConnection _ _). }
    split_and!; intros; try apply Hg. unfold queryLatestServerScores. f_equal. apply Hg.
  - apply queries_agree. intros i st Hst%issued_scoped. apply Hagree.
    unfold validateQueryScope in Ev.
    destruct (is_empty (tenant_id scope)) eqn:E1, (is_empty (team_id scope)) eqn:E2; try done.
    by apply is_empty_false in E1, E2.
Qed.

(** Two databases that differ on an unscoped statement only. *)
Definition a_scope : QueryScope := mk_QueryScope "tenant-a" "team-a" "".
Definition a_clock : clock := mk_clock 0 (fun _ => 0) (fun _ => "t").
Definition ready : manager := mk_manager true true.
Definition empty_db (_ : nat) (_ : statement) : stmt_run := Fetched [] None.
Definition other_db (_ : nat) (st : statement) : stmt_run :=
  if String.eqb st.1 "SELECT 1" then ExecuteFailed "denied" else Fetched [] None.

Lemma scoped_not_short scope st : scoped scope st -> String.eqb st.1 "SELECT 1" = false.
Proof.
  intros (pre & post & before & after & H & _). apply String.eqb_neq. intros E.
  rewrite E in H. apply (f_equal String.length) in H. revert H.
  unfold scopePredicate. cbn [is_empty]. destruct (is_empty (cluster_id scope));
    rewrite !length_append; cbn; lia.
Qed.

Lemma queries_stay_in_scope_witness :
  queryLatestServerScores a_clock empty_db ready true a_scope =
  queryLatestServerScores a_clock other_db ready true a_scope.
Proof.
  assert (H : agree_on (fun st => tenant_id a_scope <> "" /\ team_id a_scope <> "" /\
                                  scoped a_scope st) empty_db other_db).
  { intros i st (_ & _ & Hst). unfold empty_db, other_db. by rewrite (scoped_not_short a_scope). }
  destruct (queries_stay_in_scope a_clock ready true a_scope empty_db other_db id H)
    as (_ & _ & _ & _ & Hl & _).
  exact Hl.
Defined.

(** ** Pages *)

Section Pages.
Context {A : Type}.
Implicit Types l : list A.

(** One page inside the range of [int]. *)
Lemma page_slice_chunk l k ps :
  1 <= ps -> Z.of_nat (length l) + ps <= INT_MAX -> Z.of_nat k * ps < Z.of_nat (length l) ->
  page_slice l (Z.of_nat k + 1) ps = Done (take (Z.to_nat ps) (drop (k * Z.to_nat ps) l)).
Proof using.
  intros Hps Hlen Hk. unfold page_slice, page_offset.
  replace ((Z.of_nat k + 1 - 1) * ps) with (Z.of_nat k * ps) by lia.
  assert (Hchk : forall z, 0 <= z <= INT_MAX -> i32_checked z = Some z).
  { intros z Hz. apply i32_checked_Some. split; [done|]. wrap_unfold; lia. }
  rewrite (Hchk (Z.of_nat k * ps)) by lia. cbn [or_undefined mbind res_bind].
  rewrite i32_wrap_small by (wrap_unfold; lia).
  rewrite (proj2 (Z.leb_gt _ _)) by lia. rewrite Hchk by lia.
  cbn [or_undefined mbind res_bind].
  rewrite (proj2 (Z.ltb_ge (Z.of_nat k * ps) 0)) by lia.
  rewrite (proj2 (Z.ltb_ge (Z.min _ _) _)) by lia. cbn [orb].
  replace (Z.to_nat (Z.of_nat k * ps)) with (k * Z.to_nat ps)%nat by lia.
  f_equal. destruct (decide (Z.of_nat k * ps + ps <= Z.of_nat (length l))).
  - f_equal. lia.
  - rewrite !take_ge; [done|..]; rewrite length_drop; lia.
Qed.

(** The number of pages. *)
Definition page_count l (ps : Z) : nat :=
  Z.to_nat ((Z.of_nat (length l) + ps - 1) / ps).

Lemma chunks_concat (ps : nat) n : forall l,
  (length l <= n * ps)%nat ->
  concat (map (fun k => take ps (drop (k * ps) l)) (seq 0 n)) = l.
Proof using.
  induction n as [|n IH]; intros l Hl; cbn [seq map concat].
  - by destruct l; cbn in *; [|lia].
  - rewrite drop_0, <- (seq_shift n 0), map_map.
    erewrite map_ext; [|intros k; by rewrite (Nat.mul_succ_l k ps), Nat.add_comm, <- drop_drop].
    rewrite IH; [apply take_drop|]. rewrite length_drop. lia.
Qed.
End Pages.

(** Walking through the pages of the anomaly records one after the other
    gives every record exactly once and in order, for every page size, as long as
    the number of records and the page size together fit an [int]. *)
Theorem anomaly_pages_partition (l : list AnomalyRecord) ps :
  1 <= ps -> Z.of_nat (length l) + ps <= INT_MAX ->
  exists pages,
    mapM (fun k => page_slice l (Z.of_nat k + 1) ps) (seq 0 (page_count l ps)) = Done pages /\
    concat pages = l /\
    page_slice l (Z.of_nat (page_count l ps) + 1) ps = Done [].
Proof.
  intros Hps Hlen.
  set (chunk k := take (Z.to_nat ps) (drop (k * Z.to_nat ps) l)).
  assert (Hdiv := Z.div_mod (Z.of_nat (length l) + ps - 1) ps ltac:(lia)).
  assert (Hmod := Z.mod_pos_bound (Z.of_nat (length l) + ps - 1) ps ltac:(lia)).
  assert (Hpos := Z.div_pos (Z.of_nat (length l) + ps - 1) ps ltac:(lia) ltac:(lia)).
  exists (map chunk (seq 0 (page_count l ps))). split_and!.
  - assert (H : forall ks, Forall (fun k => Z.of_nat k * ps < Z.of_nat (length l)) ks ->
      mapM (fun k => page_slice l (Z.of_nat k + 1) ps) ks = Done (map chunk ks)).
    { induction ks as [|k ks IH]; intros Hks; [done|]. apply Forall_cons in Hks as [Hk Hks].
      cbn. rewrite page_slice_chunk by done. cbn. by rewrite IH. }
    apply H, Forall_forall. intros k Hk%elem_of_seq. unfold page_count in Hk. nia.
  - apply chunks_concat. unfold page_count. nia.
  - unfold page_slice, page_offset, page_count. rewrite Z2Nat.id by done.
    replace (i32_checked _) with (Some ((Z.of_nat (length l) + ps - 1) / ps * ps)).
    + cbn. rewrite i32_wrap_small by (wrap_unfold; lia). by rewrite (proj2 (Z.leb_le _ _)) by nia.
    + symmetry. apply i32_checked_Some. split; [lia|]. wrap_unfold. nia.
Qed.

Lemma anomaly_pages_partition_witness :
  let l := map (fun z => mk_AnomalyRecord "s" z "CPU_HIGH" "WARNING" fzero fzero "m") [5; 4; 3] in
  exists pages,
    mapM (fun k => page_slice l (Z.of_nat k + 1) 2) (seq 0 2) = Done pages /\ concat pages = l.
Proof.
  intros l. destruct (anomaly_pages_partition l 2) as (pages & H & Hc & _);
    [lia|by vm_compute|]. by exists pages.
Defined.

(** A request may ask for any page: once [(page - 1) * pageSize] is beyond
    the largest [int] the multiplication overflows, which is undefined, in every
    query that has pages, although the database answers (page 2^31 - 1 with 100
    records a page). *)
Theorem page_offset_overflow ck mysql sort page pageSize rows s r th o :
  (forall i st, mysql i st = Fetched rows None) -> 1 <= page -> 1 <= pageSize ->
  start_time r <= end_time r -> INT_MAX < (page - 1) * pageSize ->
  queryAnomalyRecords ck mysql sort ready true a_scope s r th page pageSize = Undefined /\
  queryServerScoreRank ck mysql ready true a_scope o page pageSize = Undefined /\
  queryPerformanceRecords ck mysql ready true a_scope s r page pageSize = Undefined /\
  queryNetDetailRecords ck mysql ready true a_scope s r page pageSize = Undefined.
Proof.
  intros Hdb Hp Hps Hr Hover.
  assert (Hpage : fix_page page = page /\ fix_page_size pageSize = pageSize).
  { unfold fix_page, fix_page_size. by rewrite !(proj2 (Z.ltb_ge _ _)) by lia. }
  destruct Hpage as [Hp1 Hp2].
  assert (Hoff : page_offset page pageSize = Undefined).
  { unfold page_offset, i32_checked. by rewrite (proj2 (Z.leb_gt ((page - 1) * pageSize) _)), andb_false_r by lia. }
  assert (Hv : validateTimeRange r = true) by (by apply Z.leb_le).
  assert (Hc : forall context, exists total,
    executePreparedCount (Fetched rows None) context = inr total).
  { intros context. unfold executePreparedCount. cbn. destruct (map _ _) as [|[|c cs] l]; eauto. }
  repeat split.
  - unfold queryAnomalyRecords, guarded. cbn. rewrite Hv, Hp1, Hp2, !Hdb. cbn.
    unfold page_slice. by rewrite Hoff.
  - unfold queryServerScoreRank, guarded, with_count. cbn.
    rewrite Hp1, Hp2, Hdb. destruct (Hc "score rank count") as [total ->]. by rewrite Hoff.
  - unfold queryPerformanceRecords, paged_query, guarded, with_count. cbn. rewrite Hv, Hp1, Hp2, Hdb.
    destruct (Hc ("performance" +++ " count")) as [total ->]. by rewrite Hoff.
  - unfold queryNetDetailRecords, paged_query, guarded, with_count. cbn. rewrite Hv, Hp1, Hp2, Hdb.
    destruct (Hc ("net detail" +++ " count")) as [total ->]. by rewrite Hoff.
Qed.

Lemma page_offset_overflow_witness :
  queryAnomalyRecords a_clock empty_db id ready true a_scope "" (mk_TimeRange 0 1) default_threshold
    INT_MAX 100 = Undefined.
Proof.
  apply (page_offset_overflow a_clock empty_db id INT_MAX 100 [] "" (mk_TimeRange 0 1)
    default_threshold DESC); by vm_compute.
Defined.

(** ** The statistics of a cluster *)

Section Stats.
Implicit Types (recs : list ServerScoreSummary) (t : totals) (rec : ServerScoreSummary).

(** The servers seen so far, and the extremes found among them. *)
Definition totals_ok recs t : Prop :=
  onlineCount t + offlineCount t = Z.of_nat (length recs) /\
  onlineCount t = Z.of_nat (length (filter (fun rec => status rec = ONLINE) recs)) /\
  (forall rec, rec ∈ recs -> flt (s_score rec) (minScore t) = false) /\
  (forall rec, rec ∈ recs -> fgt (s_score rec) (maxScore t) = false) /\
  ((minScore t = MAX_SCORE /\ worstServer t = "") \/
   exists rec, rec ∈ recs /\ s_score rec = minScore t /\ s_server_name rec = worstServer t /\
               flt (minScore t) MAX_SCORE = true) /\
  ((maxScore t = fzero /\ bestServer t = "") \/
   exists rec, rec ∈ recs /\ s_score rec = maxScore t /\ s_server_name rec = bestServer t /\
               fgt (maxScore t) fzero = true).

(** Replacing the extreme [m] by [x], which is on the far side of it. *)
Lemma not_flt_step x y m : flt y m = false -> flt x m = true -> flt y x = false.
Proof using.
  intros Hy Hx. apply not_true_is_false. intros H.
  by rewrite (flt_trans _ _ _ H Hx) in Hy.
Qed.

Lemma not_fgt_step x y m : fgt y m = false -> fgt x m = true -> fgt y x = false.
Proof using.
  intros Hy Hx. apply not_true_is_false. intros H.
  pose proof (flt_trans m x y Hx H) as Hmy. by assert (true = false) by exact (eq_trans (eq_sym Hmy) Hy).
Qed.

Lemma totals_step recs t rec :
  totals_ok recs t -> totals_ok (recs ++ [rec]) (add_server t rec).
Proof using.
  intros (Hsum & Hon & Hmin & Hmax & Hworst & Hbest).
  unfold totals_ok, add_server; cbn [onlineCount offlineCount minScore maxScore worstServer bestServer].
  rewrite List.length_app, filter_app, List.length_app; cbn [length].
  setoid_rewrite elem_of_app. setoid_rewrite list_elem_of_singleton.
  split; [|split; [|split; [|split; [|split]]]].
  - destruct (bool_decide _); lia.
  - rewrite filter_cons, filter_nil. case_bool_decide; destruct (decide (status rec = ONLINE));
      try done; cbn; lia.
  - intros y [Hy| ->]; destruct (flt (s_score rec) (minScore t)) eqn:E; auto using flt_irrefl.
    eauto using not_flt_step.
  - intros y [Hy| ->]; destruct (fgt (s_score rec) (maxScore t)) eqn:E;
      auto using flt_irrefl; [|apply flt_irrefl]. eauto using not_fgt_step.
  - destruct (flt (s_score rec) (minScore t)) eqn:E.
    + right. exists rec. split_and!; auto.
      destruct Hworst as [[<- _]|(z & _ & _ & _ & Hz)]; [done|by eapply flt_trans].
    + destruct Hworst as [?|(z & ? & ? & ? & ?)]; [by left|right]. exists z. auto.
  - destruct (fgt (s_score rec) (maxScore t)) eqn:E.
    + right. exists rec. split_and!; auto.
      destruct Hbest as [[<- _]|(z & _ & _ & _ & Hz)]; [done|by exact (flt_trans _ _ _ Hz E)].
    + destruct Hbest as [?|(z & ? & ? & ? & ?)]; [by left|right]. exists z. auto.
Qed.

Lemma totals_fold recs : totals_ok recs (foldl add_server no_totals recs).
Proof using.
  induction recs as [|rec recs IH] using rev_ind.
  - unfold totals_ok; cbn. split_and!; auto; intros ? H; by apply not_elem_of_nil in H.
  - rewrite foldl_app. by apply totals_step.
Qed.
End Stats.

(** The statistics of [queryLatestServerScores]: every server counts as
    online or offline, as its summary says; the worst server is one whose score is the minimum and no server is
    below it, unless no server scores below 100, and the best server likewise,
    unless none scores above 0; then the score is 0 and the name empty. *)
Theorem cluster_stats_spec recs :
  let st := cluster_stats recs in
  online_servers st + offline_servers st = Z.of_nat (length recs) /\
  online_servers st = Z.of_nat (length (filter (fun rec => status rec = ONLINE) recs)) /\
  ((exists rec, rec ∈ recs /\ s_server_name rec = worst_server st /\ s_score rec = min_score st /\
      forall y, y ∈ recs -> flt (s_score y) (min_score st) = false) \/
   (worst_server st = "" /\ min_score st = fzero /\
      forall y, y ∈ recs -> flt (s_score y) (n 100) = false)) /\
  ((exists rec, rec ∈ recs /\ s_server_name rec = best_server st /\ s_score rec = max_score st /\
      forall y, y ∈ recs -> fgt (s_score y) (max_score st) = false) \/
   (best_server st = "" /\ max_score st = fzero /\
      forall y, y ∈ recs -> fgt (s_score y) fzero = false)).
Proof.
  destruct (totals_fold recs) as (Hsum & Hon & Hmin & Hmax & Hworst & Hbest).
  assert (HM : MAX_SCORE = n 100) by (by vm_compute).
  cbv zeta. unfold cluster_stats; cbn [online_servers offline_servers min_score max_score worst_server best_server].
  split; [done|]. split; [done|]. split.
  - destruct Hworst as [[E ->]|(rec & Hr & Hs & Hname & Hlt)].
    + right. rewrite E in *. by rewrite <- HM, flt_irrefl.
    + left. exists rec. by rewrite Hlt.
  - destruct Hbest as [[E ->]|(rec & Hr & Hs & Hname & Hlt)].
    + right. rewrite E in *. done.
    + left. exists rec. by rewrite Hlt.
Qed.

(** [MAX_SCORE] is meant to lie above every score, but adding the machine
    epsilon to 100 rounds back to 100: a cluster whose servers all have the full
    score reports a minimum of 0 and no worst server, next to a maximum of 100. *)
Theorem full_scores_report_zero recs :
  recs <> [] -> (forall rec, rec ∈ recs -> s_score rec = n 100) ->
  MAX_SCORE = n 100 /\ min_score (cluster_stats recs) = fzero /\
  worst_server (cluster_stats recs) = "" /\ max_score (cluster_stats recs) = n 100.
Proof.
  intros Hne Hall. assert (HM : MAX_SCORE = n 100) by (by vm_compute).
  destruct (totals_fold recs) as (_ & _ & Hmin & Hmax & Hworst & Hbest).
  split; [done|]. unfold cluster_stats; cbn [online_servers offline_servers min_score max_score worst_server best_server].
  split_and!.
  - destruct Hworst as [[-> _]|(rec & Hr & Hs & _ & Hlt)]; [by rewrite flt_irrefl|].
    rewrite <- Hs, (Hall rec Hr), <- HM, flt_irrefl in Hlt. done.
  - destruct Hworst as [[_ ->]|(rec & Hr & Hs & _ & Hlt)]; [done|].
    rewrite <- Hs, (Hall rec Hr), <- HM, flt_irrefl in Hlt. done.
  - destruct Hbest as [[E _]|(rec & Hr & Hs & _ & ->)]; [|by rewrite <- Hs, (Hall rec Hr)].
    destruct recs as [|rec recs']; [done|].
    specialize (Hmax rec (list_elem_of_here _ _)). rewrite E, (Hall rec (list_elem_of_here _ _)) in Hmax.
    by vm_compute in Hmax.
Qed.

Lemma full_scores_report_zero_witness :
  let full name := mk_ServerScoreSummary name (n 100) 0 ONLINE fzero fzero fzero fzero in
  min_score (cluster_stats [full "a"; full "b"]) = fzero /\
  worst_server (cluster_stats [full "a"; full "b"]) = "" /\
  max_score (cluster_stats [full "a"; full "b"]) = n 100.
Proof.
  intros full. apply (full_scores_report_zero [full "a"; full "b"]); [done|].
  intros rec [->|[->|[]%not_elem_of_nil]%elem_of_cons]%elem_of_cons; done.
Defined.
