(* ===== verification/PreparedStatements.v ===== *)
(** * PreparedStatements: running a statement, call by call

    [bindParams] and [executePreparedRows] of [src/manager/src/QueryManager.cpp]
    with every call of the MySQL client library and the two handles they hold,
    the statement and the metadata of its result.  [QueryManager] takes the
    outcome of a statement as one value; this file shows that the calls compute
    what [QueryManager.executePreparedRows] makes of that value, and that both
    handles are given back on every path. *)

From S2P Require Import Prelude CFloat CString QueryRecords QueryManager.

(** ** Parameters *)

Inductive enum_field_types := MYSQL_TYPE_STRING | MYSQL_TYPE_LONGLONG | MYSQL_TYPE_DOUBLE.

(** [MYSQL_BIND] as [bindParams] fills it: the type, what [buffer] points to,
    and the length, which only a string has. *)
Record MYSQL_BIND := mk_bind {
  buffer_type : enum_field_types; buffer : SqlParam; buffer_length : Z }.

Definition bind_param (p : SqlParam) : MYSQL_BIND :=
  match p with
  | stringParam s => mk_bind MYSQL_TYPE_STRING p (Z.of_nat (String.length s))
  | intParam _ => mk_bind MYSQL_TYPE_LONGLONG p 0
  | doubleParam _ => mk_bind MYSQL_TYPE_DOUBLE p 0
  end.

(** ** The client library *)

(** The calls, in the order in which they are made. *)
Inductive stmt_call :=
| stmt_init | stmt_prepare (sql : string) | stmt_bind_param (binds : list MYSQL_BIND)
| stmt_execute | stmt_result_metadata | stmt_bind_result (fields : nat) | stmt_store_result
| stmt_fetch | free_result | stmt_close.

(** What a fetch gives: the cells of a row, or an error; a run of fetches ends
    with [MYSQL_NO_DATA]. *)
Inductive fetch_outcome := FetchRow (cells : list (option string)) | FetchError.

(** The answers of one run; [metadata]: the number of fields, if there is a
    result; [error_text]: what [mysql_error] or [mysql_stmt_error] say. *)
Record library := mk_library {
  init_ok : bool; prepare_ok : bool; bind_ok : list MYSQL_BIND -> bool; execute_ok : bool;
  metadata : option nat; bind_result_ok : bool; store_ok : bool;
  fetches : list fetch_outcome; error_text : string }.

(** ** The calls of executePreparedRows *)

Definition bindParams (lib : library) (params : list SqlParam) : bool * list stmt_call :=
  match params with
  | [] => (true, [])
  | _ =>
      let binds := map bind_param params in
      (bind_ok lib binds, [stmt_bind_param binds])
  end.

(** The size of a result buffer. *)
Definition buffer_size : nat := 4096.

(** The text of field [i]: the library stores as much of the value as fits
    and its whole length; a NULL or a field without a cell is the empty text. *)
Definition cell_text (cells : list (option string)) (i : nat) : string :=
  match cells !! i with
  | Some (Some v) =>
      let stored := String.substring 0 buffer_size v in
      let len := Nat.min (String.length v) buffer_size in
      String.substring 0 len stored
  | _ => ""
  end.

(** The fetching loop: the error or the rows, and its calls. *)
Fixpoint fetch_rows (fields : nat) (fs : list fetch_outcome) (rows : list (list string))
    : bool * list (list string) * list stmt_call :=
  match fs with
  | [] => (true, rows, [stmt_fetch])
  | FetchError :: _ => (false, rows, [stmt_fetch])
  | FetchRow cells :: rest =>
      let '(good, rows, cs) := fetch_rows fields rest (rows ++ [map (cell_text cells) (seq 0 fields)]) in
      (good, rows, stmt_fetch :: cs)
  end.

(** The result ([inl]: the error text) and the calls. *)
Definition execute (lib : library) (sql : string) (params : list SqlParam) (context : string)
    : (string + list (list string)) * list stmt_call :=
  let fail step := inl (stmt_message context step (error_text lib)) in
  if negb (init_ok lib) then (fail " init statement failed: ", [stmt_init])
  else
    let cs := [stmt_init; stmt_prepare sql] in
    if negb (prepare_ok lib) then (fail " prepare failed: ", cs ++ [stmt_close])
    else
      let '(bound, bs) := bindParams lib params in
      let cs := cs ++ bs in
      if negb bound then (fail " bind params failed: ", cs ++ [stmt_close])
      else
        let cs := cs ++ [stmt_execute] in
        if negb (execute_ok lib) then (fail " execute failed: ", cs ++ [stmt_close])
        else
          let cs := cs ++ [stmt_result_metadata] in
          match metadata lib with
          | None => (inr [], cs ++ [stmt_close])
          | Some fields =>
              let cs := cs ++ [stmt_bind_result fields] in
              if negb (bind_result_ok lib)
              then (fail " bind result failed: ", cs ++ [free_result; stmt_close])
              else
                let cs := cs ++ [stmt_store_result] in
                if negb (store_ok lib)
                then (fail " bind result failed: ", cs ++ [free_result; stmt_close])
                else
                  let '(good, rows, fs) := fetch_rows fields (fetches lib) [] in
                  (if good then inr rows else fail " fetch failed: ",
                   cs ++ fs ++ [free_result; stmt_close])
          end.

(** ** The outcome QueryManager takes for the run *)

(** The rows before the first error, and whether there is one. *)
Fixpoint fetched (fs : list fetch_outcome) : list (list (option string)) * bool :=
  match fs with
  | [] => ([], false)
  | FetchError :: _ => ([], true)
  | FetchRow cells :: rest => let '(rows, e) := fetched rest in (cells :: rows, e)
  end.

Definition outcome (lib : library) (params : list SqlParam) : stmt_run :=
  let e := error_text lib in
  if negb (init_ok lib) then InitFailed e
  else if negb (prepare_ok lib) then PrepareFailed e
  else if negb (bindParams lib params).1 then BindFailed e
  else if negb (execute_ok lib) then ExecuteFailed e
  else match metadata lib with
       | None => NoMetadata
       | Some _ =>
           if negb (bind_result_ok lib) || negb (store_ok lib) then BindResultFailed e
           else let '(rows, failure) := fetched (fetches lib) in
                Fetched rows (if failure then Some e else None)
       end.

(** ** The handles *)

(** What the program holds: the statement and the metadata. *)
Inductive handles := Nothing | Statement | StatementAndMetadata.

(** One call on the handles; none: the call uses a handle that is not held, or
    takes one twice.  [has_metadata]: what [stmt_result_metadata] gave. *)
Definition use (has_metadata : bool) (h : handles) (c : stmt_call) : option handles :=
  match c, h with
  | stmt_init, Nothing => Some Statement
  | stmt_prepare _, Statement | stmt_bind_param _, Statement | stmt_execute, Statement => Some Statement
  | stmt_result_metadata, Statement =>
      Some (if has_metadata then StatementAndMetadata else Statement)
  | stmt_bind_result _, StatementAndMetadata | stmt_store_result, StatementAndMetadata
  | stmt_fetch, StatementAndMetadata => Some StatementAndMetadata
  | free_result, StatementAndMetadata => Some Statement
  | stmt_close, Statement => Some Nothing
  | _, _ => None
  end.

Definition uses (has_metadata : bool) (h : option handles) (cs : list stmt_call) : option handles :=
  foldl (fun h c => h ≫= fun h => use has_metadata h c) h cs.

(** The handles after a run: [stmt_init] that fails holds nothing. *)
Definition held_after (lib : library) (cs : list stmt_call) : option handles :=
  if init_ok lib then uses (bool_decide (is_Some (metadata lib))) (Some Nothing) cs
  else match cs with [stmt_init] => Some Nothing | _ => None end.

(** ** Theorems *)

Lemma length_substring (s : string) n : String.length (String.substring 0 n s) = Nat.min n (String.length s).
Proof.
  revert n. induction s as [|c s IH]; intros [|n]; cbn; [done..|]. by rewrite IH.
Qed.

(** The two lengths of a cell agree with one cut of the value. *)
Lemma cell_text_fetch cells i :
  cell_text cells i = fetch_cell (default None (cells !! i)).
Proof.
  unfold cell_text. destruct (cells !! i) as [[v|]|]; [|done|done].
  transitivity (String.substring 0 buffer_size v); [|done].
  apply substring_all. rewrite length_substring. lia.
Qed.

Lemma row_text cells n :
  length cells = n -> map (cell_text cells) (seq 0 n) = map fetch_cell cells.
Proof.
  intros <-. apply list_eq_same_length with (n := length cells);
    [by rewrite ?length_map, ?length_seq..|].
  intros i x y Hi Hx Hy.
  change (map (cell_text cells)) with (fmap (M := list) (cell_text cells)) in Hx.
  change (map fetch_cell) with (fmap (M := list) fetch_cell) in Hy.
  rewrite list_lookup_fmap, lookup_seq_lt in Hx by done. rewrite list_lookup_fmap in Hy.
  injection Hx as <-. rewrite cell_text_fetch. cbn.
  destruct (cells !! i); [by injection Hy as <-|done].
Qed.

(** Every row has one cell for each field. *)
Definition full_rows (fields : nat) (fs : list fetch_outcome) : Prop :=
  Forall (fun f => match f with FetchRow cells => length cells = fields | FetchError => True end) fs.

Lemma fetch_rows_spec fields fs rows :
  full_rows fields fs ->
  let '(good, rows', cs) := fetch_rows fields fs rows in
  good = negb (fetched fs).2 /\
  rows' = rows ++ map (map fetch_cell) (fetched fs).1 /\
  uses true (Some StatementAndMetadata) cs = Some StatementAndMetadata.
Proof.
  revert rows. induction fs as [|f fs IH]; intros rows Hf; cbn.
  { split_and!; [done|by rewrite app_nil_r|done]. }
  apply Forall_cons in Hf as [H0 Hf]. destruct f as [cells|]; cbn.
  - specialize (IH (rows ++ [map (cell_text cells) (seq 0 fields)]) Hf).
    destruct (fetch_rows _ _ _) as [[good rows'] cs]. destruct (fetched fs) as [rs e].
    destruct IH as (-> & -> & Hu). split_and!; [done| |done]. cbn.
    by rewrite <- app_assoc, (row_text _ _ H0).
  - split_and!; [done|by rewrite app_nil_r|done].
Qed.

(** C26. Running a statement refines the one-value outcome that the queries are
    stated with, and gives its handles back.  Whatever the library answers to
    each call, when rows have a cell for each field: the result is the one that
    [QueryManager.executePreparedRows] computes, errors included; no call is made
    on a handle that is not held; at the end neither the statement nor the
    metadata is held. *)
Theorem prepared_rows_refine lib sql params context :
  (forall n, metadata lib = Some n -> full_rows n (fetches lib)) ->
  let '(result, cs) := execute lib sql params context in
  result = executePreparedRows (outcome lib params) context /\
  held_after lib cs = Some Nothing.
Proof.
  intros Hf. unfold execute, outcome, held_after.
  destruct (init_ok lib); [|done]. destruct (prepare_ok lib); [|done]. cbn [negb].
  destruct (bindParams lib params) as [bound bs] eqn:Eb. cbn [fst].
  assert (Hb : forall b, uses b (Some Statement) bs = Some Statement).
  { intros b. unfold bindParams in Eb. destruct params; injection Eb as _ <-; done. }
  assert (Hu : forall b cs, uses b (Some Nothing) ([stmt_init; stmt_prepare sql] ++ bs ++ cs) =
                 uses b (Some Statement) cs).
  { intros b cs. unfold uses. rewrite foldl_app. cbn. rewrite foldl_app.
    fold (uses b (Some Statement) bs). by rewrite Hb. }
  destruct bound; cbn [negb]; [|split; [done|by rewrite <- app_assoc, Hu]].
  destruct (execute_ok lib); cbn [negb]; [|split; [done|by rewrite <- !app_assoc, Hu]].
  destruct (metadata lib) as [n|] eqn:Em; cycle 1.
  { split; [done|]. by rewrite <- !app_assoc, Hu. }
  destruct (bind_result_ok lib), (store_ok lib); cbn [negb orb];
    try (split; [done|by rewrite <- !app_assoc, Hu]).
  pose proof (fetch_rows_spec n (fetches lib) [] (Hf n eq_refl)) as Hr.
  destruct (fetch_rows _ _ _) as [[good rows] fs]. destruct (fetched _) as [rs e].
  destruct Hr as (-> & -> & Hfs). cbn [fst snd]. split; [by destruct e|].
  rewrite <- !app_assoc, Hu. rewrite bool_decide_true by done.
  unfold uses in *. cbn. rewrite foldl_app, Hfs. done.
Qed.

(** A string longer than the buffer, a NULL and a failing fetch. *)
Definition sample_library : library :=
  mk_library true true (fun _ => true) true (Some 2%nat) true true
    [FetchRow [Some "web-1"; None]; FetchError] "lost connection".

Lemma prepared_rows_refine_witness :
  let '(result, cs) := execute sample_library "SELECT a, b FROM t WHERE c=?" [stringParam "x"] "q" in
  result = inl "QueryManager: q fetch failed: lost connection" /\
  held_after sample_library cs = Some Nothing.
Proof.
  pose proof (prepared_rows_refine sample_library "SELECT a, b FROM t WHERE c=?" [stringParam "x"] "q") as H.
  destruct (execute _ _ _ _) as [result cs] eqn:E.
  destruct H as [Hr Hh].
  - intros n [= <-]. by repeat constructor.
  - split; [|exact Hh]. by rewrite Hr.
Defined.
