(* ===== verification/Storage.v ===== *)
(** * Storage: what the manager writes is what it reads

    The statements of [MysqlWriter] against the queries of [QueryManager]: a
    query only selects columns that the writer fills, and the counters of a
    stored row are read back.  The table is outside: [stored column value] is
    the text that MySQL returns for a value written to the column, and the ranges
    of the integer columns are those of the schema,
    [src/sql table/init_server_performance.sql]. *)

From S2P Require Import Prelude CFloat CString ManagerConfig Messages Dispatcher HostManager MysqlWriter QueryRecords QueryManager.

(** A value that the statement gives, as the selected cell shows it. *)
Definition selected (stored : string -> value -> string) (st : insert) (cs : list string) : row :=
  map (fun c => default "" (stored c <$> value_of c st)) cs.

Lemma Forall_Forall_subseteq {A} (l k : list A) : Forall (fun x => x ∈ k) l -> l ⊆ k.
Proof. rewrite Forall_forall. done. Qed.

(** Every column that a query selects is one that the writer of the same
    table fills, so no query reads a column that is always at its default. *)
Lemma selected_columns_are_written :
  Forall (fun '(selected, written) => selected ⊆ written)
    [(performance_select, performance_columns); ("server_name" :: "timestamp" :: averaged, performance_columns);
     (net_select, net_columns); (disk_select, disk_columns); (mem_select, mem_columns);
     (softirq_select, softirq_columns); (mysql_select, mysql_columns);
     (redis_select, redis_columns)].
Proof.
  rewrite !Forall_cons.
  split_and!; try apply Forall_Forall_subseteq; try (apply (bool_decide_unpack _); by vm_compute).
Qed.

(** The largest value of each integer column of the three tables: INT, TINYINT(1),
    BIGINT or BIGINT UNSIGNED. *)
Definition integer_columns : list (list string * Z) :=
  [(["err_in"; "err_out"; "drop_in"; "drop_out"], LONG_MAX);
   (["mysql_port"; "redis_port"], INT_MAX);
   (["up"; "replication_configured"; "replication_running"; "master_link_up"], 127);
   (["max_connections"; "threads_connected"; "threads_running"; "aborted_connects"; "questions";
     "com_select"; "com_insert"; "com_update"; "com_delete"; "com_commit"; "com_rollback";
     "slow_queries"; "innodb_buffer_pool_read_requests"; "innodb_buffer_pool_reads";
     "innodb_row_lock_waits";
     "uptime_in_seconds"; "connected_clients"; "blocked_clients"; "maxclients"; "used_memory";
     "maxmemory"; "total_commands_processed"; "keyspace_hits"; "keyspace_misses"; "expired_keys";
     "evicted_keys"; "rejected_connections"; "total_error_replies"; "total_net_input_bytes";
     "total_net_output_bytes"; "connected_slaves"; "slowlog_len"], ULLONG_MAX)].

(** None for another column: below every value. *)
Definition column_max (c : string) : Z :=
  default (-1) (snd <$> find (fun x => existsb (String.eqb c) x.1) integer_columns).

Definition i64 (z : Z) : Prop := 0 <= z <= LONG_MAX.
Definition u64 (z : Z) : Prop := 0 <= z <= ULLONG_MAX.
Definition port (z : Z) : Prop := 0 <= z <= INT_MAX.

(** The 64-bit counters of a message, and those of the record that is read
    back, in one order. *)
Definition net_sent (x : NetInfo.t) : list Z :=
  [NetInfo.err_in x; NetInfo.err_out x; NetInfo.drop_in x; NetInfo.drop_out x].

Definition net_seen (x : NetDetailRecord.t) : list Z :=
  [NetDetailRecord.err_in x; NetDetailRecord.err_out x; NetDetailRecord.drop_in x;
   NetDetailRecord.drop_out x].

Definition mysql_sent (x : MysqlInfo.t) : list Z :=
  [MysqlInfo.max_connections x; MysqlInfo.threads_connected x; MysqlInfo.threads_running x;
   MysqlInfo.aborted_connects x; MysqlInfo.questions x; MysqlInfo.com_select x;
   MysqlInfo.com_insert x; MysqlInfo.com_update x; MysqlInfo.com_delete x; MysqlInfo.com_commit
   x; MysqlInfo.com_rollback x; MysqlInfo.slow_queries x;
   MysqlInfo.innodb_buffer_pool_read_requests x; MysqlInfo.innodb_buffer_pool_reads x;
   MysqlInfo.innodb_row_lock_waits x].

Definition mysql_seen (x : MysqlDetailRecord.t) : list Z :=
  [MysqlDetailRecord.max_connections x; MysqlDetailRecord.threads_connected x;
   MysqlDetailRecord.threads_running x; MysqlDetailRecord.aborted_connects x;
   MysqlDetailRecord.questions x; MysqlDetailRecord.com_select x; MysqlDetailRecord.com_insert
   x; MysqlDetailRecord.com_update x; MysqlDetailRecord.com_delete x;
   MysqlDetailRecord.com_commit x; MysqlDetailRecord.com_rollback x;
   MysqlDetailRecord.slow_queries x; MysqlDetailRecord.innodb_buffer_pool_read_requests x;
   MysqlDetailRecord.innodb_buffer_pool_reads x; MysqlDetailRecord.innodb_row_lock_waits x].

Definition redis_sent (x : RedisInfo.t) : list Z :=
  [RedisInfo.uptime_in_seconds x; RedisInfo.connected_clients x; RedisInfo.blocked_clients x;
   RedisInfo.maxclients x; RedisInfo.used_memory x; RedisInfo.maxmemory x;
   RedisInfo.total_commands_processed x; RedisInfo.keyspace_hits x; RedisInfo.keyspace_misses x;
   RedisInfo.expired_keys x; RedisInfo.evicted_keys x; RedisInfo.rejected_connections x;
   RedisInfo.total_error_replies x; RedisInfo.total_net_input_bytes x;
   RedisInfo.total_net_output_bytes x; RedisInfo.connected_slaves x; RedisInfo.slowlog_len x].

Definition redis_seen (x : RedisDetailRecord.t) : list Z :=
  [RedisDetailRecord.uptime_in_seconds x; RedisDetailRecord.connected_clients x;
   RedisDetailRecord.blocked_clients x; RedisDetailRecord.maxclients x;
   RedisDetailRecord.used_memory x; RedisDetailRecord.maxmemory x;
   RedisDetailRecord.total_commands_processed x; RedisDetailRecord.keyspace_hits x;
   RedisDetailRecord.keyspace_misses x; RedisDetailRecord.expired_keys x;
   RedisDetailRecord.evicted_keys x; RedisDetailRecord.rejected_connections x;
   RedisDetailRecord.total_error_replies x; RedisDetailRecord.total_net_input_bytes x;
   RedisDetailRecord.total_net_output_bytes x; RedisDetailRecord.connected_slaves x;
   RedisDetailRecord.slowlog_len x].

Definition mysql_flags (x : MysqlInfo.t) : list bool :=
  [MysqlInfo.up x; MysqlInfo.replication_configured x; MysqlInfo.replication_running x].

Definition mysql_flags_seen (x : MysqlDetailRecord.t) : list bool :=
  [MysqlDetailRecord.up x; MysqlDetailRecord.replication_configured x;
   MysqlDetailRecord.replication_running x].

Definition mysql_name (x : MysqlInfo.t) : string :=
  instance_name (MysqlInfo.instance x) (MysqlInfo.host x) (MysqlInfo.port x).

Definition redis_flags (x : RedisInfo.t) : list bool :=
  [RedisInfo.up x; RedisInfo.replication_configured x; RedisInfo.master_link_up x].

Definition redis_flags_seen (x : RedisDetailRecord.t) : list bool :=
  [RedisDetailRecord.up x; RedisDetailRecord.replication_configured x;
   RedisDetailRecord.master_link_up x].

Definition redis_name (x : RedisInfo.t) : string :=
  instance_name (RedisInfo.instance x) (RedisInfo.host x) (RedisInfo.port x).

Section ReadBack.
Variable stored : string -> value -> string.
Variables (show32 : f32 -> string) (show64 : f64 -> string) (strftime : Z -> string).
Variable ck : clock.

(** An integer column returns the decimal text of an integer of its range. *)
Definition stores_integers : Prop :=
  forall c z, 0 <= z <= column_max c -> stored c (nZ z) = to_string z.

Hypothesis Hstored : stores_integers.

Lemma to_string_not_empty z : 0 <= z -> is_empty (to_string z) = false.
Proof using.
  intros Hz. pose proof (read_integer_to_string z Hz) as H. by destruct (to_string z).
Qed.

Lemma column_max_le c : column_max c <= ULLONG_MAX.
Proof using.
  unfold column_max. destruct (find _ _) as [[cs m]|] eqn:E; [|done].
  apply find_some in E as [E _]. cbn in E. destruct_or? E; by injection E as <- <-.
Qed.

Lemma toU64_stored c z (r : row) i :
  cell r i = stored c (nZ z) -> 0 <= z <= column_max c -> toU64 r i = Done z.
Proof using Hstored.
  intros Hr Hz. unfold toU64. rewrite Hr, Hstored by done.
  rewrite to_string_not_empty by lia. unfold stoull. rewrite read_integer_to_string by lia.
  pose proof (column_max_le c). cbn. by rewrite (proj2 (Z.ltb_ge _ _)) by lia.
Qed.

Lemma toI64_stored c z (r : row) i :
  cell r i = stored c (nZ z) -> 0 <= z <= column_max c -> column_max c <= LONG_MAX -> toI64 r i = Done z.
Proof using Hstored.
  intros Hr Hz Hc. unfold toI64. rewrite Hr, Hstored by done.
  rewrite to_string_not_empty by lia. by rewrite stoll_to_string by lia.
Qed.

Lemma toBool_stored c b (r : row) i :
  cell r i = stored c (nbool b) -> 1 <= column_max c -> toBool r i = b.
Proof using Hstored.
  assert (Hn : nbool b = nZ (Z.b2z b)) by (by destruct b).
  intros Hr Hc. unfold toBool. rewrite Hr, Hn, Hstored by (destruct b; cbn [Z.b2z]; lia).
  by destruct b; vm_compute.
Qed.

(** Reads the integers and flags of a selected row that a statement wrote. *)
Ltac read_cells :=
  repeat match goal with
  | |- context [toU64 ?r ?i] => erewrite (toU64_stored _ _ r i) by (reflexivity || eassumption)
  | |- context [toI64 ?r ?i] =>
      erewrite (toI64_stored _ _ r i) by (reflexivity || eassumption || (vm_compute; discriminate))
  | |- context [toBool ?r ?i] =>
      erewrite (toBool_stored _ _ r i) by (reflexivity || (vm_compute; discriminate))
  end.

Lemma net_read_back data w net :
  Forall i64 (net_sent net) ->
  exists rec,
    NetDetailRecord.read ck
      (selected stored (net_insert show32 strftime data w net).1 net_select) = Done rec /\
    NetDetailRecord.server_name rec = stored "server_name" (Quoted (host_name data)) /\
    NetDetailRecord.net_name rec = stored "net_name" (Quoted (NetInfo.name net)) /\
    net_seen rec = net_sent net.
Proof using Hstored.
  unfold net_sent. rewrite !Forall_cons. intros H. destruct_and? H. set (r := selected _ _ _).
  unfold NetDetailRecord.read. read_cells. eexists. by split_and!.
Qed.

Lemma mysql_read_back data w x :
  Forall u64 (mysql_sent x) -> port (MysqlInfo.port x) ->
  exists rec,
    MysqlDetailRecord.read ck
      (selected stored (mysql_insert show32 show64 strftime data w x).1 mysql_select) = Done rec /\
    MysqlDetailRecord.server_name rec = stored "server_name" (Quoted (host_name data)) /\
    MysqlDetailRecord.instance rec = stored "instance" (Quoted (mysql_name x)) /\
    (MysqlDetailRecord.mysql_port rec, mysql_flags_seen rec) = (MysqlInfo.port x, mysql_flags x) /\
    mysql_seen rec = mysql_sent x.
Proof using Hstored.
  unfold mysql_sent. rewrite !Forall_cons. intros H Hp. destruct_and? H. set (r := selected _ _ _).
  unfold MysqlDetailRecord.read. read_cells. eexists. split_and!; try done.
  apply (f_equal2 pair); [|done]. apply i32_wrap_small. unfold port in Hp. wrap_unfold. lia.
Qed.

Lemma redis_read_back data w x :
  Forall u64 (redis_sent x) -> port (RedisInfo.port x) ->
  exists rec,
    RedisDetailRecord.read ck
      (selected stored (redis_insert show32 show64 strftime data w x).1 redis_select) = Done rec /\
    RedisDetailRecord.server_name rec = stored "server_name" (Quoted (host_name data)) /\
    RedisDetailRecord.instance rec = stored "instance" (Quoted (redis_name x)) /\
    (RedisDetailRecord.redis_port rec, redis_flags_seen rec) = (RedisInfo.port x, redis_flags x) /\
    redis_seen rec = redis_sent x.
Proof using Hstored.
  unfold redis_sent. rewrite !Forall_cons. intros H Hp. destruct_and? H. set (r := selected _ _ _).
  unfold RedisDetailRecord.read. read_cells. eexists. split_and!; try done.
  apply (f_equal2 pair); [|done]. apply i32_wrap_small. unfold port in Hp. wrap_unfold. lia.
Qed.

(** C40. What a sample counts is what a query returns: the error and drop
    counters of an interface, and the port, the flags and every 64-bit counter
    of a MySQL and of a Redis instance, are read back as they were sent, over
    the whole range of their columns (BIGINT for those of the interface, BIGINT
    UNSIGNED for the others), under the host and the name they were stored with.
    None of these readers throws on such a row. *)
Theorem stored_counters_read_back data w net my rd :
  Forall i64 (net_sent net) -> Forall u64 (mysql_sent my ++ redis_sent rd) ->
  Forall port [MysqlInfo.port my; RedisInfo.port rd] ->
  (exists n,
    NetDetailRecord.read ck
      (selected stored (net_insert show32 strftime data w net).1 net_select) = Done n /\
    NetDetailRecord.server_name n = stored "server_name" (Quoted (host_name data)) /\
    NetDetailRecord.net_name n = stored "net_name" (Quoted (NetInfo.name net)) /\
    net_seen n = net_sent net) /\
  (exists m,
    MysqlDetailRecord.read ck
      (selected stored (mysql_insert show32 show64 strftime data w my).1 mysql_select) = Done m /\
    MysqlDetailRecord.server_name m = stored "server_name" (Quoted (host_name data)) /\
    MysqlDetailRecord.instance m = stored "instance" (Quoted (mysql_name my)) /\
    (MysqlDetailRecord.mysql_port m, mysql_flags_seen m) = (MysqlInfo.port my, mysql_flags my) /\
    mysql_seen m = mysql_sent my) /\
  (exists r,
    RedisDetailRecord.read ck
      (selected stored (redis_insert show32 show64 strftime data w rd).1 redis_select) = Done r /\
    RedisDetailRecord.server_name r = stored "server_name" (Quoted (host_name data)) /\
    RedisDetailRecord.instance r = stored "instance" (Quoted (redis_name rd)) /\
    (RedisDetailRecord.redis_port r, redis_flags_seen r) = (RedisInfo.port rd, redis_flags rd) /\
    redis_seen r = redis_sent rd).
Proof using Hstored.
  rewrite !Forall_app, !Forall_cons. intros Hn (Hm & Hr) (Hpm & Hpr & _).
  split_and!; [by apply net_read_back | by apply mysql_read_back | by apply redis_read_back].
Qed.
End ReadBack.

(** Storage that brings a number into the range of its column, as MySQL does out
    of strict mode; in strict mode it refuses the row. *)
Definition clipping (c : string) (v : value) : string :=
  match v with
  | Quoted s => s
  | Bare s =>
      if starts_digit s && (0 <=? column_max c) then to_string (Z.min (column_max c) (read_digits 0 s).1) else s
  end.

Lemma clipping_stores : stores_integers clipping.
Proof.
  intros c z Hz. destruct (to_string_digits z) as [Hs Hd]; [lia|].
  unfold clipping, nZ. rewrite Hs, Hd, (proj2 (Z.leb_le _ _)) by lia.
  cbn [andb fst]. by rewrite Z.min_r by lia.
Qed.

Lemma stored_counters_read_back_witness :
  let net := NetInfo.mk "eth0" fzero fzero fzero fzero LONG_MAX 2 0 7 in
  exists n m r,
    NetDetailRecord.read a_clock
      (selected clipping (net_insert (fun _ => "0") (fun _ => "t") (sample_data "h") new_writer net).1
         net_select) = Done n /\
    NetDetailRecord.server_name n = "h" /\ NetDetailRecord.err_in n = LONG_MAX /\
    MysqlDetailRecord.mysql_port m = 0 /\ RedisDetailRecord.up r = false.
Proof.
  intros net.
  destruct (stored_counters_read_back clipping (fun _ => "0") (fun _ => "0") (fun _ => "t") a_clock
    clipping_stores (sample_data "h") new_writer net MysqlInfo.empty RedisInfo.empty)
    as ((n & Hn & Hs & _ & He) & (m & _ & _ & _ & Hm & _) & (r & _ & _ & _ & Hr & _)).
  - repeat constructor; vm_compute; intros H; discriminate.
  - repeat constructor; vm_compute; intros H; discriminate.
  - repeat constructor; vm_compute; intros H; discriminate.
  - exists n, m, r. split; [exact Hn|]. split; [exact Hs|].
    split; [by injection He|]. split; [by injection Hm|by injection Hr].
Defined.

(** The counters of an interface are unsigned in the message and signed in the
    table: a count from 2^63 on does not come back. *)
Theorem large_error_counts_are_clipped :
  let net := NetInfo.mk "eth0" fzero fzero fzero fzero (LONG_MAX + 1) 2 0 7 in
  exists n,
    NetDetailRecord.read a_clock
      (selected clipping (net_insert (fun _ => "0") (fun _ => "t") (sample_data "h") new_writer net).1
         net_select) = Done n /\
    NetDetailRecord.err_in n = LONG_MAX.
Proof. eexists. split; by vm_compute. Qed.
