(* ===== verification/Sql.v ===== *)
(** * Sql: what a query reads and what a statement stores

    The statements of [QueryManager] as syntax, with the text the code builds as
    their rendering, and the rows a statement selects.  MySQL is outside: a
    [Server] is what it does with texts, and [ServerLaws] its documented
    behaviour on the two kinds of text that the manager sends -- an [INSERT]
    stores the values it names, a [SELECT] answers from the rows that satisfy
    its condition.  How rows are projected, aggregated, ordered and cut to a
    page is the server's. *)

From S2P Require Import Prelude CFloat CString ManagerConfig Messages Dispatcher HostManager MysqlWriter QueryRecords QueryManager.
From Stdlib Require Import Ascii.

(** ** Queries *)

Inductive expr :=
| Col (c : string) | AvgOf (c : string) | TimeBucket | CountAll | CountDistinct (c : string).

(** The comparisons of the anomaly queries with a threshold or a constant. *)
Inductive test :=
| Above (c : string) (p : SqlParam) | AboveAbs (c : string) (p : SqlParam)
| Below (c : string) (p : SqlParam) | AboveZero (c : string) | IsFlag (c : string) (b : bool).

(** [AnyOf] is a parenthesis of alternatives, each a conjunction of tests. *)
Inductive cond :=
| Equals (c : string) (v : string) | Between (c : string) (low high : SqlParam)
| AnyOf (alternatives : list (list test)).

Record select := mk_select {
  what : list expr; what_params : list SqlParam; from : string; conditions : list cond;
  group_by : list string; order_by : option (string * option SortOrder);
  limit : option (Z * Z) }.

(** A [SELECT] of one table, or the latest row of each server: the join of
    [server_performance] with the greatest time stamps of its groups. *)
Inductive query :=
| Select (s : select)
| Latest (scope : QueryScope) (order : SortOrder) (limit : option (Z * Z)).

(** *** Their text *)

Definition expr_text (e : expr) : string :=
  match e with
  | Col c => c
  | AvgOf c => "AVG(" +++ c +++ ") as " +++ c
  | TimeBucket => "FROM_UNIXTIME(FLOOR(UNIX_TIMESTAMP(timestamp) / ?) * ?) as time_bucket"
  | CountAll => "COUNT(*)"
  | CountDistinct c => "COUNT(DISTINCT " +++ c +++ ")"
  end.

Definition test_text (t : test) : string :=
  match t with
  | Above c _ => c +++ " > ?"
  | AboveAbs c _ => "ABS(" +++ c +++ ") > ?"
  | Below c _ => c +++ " < ?"
  | AboveZero c => c +++ " > 0"
  | IsFlag c b => c +++ (if b then "=1" else "=0")
  end.

Definition test_params (t : test) : list SqlParam :=
  match t with Above _ p | AboveAbs _ p | Below _ p => [p] | _ => [] end.

Definition alternative_text (ts : list test) : string :=
  match ts with
  | [t] => test_text t
  | _ => "(" +++ join " AND " (map test_text ts) +++ ")"
  end.

Definition cond_text (c : cond) : string :=
  match c with
  | Equals c _ => c +++ "=?"
  | Between c _ _ => c +++ " BETWEEN ? AND ?"
  | AnyOf alts => "(" +++ join " OR " (map alternative_text alts) +++ ")"
  end.

Definition cond_params (c : cond) : list SqlParam :=
  match c with
  | Equals _ v => [stringParam v]
  | Between _ low high => [low; high]
  | AnyOf alts => concat (map test_params (concat alts))
  end.

Definition limit_text (l : option (Z * Z)) : string :=
  match l with Some _ => " LIMIT ? OFFSET ?" | None => "" end.
Definition limit_params (l : option (Z * Z)) : list SqlParam :=
  match l with Some (a, b) => [intParam a; intParam b] | None => [] end.

Definition group_text (g : list string) : string :=
  match g with [] => "" | _ => " GROUP BY " +++ join ", " g end.

Definition sort_text (o : option (string * option SortOrder)) : string :=
  match o with
  | Some (c, Some d) => " ORDER BY " +++ c +++ " " +++ order_text d
  | Some (c, None) => " ORDER BY " +++ c
  | None => ""
  end.

Definition select_text (s : select) : string :=
  "SELECT " +++ join ", " (map expr_text (what s)) +++ " FROM " +++ from s +++ " WHERE " +++
  join " AND " (map cond_text (conditions s)) +++ group_text (group_by s) +++
  sort_text (order_by s) +++ limit_text (limit s).

(** The equalities of the scope's predicate. *)
Definition scope_conds (scope : QueryScope) : list cond :=
  [Equals "tenant_id" (tenant_id scope); Equals "team_id" (team_id scope)] ++
  (if is_empty (cluster_id scope) then [] else [Equals "cluster_id" (cluster_id scope)]).

(** The columns that make a group of [Latest], and those it selects. *)
Definition group_keys : list string := ["tenant_id"; "team_id"; "cluster_id"; "server_name"].

Definition latest_columns : list string :=
  ["server_name"; "score"; "timestamp"; "cpu_percent"; "mem_used_percent"; "disk_util_percent";
   "load_avg_1"].

Definition latest_rows_text (scope : QueryScope) (o : SortOrder) (l : option (Z * Z)) : string :=
  "SELECT " +++ join ", " (map (fun c => "p1." +++ c) latest_columns) +++
  " FROM server_performance p1 INNER JOIN (  SELECT " +++ join ", " group_keys +++
  ", MAX(timestamp) as max_ts   FROM server_performance WHERE " +++
  join " AND " (map cond_text (scope_conds scope)) +++ " GROUP BY " +++ join ", " group_keys +++
  ") p2 ON " +++ join " AND " (map (fun c => "p1." +++ c +++ " = p2." +++ c) group_keys) +++
  " AND p1.timestamp = p2.max_ts ORDER BY p1.score " +++ order_text o +++ limit_text l.

Definition render (q : query) : statement :=
  match q with
  | Select s =>
      (select_text s,
       what_params s ++ concat (map cond_params (conditions s)) ++ limit_params (limit s))
  | Latest scope o l =>
      (latest_rows_text scope o l,
       concat (map cond_params (scope_conds scope)) ++ limit_params l)
  end.

(** *** Well-formed queries: every name is one word *)

Definition word_char (c : ascii) : bool :=
  is_digit c || (code c =? 95) || (code c =? 96) ||
  ((65 <=? code c) && (code c <=? 90)) || ((97 <=? code c) && (code c <=? 122)).
Definition word (s : string) : bool := negb (is_empty s) && str_all word_char s.

Definition expr_ok (e : expr) : bool :=
  match e with Col c | AvgOf c | CountDistinct c => word c | _ => true end.
Definition test_ok (t : test) : bool :=
  match t with Above c _ | AboveAbs c _ | Below c _ | AboveZero c | IsFlag c _ => word c end.
Definition cond_ok (c : cond) : bool :=
  match c with
  | Equals c _ | Between c _ _ => word c
  | AnyOf alts => forallb (forallb test_ok) alts
  end.

Definition select_ok (s : select) : bool :=
  forallb expr_ok (what s) && word (from s) && forallb cond_ok (conditions s) &&
  forallb word (group_by s) && match order_by s with Some (c, _) => word c | None => true end.

Definition query_ok (q : query) : bool :=
  match q with Select s => select_ok s | Latest _ _ _ => true end.

(** ** Statements that store a row *)

(** The characters of a printed number, and of NULL. *)
Definition number_char (c : ascii) : bool :=
  word_char c || (code c =? 43) || (code c =? 45) || (code c =? 46).

Definition value_ok (v : value) : bool :=
  match v with Quoted _ => true | Bare s => str_all number_char s end.

Definition insert_ok (st : insert) : bool :=
  word (table st) && forallb word (columns st) && forallb value_ok (values st) &&
  (length (columns st) =? length (values st))%nat && negb (length (columns st) =? 0)%nat.

(** ** The server *)

(** A row: the text of each column, none for NULL. *)
Definition db_row : Type := string -> option string.

Class Server := {
  (** The table and the row that an [INSERT] adds; none when it is refused. *)
  inserted : string -> option (string * db_row);
  (** [=] on two texts, in the collation of the columns. *)
  collates : string -> string -> bool;
  (** The order of two time stamps. *)
  not_after : string -> string -> bool;
  (** The conditions that compare with a bound. *)
  holds : cond -> db_row -> bool;
  (** From the selected rows to the answer of the [i]-th statement of a query. *)
  answer_rows : nat -> query -> list db_row -> stmt_run;
  (** The answer of a server that executed the given statements before. *)
  execute : list string -> nat -> statement -> stmt_run
}.

Section Semantics.
Context `{Server}.

Definition cell_is (r : db_row) (c v : string) : bool :=
  match r c with Some x => collates x v | None => false end.

Definition cond_holds (r : db_row) (c : cond) : bool :=
  match c with Equals c v => cell_is r c v | _ => holds c r end.

Definition satisfies (cs : list cond) (r : db_row) : bool := forallb (cond_holds r) cs.

(** The rows of a table, in the order they were stored. *)
Definition table_rows (history : list string) (t : string) : list db_row :=
  omap (fun text =>
    match inserted text with
    | Some (t', r) => if String.eqb t' t then Some r else None
    | None => None
    end) history.

Definition same_cell (r g : db_row) (c : string) : bool :=
  match g c with Some v => cell_is r c v | None => false end.

Definition same_group (r g : db_row) : bool :=
  forallb (same_cell r g) group_keys.

Definition time_not_after (r g : db_row) : bool :=
  match r "timestamp", g "timestamp" with Some a, Some b => not_after a b | _, _ => false end.

(** [r] is of the group of [g], at the time of the group's last row. *)
Definition joins (inner : list db_row) (r g : db_row) : bool :=
  same_group r g && time_not_after r g && time_not_after g r &&
  forallb (fun g' => negb (same_group g' g) || time_not_after g' g) inner.

Definition keep_rows (p : db_row -> bool) (l : list db_row) : list db_row :=
  filter (fun r => p r = true) l.

Definition selected (q : query) (history : list string) : list db_row :=
  match q with
  | Select s => keep_rows (satisfies (conditions s)) (table_rows history (from s))
  | Latest scope _ _ =>
      let rows := table_rows history "server_performance" in
      let inner := keep_rows (satisfies (scope_conds scope)) rows in
      keep_rows (fun r => existsb (joins inner r) inner) rows
  end.
End Semantics.

(** The column [c] of a row that holds what the statement gives it. *)
Definition stores (st : insert) (r : db_row) : Prop :=
  forall c v, value_of c st = Some (Quoted v) -> r c = Some v.

Class ServerLaws (escape : string -> string) `{Server} := {
  (** [=] is transitive. *)
  collates_trans x y z : collates x y = true -> collates y z = true -> collates x z = true;
  (** A row holds the literals of its statement, which [escape] wrote. *)
  inserted_stores st t r :
    insert_ok st = true -> inserted (statement_text escape st) = Some (t, r) ->
    t = table st /\ stores st r;
  (** A [SELECT] answers from the rows that its condition selects. *)
  execute_query history i q :
    query_ok q = true -> execute history i (render q) = answer_rows i q (selected q history)
}.

(** ** The statements of the queries are such texts *)

Section Renderings.
Variable ck : clock.
Implicit Types scope : QueryScope.

Definition range_conds (r : TimeRange) : cond :=
  Between "timestamp" (stringParam (formatTimePoint ck (start_time r)))
    (stringParam (formatTimePoint ck (end_time r))).

Definition server_conds scope (s : string) (r : TimeRange) : list cond :=
  scope_conds scope ++ [Equals "server_name" s; range_conds r].

Definition anomaly_conds scope (s : string) (r : TimeRange) (alts : list (list test)) : list cond :=
  scope_conds scope ++ [range_conds r] ++
  (if is_empty s then [] else [Equals "server_name" s]) ++ [AnyOf alts].

Lemma columns_text_cols cs : join ", " (map expr_text (map Col cs)) = columns_text cs.
Proof using. induction cs as [|c [|c' cs] IH]; [done..|]. cbn in *. by rewrite IH. Qed.

Lemma scope_conds_text scope c cs :
  join " AND " (map cond_text (scope_conds scope ++ c :: cs)) =
  scopePredicate scope "" +++ " AND " +++ join " AND " (map cond_text (c :: cs)).
Proof using.
  unfold scope_conds, scopePredicate. by destruct (is_empty (cluster_id scope)).
Qed.

Lemma scope_conds_text_alone scope :
  join " AND " (map cond_text (scope_conds scope)) = scopePredicate scope "".
Proof using. unfold scope_conds, scopePredicate. by destruct (is_empty (cluster_id scope)). Qed.

Lemma scope_conds_params scope : concat (map cond_params (scope_conds scope)) = scopeParams scope.
Proof using. unfold scope_conds, scopeParams. by destruct (is_empty (cluster_id scope)). Qed.

Lemma server_conds_text scope s r :
  "WHERE " +++ join " AND " (map cond_text (server_conds scope s r)) = server_where scope.
Proof using. unfold server_conds, server_where. by rewrite scope_conds_text. Qed.

Lemma server_conds_params scope s r :
  concat (map cond_params (server_conds scope s r)) = server_params ck scope s r.
Proof using.
  unfold server_conds, server_params. by rewrite map_app, concat_app, scope_conds_params.
Qed.

Lemma anomaly_conds_params scope s r alts :
  concat (map cond_params (anomaly_conds scope s r alts)) =
  anomaly_params ck scope s r ++ concat (map test_params (concat alts)).
Proof using.
  unfold anomaly_conds, anomaly_params. rewrite map_app, concat_app, scope_conds_params.
  destruct (is_empty s); by rewrite <- ?app_assoc; cbn; rewrite ?app_nil_r.
Qed.

Lemma anomaly_conds_text scope s r alts :
  join " AND " (map cond_text (anomaly_conds scope s r alts)) =
  anomaly_where scope s +++ " AND " +++ cond_text (AnyOf alts).
Proof using.
  unfold anomaly_conds, anomaly_where. cbn [app]. rewrite scope_conds_text.
  destruct (is_empty s); cbn; by rewrite !append_assoc.
Qed.

Definition count_query (t : string) scope s r : query :=
  Select (mk_select [CountAll] [] t (server_conds scope s r) [] None None).

Definition page_query (t : string) (cs : list string) scope s r (size offset : Z) : query :=
  Select (mk_select (map Col cs) [] t (server_conds scope s r) []
            (Some ("timestamp", Some DESC)) (Some (size, offset))).

Definition trend_query scope s r (seconds : Z) : query :=
  if 0 <? seconds then
    Select (mk_select (Col "server_name" :: TimeBucket :: map AvgOf averaged)
              [intParam seconds; intParam seconds] "server_performance" (server_conds scope s r)
              ["server_name"; "time_bucket"] (Some ("time_bucket", None)) None)
  else
    Select (mk_select (map Col ("server_name" :: "timestamp" :: averaged)) []
              "server_performance" (server_conds scope s r) [] (Some ("timestamp", None)) None).

Definition limit_of (x : f32) : SqlParam := doubleParam (f64_of_f32 x).

Definition anomaly_query (t : string) (cs : list string) scope s r alts : query :=
  Select (mk_select (map Col cs) [] t (anomaly_conds scope s r alts) []
            (Some ("timestamp", Some DESC)) None).

Definition host_tests (th : AnomalyThreshold) : list (list test) :=
  [[Above "cpu_percent" (limit_of (cpu_threshold th))];
   [Above "mem_used_percent" (limit_of (memory_threshold th))];
   [Above "disk_util_percent" (limit_of (disk_threshold th))];
   [AboveAbs "cpu_percent_rate" (limit_of (change_rate_threshold th))];
   [AboveAbs "mem_used_percent_rate" (limit_of (change_rate_threshold th))]].

Definition mysql_tests (th : AnomalyThreshold) : list (list test) :=
  [[IsFlag "up" false];
   [Above "connection_used_percent" (limit_of (mysql_connection_threshold th))];
   [IsFlag "replication_configured" true;
    Above "replication_lag_seconds" (limit_of (mysql_replication_lag_threshold th))];
   [Above "slow_queries_rate" (limit_of (mysql_slow_query_rate_threshold th))];
   [Above "innodb_row_lock_waits_rate" (limit_of (mysql_lock_wait_rate_threshold th))];
   [AboveZero "innodb_buffer_pool_hit_percent";
    Below "innodb_buffer_pool_hit_percent" (limit_of (mysql_buffer_pool_hit_threshold th))]].

Definition redis_tests (th : AnomalyThreshold) : list (list test) :=
  [[IsFlag "up" false];
   [Above "connection_used_percent" (limit_of (redis_connection_threshold th))];
   [Above "memory_used_percent" (limit_of (redis_memory_threshold th))];
   [AboveZero "keyspace_hit_percent";
    Below "keyspace_hit_percent" (limit_of (redis_hit_rate_threshold th))];
   [IsFlag "replication_configured" true; IsFlag "master_link_up" false];
   [Above "master_last_io_seconds_ago" (limit_of (redis_replication_lag_threshold th))];
   [AboveZero "rejected_connections"];
   [Above "slowlog_growth" (limit_of (redis_slowlog_growth_threshold th))]].

Definition host_anomaly_query scope s r th : query :=
  anomaly_query "server_performance"
    ["server_name"; "timestamp"; "cpu_percent"; "mem_used_percent"; "disk_util_percent";
     "cpu_percent_rate"; "mem_used_percent_rate"] scope s r (host_tests th).

Definition mysql_anomaly_query scope s r th : query :=
  anomaly_query "server_mysql_detail"
    ["server_name"; "timestamp"; "instance"; "up"; "connection_used_percent";
     "replication_lag_seconds"; "slow_queries_rate"; "innodb_row_lock_waits_rate";
     "innodb_buffer_pool_hit_percent"] scope s r (mysql_tests th).

Definition redis_anomaly_query scope s r th : query :=
  anomaly_query "server_redis_detail"
    ["server_name"; "timestamp"; "instance"; "up"; "connection_used_percent";
     "memory_used_percent"; "keyspace_hit_percent"; "replication_configured"; "master_link_up";
     "master_last_io_seconds_ago"; "rejected_connections"; "slowlog_growth"] scope s r
    (redis_tests th).

Definition rank_count_query scope : query :=
  Select (mk_select [CountDistinct "server_name"] [] "server_performance" (scope_conds scope)
            [] None None).

(** *** The code's texts and parameters, one by one *)

Lemma count_render t scope s r : count_statement ck t scope s r = render (count_query t scope s r).
Proof using.
  unfold count_statement, render, count_query, select_text. cbn [what what_params from conditions
    group_by order_by limit group_text sort_text limit_text limit_params map join expr_text app].
  rewrite server_conds_params, app_nil_r, !append_nil_r, <- server_conds_text with (s := s) (r := r).
  done.
Qed.

Lemma page_render t cs scope s r size offset :
  page_statement ck t cs scope s r size offset = render (page_query t cs scope s r size offset).
Proof using.
  unfold page_statement, render, page_query, select_text. cbn [what what_params from conditions
    group_by order_by limit group_text sort_text limit_text limit_params app].
  rewrite server_conds_params, columns_text_cols, <- server_conds_text with (s := s) (r := r).
  by rewrite !append_assoc.
Qed.

Lemma trend_render scope s r seconds :
  trend_statement ck scope s r seconds = render (trend_query scope s r seconds).
Proof using.
  unfold trend_statement, trend_query. rewrite <- server_conds_text with (s := s) (r := r).
  destruct (0 <? seconds); unfold render, select_text; cbn [what what_params from conditions
    group_by order_by limit group_text sort_text limit_text limit_params app];
    rewrite server_conds_params, !app_nil_r, !append_assoc; f_equal; done.
Qed.

Lemma anomaly_render t cs scope s r alts :
  render (anomaly_query t cs scope s r alts) =
  ("SELECT " +++ columns_text cs +++ " FROM " +++ t +++ " WHERE " +++ anomaly_where scope s +++
     " AND " +++ cond_text (AnyOf alts) +++ " ORDER BY timestamp DESC",
   anomaly_params ck scope s r ++ concat (map test_params (concat alts))).
Proof using.
  unfold render, anomaly_query, select_text. cbn [what what_params from conditions
    group_by order_by limit group_text sort_text limit_text limit_params app].
  rewrite anomaly_conds_params, app_nil_r, columns_text_cols, anomaly_conds_text.
  by rewrite !append_assoc.
Qed.

Lemma host_anomaly_render scope s r th :
  host_anomaly_statement ck scope s r th = render (host_anomaly_query scope s r th).
Proof using.
  unfold host_anomaly_query. rewrite anomaly_render.
  reflexivity.
Qed.

Lemma mysql_anomaly_render scope s r th :
  mysql_anomaly_statement ck scope s r th = render (mysql_anomaly_query scope s r th).
Proof using. unfold mysql_anomaly_query. rewrite anomaly_render. reflexivity. Qed.

Lemma redis_anomaly_render scope s r th :
  redis_anomaly_statement ck scope s r th = render (redis_anomaly_query scope s r th).
Proof using. unfold redis_anomaly_query. rewrite anomaly_render. reflexivity. Qed.

Lemma rank_count_render scope : rank_count_statement scope = render (rank_count_query scope).
Proof using.
  unfold rank_count_statement, render, rank_count_query, select_text. cbn [what what_params from
    conditions group_by order_by limit group_text sort_text limit_text limit_params app].
  rewrite scope_conds_text_alone, scope_conds_params, app_nil_r, append_nil_r. done.
Qed.

Lemma latest_text_render scope o l :
  (latest_text scope (order_text o +++ limit_text l), scopeParams scope ++ limit_params l) =
  render (Latest scope o l).
Proof using.
  cbn [render]. rewrite scope_conds_params. f_equal. unfold latest_rows_text, latest_text.
  by rewrite scope_conds_text_alone.
Qed.

Lemma rank_render scope o size offset :
  rank_statement scope o size offset = render (Latest scope o (Some (size, offset))).
Proof using. by rewrite <- latest_text_render. Qed.

Lemma latest_render scope : latest_statement scope = render (Latest scope DESC None).
Proof using. rewrite <- latest_text_render. unfold latest_statement. by rewrite app_nil_r. Qed.
End Renderings.

(** ** A query of a scope reads the rows of that scope only *)

Section Reading.
Context `{Server}.

Definition in_scope (scope : QueryScope) (r : db_row) : bool := satisfies (scope_conds scope) r.

(** The condition of the query starts with the equalities of the scope. *)
Definition reads_scope (scope : QueryScope) (q : query) : Prop :=
  match q with
  | Select s => exists cs, conditions s = scope_conds scope ++ cs
  | Latest scope' _ _ => scope' = scope
  end.

(** [keep] drops no statement that stored a row of the scope. *)
Definition keeps_scope (scope : QueryScope) (keep : string -> bool) (history : list string) : Prop :=
  forall text t r, text ∈ history -> inserted text = Some (t, r) -> in_scope scope r = true ->
    keep text = true.

Definition kept (keep : string -> bool) (history : list string) : list string :=
  filter (fun text => keep text = true) history.

(** Rows that no condition of the query can select may be missing. *)
Lemma table_rows_kept scope keep history t (p : db_row -> bool) :
  keeps_scope scope keep history -> (forall r, p r = true -> in_scope scope r = true) ->
  keep_rows p (table_rows (kept keep history) t) = keep_rows p (table_rows history t).
Proof using.
  intros Hk Hp. induction history as [|text history IH]; [done|].
  assert (Hk' : keeps_scope scope keep history) by (intros x t' r Hx; apply Hk; by right).
  assert (Hstep : forall h, keep_rows p (table_rows (text :: h) t) =
    keep_rows p (table_rows [text] t) ++ keep_rows p (table_rows h t)).
  { intros h. unfold keep_rows, table_rows. rewrite omap_cons_app, filter_app. cbn.
    by repeat case_match. }
  unfold kept. rewrite filter_cons. destruct (decide (keep text = true)) as [Ht|Ht].
  - by rewrite (Hstep (filter _ history)), (Hstep history), <- IH.
  - rewrite (Hstep history), <- IH by done. unfold keep_rows at 2, table_rows at 2. cbn.
    destruct (inserted text) as [[t' r]|] eqn:Ei; [|done].
    destruct (String.eqb t' t); [|done]. rewrite filter_cons, decide_False; [done|].
    intros Hr. apply Ht. eapply Hk; [by left|exact Ei|by apply Hp].
Qed.

Context {escape : string -> string} `{!ServerLaws escape}.

(** A row joined with a row of the scope is of the scope. *)
Lemma joins_in_scope scope inner r g :
  joins inner r g = true -> in_scope scope g = true -> in_scope scope r = true.
Proof using All.
  unfold joins, same_group, in_scope, satisfies, scope_conds. intros Hj Hg. to_props.
  assert (Hc : forall c v, same_cell r g c = true -> cell_is g c v = true -> cell_is r c v = true).
  { intros c v. unfold same_cell, cell_is. destruct (g c) as [y|], (r c) as [x|]; try done.
    apply collates_trans. }
  cbn in *. to_props. destruct (is_empty (cluster_id scope)); cbn in *; to_props;
    rewrite !Hc by done; done.
Qed.

Lemma selected_kept scope keep history q :
  reads_scope scope q -> keeps_scope scope keep history ->
  selected q (kept keep history) = selected q history.
Proof using All.
  intros Hq Hk. destruct q as [s|scope' o l]; cbn [selected reads_scope] in *.
  - destruct Hq as [cs Hcs]. rewrite Hcs. apply (table_rows_kept scope); [done|].
    intros r. unfold satisfies. rewrite forallb_app. intros [Hr _]%andb_true_iff. exact Hr.
  - subst scope'. rewrite (table_rows_kept scope keep history _ (satisfies (scope_conds scope))) by done. set (inner := keep_rows _ _).
    apply (table_rows_kept scope); [done|]. intros r (g & Hg & Hj)%existsb_exists.
    eapply joins_in_scope; [exact Hj|]. apply list_elem_of_In in Hg.
    unfold inner, keep_rows in Hg. by apply list_elem_of_filter in Hg as [Hg _].
Qed.

(** *** The statements that the queries run *)

Lemma server_conds_in ck scope s r : exists cs, server_conds ck scope s r = scope_conds scope ++ cs.
Proof using. by eexists. Qed.

(** Well-formedness, with the conditions of the scope set apart. *)
Lemma select_ok_intro es ps t scope cs g o l :
  forallb expr_ok es = true -> word t = true -> forallb cond_ok cs = true ->
  forallb word g = true -> match o with Some (c, _) => word c | None => true end = true ->
  query_ok (Select (mk_select es ps t (scope_conds scope ++ cs) g o l)) = true.
Proof using.
  intros H1 H2 H3 H4 H5. unfold query_ok, select_ok. cbn [what from conditions group_by order_by].
  rewrite forallb_app, H1, H2, H3, H4, H5.
  unfold scope_conds. by destruct (is_empty (cluster_id scope)).
Qed.

Lemma detail_table_ok t cs :
  (t, cs) ∈ detail_tables -> word t = true /\ forallb expr_ok (map Col cs) = true.
Proof using.
  intros Hin. unfold detail_tables in Hin.
  repeat (apply elem_of_cons in Hin as [[= -> ->]|Hin]; [by vm_compute|]).
  by apply not_elem_of_nil in Hin.
Qed.

Lemma anomaly_query_ok ck t cs scope s r alts :
  word t = true -> forallb expr_ok (map Col cs) = true -> forallb (forallb test_ok) alts = true ->
  query_ok (anomaly_query ck t cs scope s r alts) = true.
Proof using.
  intros Ht Hcs Ha. unfold anomaly_query, anomaly_conds.
  apply select_ok_intro; [done..| |reflexivity|reflexivity].
  rewrite !forallb_app. destruct (is_empty s); cbn [forallb cond_ok andb]; by rewrite Ha.
Qed.

Lemma issued_query ck scope st :
  issued ck scope st -> exists q, st = render q /\ query_ok q = true /\ reads_scope scope q.
Proof using.
  destruct 1 as [t cs s r Hin|t cs s r ps o Hin|s r i|s r th|s r th|s r th| |o ps off|].
  - exists (count_query ck t scope s r). split; [apply count_render|].
    apply detail_table_ok in Hin as [Ht _].
    split; [by apply select_ok_intro|by apply server_conds_in].
  - exists (page_query ck t cs scope s r ps o). split; [apply page_render|].
    apply detail_table_ok in Hin as [Ht Hcs].
    split; [by apply select_ok_intro|by apply server_conds_in].
  - exists (trend_query ck scope s r i). split; [apply trend_render|]. unfold trend_query.
    destruct (0 <? i); (split; [by apply select_ok_intro|by apply server_conds_in]).
  - eexists. split; [apply host_anomaly_render|]. split; [by apply anomaly_query_ok|by eexists].
  - eexists. split; [apply mysql_anomaly_render|]. split; [by apply anomaly_query_ok|by eexists].
  - eexists. split; [apply redis_anomaly_render|]. split; [by apply anomaly_query_ok|by eexists].
  - eexists. split; [apply rank_count_render|]. split; [|exists []; by rewrite app_nil_r].
    unfold rank_count_query. rewrite <- (app_nil_r (scope_conds scope)). by apply select_ok_intro.
  - eexists. split; [apply rank_render|done].
  - eexists. split; [apply latest_render|done].
Qed.

(** A server that executed less, but every statement that stored a row of the
    scope, answers the scope's queries alike. *)
Lemma kept_agree ck scope keep history :
  keeps_scope scope keep history ->
  agree_on (issued ck scope) (execute history) (execute (kept keep history)).
Proof using All.
  intros Hk i st (q & -> & Hok & Hq)%issued_query.
  by rewrite !execute_query, (selected_kept scope) by done.
Qed.
End Reading.

(** ** The writer's statements are such texts *)

Section WriterStatements.
Variables (show32 : f32 -> string) (show64 : f64 -> string) (strftime : Z -> string).

(** What [std::to_string] prints for a float or a double. *)
Definition prints_numbers : Prop :=
  (forall x, str_all number_char (show32 x) = true) /\
  (forall x, str_all number_char (show64 x) = true).

Hypothesis Hshow : prints_numbers.

Lemma number_to_string z : str_all number_char (to_string z) = true.
Proof using.
  apply str_all_to_string; [done|]. intros c Hc. unfold number_char, word_char. by rewrite Hc.
Qed.

Lemma values_n32 l : forallb value_ok (map (n32 show32) l) = true.
Proof using Hshow. apply forallb_forall. intros v (x & <- & _)%in_map_iff. apply Hshow. Qed.

Lemma values_nZ l : forallb value_ok (map nZ l) = true.
Proof using. apply forallb_forall. intros v (x & <- & _)%in_map_iff. apply number_to_string. Qed.

Lemma value_n64 x : value_ok (n64 show64 x) = true.
Proof using Hshow. apply Hshow. Qed.

Lemma value_nZ z : value_ok (nZ z) = true.
Proof using. apply number_to_string. Qed.

Lemma value_nbool b : value_ok (nbool b) = true.
Proof using. by destruct b. Qed.

Lemma value_n32 x : value_ok (n32 show32 x) = true.
Proof using Hshow. apply Hshow. Qed.

Lemma values_scope data : forallb value_ok (scope_values data) = true.
Proof using.
  unfold scope_values. cbn [forallb value_ok andb]. destruct (_ =? 0); [done|].
  by rewrite number_to_string.
Qed.

Lemma insert_ok_intro t cs vs :
  word t = true -> forallb word cs = true -> negb (length cs =? 0)%nat = true ->
  length cs = length vs -> forallb value_ok vs = true ->
  insert_ok (mk_insert t cs vs) = true.
Proof using.
  intros Ht Hc Hn Hl Hv. unfold insert_ok. cbn [table columns values].
  by rewrite Ht, Hc, Hv, Hn, Hl, Nat.eqb_refl.
Qed.

Ltac insert_tac :=
  intros; apply insert_ok_intro;
  [ reflexivity | by vm_compute | by vm_compute
  | rewrite ?length_app, ?length_map, ?length_app, ?length_rates; reflexivity
  | rewrite ?forallb_app, ?values_scope, ?values_n32, ?values_nZ; cbn [forallb andb];
    rewrite ?value_n64, ?value_n32, ?value_nZ, ?value_nbool; reflexivity ].

Lemma sample_inserts_ok data w :
  Forall (fun st => insert_ok st = true) (sample_inserts show32 show64 strftime data w).1.
Proof using Hshow. apply sample_inserts_Forall; insert_tac. Qed.
End WriterStatements.
