(* ===== verification/SqlServer.v ===== *)
(** * SqlServer: a server that reads the statements of the manager

    An instance of [Server]: it reads an [INSERT] character by character back
    into its table, columns and values, compares texts without regard to case,
    and answers the query of the latest rows.  It shows that the laws of a
    server can hold together, and that the texts of [MysqlWriter] say what they
    mean: [read_insert_text] is a round trip. *)

From S2P Require Import Prelude CFloat CString ManagerConfig Messages Dispatcher HostManager MysqlWriter QueryRecords QueryManager Sql.
From Stdlib Require Import Ascii.

#[local] Arguments word_char : simpl never.
#[local] Arguments number_char : simpl never.

(** ** Reading an INSERT *)

Fixpoint strip (p s : string) : option string :=
  match p, s with
  | EmptyString, _ => Some s
  | String a p, String b s => if Ascii.eqb a b then strip p s else None
  | _, _ => None
  end.

Fixpoint read_word (s : string) : string * string :=
  match s with
  | String c r => if word_char c then let '(w, t) := read_word r in (String c w, t) else ("", s)
  | EmptyString => ("", "")
  end.

(** The first word, the further words and what follows the list. *)
Fixpoint read_columns (s : string) : option (string * list string * string) :=
  match s with
  | String c r =>
      if word_char c then '(w, ws, t) ← read_columns r; Some (String c w, ws, t)
      else if Ascii.eqb c comma then
        match r with
        | String _ r => '(w, ws, t) ← read_columns r; Some ("", w :: ws, t)
        | EmptyString => None
        end
      else Some ("", [], s)
  | EmptyString => None
  end.

(** The first value, whether it is a literal, and the further values: a
    backslash in a literal takes the next character. *)
Fixpoint read_values (st : lexer) (s : string) : option (bool * string * list (bool * string)) :=
  match s with
  | EmptyString => None
  | String c r =>
      match st with
      | Outside =>
          if Ascii.eqb c quote then '(_, w, ws) ← read_values Inside r; Some (true, w, ws)
          else if Ascii.eqb c comma then
            '(q, w, ws) ← read_values Outside r; Some (false, "", (q, w) :: ws)
          else if Ascii.eqb c rparen then (if is_empty r then Some (false, "", []) else None)
          else '(q, w, ws) ← read_values Outside r; Some (q, String c w, ws)
      | Inside =>
          if Ascii.eqb c quote then read_values Outside r
          else if Ascii.eqb c backslash then read_values Escaped r
          else '(q, w, ws) ← read_values Inside r; Some (q, String c w, ws)
      | Escaped => '(q, w, ws) ← read_values Inside r; Some (q, String c w, ws)
      end
  end.

Definition read_insert (text : string) : option (string * list string * list (bool * string)) :=
  s ← strip "INSERT INTO " text;
  let '(t, s) := read_word s in
  s ← strip " (" s;
  '(c, cs, s) ← read_columns s;
  s ← strip ") VALUES (" s;
  '(q, w, ws) ← read_values Outside s;
  Some (t, c :: cs, (q, w) :: ws).

(** ** It reads back what the writer wrote *)

Lemma strip_app p r : strip p (p +++ r) = Some r.
Proof. induction p as [|a p IH]; [done|]. rewrite append_cons. cbn. by rewrite Ascii.eqb_refl. Qed.

Lemma read_word_app w c r :
  str_all word_char w = true -> word_char c = false -> read_word (w +++ String c r) = (w, String c r).
Proof.
  intros Hw Hc. induction w as [|a w IH]; cbn [read_word str_all] in *.
  - rewrite append_nil_l. cbn. by rewrite Hc.
  - rewrite append_cons. apply andb_true_iff in Hw as [Ha Hw]. cbn. by rewrite Ha, IH.
Qed.

Lemma read_columns_word w r :
  str_all word_char w = true ->
  read_columns (w +++ r) = ('(w', ws, t) ← read_columns r; Some (w +++ w', ws, t)).
Proof.
  induction w as [|a w IH]; intros Hw.
  - rewrite append_nil_l. by destruct (read_columns r) as [[[? ?] ?]|].
  - apply andb_true_iff in Hw as [Ha Hw]. rewrite append_cons. cbn [read_columns]. rewrite Ha, IH by done.
    by destruct (read_columns r) as [[[? ?] ?]|].
Qed.

Lemma read_columns_end r : read_columns (")" +++ r) = Some ("", [], ")" +++ r).
Proof. done. Qed.

Lemma read_columns_comma r :
  read_columns (", " +++ r) = ('(w, ws, t) ← read_columns r; Some ("", w :: ws, t)).
Proof. done. Qed.

Lemma read_columns_join c cs r :
  forallb word (c :: cs) = true ->
  read_columns (join ", " (c :: cs) +++ ")" +++ r) = Some (c, cs, ")" +++ r).
Proof.
  revert c. induction cs as [|c' cs IH]; intros c Hw; cbn [forallb] in Hw.
  - apply andb_true_iff in Hw as [Hc _]. apply andb_true_iff in Hc as [_ Hc]. cbn [join].
    rewrite read_columns_word, read_columns_end by done. cbn. by rewrite append_nil_r.
  - apply andb_true_iff in Hw as [Hc Hw]. apply andb_true_iff in Hc as [_ Hc].
    change (join ", " (c :: c' :: cs)) with (c +++ ", " +++ join ", " (c' :: cs)).
    rewrite !append_assoc, read_columns_word, read_columns_comma by done.
    rewrite IH by done. cbn. by rewrite append_nil_r.
Qed.

Definition seen (v : value) : bool * string :=
  match v with Quoted s => (true, s) | Bare s => (false, s) end.

Lemma read_escaped s r :
  read_values Inside (escape_quotes s +++ r) =
  ('(q, w, ws) ← read_values Inside r; Some (q, s +++ w, ws)).
Proof.
  induction s as [|c s IH].
  - rewrite append_nil_l. by destruct (read_values Inside r) as [[[? ?] ?]|].
  - cbn [escape_quotes]. destruct (Ascii.eqb c quote) eqn:Eq.
    { apply Ascii.eqb_eq in Eq as ->. cbn [orb]. rewrite !append_cons. cbn. rewrite IH.
      by destruct (read_values Inside r) as [[[? ?] ?]|]. }
    destruct (Ascii.eqb c backslash) eqn:Eb.
    { apply Ascii.eqb_eq in Eb as ->. cbn [orb]. rewrite !append_cons. cbn. rewrite IH.
      by destruct (read_values Inside r) as [[[? ?] ?]|]. }
    cbn [orb]. rewrite append_cons. cbn. rewrite Eq, Eb, IH.
    by destruct (read_values Inside r) as [[[? ?] ?]|].
Qed.

Lemma number_char_plain c :
  number_char c = true ->
  Ascii.eqb c quote = false /\ Ascii.eqb c comma = false /\ Ascii.eqb c rparen = false.
Proof. intros H. split_and!; apply Ascii.eqb_neq; intros ->; by vm_compute in H. Qed.

Lemma read_bare s r :
  str_all number_char s = true ->
  read_values Outside (s +++ r) = ('(q, w, ws) ← read_values Outside r; Some (q, s +++ w, ws)).
Proof.
  induction s as [|c s IH]; intros Hs.
  - rewrite append_nil_l. by destruct (read_values Outside r) as [[[? ?] ?]|].
  - apply andb_true_iff in Hs as [Hc Hs]. apply number_char_plain in Hc as (E1 & E2 & E3).
    rewrite append_cons. cbn [read_values]. rewrite E1, E2, E3, IH by done.
    by destruct (read_values Outside r) as [[[? ?] ?]|].
Qed.

(** A value and what ends it. *)
Lemma read_value v r ws :
  value_ok v = true -> read_values Outside r = Some (false, "", ws) ->
  read_values Outside (value_text escape_quotes v +++ r) = Some (seen v, ws).
Proof.
  intros Hv Hr. destruct v as [s|s]; cbn [value_text].
  - unfold quoteSqlString. rewrite !append_assoc.
    change (read_values Outside ("'" +++ escape_quotes s +++ "'" +++ r)) with
      ('(_, w, ws) ← read_values Inside (escape_quotes s +++ "'" +++ r); Some (true, w, ws)).
    rewrite read_escaped. change (read_values Inside ("'" +++ r)) with (read_values Outside r).
    rewrite Hr. cbn. by rewrite append_nil_r.
  - rewrite read_bare, Hr by done. cbn. by rewrite append_nil_r.
Qed.

Lemma read_values_text v vs :
  forallb value_ok (v :: vs) = true ->
  read_values Outside (values_text escape_quotes (v :: vs)) = Some (seen v, map seen vs).
Proof.
  unfold values_text. revert v. induction vs as [|v' vs IH]; intros v Hv; cbn [forallb] in Hv.
  - apply andb_true_iff in Hv as [Hv _]. cbn [map join]. by apply read_value.
  - apply andb_true_iff in Hv as [Hv Hvs].
    change (join "," (map (value_text escape_quotes) (v :: v' :: vs))) with
      (value_text escape_quotes v +++ "," +++ join "," (map (value_text escape_quotes) (v' :: vs))).
    rewrite !append_assoc. apply read_value; [done|].
    change (read_values Outside ("," +++ ?x)) with
      ('(q, w, ws) ← read_values Outside x; Some (false, "", (q, w) :: ws)).
    rewrite IH by done. by destruct v'.
Qed.

(** Reading the text of a statement gives its table, its columns and its
    values. *)
Lemma read_insert_text st :
  insert_ok st = true ->
  read_insert (statement_text escape_quotes st) = Some (table st, columns st, map seen (values st)).
Proof.
  destruct st as [t cs vs]. unfold insert_ok. cbn [table columns values]. intros Hok.
  apply andb_true_iff in Hok as [Hok Hne]. apply andb_true_iff in Hok as [Hok Hl]. apply andb_true_iff in Hok as [Hok Hv].
  apply andb_true_iff in Hok as [Ht Hc]. apply andb_true_iff in Ht as [_ Ht].
  apply Nat.eqb_eq in Hl. destruct cs as [|c cs]; [done|]. destruct vs as [|v vs]; [done|].
  unfold read_insert, statement_text. cbn [table columns values]. rewrite strip_app. cbn [mbind option_bind].
  change (" (" +++ ?x) with (String " " (String "(" x)). rewrite read_word_app by done.
  change (strip " (" (String " " (String "(" ?x))) with (Some x). cbn [mbind option_bind].
  change (") VALUES (" +++ ?x) with (")" +++ " VALUES (" +++ x).
  rewrite read_columns_join by done. cbn [mbind option_bind].
  change (strip ") VALUES (" (")" +++ " VALUES (" +++ ?x)) with (strip "" x).
  cbn [strip mbind option_bind]. rewrite read_values_text by done. by destruct v.
Qed.

(** ** The server *)

Definition cell_of (cs : list string) (vs : list (bool * string)) : db_row := fun c =>
  match list_find (fun x => x = c) cs with
  | Some (i, _) =>
      match vs !! i with
      | Some (true, s) => Some s
      | Some (false, s) => if String.eqb s "NULL" then None else Some s
      | None => None
      end
  | None => None
  end.

(** The scope that the parameters of the latest rows bind. *)
Definition scope_of_params (ps : list SqlParam) : QueryScope :=
  match ps with
  | stringParam t :: stringParam u :: stringParam c :: _ => mk_QueryScope t u c
  | stringParam t :: stringParam u :: _ => mk_QueryScope t u ""
  | _ => mk_QueryScope "" "" ""
  end.

Definition has_dot (s : string) : bool := negb (str_all (fun c => negb (Ascii.eqb c (chr 46))) s).

(** The one query that it knows: the latest rows, in the order they were stored. *)
Definition latest_answer (rows : list db_row) : stmt_run :=
  Fetched (map (fun r : db_row => map r latest_columns) rows) None.

(** The server without its answers, and with them. *)
Definition silent_server : Server := {|
  inserted text :=
    '(t, cs, vs) ← read_insert text; if is_empty t then None else Some (t, cell_of cs vs);
  collates a b := String.eqb (str_map tolower a) (str_map tolower b);
  not_after := String.leb;
  holds _ _ := true;
  answer_rows _ q rows := match q with Latest _ _ _ => latest_answer rows | Select _ => NoMetadata end;
  execute _ _ _ := NoMetadata
|}.

#[export] Instance small_server : Server := {
  inserted := @inserted silent_server;
  collates := @collates silent_server;
  not_after := @not_after silent_server;
  holds := @holds silent_server;
  answer_rows := @answer_rows silent_server;
  execute history i st :=
    if has_dot st.1
    then latest_answer (@selected silent_server
           (Latest (scope_of_params st.2) DESC None) history)
    else NoMetadata
}.

(** A name of a query has no dot, so the text of a [SELECT] has none. *)
Notation no_dot := (str_all (fun c => negb (Ascii.eqb c (chr 46)))).

Lemma word_no_dot s : word s = true -> no_dot s = true.
Proof.
  intros H. apply andb_true_iff in H as [_ H]. induction s as [|c s IH]; [done|].
  cbn [str_all] in *. apply andb_true_iff in H as [Hc H]. rewrite IH by done.
  apply andb_true_iff. split; [|done]. apply negb_true_iff, Ascii.eqb_neq. intros ->.
  by vm_compute in Hc.
Qed.

Lemma join_all p sep l :
  str_all p sep = true -> Forall (fun s => str_all p s = true) l -> str_all p (join sep l) = true.
Proof.
  intros Hs. induction 1 as [|s l H Hl IH]; [done|]. destruct l as [|s' l]; [done|].
  change (join sep (s :: s' :: l)) with (s +++ sep +++ join sep (s' :: l)).
  by rewrite !str_all_app, H, Hs, IH.
Qed.

Lemma map_all {A} p (f : A -> string) (ok : A -> bool) l :
  (forall x, ok x = true -> str_all p (f x) = true) -> forallb ok l = true ->
  Forall (fun s => str_all p s = true) (map f l).
Proof.
  intros Hf Hl. apply Forall_map, Forall_forall. intros x Hx. apply Hf.
  rewrite forallb_forall in Hl. by apply Hl, list_elem_of_In.
Qed.

Ltac dots :=
  rewrite ?str_all_app; repeat (apply andb_true_iff; split);
  first [by apply word_no_dot | reflexivity].

Lemma test_no_dot t : test_ok t = true -> no_dot (test_text t) = true.
Proof. destruct t; cbn [test_ok test_text]; intros H; try destruct b; dots. Qed.

Lemma cond_no_dot c : cond_ok c = true -> no_dot (cond_text c) = true.
Proof.
  destruct c as [c v|c l h|alts]; cbn [cond_ok cond_text]; intros H; [dots..|].
  rewrite !str_all_app, join_all; [done|done|]. eapply map_all; [|exact H].
  intros ts Hts. assert (Hj : no_dot (join " AND " (map test_text ts)) = true).
  { apply join_all; [done|]. eapply map_all; [|exact Hts]. apply test_no_dot. }
  destruct ts as [|t [|t' ts]]; [done|exact Hj|].
  change (alternative_text (t :: t' :: ts)) with
    ("(" +++ join " AND " (map test_text (t :: t' :: ts)) +++ ")").
  by rewrite !str_all_app, Hj.
Qed.

Lemma select_no_dot s : select_ok s = true -> no_dot (select_text s) = true.
Proof.
  unfold select_ok. intros H. apply andb_true_iff in H as [H Ho]. apply andb_true_iff in H as [H Hg].
  apply andb_true_iff in H as [H Hc]. apply andb_true_iff in H as [He Hf].
  unfold select_text. rewrite !str_all_app, (word_no_dot (from s)) by done.
  rewrite (join_all _ ", " (map expr_text _)), (join_all _ " AND "); [|done| |done|].
  - assert (Hgt : no_dot (group_text (group_by s)) = true).
    { unfold group_text. destruct (group_by s) as [|g gs]; [done|]. rewrite str_all_app.
      apply andb_true_iff. split; [done|]. apply join_all; [done|].
      rewrite <- (map_id (g :: gs)). eapply map_all; [|exact Hg]. apply word_no_dot. }
    assert (Hst : no_dot (sort_text (order_by s)) = true).
    { destruct (order_by s) as [[c [d|]]|]; cbn [sort_text]; [|dots|done]. destruct d; dots. }
    rewrite Hgt, Hst. by destruct (limit s).
  - eapply map_all; [|exact Hc]. apply cond_no_dot.
  - eapply map_all; [|exact He]. intros e He'. destruct e; cbn [expr_ok expr_text] in *; dots.
Qed.

Lemma scope_of_scope_params scope l :
  scope_of_params (scopeParams scope ++ limit_params l) = scope.
Proof.
  destruct scope as [t u c]. unfold scopeParams. cbn [QueryRecords.cluster_id].
  destruct (is_empty c) eqn:E, l as [[a b]|]; cbn; try done; by destruct c.
Qed.

#[export] Instance small_server_laws : ServerLaws escape_quotes.
Proof.
  split.
  - cbn. intros x y z Hx%String.eqb_eq Hy%String.eqb_eq. apply String.eqb_eq. congruence.
  - intros st t r Hok. change (inserted (statement_text escape_quotes st)) with
      ('(t, cs, vs) ← read_insert (statement_text escape_quotes st);
       if is_empty t then None else Some (t, cell_of cs vs)).
    rewrite read_insert_text by done. cbn [mbind option_bind].
    destruct (is_empty (table st)); [done|]. intros [= <- <-]. split; [done|].
    intros k v. unfold value_of, cell_of. destruct (list_find _ _) as [[i x]|]; [|done].
    rewrite list_lookup_fmap. by intros ->.
  - intros history i q Hq. cbn. destruct q as [s|scope o l]; cbn [query_ok] in Hq.
    + cbn [render fst]. unfold has_dot. by rewrite select_no_dot.
    + cbn [render fst snd]. by rewrite scope_conds_params, scope_of_scope_params.
Qed.
