(* ===== verification/QueryService.v ===== *)
(** * QueryService: the query handlers

    [src/manager/src/rpc/QueryService.cpp] and [QueryService.h]: the scope and
    the time range of a request, the statuses, the handing over to the
    dispatcher, the eleven handlers and the cache of the latest scores
    ([RedisCache] of [src/manager/src/RedisConnectionPool.cpp]).

    A handler is a function of the request and of the query manager's database;
    its result is a status and the response it filled.  A message of
    [query_api.proto] is the record of [QueryRecords] with its time stamp in
    seconds. *)

From S2P Require Import Prelude CFloat CString ManagerConfig Dispatcher Grpc QueryDispatch QueryRecords QueryManager.
From Stdlib Require Import Ascii.

(** ** Requests and responses *)

Record Pagination := mk_Pagination { page : Z; page_size : Z }.

(** The seconds of the two time stamps. *)
Record ProtoTimeRange := mk_ProtoTimeRange { start_seconds : Z; end_seconds : Z }.

Record QueryDetailRequest := mk_QueryDetailRequest {
  server_name : string; time_range : ProtoTimeRange; pagination : Pagination; scope : QueryScope }.

Record QueryTrendRequest := mk_QueryTrendRequest {
  t_server_name : string; t_time_range : ProtoTimeRange; interval_seconds : Z;
  t_scope : QueryScope }.

Record QueryAnomalyRequest := mk_QueryAnomalyRequest {
  a_request : QueryDetailRequest;
  req_thresholds : AnomalyThreshold       (* 0 where the field is not set *) }.

Record QueryScoreRankRequest := mk_QueryScoreRankRequest {
  r_order : SortOrder; r_pagination : Pagination; r_scope : QueryScope }.

Record PagedResponse (A : Type) := mk_PagedResponse {
  resp_records : list A; total_count : Z; resp_page : Z; resp_page_size : Z }.
Arguments mk_PagedResponse {A}.
Arguments resp_records {A}.
Arguments total_count {A}.
Arguments resp_page {A}.
Arguments resp_page_size {A}.

Definition empty_page {A} : PagedResponse A := mk_PagedResponse [] 0 0 0.

Record QueryTrendResponse := mk_QueryTrendResponse {
  trend_records : list PerformanceRecord.t; resp_interval_seconds : Z }.

Record QueryLatestScoreResponse := mk_QueryLatestScoreResponse {
  servers : list ServerScoreSummary; stats : option ClusterStats }.

(** ** Statuses, scopes and times *)

Definition queryErrorStatus (error : string) : Status :=
  if contains "not initialized" error || contains "MySQL support is not enabled" error
  then mk_Status UNAVAILABLE error else mk_Status INTERNAL error.

(** [inl] is the status of the refusal. *)
Definition convertQueryScope (requestScope : QueryScope) : Status + QueryScope :=
  if is_empty (tenant_id requestScope) || is_empty (team_id requestScope)
  then inl (mk_Status UNAUTHENTICATED "缺少查询租户或团队作用域") else inr requestScope.

Definition latestScoreCacheKey (scope : QueryScope) : string :=
  "manager:query:latest_score:" +++ tenant_id scope +++ ":" +++ team_id scope +++ ":" +++
  cluster_id scope.

(** [system_clock::from_time_t]: seconds to nanoseconds, in 64 signed bits. *)
Definition from_time_t (seconds : Z) : res Z :=
  let ns := seconds * 1000000000 in
  if (LONG_MIN <=? ns) && (ns <=? LONG_MAX) then Done ns else Undefined.

Definition convertTimeRange (range : ProtoTimeRange) : res TimeRange :=
  s ← from_time_t (start_seconds range);
  e ← from_time_t (end_seconds range);
  mret (mk_TimeRange s e).

(** [setTimestamp]. *)
Definition to_seconds (tp : Z) : Z := Z.quot tp 1000000000.

(** ** Records as messages *)

Definition performance_message (r : PerformanceRecord.t) : PerformanceRecord.t :=
  let m := PerformanceRecord.set_timestamp (to_seconds (PerformanceRecord.timestamp r)) r in
  let 'PerformanceRecord.mk name ts cpu usr sys nice idle io irq soft l1 l3 l15 used total free
        avail disk sent recv score cpu_r mem_r disk_r l1_r _ _ := m in
  PerformanceRecord.mk name ts cpu usr sys nice idle io irq soft l1 l3 l15 used total free
    avail disk sent recv score cpu_r mem_r disk_r l1_r fzero fzero.

Definition trend_message (r : PerformanceRecord.t) : PerformanceRecord.t :=
  let m := PerformanceRecord.set_timestamp (to_seconds (PerformanceRecord.timestamp r)) r in
  let 'PerformanceRecord.mk name ts cpu usr sys _ _ io _ _ l1 l3 l15 used _ _ _ disk sent recv
        score cpu_r mem_r disk_r l1_r _ _ := m in
  PerformanceRecord.mk name ts cpu usr sys fzero fzero io fzero fzero l1 l3 l15 used fzero fzero
    fzero disk sent recv score cpu_r mem_r disk_r l1_r fzero fzero.

Definition anomaly_message (r : AnomalyRecord) : AnomalyRecord :=
  mk_AnomalyRecord (a_server_name r) (to_seconds (a_timestamp r)) (anomaly_type r) (severity r)
    (a_value r) (a_threshold r) (metric_name r).

Definition summary_message (r : ServerScoreSummary) : ServerScoreSummary :=
  mk_ServerScoreSummary (s_server_name r) (s_score r) (to_seconds (last_updated r)) (status r)
    (s_cpu_percent r) (s_mem_used_percent r) (s_disk_util_percent r) (s_load_avg_1 r).

Definition net_message r :=
  NetDetailRecord.set_timestamp (to_seconds (NetDetailRecord.timestamp r)) r.
Definition disk_message r :=
  DiskDetailRecord.set_timestamp (to_seconds (DiskDetailRecord.timestamp r)) r.
Definition mem_message r :=
  MemDetailRecord.set_timestamp (to_seconds (MemDetailRecord.timestamp r)) r.
Definition softirq_message r :=
  SoftIrqDetailRecord.set_timestamp (to_seconds (SoftIrqDetailRecord.timestamp r)) r.
Definition mysql_message r :=
  MysqlDetailRecord.set_timestamp (to_seconds (MysqlDetailRecord.timestamp r)) r.
Definition redis_message r :=
  RedisDetailRecord.set_timestamp (to_seconds (RedisDetailRecord.timestamp r)) r.

(** A threshold of the request that is set, else the default. *)
Definition threshold_or (requested fallback : f32) : f32 :=
  if fgt requested fzero then requested else fallback.

Definition request_thresholds (q : AnomalyThreshold) : AnomalyThreshold :=
  let d := default_threshold in
  let pick (f : AnomalyThreshold -> f32) := threshold_or (f q) (f d) in
  mk_AnomalyThreshold (pick cpu_threshold) (pick memory_threshold) (pick disk_threshold)
    (pick change_rate_threshold) (pick mysql_connection_threshold)
    (pick mysql_replication_lag_threshold) (pick mysql_slow_query_rate_threshold)
    (pick mysql_lock_wait_rate_threshold) (pick mysql_buffer_pool_hit_threshold)
    (pick redis_connection_threshold) (pick redis_memory_threshold)
    (pick redis_hit_rate_threshold) (pick redis_replication_lag_threshold)
    (pick redis_slowlog_growth_threshold).

(** ** RedisCache *)

Module RedisCache.
(** [reachable]: the pool gives a connection and the command does not throw. *)
Record t := mk { entries : gmap string string; reachable : bool }.

Definition set (c : t) (key value : string) : bool * t :=
  if reachable c then (true, mk (<[key := value]> (entries c)) true) else (false, c).

Definition get (c : t) (key : string) : option string :=
  if reachable c then entries c !! key else None.
End RedisCache.

(** ** The handlers, inside the dispatcher *)

Section Handlers.
Variable ck : clock.
Variable mysql : nat -> statement -> stmt_run.
Variable sort_desc : list AnomalyRecord -> list AnomalyRecord.
(** The query manager, [None] for a null pointer, and its pool's answer. *)
Variables (queryManager : option manager) (connected : bool).

Definition uninitialized : Status := mk_Status UNAVAILABLE "Query manager not initialized".
Definition bad_range : Status := mk_Status INVALID_ARGUMENT range_error.

Definition ready_manager : option manager :=
  match queryManager with
  | Some m => if isInitialized m then Some m else None
  | None => None
  end.

(** The guards of a handler: an initialized manager, then the scope. *)
Definition with_scope {R} (requestScope : QueryScope) (empty : R)
    (k : manager -> QueryScope -> res (Status * R)) : res (Status * R) :=
  match ready_manager with
  | None => Done (uninitialized, empty)
  | Some m =>
      match convertQueryScope requestScope with
      | inl st => Done (st, empty)
      | inr sc => k m sc
      end
  end.

Definition with_range {R} (range : ProtoTimeRange) (empty : R)
    (k : TimeRange -> res (Status * R)) : res (Status * R) :=
  r ← convertTimeRange range;
  if validateTimeRange r then k r else Done (bad_range, empty).

(** The page, the query and the response. *)
Definition answer_page {A} (p : Pagination) (message : A -> A)
    (query : Z -> Z -> res (answer A)) : res (Status * PagedResponse A) :=
  let page := fix_page (page p) in
  let pageSize := fix_page_size (page_size p) in
  a ← query page pageSize;
  if negb (is_empty (error a)) then Done (queryErrorStatus (error a), empty_page)
  else Done (status_ok, mk_PagedResponse (map message (records a)) (totalCount a) page pageSize).

(** The seven handlers of one server over a time range. *)
Definition detail_handler {A} (message : A -> A)
    (query : manager -> bool -> QueryScope -> string -> TimeRange -> Z -> Z -> res (answer A))
    (request : QueryDetailRequest) : res (Status * PagedResponse A) :=
  with_scope (scope request) empty_page (fun m sc =>
    with_range (time_range request) empty_page (fun range =>
      answer_page (pagination request) message
        (query m connected sc (server_name request) range))).

Definition QueryPerformance := detail_handler performance_message (queryPerformanceRecords ck mysql).
Definition QueryNetDetail := detail_handler net_message (queryNetDetailRecords ck mysql).
Definition QueryDiskDetail := detail_handler disk_message (queryDiskDetailRecords ck mysql).
Definition QueryMemDetail := detail_handler mem_message (queryMemDetailRecords ck mysql).
Definition QuerySoftIrqDetail := detail_handler softirq_message (querySoftIrqDetailRecords ck mysql).
Definition QueryMysqlDetail := detail_handler mysql_message (queryMysqlDetailRecords ck mysql).
Definition QueryRedisDetail := detail_handler redis_message (queryRedisDetailRecords ck mysql).

Definition QueryAnomaly (request : QueryAnomalyRequest) : res (Status * PagedResponse AnomalyRecord) :=
  detail_handler anomaly_message
    (fun m c sc name range =>
       queryAnomalyRecords ck mysql sort_desc m c sc name range
         (request_thresholds (req_thresholds request)))
    (a_request request).

Definition QueryTrend (request : QueryTrendRequest) : res (Status * QueryTrendResponse) :=
  let empty := mk_QueryTrendResponse [] 0 in
  with_scope (t_scope request) empty (fun m sc =>
    with_range (t_time_range request) empty (fun range =>
      a ← queryTrend ck mysql m connected sc (t_server_name request) range (interval_seconds request);
      if negb (is_empty (error a)) then Done (queryErrorStatus (error a), empty)
      else Done (status_ok, mk_QueryTrendResponse (map trend_message (records a))
                              (interval_seconds request)))).

Definition QueryScoreRank (request : QueryScoreRankRequest)
    : res (Status * PagedResponse ServerScoreSummary) :=
  with_scope (r_scope request) empty_page (fun m sc =>
    answer_page (r_pagination request) summary_message
      (queryServerScoreRank ck mysql m connected sc (r_order request))).

(** The latest scores, through the cache: protobuf's [SerializeToString] and
    [ParseFromString] are [serialize] and [parse].  The scope is checked before
    the manager here. *)
Variables (serialize : QueryLatestScoreResponse -> option string)
          (parse : string -> option QueryLatestScoreResponse).

Definition no_scores : QueryLatestScoreResponse := mk_QueryLatestScoreResponse [] None.

Definition cached_scores (cache : option RedisCache.t) (key : string)
    : option QueryLatestScoreResponse :=
  c ← cache; text ← RedisCache.get c key; parse text.

Definition store_scores (cache : option RedisCache.t) (key : string)
    (response : QueryLatestScoreResponse) : option RedisCache.t :=
  match cache, serialize response with
  | Some c, Some text => Some (RedisCache.set c key text).2
  | _, _ => cache
  end.

Definition QueryLatestScore (requestScope : QueryScope) (cache : option RedisCache.t)
    : res (Status * QueryLatestScoreResponse * option RedisCache.t) :=
  match convertQueryScope requestScope with
  | inl st => Done (st, no_scores, cache)
  | inr sc =>
      match ready_manager with
      | None => Done (uninitialized, no_scores, cache)
      | Some m =>
          let cacheKey := latestScoreCacheKey sc in
          match cached_scores cache cacheKey with
          | Some response => Done (status_ok, response, cache)
          | None =>
              '(a, st) ← queryLatestServerScores ck mysql m connected sc;
              if negb (is_empty (error a)) then Done (queryErrorStatus (error a), no_scores, cache)
              else
                let response := mk_QueryLatestScoreResponse (map summary_message (records a)) st in
                Done (status_ok, response, store_scores cache cacheKey response)
          end
      end
  end.
End Handlers.

(** ** Handing over to the dispatcher *)

(** What the worker's task gives: the handler's result, or its exception, whose
    text is [what]. *)
Definition task_outcome {R} (what : string) (r : res (Status * R)) : res (Submit.outcome R) :=
  match r with
  | Done (st, response) => Done (Submit.Returned st response)
  | Throws => Done (Submit.Threw what)
  | Undefined => Undefined
  end.

(** A call on a gRPC thread with a dispatcher: [sizes] and [enqueued] are the
    readings of the queue, [in_time] whether the task ends before the timeout. *)
Definition dispatchQuery {R} (cfg : ManagerConfig) (sizes : Z * Z) (enqueued in_time : bool)
    (what : string) (handler : res (Status * R)) (response : option R) (m : ManagerMetrics)
    : res (Status * option R * ManagerMetrics) :=
  o ← task_outcome what handler;
  mret (Submit.submitQueryTask cfg
          (Submit.mk_observation sizes.1 sizes.2 enqueued (if in_time then Some o else None))
          response m).

(** ** The cache of the latest scores *)

Definition colon : ascii := ascii_of_nat 58.
Definition colon_free (s : string) : bool := str_all (fun c => negb (Ascii.eqb c colon)) s.

Lemma split_at_colon a : forall b x y,
  colon_free a = true -> colon_free b = true ->
  a +++ ":" +++ x = b +++ ":" +++ y -> a = b /\ x = y.
Proof.
  induction a as [|c a IH]; intros [|d b] x y Ha Hb H.
  - change (String colon x = String colon y) in H. by injection H as ->.
  - change (String colon x = String d (b +++ ":" +++ y)) in H. by injection H as <- _.
  - change (String c (a +++ ":" +++ x) = String colon y) in H. by injection H as -> _.
  - change (String c (a +++ ":" +++ x) = String d (b +++ ":" +++ y)) in H.
    injection H as -> H. cbn in Ha, Hb. apply andb_true_iff in Ha as [_ Ha], Hb as [_ Hb].
    by destruct (IH _ _ _ Ha Hb H) as [-> ->].
Qed.

(** The cache key tells any two scopes apart whose tenant and team contain no
    colon (the cluster may). *)
Theorem cache_key_separates_scopes s1 s2 :
  colon_free (tenant_id s1) = true -> colon_free (team_id s1) = true ->
  colon_free (tenant_id s2) = true -> colon_free (team_id s2) = true ->
  s1 <> s2 -> latestScoreCacheKey s1 <> latestScoreCacheKey s2.
Proof.
  destruct s1 as [t1 m1 c1], s2 as [t2 m2 c2]. intros H1 H2 H3 H4 Hne H. apply Hne.
  unfold latestScoreCacheKey in H. cbn [tenant_id team_id cluster_id] in *.
  apply (inj (String.append _)) in H. apply split_at_colon in H as [-> H]; [|done..].
  by apply split_at_colon in H as [-> ->].
Qed.

Lemma cache_key_separates_scopes_witness :
  let key c := latestScoreCacheKey (mk_QueryScope "acme" "web" c) in key "eu:1" <> key "us:1".
Proof.
  intros key. apply (cache_key_separates_scopes (mk_QueryScope "acme" "web" "eu:1")
                       (mk_QueryScope "acme" "web" "us:1")); [reflexivity..|congruence].
Defined.

(** The response that the rows of the latest scores give. *)
Definition scores_response (ck : clock) (rows : list (list (option string)))
    : QueryLatestScoreResponse :=
  let recs := map (server_summary ck (now ck)) (map (map fetch_cell) rows) in
  mk_QueryLatestScoreResponse (map summary_message recs) (Some (cluster_stats recs)).

Section Leak.
Variables (serialize : QueryLatestScoreResponse -> option string)
          (parse : string -> option QueryLatestScoreResponse).

Lemma first_query_fills_cache ck mysql sc rows text :
  (forall i st, mysql i st = Fetched rows None) ->
  tenant_id sc <> "" -> team_id sc <> "" -> serialize (scores_response ck rows) = Some text ->
  QueryLatestScore ck mysql (Some ready) true serialize parse sc (Some (RedisCache.mk ∅ true)) =
    Done (status_ok, scores_response ck rows,
          Some (RedisCache.mk {[ latestScoreCacheKey sc := text ]} true)).
Proof using.
  intros Hdb Ht Hm Hs. apply is_empty_false in Ht, Hm.
  assert (Hq : queryLatestServerScores ck mysql ready true sc =
    Done (mk_answer (map (server_summary ck (now ck)) (map (map fetch_cell) rows)) 0 "",
          stats (scores_response ck rows))).
  { unfold queryLatestServerScores, guarded, with_rows, validateQueryScope. cbn.
    by rewrite Ht, Hm, Hdb. }
  unfold QueryLatestScore, convertQueryScope. rewrite Ht, Hm.
  cbn -[queryLatestServerScores latestScoreCacheKey]. rewrite lookup_empty.
  cbn -[queryLatestServerScores latestScoreCacheKey]. rewrite Hq.
  cbn [error is_empty negb mbind res_bind records].
  change (mk_QueryLatestScoreResponse _ _) with (scores_response ck rows).
  unfold store_scores. rewrite Hs. cbn -[latestScoreCacheKey]. by rewrite insert_empty.
Qed.

Lemma second_query_hits_cache ck mysql sc key text response :
  tenant_id sc <> "" -> team_id sc <> "" -> key = latestScoreCacheKey sc ->
  parse text = Some response ->
  let cache := Some (RedisCache.mk {[ key := text ]} true) in
  QueryLatestScore ck mysql (Some ready) true serialize parse sc cache =
    Done (status_ok, response, cache).
Proof using.
  intros Ht Hm -> Hp cache. apply is_empty_false in Ht, Hm.
  unfold QueryLatestScore, convertQueryScope. rewrite Ht, Hm.
  cbn -[latestScoreCacheKey]. rewrite lookup_singleton_eq. cbn -[latestScoreCacheKey]. by rewrite Hp.
Qed.

(** C11. With a colon in a tenant, team or cluster two scopes of different tenants
    can have the same key: the scores that the query of one tenant puts into
    the cache are then returned, with status OK, to the other one, whatever its
    own rows are ([parse] reads back what [serialize] wrote). *)
Theorem cached_scores_cross_tenants ck mysql mysql' rows text :
  (forall i st, mysql i st = Fetched rows None) ->
  serialize (scores_response ck rows) = Some text ->
  parse text = Some (scores_response ck rows) ->
  let mine := mk_QueryScope "acme" "web" "eu:west" in
  let theirs := mk_QueryScope "acme:web" "eu" "west" in
  exists cache,
    QueryLatestScore ck mysql (Some ready) true serialize parse mine
      (Some (RedisCache.mk ∅ true)) = Done (status_ok, scores_response ck rows, cache) /\
    QueryLatestScore ck mysql' (Some ready) true serialize parse theirs cache =
      Done (status_ok, scores_response ck rows, cache).
Proof using.
  intros Hdb Hs Hp mine theirs. eexists. split; [by apply first_query_fills_cache|].
  by apply second_query_hits_cache.
Qed.
End Leak.

Definition one_row : list (list (option string)) :=
  [[Some "db-1"; Some "87.5"; Some "t"; Some "1"; Some "2"; Some "3"; Some "0.5"]].

Lemma cached_scores_cross_tenants_witness :
  let serialize _ := Some "bytes" in
  let parse _ := Some (scores_response a_clock one_row) in
  exists cache,
    QueryLatestScore a_clock (fun _ _ => Fetched one_row None) (Some ready) true serialize parse
      (mk_QueryScope "acme" "web" "eu:west") (Some (RedisCache.mk ∅ true)) =
      Done (status_ok, scores_response a_clock one_row, cache) /\
    QueryLatestScore a_clock empty_db (Some ready) true serialize parse
      (mk_QueryScope "acme:web" "eu" "west") cache =
      Done (status_ok, scores_response a_clock one_row, cache).
Proof.
  intros serialize parse.
  by apply (cached_scores_cross_tenants serialize parse a_clock (fun _ _ => Fetched one_row None)
    empty_db one_row "bytes").
Defined.

(** ** The statuses of the handlers *)

Section Statuses.
Variable ck : clock.
Context {A : Type}.
Variable message : A -> A.
Variable query : manager -> bool -> QueryScope -> string -> TimeRange -> Z -> Z -> res (answer A).

(** The request names a tenant and a team. *)
Definition named (sc : QueryScope) : Prop := tenant_id sc <> "" /\ team_id sc <> "".

Lemma convertQueryScope_cases sc :
  (convertQueryScope sc = inr sc /\ named sc) \/
  (exists st, convertQueryScope sc = inl st /\ error_code st = UNAUTHENTICATED /\ ~ named sc).
Proof using.
  unfold convertQueryScope, named.
  destruct (is_empty (tenant_id sc)) eqn:E1; [|destruct (is_empty (team_id sc)) eqn:E2]; cbn.
  - right. eexists. split_and!; [done..|]. intros [H _]. by apply is_empty_false in H; rewrite H in E1.
  - right. eexists. split_and!; [done..|]. intros [_ H]. by apply is_empty_false in H; rewrite H in E2.
  - left. apply is_empty_false in E1, E2. done.
Qed.

(** What a handler over a time range can answer: UNAVAILABLE when there is no
    initialized manager, else UNAUTHENTICATED without a tenant or a team, else
    INVALID_ARGUMENT for a range that ends before it starts, with no records in
    these cases; else the query's error as UNAVAILABLE or INTERNAL, or OK with
    exactly the query's records and count for the page and the page size it
    shows, which are those of the request, 1 and 100 for those below 1.  It throws
    only if the query throws, and is undefined only if a time stamp does not fit
    the clock or the query is. *)
Theorem detail_handler_answers queryManager connected (q : QueryDetailRequest) :
  match detail_handler queryManager connected message query q with
  | Done (st, response) =>
      (ready_manager queryManager = None /\ error_code st = UNAVAILABLE /\ response = empty_page) \/
      exists m, ready_manager queryManager = Some m /\
        ((~ named (scope q) /\ error_code st = UNAUTHENTICATED /\ response = empty_page) \/
         (named (scope q) /\ exists range, convertTimeRange (time_range q) = Done range /\
           ((end_time range < start_time range /\ error_code st = INVALID_ARGUMENT /\
             response = empty_page) \/
            (start_time range <= end_time range /\ exists a,
               query m connected (scope q) (server_name q) range
                 (fix_page (page (pagination q))) (fix_page_size (page_size (pagination q))) = Done a /\
               ((error a <> "" /\ (error_code st = UNAVAILABLE \/ error_code st = INTERNAL) /\
                 response = empty_page) \/
                (error a = "" /\ st = status_ok /\
                 resp_records response = map message (records a) /\
                 total_count response = totalCount a /\
                 resp_page response = Z.max 1 (page (pagination q)) /\
                 resp_page_size response =
                   (if page_size (pagination q) <? 1 then 100 else page_size (pagination q))))))))
  | Throws => exists m range p ps,
      query m connected (scope q) (server_name q) range p ps = Throws
  | Undefined =>
      convertTimeRange (time_range q) = Undefined \/ exists m range p ps,
      query m connected (scope q) (server_name q) range p ps = Undefined
  end.
Proof using.
  unfold detail_handler, with_scope.
  destruct (ready_manager queryManager) as [m|]; [|by left].
  destruct (convertQueryScope_cases (scope q)) as [[-> Hn]|(st & -> & Hst & Hn)].
  2: { right. exists m. split; [done|]. by left. }
  unfold with_range. destruct (convertTimeRange (time_range q)) as [range| |] eqn:Er; cbn; [| |by left].
  2: { unfold convertTimeRange, from_time_t in Er. repeat case_match; cbn in Er; done. }
  unfold validateTimeRange. destruct (Z.leb_spec (start_time range) (end_time range)) as [Hle|Hgt].
  2: { right. exists m. split; [done|]. right. split; [done|]. exists range. split; [done|]. by left. }
  unfold answer_page.
  destruct (query _ _ _ _ _ _ _) as [a| |] eqn:Eq; cbn; [|by eauto|by eauto 10].
  destruct (is_empty (error a)) eqn:Ee; cbn;
    (right; exists m; split; [done|]; right; split; [done|]; exists range; split; [done|];
     right; split; [done|]; exists a; split; [done|]).
  - right. split; [by destruct (error a)|]. split_and!; try done.
    cbn. unfold fix_page. break_if; to_props; lia.
  - left. apply is_empty_false in Ee. split; [done|]. split; [|done].
    unfold queryErrorStatus. destruct (_ || _); auto.
Qed.
End Statuses.

(** ** The pages of the seven handlers over a time range *)

Section DetailPages.
Variable ck : clock.
Variable mysql : nat -> statement -> stmt_run.

Definition stored_row : Type := list (option string).

(** What MySQL answers about the [rows] of a table that a request selects: their
    number; and for LIMIT and OFFSET that part of them in some order that has
    the newest first, as [order] says.  Rows with equal times may come in another
    order for each statement. *)
Definition selects (table : string) (cs : list string) (sc : QueryScope) (name : string)
    (range : TimeRange) (rows : list stored_row) (order : Z -> Z -> list stored_row) : Prop :=
  mysql 0 (count_statement ck table sc name range) =
    Fetched [[Some (to_string (Z.of_nat (length rows)))]] None /\
  forall limit offset, 0 <= limit -> 0 <= offset ->
    order limit offset ≡ₚ rows /\
    mysql 1 (page_statement ck table cs sc name range limit offset) =
      Fetched (take (Z.to_nat limit) (drop (Z.to_nat offset) (order limit offset))) None.

(** The request for one page. *)
Definition at_page (p ps : Z) (q : QueryDetailRequest) : QueryDetailRequest :=
  mk_QueryDetailRequest (server_name q) (time_range q) (mk_Pagination p ps) (scope q).

(** A handler serves the pages of a table: [value] is what it makes of a row.
    For a page and a size (1 and 100 for those below 1) it answers that page and
    the number of all rows; and when the server keeps one order, the pages in
    turn are all rows, each once. *)
Definition serves_pages {A} (handler : QueryDetailRequest -> res (Status * PagedResponse A))
    (table : string) (cs : list string) (read : row -> res A) (message : A -> A) : Prop :=
  forall q range rows order (value : stored_row -> A),
    named (scope q) -> convertTimeRange (time_range q) = Done range ->
    start_time range <= end_time range ->
    selects table cs (scope q) (server_name q) range rows order ->
    Forall (fun r => read (map fetch_cell r) = Done (value r)) rows ->
    Z.of_nat (length rows) <= INT_MAX ->
    (forall p ps, let pg := Z.max 1 p in let size := if ps <? 1 then 100 else ps in
       let offset := (pg - 1) * size in
       offset <= INT_MAX ->
       handler (at_page p ps q) =
         Done (status_ok,
               mk_PagedResponse
                 (map (fun r => message (value r))
                    (take (Z.to_nat size) (drop (Z.to_nat offset) (order size offset))))
                 (Z.of_nat (length rows)) pg size)) /\
    (forall ps, (forall limit offset, order limit offset = rows) -> 1 <= ps ->
       Z.of_nat (length rows) + ps <= INT_MAX ->
       exists responses,
         mapM (fun k => handler (at_page (Z.of_nat k + 1) ps q)) (seq 0 (page_count rows ps)) =
           Done (map (fun r => (status_ok, r)) responses) /\
         concat (map resp_records responses) = map (fun r => message (value r)) rows).

Lemma mapM_read {A} (read : row -> res A) (value : stored_row -> A) rows :
  Forall (fun r => read (map fetch_cell r) = Done (value r)) rows ->
  mapM read (map (map fetch_cell) rows) = Done (map value rows).
Proof using. induction 1 as [|r rows Hr _ IH]; [done|]. cbn. by rewrite Hr; cbn; rewrite IH. Qed.

Lemma count_read n context :
  0 <= n <= INT_MAX -> executePreparedCount (Fetched [[Some (to_string n)]] None) context = inr n.
Proof using.
  intros Hn. unfold executePreparedCount. cbn [executePreparedRows map fetch_cell].
  rewrite substring_all, atoi_to_string; [done|done|].
  apply (Nat.le_trans _ 32); [by apply length_int_to_string|]. apply Nat.leb_le. reflexivity.
Qed.

(** One page. *)
Lemma paged_page {A} table context cs (read : row -> res A) message m q range rows order value p ps :
  isInitialized m = true ->
  named (scope q) -> convertTimeRange (time_range q) = Done range -> start_time range <= end_time range ->
  selects table cs (scope q) (server_name q) range rows order ->
  Forall (fun r => read (map fetch_cell r) = Done (value r)) rows ->
  Z.of_nat (length rows) <= INT_MAX ->
  let pg := Z.max 1 p in let size := if ps <? 1 then 100 else ps in
  let offset := (pg - 1) * size in
  offset <= INT_MAX ->
  detail_handler (Some m) true message
    (fun m c => paged_query ck mysql m c table context cs read) (at_page p ps q) =
    Done (status_ok,
          mk_PagedResponse
            (map (fun r => message (value r))
               (take (Z.to_nat size) (drop (Z.to_nat offset) (order size offset))))
            (Z.of_nat (length rows)) pg size).
Proof using.
  intros Hm Hn Hr Hle [Hc Hp] Hread Hlen pg size offset Hoff.
  assert (Hpg : fix_page p = pg) by (unfold fix_page, pg; break_if; to_props; lia).
  assert (Hsz : fix_page_size ps = size) by done.
  assert (H1 : 1 <= size) by (unfold size; break_if; to_props; lia).
  unfold detail_handler, with_scope, ready_manager, at_page. rewrite Hm.
  destruct (convertQueryScope_cases (scope q)) as [[E _]|(st & _ & _ & Hno)]; [|by destruct Hno].
  cbn [scope]. rewrite E. unfold with_range. cbn [time_range]. rewrite Hr.
  cbn [mbind res_bind]. assert (Hv : validateTimeRange range = true) by by apply Z.leb_le.
  rewrite Hv. unfold answer_page. cbn [pagination page page_size]. rewrite Hpg, Hsz.
  unfold paged_query, guarded, acquireConnection. unfold isInitialized in Hm.
  apply andb_true_iff in Hm as [-> ->]. cbn [negb orb server_name].
  destruct Hn as [Ht Htm]. unfold validateQueryScope. apply is_empty_false in Ht, Htm. rewrite Ht, Htm, Hv.
  assert (Hpg' : fix_page pg = pg) by (unfold fix_page; rewrite (proj2 (Z.ltb_ge _ _)); unfold pg; lia).
  assert (Hsz' : fix_page_size size = size) by (unfold fix_page_size; rewrite (proj2 (Z.ltb_ge _ _)); lia).
  rewrite Hpg', Hsz'. unfold with_count. rewrite Hc, count_read by lia.
  assert (H0 : 0 <= offset) by (unfold offset, pg; nia).
  unfold page_offset. fold offset. rewrite (proj2 (i32_checked_Some offset offset)) by (split; [done|wrap_unfold; lia]).
  cbn [or_undefined mbind res_bind]. destruct (Hp size offset ltac:(lia) H0) as [Hperm Hrows].
  unfold with_rows. rewrite Hrows. cbn [executePreparedRows]. rewrite (mapM_read read value).
  - cbn [orb mbind res_bind error is_empty negb records totalCount]. by rewrite map_map.
  - apply Forall_take, Forall_drop. by rewrite Hperm.
Qed.

Lemma serves_paged {A} table context cs (read : row -> res A) message m :
  isInitialized m = true ->
  serves_pages (detail_handler (Some m) true message
    (fun m c => paged_query ck mysql m c table context cs read)) table cs read message.
Proof using.
  intros Hm q range rows order value Hn Hr Hle Hs Hread Hlen. split.
  { intros p ps pg size offset Hoff. by apply (paged_page _ _ _ _ _ _ _ range rows order value). }
  intros ps Hord Hps Hsum.
  set (page_at k := mk_PagedResponse
    (map (fun r => message (value r)) (take (Z.to_nat ps) (drop (k * Z.to_nat ps) rows)))
    (Z.of_nat (length rows)) (Z.of_nat k + 1) ps).
  assert (Hdiv := Z.div_mod (Z.of_nat (length rows) + ps - 1) ps ltac:(lia)).
  assert (Hmod := Z.mod_pos_bound (Z.of_nat (length rows) + ps - 1) ps ltac:(lia)).
  assert (Hpos := Z.div_pos (Z.of_nat (length rows) + ps - 1) ps ltac:(lia) ltac:(lia)).
  exists (map page_at (seq 0 (page_count rows ps))). split.
  - assert (H : forall ks, Forall (fun k => Z.of_nat k * ps < Z.of_nat (length rows)) ks ->
      mapM (fun k => detail_handler (Some m) true message
          (fun m c => paged_query ck mysql m c table context cs read) (at_page (Z.of_nat k + 1) ps q)) ks =
        Done (map (fun r => (status_ok, r)) (map page_at ks))).
    { induction ks as [|k ks IH]; intros Hks; [done|]. apply Forall_cons in Hks as [Hk Hks]. cbn [mapM map].
      pose proof (paged_page table context cs read message m q range rows order value (Z.of_nat k + 1) ps
        Hm Hn Hr Hle Hs Hread Hlen) as E. cbv zeta in E.
      rewrite (proj2 (Z.ltb_ge ps 1)), Z.max_r in E by lia. rewrite E by nia. cbn [mbind res_bind].
      rewrite IH by done. cbn [mbind res_bind]. rewrite Hord. unfold page_at at 2.
      by replace (Z.to_nat ((Z.of_nat k + 1 - 1) * ps)) with (k * Z.to_nat ps)%nat by lia. }
    apply H, Forall_forall. intros k Hk%elem_of_seq. unfold page_count in Hk. nia.
  - rewrite map_map. cbn [page_at resp_records]. unfold page_at. cbn [resp_records].
    rewrite <- (map_map (fun k => take (Z.to_nat ps) (drop (k * Z.to_nat ps) rows)) (map (fun r => message (value r)))).
    rewrite <- concat_map. f_equal. apply chunks_concat. unfold page_count. nia.
Qed.
End DetailPages.

(** C12. The seven handlers over a time range serve the pages of their tables.
    For a request with a tenant, a team and a valid range, the answer is OK with
    exactly the rows of the page asked for, in the order the server gives them,
    each as its message, with the number of all rows, the page and the page size
    (1 and 100 for those below 1).  While the server keeps one order, a client
    that asks for the pages in turn gets every row exactly once. *)
Theorem detail_handlers_serve_pages ck mysql m :
  isInitialized m = true ->
  serves_pages ck mysql (QueryPerformance ck mysql (Some m) true) "server_performance" performance_select
    (fun r => Done (PerformanceRecord.read ck r)) performance_message /\
  serves_pages ck mysql (QueryNetDetail ck mysql (Some m) true) "server_net_detail" net_select
    (NetDetailRecord.read ck) net_message /\
  serves_pages ck mysql (QueryDiskDetail ck mysql (Some m) true) "server_disk_detail" disk_select
    (fun r => Done (DiskDetailRecord.read ck r)) disk_message /\
  serves_pages ck mysql (QueryMemDetail ck mysql (Some m) true) "server_mem_detail" mem_select
    (fun r => Done (MemDetailRecord.read ck r)) mem_message /\
  serves_pages ck mysql (QuerySoftIrqDetail ck mysql (Some m) true) "server_softirq_detail" softirq_select
    (SoftIrqDetailRecord.read ck) softirq_message /\
  serves_pages ck mysql (QueryMysqlDetail ck mysql (Some m) true) "server_mysql_detail" mysql_select
    (MysqlDetailRecord.read ck) mysql_message /\
  serves_pages ck mysql (QueryRedisDetail ck mysql (Some m) true) "server_redis_detail" redis_select
    (RedisDetailRecord.read ck) redis_message.
Proof. intros Hm. split_and!; by apply serves_paged. Qed.

Definition disk_row (d : string) : stored_row :=
  [Some "db-1"; Some d; Some "2024-05-01 10:00:00"; Some "1"; Some "2"; Some "3"; Some "4"; Some "5";
   Some "6"; Some "7"].

(** A server that holds the rows, in the order [order] for each page. *)
Definition disks_db (n : Z) (order : Z -> Z -> list stored_row) (i : nat) (st : statement) : stmt_run :=
  match i, rev (snd st) with
  | O, _ => Fetched [[Some (to_string n)]] None
  | _, intParam o :: intParam l :: _ =>
      Fetched (take (Z.to_nat l) (drop (Z.to_nat o) (order l o))) None
  | _, _ => NoMetadata
  end.

Lemma disks_db_selects n order ck cs sc name range rows :
  n = Z.of_nat (length rows) -> (forall l o, order l o ≡ₚ rows) ->
  selects ck (disks_db n order) "server_disk_detail" cs sc name range rows order.
Proof.
  intros -> Ho. split; [done|]. intros l o _ _. split; [apply Ho|]. unfold disks_db, page_statement.
  cbn [snd]. by rewrite rev_app_distr.
Qed.

Definition disks_query : QueryDetailRequest :=
  mk_QueryDetailRequest "db-1" (mk_ProtoTimeRange 0 4000000000) (mk_Pagination 1 1)
    (mk_QueryScope "acme" "web" "").

Definition disks_seen (rows : list stored_row) (order : Z -> Z -> list stored_row) (pages : nat)
    (ps : Z) : res (list (list string)) :=
  mapM (fun k =>
    r ← QueryDiskDetail a_clock (disks_db (Z.of_nat (length rows)) order) (Some ready) true
          (at_page (Z.of_nat k + 1) ps disks_query);
    mret (map DiskDetailRecord.disk_name (resp_records (snd r)))) (seq 0 pages).

Lemma detail_handlers_serve_pages_witness :
  let rows := map disk_row ["sdc"; "sdb"; "sda"] in
  let handler := QueryDiskDetail a_clock (disks_db 3 (fun _ _ => rows)) (Some ready) true in
  let value r := DiskDetailRecord.read a_clock (map fetch_cell r) in
  handler (at_page 2 2 disks_query) =
    Done (status_ok, mk_PagedResponse [disk_message (value (disk_row "sda"))] 3 2 2) /\
  exists responses,
    mapM (fun k => handler (at_page (Z.of_nat k + 1) 2 disks_query)) (seq 0 2) =
      Done (map (fun r => (status_ok, r)) responses) /\
    concat (map resp_records responses) = map (fun r => disk_message (value r)) rows.
Proof.
  intros rows handler value.
  destruct (detail_handlers_serve_pages a_clock (disks_db 3 (fun _ _ => rows)) ready eq_refl)
    as (_ & _ & H & _).
  destruct (H disks_query _ rows (fun _ _ => rows) value ltac:(done) eq_refl ltac:(done)
    ltac:(by apply disks_db_selects) ltac:(repeat constructor) ltac:(done)) as [H1 H2].
  split; [exact (H1 2 2 ltac:(done))|]. exact (H2 2 ltac:(done) ltac:(done) ltac:(done)).
Defined.

(** Without the one order the pages in turn are not all rows: rows are ordered by
    their time alone, and the disks of one sample share it. *)
Theorem tied_rows_can_be_missed :
  let rows := map disk_row ["sda"; "sdb"] in
  exists order, (forall l o, order l o ≡ₚ rows) /\
    disks_seen rows order 2 1 = Done [["sda"]; ["sda"]].
Proof.
  intros rows. exists (fun _ o => if o =? 0 then rows else rev rows). split; [|by vm_compute].
  intros l o. destruct (o =? 0); [done|]. symmetry. apply Permutation_rev.
Qed.

(** ** The handlers over two databases

    The scope that a handler queries is the one of the request, so that handlers
    reply alike on databases which answer the statements of that scope alike. *)

Section Replies.
Variable ck : clock.
Variables (queryManager : option manager) (connected : bool) (sc : QueryScope).
Variables mysql mysql' : nat -> statement -> stmt_run.
Variables (serialize : QueryLatestScoreResponse -> option string)
          (parse : string -> option QueryLatestScoreResponse).

(** The eleven handlers reply alike to the requests of the scope. *)
Definition same_replies (sort : list AnomalyRecord -> list AnomalyRecord) : Prop :=
  (forall q, scope q = sc ->
    QueryPerformance ck mysql queryManager connected q =
      QueryPerformance ck mysql' queryManager connected q /\
    QueryNetDetail ck mysql queryManager connected q =
      QueryNetDetail ck mysql' queryManager connected q /\
    QueryDiskDetail ck mysql queryManager connected q =
      QueryDiskDetail ck mysql' queryManager connected q /\
    QueryMemDetail ck mysql queryManager connected q =
      QueryMemDetail ck mysql' queryManager connected q /\
    QuerySoftIrqDetail ck mysql queryManager connected q =
      QuerySoftIrqDetail ck mysql' queryManager connected q /\
    QueryMysqlDetail ck mysql queryManager connected q =
      QueryMysqlDetail ck mysql' queryManager connected q /\
    QueryRedisDetail ck mysql queryManager connected q =
      QueryRedisDetail ck mysql' queryManager connected q) /\
  (forall q, scope (a_request q) = sc ->
    QueryAnomaly ck mysql sort queryManager connected q =
      QueryAnomaly ck mysql' sort queryManager connected q) /\
  (forall q, t_scope q = sc ->
    QueryTrend ck mysql queryManager connected q = QueryTrend ck mysql' queryManager connected q) /\
  (forall q, r_scope q = sc ->
    QueryScoreRank ck mysql queryManager connected q =
      QueryScoreRank ck mysql' queryManager connected q) /\
  (forall cache,
    QueryLatestScore ck mysql queryManager connected serialize parse sc cache =
      QueryLatestScore ck mysql' queryManager connected serialize parse sc cache).

(** The continuation of the guards is only called with the request's scope. *)
Lemma with_scope_ext {R} requested (empty : R) k k' :
  (forall m, k m requested = k' m requested) ->
  with_scope queryManager requested empty k = with_scope queryManager requested empty k'.
Proof using.
  intros Hk. unfold with_scope, convertQueryScope.
  destruct (ready_manager queryManager); [|done]. by destruct (_ || _).
Qed.

Lemma with_range_ext {R} range (empty : R) k k' :
  (forall r, k r = k' r) -> with_range range empty k = with_range range empty k'.
Proof using.
  intros Hk. unfold with_range. destruct (convertTimeRange range) as [r| |]; cbn; [|done..].
  by destruct (validateTimeRange r).
Qed.

Lemma answer_page_ext {A} p (message : A -> A) query query' :
  (forall page size, query page size = query' page size) ->
  answer_page p message query = answer_page p message query'.
Proof using. intros Hq. unfold answer_page. by rewrite Hq. Qed.

Lemma detail_handler_ext {A} (message : A -> A) query query' q :
  (forall m server range page size,
    query m connected (scope q) server range page size =
    query' m connected (scope q) server range page size) ->
  detail_handler queryManager connected message query q =
  detail_handler queryManager connected message query' q.
Proof using.
  intros Hq. apply with_scope_ext. intros m. apply with_range_ext. intros range.
  by apply answer_page_ext.
Qed.

Lemma handlers_agree sort : agree_on (issued ck sc) mysql mysql' -> same_replies sort.
Proof using.
  intros Ha.
  assert (Hq : forall m, same_answers ck m connected sc mysql mysql' sort)
    by (intros; by apply queries_agree).
  split_and!.
  - intros q E. split_and!; apply detail_handler_ext; intros m; rewrite E; apply (Hq m).
  - intros q E. apply detail_handler_ext. intros m. rewrite E. intros. apply (Hq m).
  - intros q E. apply with_scope_ext. intros m. apply with_range_ext. intros range.
    rewrite E. destruct (Hq m) as (_ & -> & _). done.
  - intros q E. apply with_scope_ext. intros m. apply answer_page_ext. rewrite E. apply (Hq m).
  - intros cache. unfold QueryLatestScore, convertQueryScope. destruct (_ || _); [done|].
    destruct (ready_manager queryManager) as [m|]; [|done].
    by destruct (Hq m) as (_ & _ & _ & _ & -> & _).
Qed.
End Replies.

(** ** The cache over the pool is such a map

    At one moment the keys that have not expired are the entries, and the cache
    is reachable when the call gets a connection and its command does not throw. *)

From S2P Require Import Pools Guards ScoreCache.

Section CacheRefinement.
Context {server : Type} `{RedisServerLaws server}.

(** [m]: what the server answers at [now]. *)
Definition seen_at (now : Z) (c : cache server) (m : gmap string string) : Prop :=
  forall key, m !! key = redis_get now key (redis c).

Lemma score_cache_get_refines now key (c : cache server) m :
  seen_at now c m ->
  let '(v, c') := get now key c in
  seen_at now c' m /\ exists reachable, v = RedisCache.get (RedisCache.mk m reachable) key.
Proof.
  intros Hm. pose proof (get_server now key c) as [Hv Hs]. destruct (get now key c) as [v c'].
  cbn [fst snd] in *. split; [intros k; rewrite Hs; apply Hm|].
  destruct Hv as [->| ->]; [by exists false|]. exists true. cbn. by rewrite Hm.
Qed.

Lemma seen_setex ttl now key value (c c' : cache server) m :
  0 < ttl -> seen_at now c m -> redis c' = setex now ttl key value (redis c) ->
  seen_at now c' (<[key := value]> m).
Proof.
  intros Ht Hm Hc k. rewrite Hc. destruct (decide (key = k)) as [->|Hne].
  - rewrite lookup_insert_eq, get_setex. by rewrite (proj2 (Z.ltb_lt _ _)) by lia.
  - rewrite lookup_insert_ne, get_setex_ne by done. apply Hm.
Qed.

Lemma score_cache_set_refines ttl now key value (c : cache server) m :
  0 < ttl -> seen_at now c m ->
  let '(b, c') := set ttl now key value c in
  exists m' reachable, RedisCache.set (RedisCache.mk m reachable) key value = (b, RedisCache.mk m' reachable) /\
    seen_at now c' m'.
Proof.
  intros Ht Hm. unfold set, send_set.
  pose proof (with_connection_server now (fun s => (tt, setex now ttl key value s)) c) as Hs.
  destruct (with_connection _ _ _) as [[[]| |] c'].
  - exists (<[key := value]> m), true. split; [done|]. injection Hs as Hs. by eapply seen_setex.
  - exists m, false. split; [done|]. intros k. by rewrite Hs.
  - exists m, false. split; [done|]. intros k. by rewrite Hs.
Qed.

(** A command that threw and is executed after all changes the map between the
    calls, as a [set] that succeeds does. *)
Lemma score_cache_late_refines ttl now key value (c : cache server) m :
  0 < ttl -> seen_at now c m -> seen_at now (execute_late ttl now key value c) (<[key := value]> m).
Proof. intros Ht Hm. by eapply seen_setex. Qed.
End CacheRefinement.
