(* ===== verification/ScopeTests.v ===== *)
(** * ScopeTests: the repository's tests of identities and scopes

    [src/tests/manager_scope_tests.cpp] on the model: each test function as a
    boolean over the modelled components, and [main] with its exit code.  That
    they pass is a check of the model against the expectations the authors
    wrote down. *)

From S2P Require Import Prelude CFloat CString Messages ManagerConfig Dispatcher Grpc HostManager GrpcServer QueryRecords QueryManager QueryService.

Definition makeMonitorInfo : MonitorInfo.t :=
  MonitorInfo.set_host_info (Some (HostInfo.mk "unit-host" "127.0.0.1"))
    (MonitorInfo.set_name "unit-host" MonitorInfo.empty).

Definition expectStatus (status : Status) (code : StatusCode) : bool :=
  bool_decide (error_code status = code).

Section Tests.
(** What the tests leave open: the hash of strings, the database behind a pool
    that is not configured, its escaping, the printing of scores, the
    environment of the configuration, and for the queries the clock, the
    statements and the conversion of responses. *)
Variable hash : string -> Z.
Variables (db : string -> select_outcome) (escape : string -> string) (show : f64 -> string).
Variable config : ManagerConfig.
Variables (ck : clock) (mysql : nat -> statement -> stmt_run).
Variables (serialize : QueryLatestScoreResponse -> option string)
          (parse : string -> option QueryLatestScoreResponse).
Variable now : Z.

(** A service without a dispatcher. *)
Definition bare_service : service (Z * list (ManagerTask callback_args)) := new_service.

Definition testGrpcRejectsMissingWorkerIdentity : bool :=
  expectStatus (SetMonitorInfo hash (Some []) (Some makeMonitorInfo) now bare_service).1
    UNAUTHENTICATED.

Definition test_context : option ServerContext :=
  Some [("x-monitor-worker-id", "worker-a"); ("x-monitor-worker-token", "token-a")].

(** The callback is called in the call, and records the identity. *)
Definition testGrpcAcceptsValidWorkerIdentity : bool :=
  let '(status, s) := SetMonitorInfo hash test_context (Some makeMonitorInfo) now
                        (setDataReceivedCallback bare_service) in
  expectStatus status OK &&
  match last (called s) with
  | Some (_, w) => String.eqb (worker_id w) "worker-a" && String.eqb (worker_token w) "token-a"
  | None => false
  end.

Definition testHostManagerDropsUnregisteredWorker : bool :=
  let st := onDataReceived db escape show config false false now makeMonitorInfo
              (mk_WorkerIdentity "unknown-worker" "bad-token") (HostManager.mk_state ∅ ∅ [] [] 0) in
  dropped st =? 1.

Definition latest_status (scope : QueryScope) : option Status :=
  match QueryLatestScore ck mysql None true serialize parse scope None with
  | Done (status, _, _) => Some status
  | _ => None
  end.

Definition testQueryServiceRejectsMissingScopeBeforeQueryManager : bool :=
  match latest_status (mk_QueryScope "" "" "") with
  | Some status => expectStatus status UNAUTHENTICATED
  | None => false
  end.

Definition testQueryServiceRequiresManagerAfterScopeAccepted : bool :=
  match latest_status (mk_QueryScope "tenant-a" "team-a" "") with
  | Some status => expectStatus status UNAVAILABLE
  | None => false
  end.

Definition main : Z :=
  let ok := testGrpcRejectsMissingWorkerIdentity && testGrpcAcceptsValidWorkerIdentity &&
            testHostManagerDropsUnregisteredWorker &&
            testQueryServiceRejectsMissingScopeBeforeQueryManager &&
            testQueryServiceRequiresManagerAfterScopeAccepted in
  if ok then 0 else 1.

(** The test program ends with success, whatever it leaves open. *)
Theorem scope_tests_pass : main = 0.
Proof using. reflexivity. Qed.
End Tests.
