(* ===== verification/StressOptions.v ===== *)
(** * StressOptions: the command line of the stress test

    The options of [src/tests/manager_stress_test.cpp], their defaults, the
    parsers of numbers and [parseArgs].  The conversions from [long] to [int] are
    written out, so what a number above the range of an [int] becomes is part of
    the model. *)

From S2P Require Import Prelude CFloat CString.

Module Options.
Record t := mk {
  manager_address : string;
  mode : string;
  query_kind : string;
  query_server : string;
  worker_concurrency : Z;
  query_concurrency : Z;
  max_worker_concurrency : Z;
  max_query_concurrency : Z;
  duration_seconds : Z;
  warmup_seconds : Z;
  request_timeout_ms : Z;
  worker_interval_ms : Z;
  query_interval_ms : Z;
  page_size : Z;
  query_window_seconds : Z;
  min_success_rate : f64;
  max_p95_ms : f64 }.

Definition set_manager_address (v : string) (o : t) : t :=
  mk v (mode o) (query_kind o) (query_server o) (worker_concurrency o) (query_concurrency o)
    (max_worker_concurrency o) (max_query_concurrency o) (duration_seconds o) (warmup_seconds o)
    (request_timeout_ms o) (worker_interval_ms o) (query_interval_ms o) (page_size o)
    (query_window_seconds o) (min_success_rate o) (max_p95_ms o).
Definition set_mode (v : string) (o : t) : t :=
  mk (manager_address o) v (query_kind o) (query_server o) (worker_concurrency o)
    (query_concurrency o) (max_worker_concurrency o) (max_query_concurrency o) (duration_seconds
    o) (warmup_seconds o) (request_timeout_ms o) (worker_interval_ms o) (query_interval_ms o)
    (page_size o) (query_window_seconds o) (min_success_rate o) (max_p95_ms o).
Definition set_query_kind (v : string) (o : t) : t :=
  mk (manager_address o) (mode o) v (query_server o) (worker_concurrency o) (query_concurrency
    o) (max_worker_concurrency o) (max_query_concurrency o) (duration_seconds o) (warmup_seconds
    o) (request_timeout_ms o) (worker_interval_ms o) (query_interval_ms o) (page_size o)
    (query_window_seconds o) (min_success_rate o) (max_p95_ms o).
Definition set_query_server (v : string) (o : t) : t :=
  mk (manager_address o) (mode o) (query_kind o) v (worker_concurrency o) (query_concurrency o)
    (max_worker_concurrency o) (max_query_concurrency o) (duration_seconds o) (warmup_seconds o)
    (request_timeout_ms o) (worker_interval_ms o) (query_interval_ms o) (page_size o)
    (query_window_seconds o) (min_success_rate o) (max_p95_ms o).
Definition set_worker_concurrency (v : Z) (o : t) : t :=
  mk (manager_address o) (mode o) (query_kind o) (query_server o) v (query_concurrency o)
    (max_worker_concurrency o) (max_query_concurrency o) (duration_seconds o) (warmup_seconds o)
    (request_timeout_ms o) (worker_interval_ms o) (query_interval_ms o) (page_size o)
    (query_window_seconds o) (min_success_rate o) (max_p95_ms o).
Definition set_query_concurrency (v : Z) (o : t) : t :=
  mk (manager_address o) (mode o) (query_kind o) (query_server o) (worker_concurrency o) v
    (max_worker_concurrency o) (max_query_concurrency o) (duration_seconds o) (warmup_seconds o)
    (request_timeout_ms o) (worker_interval_ms o) (query_interval_ms o) (page_size o)
    (query_window_seconds o) (min_success_rate o) (max_p95_ms o).
Definition set_max_worker_concurrency (v : Z) (o : t) : t :=
  mk (manager_address o) (mode o) (query_kind o) (query_server o) (worker_concurrency o)
    (query_concurrency o) v (max_query_concurrency o) (duration_seconds o) (warmup_seconds o)
    (request_timeout_ms o) (worker_interval_ms o) (query_interval_ms o) (page_size o)
    (query_window_seconds o) (min_success_rate o) (max_p95_ms o).
Definition set_max_query_concurrency (v : Z) (o : t) : t :=
  mk (manager_address o) (mode o) (query_kind o) (query_server o) (worker_concurrency o)
    (query_concurrency o) (max_worker_concurrency o) v (duration_seconds o) (warmup_seconds o)
    (request_timeout_ms o) (worker_interval_ms o) (query_interval_ms o) (page_size o)
    (query_window_seconds o) (min_success_rate o) (max_p95_ms o).
Definition set_duration_seconds (v : Z) (o : t) : t :=
  mk (manager_address o) (mode o) (query_kind o) (query_server o) (worker_concurrency o)
    (query_concurrency o) (max_worker_concurrency o) (max_query_concurrency o) v (warmup_seconds
    o) (request_timeout_ms o) (worker_interval_ms o) (query_interval_ms o) (page_size o)
    (query_window_seconds o) (min_success_rate o) (max_p95_ms o).
Definition set_warmup_seconds (v : Z) (o : t) : t :=
  mk (manager_address o) (mode o) (query_kind o) (query_server o) (worker_concurrency o)
    (query_concurrency o) (max_worker_concurrency o) (max_query_concurrency o) (duration_seconds
    o) v (request_timeout_ms o) (worker_interval_ms o) (query_interval_ms o) (page_size o)
    (query_window_seconds o) (min_success_rate o) (max_p95_ms o).
Definition set_request_timeout_ms (v : Z) (o : t) : t :=
  mk (manager_address o) (mode o) (query_kind o) (query_server o) (worker_concurrency o)
    (query_concurrency o) (max_worker_concurrency o) (max_query_concurrency o) (duration_seconds
    o) (warmup_seconds o) v (worker_interval_ms o) (query_interval_ms o) (page_size o)
    (query_window_seconds o) (min_success_rate o) (max_p95_ms o).
Definition set_worker_interval_ms (v : Z) (o : t) : t :=
  mk (manager_address o) (mode o) (query_kind o) (query_server o) (worker_concurrency o)
    (query_concurrency o) (max_worker_concurrency o) (max_query_concurrency o) (duration_seconds
    o) (warmup_seconds o) (request_timeout_ms o) v (query_interval_ms o) (page_size o)
    (query_window_seconds o) (min_success_rate o) (max_p95_ms o).
Definition set_query_interval_ms (v : Z) (o : t) : t :=
  mk (manager_address o) (mode o) (query_kind o) (query_server o) (worker_concurrency o)
    (query_concurrency o) (max_worker_concurrency o) (max_query_concurrency o) (duration_seconds
    o) (warmup_seconds o) (request_timeout_ms o) (worker_interval_ms o) v (page_size o)
    (query_window_seconds o) (min_success_rate o) (max_p95_ms o).
Definition set_page_size (v : Z) (o : t) : t :=
  mk (manager_address o) (mode o) (query_kind o) (query_server o) (worker_concurrency o)
    (query_concurrency o) (max_worker_concurrency o) (max_query_concurrency o) (duration_seconds
    o) (warmup_seconds o) (request_timeout_ms o) (worker_interval_ms o) (query_interval_ms o) v
    (query_window_seconds o) (min_success_rate o) (max_p95_ms o).
Definition set_query_window_seconds (v : Z) (o : t) : t :=
  mk (manager_address o) (mode o) (query_kind o) (query_server o) (worker_concurrency o)
    (query_concurrency o) (max_worker_concurrency o) (max_query_concurrency o) (duration_seconds
    o) (warmup_seconds o) (request_timeout_ms o) (worker_interval_ms o) (query_interval_ms o)
    (page_size o) v (min_success_rate o) (max_p95_ms o).
Definition set_min_success_rate (v : f64) (o : t) : t :=
  mk (manager_address o) (mode o) (query_kind o) (query_server o) (worker_concurrency o)
    (query_concurrency o) (max_worker_concurrency o) (max_query_concurrency o) (duration_seconds
    o) (warmup_seconds o) (request_timeout_ms o) (worker_interval_ms o) (query_interval_ms o)
    (page_size o) (query_window_seconds o) v (max_p95_ms o).
Definition set_max_p95_ms (v : f64) (o : t) : t :=
  mk (manager_address o) (mode o) (query_kind o) (query_server o) (worker_concurrency o)
    (query_concurrency o) (max_worker_concurrency o) (max_query_concurrency o) (duration_seconds
    o) (warmup_seconds o) (request_timeout_ms o) (worker_interval_ms o) (query_interval_ms o)
    (page_size o) (query_window_seconds o) (min_success_rate o) v.

(** The initial values of the members. *)
Definition initial : t :=
  mk "localhost:50051" "auto" "latest" "stress-worker-0001" 1 1 256 256 10 1 3000 0 0 100 3600
    (f64_lit 99 100) (f64_of_Z 2000).
End Options.

(** ** Numbers *)

(** The text is a number to its end, above zero; then it is cast to [int]. *)
Definition parsePositiveInt (value : string) : option Z :=
  '(parsed, rest) ← strtol value;
  if negb (is_empty rest) || (parsed <=? 0) then None else Some (i32_wrap parsed).

Definition parseNonNegativeInt (value : string) : option Z :=
  '(parsed, rest) ← strtol value;
  if negb (is_empty rest) || (parsed <? 0) then None else Some (i32_wrap parsed).

Definition parseNonNegativeDouble (value : string) : option f64 :=
  '(parsed, rest) ← strtod value;
  if negb (is_empty rest) || flt parsed fzero then None else Some parsed.

(** ** parseArgs *)

Section Setters.
Import Options.

Definition with_value {A} (parse : string -> option A) (set : A -> t -> t) (value : string) (o : t)
    : option t := v ← parse value; Some (set v o).

(** What the branch of a key does with its value; [None] when no branch tests
    the key. *)
Definition option_setter (key : string) : option (string -> t -> option t) :=
  let named k := String.eqb key k in
  if named "--manager" then Some (with_value Some set_manager_address)
  else if named "--mode" then Some (with_value Some set_mode)
  else if named "--query-kind" then Some (with_value Some set_query_kind)
  else if named "--query-server" then Some (with_value Some set_query_server)
  else if named "--worker-concurrency" then Some (with_value parsePositiveInt set_worker_concurrency)
  else if named "--query-concurrency" then Some (with_value parsePositiveInt set_query_concurrency)
  else if named "--max-worker-concurrency" then Some (with_value parsePositiveInt set_max_worker_concurrency)
  else if named "--max-query-concurrency" then Some (with_value parsePositiveInt set_max_query_concurrency)
  else if named "--duration-seconds" then Some (with_value parsePositiveInt set_duration_seconds)
  else if named "--warmup-seconds" then Some (with_value parseNonNegativeInt set_warmup_seconds)
  else if named "--request-timeout-ms" then Some (with_value parsePositiveInt set_request_timeout_ms)
  else if named "--worker-interval-ms" then Some (with_value parseNonNegativeInt set_worker_interval_ms)
  else if named "--query-interval-ms" then Some (with_value parseNonNegativeInt set_query_interval_ms)
  else if named "--page-size" then Some (with_value parsePositiveInt set_page_size)
  else if named "--query-window-seconds" then Some (with_value parsePositiveInt set_query_window_seconds)
  else if named "--min-success-rate" then Some (with_value parseNonNegativeDouble set_min_success_rate)
  else if named "--max-p95-ms" then Some (with_value parseNonNegativeDouble set_max_p95_ms)
  else None.
End Setters.

(** [--help] ends the process in the middle of the loop. *)
Inductive parsed := Help | Bad | Parsed (o : Options.t).

(** The loop over [argv[1] ...]. *)
Fixpoint parse_loop (args : list string) (o : Options.t) : parsed :=
  match args with
  | [] => Parsed o
  | key :: rest =>
      if String.eqb key "--help" || String.eqb key "-h" then Help
      else
        match option_setter key with
        | None => Bad                                   (* Unknown option *)
        | Some set =>
            match rest with
            | [] => Bad                                 (* Missing value *)
            | value :: rest =>
                match set value o with
                | None => Bad
                | Some o => parse_loop rest o
                end
            end
        end
  end.

Definition one_of (values : list string) (s : string) : bool := existsb (String.eqb s) values.

(** The tests after the loop. *)
Definition check_options (o : Options.t) : bool :=
  one_of ["auto"; "worker"; "query"; "mixed"] (Options.mode o) &&
  one_of ["latest"; "rank"; "performance"] (Options.query_kind o) &&
  negb (fgt (Options.min_success_rate o) (f64_of_Z 1)).

Definition parseArgs (args : list string) (options : Options.t) : parsed :=
  match parse_loop args options with
  | Parsed o => if check_options o then Parsed o else Bad
  | r => r
  end.

(** ** Theorems *)

Lemma strtol_to_string z : LONG_MIN <= z <= LONG_MAX -> 0 <= z -> strtol (to_string z) = Some (z, "").
Proof.
  intros Hz H0. unfold strtol. rewrite read_integer_to_string by lia. cbn [mbind option_bind].
  f_equal. f_equal. lia.
Qed.

(** A printed number of the type is read back. *)
Lemma parsed_numbers_read_back z :
  0 <= z <= INT_MAX ->
  parseNonNegativeInt (to_string z) = Some z /\
  (0 < z -> parsePositiveInt (to_string z) = Some z).
Proof.
  intros Hz. assert (E : strtol (to_string z) = Some (z, ""))
    by (apply strtol_to_string; wrap_unfold; lia).
  unfold parseNonNegativeInt, parsePositiveInt. rewrite E. cbn [mbind option_bind is_empty negb orb].
  rewrite i32_wrap_small by (wrap_unfold; lia). split; [|intros H0].
  - by rewrite (proj2 (Z.ltb_ge _ _)) by lia.
  - by rewrite (proj2 (Z.leb_gt _ _)) by lia.
Qed.

(** What [parsePositiveInt] accepts is positive only before the cast: 2 ^ 32
    becomes 0 and 2 ^ 31 the least [int]. *)
Lemma positive_int_can_be_negative :
  parsePositiveInt "4294967296" = Some 0 /\ parsePositiveInt "2147483648" = Some INT_MIN.
Proof. by vm_compute. Qed.

(** The numbers of the options are [int]s. *)
Definition int_ok (z : Z) : Prop := INT_MIN <= z <= INT_MAX.

Definition ints_ok (o : Options.t) : Prop :=
  int_ok (Options.worker_concurrency o) /\ int_ok (Options.query_concurrency o) /\
  int_ok (Options.max_worker_concurrency o) /\ int_ok (Options.max_query_concurrency o) /\
  int_ok (Options.duration_seconds o) /\ int_ok (Options.warmup_seconds o) /\
  int_ok (Options.request_timeout_ms o) /\ int_ok (Options.worker_interval_ms o) /\
  int_ok (Options.query_interval_ms o) /\ int_ok (Options.page_size o) /\
  int_ok (Options.query_window_seconds o).

Lemma parsePositiveInt_ok s z : parsePositiveInt s = Some z -> int_ok z.
Proof.
  unfold parsePositiveInt. destruct (strtol s) as [[p r]|]; [|done]. cbn [mbind option_bind].
  destruct (_ || _); intros [= <-]. apply i32_wrap_range.
Qed.

Lemma parseNonNegativeInt_ok s z : parseNonNegativeInt s = Some z -> int_ok z.
Proof.
  unfold parseNonNegativeInt. destruct (strtol s) as [[p r]|]; [|done]. cbn [mbind option_bind].
  destruct (_ || _); intros [= <-]. apply i32_wrap_range.
Qed.

Lemma with_value_ok {A} (parse : string -> option A) set value o o' :
  with_value parse set value o = Some o' -> exists v, parse value = Some v /\ o' = set v o.
Proof. unfold with_value. destruct (parse value) as [v|]; [|done]. intros [= <-]. eauto. Qed.

Lemma option_setter_ok key set value o o' :
  ints_ok o -> option_setter key = Some set -> set value o = Some o' -> ints_ok o'.
Proof.
  unfold option_setter, ints_ok. intros Ho.
  repeat (destruct (String.eqb key _);
    [intros [= <-] (v & Hv & ->)%with_value_ok; cbn;
     first [apply parsePositiveInt_ok in Hv|apply parseNonNegativeInt_ok in Hv|idtac];
     by intuition|]). done.
Qed.

Lemma parse_loop_ints args : forall o o', ints_ok o -> parse_loop args o = Parsed o' -> ints_ok o'.
Proof.
  assert (H : forall n args, (length args <= n)%nat -> forall o o', ints_ok o ->
    parse_loop args o = Parsed o' -> ints_ok o'); [|by apply (H (length args))].
  clear. intros n. induction n as [|n IH]; intros [|key [|value rest]] Hn o o' Ho; cbn in *; try lia.
  1,2: by intros [= <-].
  - destruct (_ || _); [done|]. by destruct (option_setter key).
  - destruct (_ || _); [done|]. destruct (option_setter key) as [set|] eqn:Es; [|done].
    destruct (set value o) as [o1|] eqn:Ev; [|done].
    apply IH; [lia|]. by eapply option_setter_ok.
Qed.

(** Whatever the command line, accepted options are of a known mode and kind,
    the required rate is not above 1, and every number is an [int]. *)
Theorem accepted_options args o :
  parseArgs args Options.initial = Parsed o ->
  Options.mode o ∈ ["auto"; "worker"; "query"; "mixed"] /\
  Options.query_kind o ∈ ["latest"; "rank"; "performance"] /\
  fgt (Options.min_success_rate o) (f64_of_Z 1) = false /\ ints_ok o.
Proof.
  unfold parseArgs. destruct (parse_loop args Options.initial) as [| |o'] eqn:E; try done.
  destruct (check_options o') eqn:Ec; intros [= <-]. unfold check_options in Ec.
  apply andb_true_iff in Ec as [[Em Ek]%andb_true_iff Er%negb_true_iff].
  assert (Hin : forall l s, one_of l s = true -> s ∈ l).
  { intros l s (x & Hx & Heq)%existsb_exists. apply String.eqb_eq in Heq as ->.
    by apply list_elem_of_In. }
  split_and!; [by apply Hin..|done|]. eapply parse_loop_ints; [|done].
  by vm_compute.
Qed.

Lemma accepted_options_witness :
  exists o, parseArgs ["--mode"; "query"; "--max-p95-ms"; "1e3"] Options.initial = Parsed o /\
    Options.mode o ∈ ["auto"; "worker"; "query"; "mixed"] /\ ints_ok o.
Proof.
  eexists. split; [by vm_compute|].
  destruct (accepted_options ["--mode"; "query"; "--max-p95-ms"; "1e3"] _
              ltac:(vm_compute; reflexivity)) as (Hm & _ & _ & Hi).
  split; [exact Hm|exact Hi].
Defined.
