(* ===== verification/StressStats.v ===== *)
(** * StressStats: one run of the stress test

    [src/tests/manager_stress_test.cpp] between the command line and the search:
    what a thread records of its requests ([workerLoop], [queryLoop]), the
    merging of the threads' records, the rates and percentiles, and the verdict.

    The requests are answered by the world: a thread is given, for each turn of
    its loop, the readings of its clock in nanoseconds and the status of the
    call. *)

From S2P Require Import Prelude CFloat Grpc StressOptions.

(** The number of a status code. *)
Definition code_number (c : StatusCode) : Z :=
  match c with
  | OK => 0 | CANCELLED => 1 | UNKNOWN => 2 | INVALID_ARGUMENT => 3 | DEADLINE_EXCEEDED => 4
  | NOT_FOUND => 5 | ALREADY_EXISTS => 6 | PERMISSION_DENIED => 7 | RESOURCE_EXHAUSTED => 8
  | FAILED_PRECONDITION => 9 | ABORTED => 10 | OUT_OF_RANGE => 11 | UNIMPLEMENTED => 12
  | INTERNAL => 13 | UNAVAILABLE => 14 | DATA_LOSS => 15 | UNAUTHENTICATED => 16
  end.

Record SideStats := mk_SideStats {
  success : Z; failure : Z;                    (* uint64_t *)
  success_latencies_ms : list f64;
  grpc_codes : gmap Z Z }.

Definition no_stats : SideStats := mk_SideStats 0 0 [] ∅.

Record RunStats := mk_RunStats { worker : SideStats; query : SideStats; seconds : f64 }.

Record Verdict := mk_Verdict {
  passed : bool;
  worker_success_rate : f64; query_success_rate : f64;
  worker_p95_ms : f64; query_p95_ms : f64 }.

Record RunWindow := mk_RunWindow { measure_from : Z; end_at : Z }.

(** ** The loop of a thread *)

(** A turn: the clock at the test of the loop, before the call and after it, the
    status of the call, and the clock in [sleepUntilNextRequest]. *)
Record turn := mk_turn {
  at_test : Z; begin : Z; reply : Status; answered : Z; before_sleep : Z }.

Definition milliseconds (n : Z) : Z := n * 1000000.
Definition nanoseconds (n : Z) : Z := n * 1000000000.

(** [duration<double, milli>] and [duration<double>] of nanoseconds. *)
Definition as_milliseconds (ns : Z) : f64 := f64_div (f64_of_Z ns) (f64_of_Z 1000000).
Definition as_seconds (ns : Z) : f64 := f64_div (f64_of_Z ns) (f64_of_Z 1000000000).

(** Adding to an entry of the map; a missing one starts at 0. *)
Definition add_code (code n : Z) (codes : gmap Z Z) : gmap Z Z :=
  <[code := u64_add (default 0 (codes !! code)) n]> codes.

(** The body of the loop after the call. *)
Definition record_reply (w : RunWindow) (t : turn) (r : SideStats) : SideStats :=
  let elapsed := as_milliseconds (answered t - begin t) in
  if measure_from w <=? begin t then
    if ok (reply t)
    then mk_SideStats (u64_add (success r) 1) (failure r) (success_latencies_ms r ++ [elapsed])
           (grpc_codes r)
    else mk_SideStats (success r) (u64_add (failure r) 1) (success_latencies_ms r)
           (add_code (code_number (error_code (reply t))) 1 (grpc_codes r))
  else r.

(** The time to sleep until; [None] when the call returns at once. *)
Definition sleepUntilNextRequest (request_begin interval_ms end_at now : Z) : option Z :=
  if interval_ms <=? 0 then None
  else
    let next_at := request_begin + milliseconds interval_ms in
    if (next_at <=? now) || (end_at <=? now) then None else Some (Z.min next_at end_at).

(** The loop of either kind of thread over its turns; the requests made are
    counted. *)
Fixpoint thread_loop (w : RunWindow) (turns : list turn) (made : nat) (r : SideStats)
    : nat * SideStats :=
  match turns with
  | [] => (made, r)
  | t :: turns =>
      if at_test t <? end_at w
      then thread_loop w turns (S made) (record_reply w t r)
      else (made, r)
  end.

Definition loop_result (w : RunWindow) (turns : list turn) : SideStats :=
  (thread_loop w turns 0 no_stats).2.

(** ** Merging *)

Definition mergeSideStats (dst src : SideStats) : SideStats :=
  mk_SideStats (u64_add (success dst) (success src)) (u64_add (failure dst) (failure src))
    (success_latencies_ms dst ++ success_latencies_ms src)
    (map_fold add_code (grpc_codes dst) (grpc_codes src)).

(** ** Rates, percentiles and the verdict *)

Definition total (s : SideStats) : Z := u64_add (success s) (failure s).

Definition successRate (s : SideStats) : f64 :=
  if total s =? 0 then f64_of_Z 1 else f64_div (f64_of_Z (success s)) (f64_of_Z (total s)).

Definition rps (s : SideStats) (seconds : f64) : f64 :=
  if fle seconds fzero then fzero else f64_div (f64_of_Z (total s)) seconds.

(** [std::floor] and [std::ceil] of a finite number, as integers. *)
Definition f_floor (x : f64) : option Z :=
  match x with
  | S754_zero _ => Some 0
  | S754_finite s m e =>
      Some (let v := if s then Zneg m else Zpos m in
            if 0 <=? e then v * 2 ^ e else v / 2 ^ (- e))
  | _ => None
  end.

Definition f_ceil (x : f64) : option Z :=
  match x with
  | S754_zero _ => Some 0
  | S754_finite s m e =>
      Some (let v := if s then Zneg m else Zpos m in
            if 0 <=? e then v * 2 ^ e else - (- v / 2 ^ (- e)))
  | _ => None
  end.

(** [operator<] of [double] as the order of [std::sort]. *)
Definition not_above (x y : f64) : Prop := fle x y = true.
#[export] Instance not_above_dec : RelDecision not_above.
Proof. intros x y. unfold not_above. apply _. Defined.

(** [size_t lo]: a conversion of a number out of range and an index past the end
    are undefined. *)
Definition index_of (z : option Z) : res nat :=
  match z with
  | Some z => if (0 <=? z) && (z <? 2 ^ 64) then Done (Z.to_nat z) else Undefined
  | None => Undefined
  end.

Definition percentile (values : list f64) (p : f64) : res f64 :=
  match values with
  | [] => Done fzero
  | _ =>
      let values := merge_sort not_above values in
      let idx := f64_mul (f64_of_Z (Z.of_nat (length values) - 1)) p in
      lo ← index_of (f_floor idx);
      hi ← index_of (f_ceil idx);
      below ← or_undefined (values !! lo);
      if (lo =? hi)%nat then mret below
      else
        above ← or_undefined (values !! hi);
        let frac := f64_sub idx (f64_of_Z (Z.of_nat lo)) in
        mret (f64_add (f64_mul below (f64_sub (f64_of_Z 1) frac)) (f64_mul above frac))
  end.

Definition p50 : f64 := f64_lit 1 2.
Definition p95 : f64 := f64_lit 95 100.
Definition p99 : f64 := f64_lit 99 100.

(** One side of the verdict. *)
Definition side_ok (o : Options.t) (concurrency : Z) (s : SideStats) (rate p95_ms : f64) : bool :=
  (concurrency =? 0) ||
  ((0 <? total s) && fle (Options.min_success_rate o) rate &&
   (fle (Options.max_p95_ms o) fzero || fle p95_ms (Options.max_p95_ms o))).

Definition judge (o : Options.t) (s : RunStats) (worker_concurrency query_concurrency : Z)
    : res Verdict :=
  worker_p95 ← percentile (success_latencies_ms (worker s)) p95;
  query_p95 ← percentile (success_latencies_ms (query s)) p95;
  let worker_rate := successRate (worker s) in
  let query_rate := successRate (query s) in
  mret (mk_Verdict
    (side_ok o worker_concurrency (worker s) worker_rate worker_p95 &&
     side_ok o query_concurrency (query s) query_rate query_p95)
    worker_rate query_rate worker_p95 query_p95).

(** ** runLoad *)

(** What the world does during a run: the turns of each thread, the clock when
    all threads are ready and when the last one is joined. *)
Record observed := mk_observed {
  started : Z;
  worker_turns : list (list turn); query_turns : list (list turn);
  joined : Z }.

(** The results of [n] threads; a vector of a negative size throws. *)
Definition side_results (w : RunWindow) (n : Z) (turns : list (list turn)) : res (list SideStats) :=
  if n <? 0 then Throws
  else Done (map (fun i => loop_result w (default [] (turns !! i))) (seq 0 (Z.to_nat n))).

Definition run_window (o : Options.t) (started : Z) : RunWindow :=
  let from := started + nanoseconds (Options.warmup_seconds o) in
  mk_RunWindow from (from + nanoseconds (Options.duration_seconds o)).

(** The number of the threads is added as an [int]. *)
Definition runLoad (o : Options.t) (world : observed) (worker_concurrency query_concurrency : Z)
    : res RunStats :=
  _ ← or_undefined (i32_checked (worker_concurrency + query_concurrency));
  let w := run_window o (started world) in
  worker_results ← side_results w worker_concurrency (worker_turns world);
  query_results ← side_results w query_concurrency (query_turns world);
  mret (mk_RunStats (foldl mergeSideStats no_stats worker_results)
          (foldl mergeSideStats no_stats query_results)
          (as_seconds (joined world - measure_from w))).

(** ** Counting *)

(** The requests of a thread, in order, and those in the measured window. *)
Fixpoint requests_made (w : RunWindow) (turns : list turn) : list turn :=
  match turns with
  | [] => []
  | t :: turns => if at_test t <? end_at w then t :: requests_made w turns else []
  end.

Definition measured (w : RunWindow) (turns : list turn) : list turn :=
  filter (fun t => measure_from w <= begin t) (requests_made w turns).

Definition answered_ok (t : turn) : Prop := ok (reply t) = true.
#[export] Instance answered_ok_dec t : Decision (answered_ok t).
Proof. unfold answered_ok. apply _. Defined.

(** A record holds exactly the given requests: the two counters, one latency
    for each success, and for each code the number of its failures, all modulo
    2 ^ 64. *)
Definition with_code (code : Z) (ts : list turn) : list turn :=
  filter (fun t => code_number (error_code (reply t)) = code) (filter (fun t => ~ answered_ok t) ts).

Definition accounts (ts : list turn) (r : SideStats) : Prop :=
  success r = u64_wrap (Z.of_nat (length (filter answered_ok ts))) /\
  failure r = u64_wrap (Z.of_nat (length (filter (fun t => ~ answered_ok t) ts))) /\
  success_latencies_ms r =
    map (fun t => as_milliseconds (answered t - begin t)) (filter answered_ok ts) /\
  (forall code, default 0 (grpc_codes r !! code) = u64_wrap (Z.of_nat (length (with_code code ts)))).

Lemma u64_add_length {A} (l k : list A) :
  u64_add (u64_wrap (Z.of_nat (length l))) (u64_wrap (Z.of_nat (length k))) =
  u64_wrap (Z.of_nat (length (l ++ k))).
Proof. by rewrite u64_add_wraps, length_app, Nat2Z.inj_add. Qed.

Lemma lookup_add_code code n codes c :
  default 0 (add_code code n codes !! c) =
    if decide (c = code) then u64_add (default 0 (codes !! c)) n else default 0 (codes !! c).
Proof.
  unfold add_code. case_decide as E.
  - subst c. by rewrite lookup_insert_eq.
  - by rewrite lookup_insert_ne.
Qed.

Lemma accounts_nil : accounts [] no_stats.
Proof. split_and!; try done. Qed.

Lemma filter_yes {A} (P : A -> Prop) `{forall x, Decision (P x)} x l : P x -> filter P (l ++ [x]) = filter P l ++ [x].
Proof. intros Hx. by rewrite filter_app, filter_cons, decide_True. Qed.

Lemma filter_no {A} (P : A -> Prop) `{forall x, Decision (P x)} x l : ~ P x -> filter P (l ++ [x]) = filter P l.
Proof. intros Hx. by rewrite filter_app, filter_cons, decide_False, filter_nil, app_nil_r. Qed.

Lemma record_reply_accounts w t ts r :
  accounts ts r ->
  accounts (ts ++ if measure_from w <=? begin t then [t] else []) (record_reply w t r).
Proof.
  intros (Hs & Hf & Hl & Hc). unfold record_reply. destruct (_ <=? _); [|by rewrite app_nil_r].
  unfold accounts, with_code. destruct (ok (reply t)) eqn:Eo.
  - assert (Ha : answered_ok t) by done. rewrite (filter_yes answered_ok), filter_no by tauto.
    split_and!; [|done| |done]; cbn.
    + rewrite Hs. by rewrite <- u64_add_length.
    + by rewrite Hl, map_app.
  - assert (Ha : ~ answered_ok t) by (unfold answered_ok; by rewrite Eo).
    rewrite (filter_no answered_ok), filter_yes by done. split_and!; [done| |done|]; cbn.
    + rewrite Hf. by rewrite <- u64_add_length.
    + intros code. rewrite lookup_add_code, Hc. case_decide as E.
      * rewrite filter_yes by done. unfold with_code. by rewrite <- u64_add_length.
      * by rewrite filter_no.
Qed.

Lemma thread_loop_accounts w turns : forall made ts r,
  accounts ts r ->
  let '(n, r') := thread_loop w turns made r in
  n = (made + length (requests_made w turns))%nat /\ accounts (ts ++ measured w turns) r'.
Proof.
  unfold measured. induction turns as [|t turns IH]; intros made ts r Hr; cbn [thread_loop requests_made].
  - split; [cbn; lia|]. by rewrite filter_nil, app_nil_r.
  - destruct (at_test t <? end_at w); [|split; [cbn; lia|]; by rewrite filter_nil, app_nil_r].
    specialize (IH (S made) _ _ (record_reply_accounts w t ts r Hr)).
    destruct (thread_loop _ _ _ _) as [n r']. destruct IH as [-> IH]. split; [cbn; lia|].
    rewrite filter_cons. rewrite <- app_assoc in IH. destruct (Z.leb_spec (measure_from w) (begin t));
      case_decide; try lia; done.
Qed.

(** The record of a thread is that of its measured requests. *)
Lemma loop_result_accounts w turns : accounts (measured w turns) (loop_result w turns).
Proof.
  pose proof (thread_loop_accounts w turns 0 [] no_stats accounts_nil) as H. unfold loop_result.
  destruct (thread_loop _ _ _ _). apply H.
Qed.

Lemma lookup_merge_codes (src dst : gmap Z Z) c :
  (forall c n, src !! c = Some n -> 0 <= n < 2 ^ 64) -> 0 <= default 0 (dst !! c) < 2 ^ 64 ->
  default 0 (map_fold add_code dst src !! c) = u64_add (default 0 (dst !! c)) (default 0 (src !! c)).
Proof.
  revert src. refine (map_fold_weak_ind (fun res src => (forall c n, src !! c = Some n -> 0 <= n < 2 ^ 64) ->
    0 <= default 0 (dst !! c) < 2 ^ 64 -> default 0 (res !! c) = _) _ _ _ _).
  - intros _ Hd. rewrite lookup_empty. unfold u64_add. cbn. rewrite Z.add_0_r. by rewrite u64_wrap_small.
  - intros code n src res Hn IH Hsrc Hd. rewrite lookup_add_code, IH; [|
      intros c' n' Hc'; apply (Hsrc c'); rewrite lookup_insert_ne by congruence; done|done].
    case_decide as E.
    + subst code. rewrite lookup_insert_eq, Hn. cbn. unfold u64_add, u64_wrap. rewrite Z.add_0_r.
      by rewrite Z.add_mod_idemp_l.
    + by rewrite lookup_insert_ne by done.
Qed.

Lemma mergeSideStats_accounts ts ts' r r' :
  accounts ts r -> accounts ts' r' -> accounts (ts ++ ts') (mergeSideStats r r').
Proof.
  intros (Hs & Hf & Hl & Hc) (Hs' & Hf' & Hl' & Hc'). unfold accounts, mergeSideStats, with_code; cbn.
  rewrite !filter_app, Hs, Hs', Hf, Hf', Hl, Hl', !u64_add_length, map_app. split_and!; try done.
  intros code. rewrite lookup_merge_codes.
  - rewrite Hc, Hc', u64_add_length. unfold with_code. by rewrite filter_app.
  - intros c n Hn. specialize (Hc' c). rewrite Hn in Hc'. cbn in Hc'. rewrite Hc'. apply u64_wrap_range.
  - rewrite Hc. apply u64_wrap_range.
Qed.

Lemma merged_accounts (f : nat -> list turn) (g : nat -> SideStats) l : forall ts r,
  (forall i, accounts (f i) (g i)) -> accounts ts r ->
  accounts (ts ++ flat_map f l) (foldl mergeSideStats r (map g l)).
Proof.
  induction l as [|i l IH]; intros ts r Hg Hr; cbn; [by rewrite app_nil_r|].
  rewrite app_assoc. apply IH; [done|]. by apply mergeSideStats_accounts.
Qed.

(** The measured requests of the [n] threads of a side. *)
Definition side_requests (w : RunWindow) (n : Z) (turns : list (list turn)) : list turn :=
  flat_map (fun i => measured w (default [] (turns !! i))) (seq 0 (Z.to_nat n)).

Lemma side_results_spec w n turns rs :
  side_results w n turns = Done rs ->
  0 <= n /\ accounts (side_requests w n turns) (foldl mergeSideStats no_stats rs).
Proof.
  unfold side_results. destruct (Z.ltb_spec n 0); [done|]. intros [= <-]. split; [done|].
  apply (merged_accounts (fun i => measured w (default [] (turns !! i))) _ _ [] no_stats); [|apply accounts_nil].
  intros i. apply loop_result_accounts.
Qed.

Lemma accounts_total ts r : accounts ts r -> total r = u64_wrap (Z.of_nat (length ts)).
Proof.
  intros (Hs & Hf & _). unfold total. rewrite Hs, Hf, u64_add_wraps. f_equal.
  rewrite <- Nat2Z.inj_add. f_equal. clear. induction ts as [|t ts IH]; [done|].
  rewrite !filter_cons. repeat case_decide; try tauto; cbn [length]; lia.
Qed.

Lemma runLoad_inv o world wc qc s :
  runLoad o world wc qc = Done s ->
  let w := run_window o (started world) in
  0 <= wc /\ 0 <= qc /\
  accounts (side_requests w wc (worker_turns world)) (worker s) /\
  accounts (side_requests w qc (query_turns world)) (query s).
Proof.
  unfold runLoad. destruct (i32_checked _); [|done]. cbn [or_undefined mbind res_bind].
  destruct (side_results _ wc _) as [ws| |] eqn:Ew; [|done..].
  destruct (side_results _ qc _) as [qs| |] eqn:Eq; [|done..].
  intros [= <-]. apply side_results_spec in Ew as [? ?], Eq as [? ?]. by split_and!.
Qed.

(** C31. A run of the stress test accounts for every request: whatever the world
    answers, each side's record holds exactly the requests that its threads
    began in the measured window -- a success or a failure for each, the latency
    of each success, and each failure under its status code -- and the two
    counters together are their number, modulo 2 ^ 64. *)
Theorem run_accounts_for_requests o world wc qc s :
  runLoad o world wc qc = Done s ->
  let w := run_window o (started world) in
  let ws := side_requests w wc (worker_turns world) in
  let qs := side_requests w qc (query_turns world) in
  accounts ws (worker s) /\ total (worker s) = u64_wrap (Z.of_nat (length ws)) /\
  accounts qs (query s) /\ total (query s) = u64_wrap (Z.of_nat (length qs)).
Proof.
  intros (_ & _ & Hw & Hq)%runLoad_inv w ws qs. split_and!; try done; by apply accounts_total.
Qed.

(** One worker that makes three requests: one before the window, one answered,
    one refused; and a turn at the end of the window. *)
Definition refused : Status := mk_Status UNAUTHENTICATED "Missing worker identity".
Definition sample_turns : list turn :=
  [mk_turn 0 10 status_ok 20 30; mk_turn 1000000000 1000000001 status_ok 1005000001 0;
   mk_turn 1006000000 1006000000 refused 1007000000 0; mk_turn 11000000000 0 status_ok 0 0].
Definition sample_world : observed := mk_observed 0 [sample_turns] [] 11000000001.

Lemma run_accounts_for_requests_witness :
  exists s, runLoad Options.initial sample_world 1 0 = Done s /\ total (worker s) = 2 /\
    success (worker s) = 1 /\ grpc_codes (worker s) !! 16 = Some 1.
Proof.
  eexists. split; [by vm_compute|].
  destruct (run_accounts_for_requests Options.initial sample_world 1 0 _
              ltac:(vm_compute; reflexivity)) as (_ & Ht & _).
  split; [exact Ht|]. split; vm_compute; reflexivity.
Defined.

(** ** Percentiles stay inside the sorted latencies *)

Lemma floor_ceil_at_most n lo x :
  at_most n lo x -> exists a b, f_floor x = Some a /\ f_ceil x = Some b /\ 0 <= a <= b /\ b <= n.
Proof.
  destruct x as [s| | |[] m e]; cbn [at_most f_floor f_ceil]; try done; intros H.
  { exists 0, 0. split_and!; done || lia. }
  destruct H as [He Hm]. destruct (Z.leb_spec 0 e) as [H0|H0].
  - replace e with 0 in * by lia. do 2 eexists. split_and!; try reflexivity; lia.
  - assert (Hp : 0 < 2 ^ (- e)) by (apply Z.pow_pos_nonneg; lia).
    do 2 eexists. split_and!; try reflexivity.
    + apply Z.div_pos; lia.
    + enough (- Zpos m / 2 ^ (- e) <= - (Zpos m / 2 ^ (- e))) by lia.
      apply Z.div_le_upper_bound; [done|]. pose proof (Z.mul_div_le (Zpos m) (2 ^ (- e)) Hp). lia.
    + enough (- n <= - Zpos m / 2 ^ (- e)) by lia.
      apply Z.div_le_lower_bound; [done|]. lia.
Qed.

(** The ranks that the code asks for. *)
Lemma ranks_at_most p : p ∈ [p50; p95; p99] -> at_most 1 (-60) p.
Proof.
  intros H. repeat (apply elem_of_cons in H as [->|H]; [by vm_compute|]).
  by apply not_elem_of_nil in H.
Qed.

(** With fewer than 2 ^ 53 latencies no percentile of the report reads outside
    the sorted vector: the two ranks it interpolates between exist. *)
Theorem percentile_defined values p :
  p ∈ [p50; p95; p99] -> Z.of_nat (length values) < 2 ^ 53 -> exists x, percentile values p = Done x.
Proof.
  intros Hp Hn. destruct values as [|v vs]; [by eexists|]. unfold percentile.
  set (l := merge_sort not_above (v :: vs)).
  assert (Hl : length l = S (length vs)) by (unfold l; by rewrite merge_sort_Permutation).
  cbn [length] in Hn. rewrite Hl.
  destruct (floor_ceil_at_most (Z.of_nat (length vs)) (-60 + -60)
    (f64_mul (f64_of_Z (Z.of_nat (S (length vs)) - 1)) p)) as (a & b & Ea & Eb & Ha & Hb).
  { replace (Z.of_nat (S (length vs)) - 1) with (Z.of_nat (length vs)) by lia.
    apply f64_mul_at_most; [apply f64_of_Z_at_most; lia|by apply ranks_at_most|lia|lia]. }
  rewrite Ea, Eb. unfold index_of.
  assert (H : forall z, 0 <= z <= Z.of_nat (length vs) ->
    ((0 <=? z) && (z <? 2 ^ 64)) = true /\ exists x, l !! Z.to_nat z = Some x).
  { intros z Hz. split; [apply andb_true_iff; split; [apply Z.leb_le|apply Z.ltb_lt]; lia|].
    apply lookup_lt_is_Some_2. lia. }
  destruct (H a ltac:(lia)) as (-> & x & Hx), (H b ltac:(lia)) as (-> & y & Hy).
  cbn [mbind res_bind]. rewrite Hx. cbn [mbind res_bind or_undefined].
  destruct (_ =? _)%nat; [by eexists|]. rewrite Hy. by eexists.
Qed.

Lemma percentile_defined_witness :
  exists x, percentile [f64_of_Z 3; f64_of_Z 1; f64_of_Z 2] p95 = Done x /\ fle (f64_of_Z 2) x = true.
Proof.
  destruct (percentile_defined [f64_of_Z 3; f64_of_Z 1; f64_of_Z 2] p95) as [x Hx];
    [set_solver|cbn; lia|].
  exists x. split; [exact Hx|]. vm_compute in Hx. injection Hx as <-. reflexivity.
Defined.

(** ** What fails *)

(** A side without a success fails as soon as some rate is required. *)
Lemma no_success_fails o concurrency s p95_ms :
  concurrency <> 0 -> success s = 0 -> 0 <= failure s < 2 ^ 64 ->
  fgt (Options.min_success_rate o) fzero = true ->
  side_ok o concurrency s (successRate s) p95_ms = false.
Proof.
  intros Hc Hs Hf Hm. unfold side_ok. rewrite (proj2 (Z.eqb_neq _ _)) by done. cbn [orb].
  assert (Ht : total s = failure s) by (unfold total, u64_add; rewrite Hs; by apply u64_wrap_small).
  destruct (Z.ltb_spec 0 (total s)) as [H0|]; [|done]. cbn [andb].
  unfold successRate. rewrite (proj2 (Z.eqb_neq _ _)) by lia. rewrite Hs.
  destruct (f64_of_Z_positive (total s) ltac:(lia)) as (m & e & ->).
  change (f64_div _ _) with fzero. change (flt fzero (Options.min_success_rate o) = true) in Hm.
  by rewrite fle_not_flt, Hm.
Qed.

(** A thread whose requests all failed has no success. *)
Lemma accounts_no_success ts r :
  Forall (fun t => ok (reply t) = false) ts -> accounts ts r ->
  success r = 0 /\ success_latencies_ms r = [] /\ 0 <= failure r < 2 ^ 64.
Proof.
  intros Hts (Hs & Hf & Hl & _).
  assert (E : filter answered_ok ts = []).
  { clear -Hts. induction Hts as [|t ts Ht _ IH]; [done|]. rewrite filter_cons, decide_False; [done|].
    unfold answered_ok. by rewrite Ht. }
  rewrite E in Hs, Hl. rewrite Hf. split_and!; [done|done|apply u64_wrap_range..].
Qed.

(** ** The pace of a thread *)

(** The clock does not go back during a turn, and a sleep lasts until its time. *)
Definition turn_ok (t : turn) : Prop :=
  at_test t <= begin t /\ begin t <= answered t /\ answered t <= before_sleep t.

Definition woken (interval_ms end_at : Z) (t : turn) : Z :=
  default (before_sleep t) (sleepUntilNextRequest (begin t) interval_ms end_at (before_sleep t)).

Fixpoint honoured (interval_ms end_at : Z) (turns : list turn) : Prop :=
  match turns with
  | t :: (t' :: _) as rest =>
      turn_ok t /\ woken interval_ms end_at t <= at_test t' /\ honoured interval_ms end_at rest
  | [t] => turn_ok t
  | [] => True
  end.

Lemma honoured_cons i e t turns :
  honoured i e (t :: turns) ->
  turn_ok t /\ honoured i e turns /\
  forall t' rest, turns = t' :: rest -> woken i e t <= at_test t' /\ turn_ok t'.
Proof.
  destruct turns as [|t' rest]; cbn; [by intuition|]. intros (Ht & Hw & Hr).
  split_and!; [done|done|]. intros ? ? [= <- <-]. split; [done|]. destruct rest; [done|]. apply Hr.
Qed.

(** With an interval, a thread begins its requests at least that far apart: a
    call that takes longer delays the next one, and the sleep is never cut short
    except by the end of the window, after which there is no request. *)
Theorem requests_are_paced w interval_ms turns :
  0 < interval_ms -> honoured interval_ms (end_at w) turns ->
  Sorted (fun t t' => begin t + milliseconds interval_ms <= begin t') (requests_made w turns).
Proof.
  intros Hi. induction turns as [|t turns IH]; intros Hh; cbn [requests_made]; [constructor|].
  apply honoured_cons in Hh as (Ht & Hh & Hnext).
  destruct (at_test t <? end_at w); [|constructor]. constructor; [by apply IH|].
  destruct turns as [|t' rest]; cbn [requests_made]; [constructor|].
  destruct (Z.ltb_spec (at_test t') (end_at w)) as [He|]; constructor.
  destruct (Hnext _ _ eq_refl) as [Hw (Hb & _)]. revert Hw. unfold woken, sleepUntilNextRequest.
  rewrite (proj2 (Z.leb_gt _ _)) by done.
  unfold milliseconds in *. destruct (_ || _) eqn:Eo; cbn; intros Hw.
  - apply orb_true_iff in Eo as [Eo%Z.leb_le|Eo%Z.leb_le]; lia.
  - lia.
Qed.

Lemma requests_are_paced_witness :
  let w := mk_RunWindow 0 100000000 in
  let turns := [mk_turn 0 1 status_ok 2 3; mk_turn 10000001 10000002 status_ok 30000000 30000001;
                mk_turn 30000002 30000003 status_ok 30000004 30000005] in
  Sorted (fun t t' => begin t + 10000000 <= begin t') (requests_made w turns) /\
  length (requests_made w turns) = 3%nat.
Proof.
  intros w turns. split; [|done]. apply (requests_are_paced w 10); [lia|].
  by vm_compute.
Defined.
