(* ===== verification/StressThreads.v ===== *)
(** * StressThreads: the threads of one run

    [runLoad] of [src/tests/manager_stress_test.cpp] and the start of
    [workerLoop] and [queryLoop]: the main thread creates the load threads, waits
    until all are ready, writes the window, raises the flag and joins.  A step is
    one access to a shared variable.  [StressStats] gives what a thread computes
    once it is in its loop. *)

From S2P Require Import Prelude StressStats.

Section Run.
(** [total_threads], and the window that the main thread computes. *)
Variables (total_threads : nat) (computed : RunWindow).

(** Where a load thread is. *)
Inductive load_thread :=
| LSetup                      (* before it increments [ready] *)
| LSpin                       (* in the loop on [start] *)
| LLoop                       (* in the load loop: it reads the window *)
| LDone.                      (* returned; its result is complete *)

Inductive main_thread :=
| MSpawn                      (* creating the threads *)
| MWait                       (* in the loop on [ready] *)
| MFrom | MEnd                (* about to write [measure_from], [end_at] *)
| MStart                      (* about to raise [start] *)
| MJoin (k : nat)             (* about to join thread [k] *)
| MMerge.                     (* reading the results *)

Record config := mk_config {
  main_at : main_thread; threads : list load_thread;
  ready : nat; start : bool;
  from : option Z; upto : option Z }.

Definition initial_config : config := mk_config MSpawn [] 0 false None None.

Inductive step (c : config) : config -> Prop :=
| step_spawn :
    main_at c = MSpawn -> (length (threads c) < total_threads)%nat ->
    step c (mk_config MSpawn (threads c ++ [LSetup]) (ready c) (start c) (from c) (upto c))
| step_spawned :
    main_at c = MSpawn -> length (threads c) = total_threads ->
    step c (mk_config MWait (threads c) (ready c) (start c) (from c) (upto c))
| step_ready i :
    threads c !! i = Some LSetup ->
    step c (mk_config (main_at c) (<[i := LSpin]> (threads c)) (S (ready c)) (start c) (from c) (upto c))
| step_all_ready :
    main_at c = MWait -> (total_threads <= ready c)%nat ->
    step c (mk_config MFrom (threads c) (ready c) (start c) (from c) (upto c))
| step_from :
    main_at c = MFrom ->
    step c (mk_config MEnd (threads c) (ready c) (start c) (Some (measure_from computed)) (upto c))
| step_end :
    main_at c = MEnd ->
    step c (mk_config MStart (threads c) (ready c) (start c) (from c) (Some (end_at computed)))
| step_start :
    main_at c = MStart ->
    step c (mk_config (MJoin 0) (threads c) (ready c) true (from c) (upto c))
| step_started i :
    threads c !! i = Some LSpin -> start c = true ->
    step c (mk_config (main_at c) (<[i := LLoop]> (threads c)) (ready c) (start c) (from c) (upto c))
| step_turn i :
    threads c !! i = Some LLoop -> step c c
| step_done i :
    threads c !! i = Some LLoop ->
    step c (mk_config (main_at c) (<[i := LDone]> (threads c)) (ready c) (start c) (from c) (upto c))
| step_join k :
    main_at c = MJoin k -> threads c !! k = Some LDone ->
    step c (mk_config (MJoin (S k)) (threads c) (ready c) (start c) (from c) (upto c))
| step_joined :
    main_at c = MJoin total_threads ->
    step c (mk_config MMerge (threads c) (ready c) (start c) (from c) (upto c)).

(** ** The invariant *)

Definition is_setup (l : load_thread) : bool := match l with LSetup => true | _ => false end.
Definition released (l : load_thread) : bool := match l with LLoop | LDone => true | _ => false end.

(** How many threads have counted themselves. *)
Definition counted (l : list load_thread) : nat :=
  sum_list_with (fun t => if is_setup t then 0%nat else 1%nat) l.

(** What holds at each point of the main thread. *)
Definition main_ok (c : config) : Prop :=
  let all_ready := length (threads c) = total_threads /\ ready c = total_threads in
  match main_at c with
  | MSpawn => (length (threads c) <= total_threads)%nat /\ start c = false
  | MWait => length (threads c) = total_threads /\ start c = false
  | MFrom => all_ready /\ start c = false
  | MEnd => all_ready /\ start c = false /\ from c = Some (measure_from computed)
  | MStart =>
      all_ready /\ start c = false /\ from c = Some (measure_from computed) /\
      upto c = Some (end_at computed)
  | MJoin k =>
      all_ready /\ from c = Some (measure_from computed) /\ upto c = Some (end_at computed) /\
      start c = true /\ (k <= total_threads)%nat /\
      forall j, (j < k)%nat -> threads c !! j = Some LDone
  | MMerge =>
      all_ready /\ from c = Some (measure_from computed) /\ upto c = Some (end_at computed) /\
      start c = true /\ forall j, (j < total_threads)%nat -> threads c !! j = Some LDone
  end.

Definition inv (c : config) : Prop :=
  ready c = counted (threads c) /\
  (start c = false -> Forall (fun l => released l = false) (threads c)) /\ main_ok c.

Lemma counted_le l : (counted l <= length l)%nat.
Proof using. unfold counted. induction l as [|t l IH]; cbn; [lia|]. destruct (is_setup t); lia. Qed.

Lemma counted_insert l i old new :
  l !! i = Some old ->
  (counted (<[i := new]> l) + (if is_setup old then 0 else 1) =
   counted l + (if is_setup new then 0 else 1))%nat.
Proof using.
  intros H. unfold counted. rewrite (sum_others _ _ _ _ H), (sum_others_insert _ _ _ _ _ H). lia.
Qed.

(** With a thread that has not counted itself, not all are ready. *)
Lemma setup_not_all l i : l !! i = Some LSetup -> (counted l < length l)%nat.
Proof using.
  revert i. unfold counted. induction l as [|t l IH]; intros [|i] H; cbn in *; [done|done| |].
  - injection H as ->. pose proof (counted_le l). unfold counted in *. cbn. lia.
  - specialize (IH i H). destruct (is_setup t); lia.
Qed.

(** A thread moves while the main thread stays. *)
Lemma main_ok_insert c i old new r' :
  threads c !! i = Some old -> old <> LDone -> ready c = counted (threads c) ->
  r' = counted (<[i := new]> (threads c)) ->
  (old = LSetup \/ r' = ready c) -> main_ok c ->
  main_ok (mk_config (main_at c) (<[i := new]> (threads c)) r' (start c) (from c) (upto c)).
Proof using.
  intros Hi Hold Hr Hr' Hcase Hm.
  assert (Hsame : ready c = total_threads -> length (threads c) = total_threads -> r' = total_threads).
  { intros H1 H2. destruct Hcase as [->| ->]; [|done]. apply setup_not_all in Hi. lia. }
  assert (Hdone : forall j, threads c !! j = Some LDone -> <[i := new]> (threads c) !! j = Some LDone).
  { intros j Hj. rewrite list_lookup_insert_ne; [done|]. intros ->. congruence. }
  unfold main_ok in *; cbn [main_at threads ready start from upto] in *.
  destruct (main_at c); rewrite length_insert; intuition.
Qed.

Lemma run_inv_step c c' : inv c -> step c c' -> inv c'.
Proof using.
  intros (Hr & Hs & Hm) Hstep.
  assert (Hrel : forall i new, (start c = false -> released new = false) ->
    start c = false -> Forall (fun l => released l = false) (<[i := new]> (threads c))).
  { intros i new Hnew H0. apply Forall_insert; auto. }
  destruct Hstep as [Em Hl|Em Hl|i Hi|Em Hl|Em|Em|Em|i Hi Hst|i Hi|i Hi|k Em Hk|Em];
    unfold inv; cbn [main_at threads ready start from upto].
  - unfold main_ok in *. cbn. rewrite Em in Hm. split_and!; [| |rewrite length_app; cbn; lia|tauto].
    + unfold counted in *. rewrite sum_list_with_app. cbn. lia.
    + intros H0. apply Forall_app. split; [by apply Hs|by constructor].
  - split_and!; [done|done|]. unfold main_ok in *. cbn. rewrite Em in Hm. tauto.
  - pose proof (counted_insert _ _ _ LSpin Hi) as Hc. cbn in Hc.
    split_and!; [lia|by apply Hrel|]. eapply main_ok_insert; [done|done|done|lia|by left|done].
  - split_and!; [done|done|]. unfold main_ok in *. cbn. rewrite Em in Hm. pose proof (counted_le (threads c)).
    split_and!; [tauto|lia|tauto].
  - split_and!; [done|done|]. unfold main_ok in *. cbn. rewrite Em in Hm. tauto.
  - split_and!; [done|done|]. unfold main_ok in *. cbn. rewrite Em in Hm. tauto.
  - split_and!; [done|done|]. unfold main_ok in *. cbn. rewrite Em in Hm. split_and!; try tauto; lia.
  - pose proof (counted_insert _ _ _ LLoop Hi) as Hc. cbn in Hc.
    split_and!; [lia|apply Hrel; by rewrite Hst|]. eapply main_ok_insert; [done|done|done|lia|right; lia|done].
  - by split_and!.
  - pose proof (counted_insert _ _ _ LDone Hi) as Hc. cbn in Hc.
    split_and!; [lia| |eapply main_ok_insert; [done|done|done|lia|right; lia|done]].
    apply Hrel. intros H0. specialize (Hs H0). rewrite Forall_lookup in Hs. by specialize (Hs _ _ Hi).
  - split_and!; [done|done|]. unfold main_ok in *. cbn. rewrite Em in Hm.
    destruct Hm as ((Hl & Ha) & Hf & Hu & Hst & Hle & Hj). apply lookup_lt_Some in Hk as Hlt.
    split_and!; try done; [lia|]. intros j Hjk. destruct (decide (j = k)) as [->|]; [done|apply Hj; lia].
  - split_and!; [done|done|]. unfold main_ok in *. cbn. rewrite Em in Hm. tauto.
Qed.

Lemma run_reachable_inv c : rtc step initial_config c -> inv c.
Proof using.
  apply rtc_invariant; [by apply run_inv_step|].
  split_and!; [done|by constructor|]. unfold main_ok. cbn. split; [lia|done].
Qed.

(** A thread can move as long as the main thread has not joined all. *)
Lemma run_progress c : inv c -> main_at c <> MMerge -> exists c', step c c'.
Proof using.
  intros (Hr & Hs & Hm) Hne. unfold main_ok in Hm. destruct (main_at c) as [| | | | |k|] eqn:Em; try done.
  - destruct (decide (length (threads c) = total_threads)); eexists;
      [by apply step_spawned|apply step_spawn; [done|lia]].
  - destruct (decide (total_threads <= ready c)%nat); [eexists; by apply step_all_ready|].
    assert (H : exists i, threads c !! i = Some LSetup).
    { destruct Hm as [Hl _]. rewrite Hr in *. rewrite <- Hl in *. revert n. clear. unfold counted.
      induction (threads c) as [|t l IH]; intros n; cbn in n; [lia|]. destruct t.
      { by exists 0%nat. }
      all: cbn in n; destruct IH as [i Hi]; [lia|]; by exists (S i). }
    destruct H as [i Hi]. eexists. by eapply step_ready.
  - eexists. by apply step_from.
  - eexists. by apply step_end.
  - eexists. by apply step_start.
  - destruct Hm as ((Hl & Ha) & _ & _ & Hst & Hle & _).
    destruct (decide (k = total_threads)) as [->|Hk]; [eexists; by apply step_joined|].
    destruct (lookup_lt_is_Some_2 (threads c) k ltac:(lia)) as [[] Ht].
    + apply setup_not_all in Ht. lia.
    + eexists. by eapply step_started.
    + eexists. by eapply step_done.
    + eexists. by eapply step_join.
Qed.

(** The threads of a run are synchronised, under every interleaving: a load
    thread is in its loop only while the window is complete and nobody writes it,
    so it reads the window that the main thread computed; the main thread reads
    the results only when every thread has returned; and until then some thread
    can move. *)
Theorem run_is_synchronized c :
  rtc step initial_config c ->
  (forall i, threads c !! i = Some LLoop ->
     from c = Some (measure_from computed) /\ upto c = Some (end_at computed) /\
     exists k, main_at c = MJoin k) /\
  (main_at c = MMerge -> threads c = replicate total_threads LDone) /\
  (main_at c <> MMerge -> exists c', step c c').
Proof using.
  intros Hc%run_reachable_inv. split_and!; [| |by apply run_progress].
  - intros i Hi. destruct Hc as (_ & Hs & Hm). unfold main_ok in Hm.
    assert (Hst : start c = true).
    { destruct (start c); [done|]. specialize (Hs eq_refl). rewrite Forall_lookup in Hs.
      by specialize (Hs _ _ Hi). }
    destruct (main_at c) as [| | | | |k|]; try (intuition congruence).
    + split_and!; try tauto. by exists k.
    + destruct Hm as ((Hl & _) & _ & _ & _ & Hj). pose proof (lookup_lt_Some _ _ _ Hi).
      rewrite Hj in Hi by lia. done.
  - intros Em. destruct Hc as (_ & _ & Hm). unfold main_ok in Hm. rewrite Em in Hm.
    destruct Hm as ((Hl & _) & _ & _ & _ & Hj). apply list_eq_same_length with (n := total_threads);
      [by rewrite length_replicate|done|]. intros j x y Hlt Hx Hy.
    rewrite Hj in Hx by done. apply lookup_replicate in Hy as [-> _]. congruence.
Qed.
End Run.

(** One thread, from its creation to its loop. *)
Lemma run_is_synchronized_witness :
  let w := mk_RunWindow 5 10 in
  exists c, rtc (step 1 w) initial_config c /\ threads c = [LLoop] /\
    from c = Some 5 /\ upto c = Some 10.
Proof.
  intros w.
  assert (H : rtc (step 1 w) initial_config (mk_config (MJoin 0) [LLoop] 1 true (Some 5) (Some 10))).
  { eapply rtc_l; [by apply step_spawn; cbn; [|lia]|]. eapply rtc_l; [by apply step_spawned|].
    eapply rtc_l; [by apply (step_ready _ _ _ 0%nat)|]. eapply rtc_l; [by apply step_all_ready; cbn; [|lia]|].
    eapply rtc_l; [by apply step_from|]. eapply rtc_l; [by apply step_end|].
    eapply rtc_l; [by apply step_start|]. eapply rtc_l; [by apply (step_started _ _ _ 0%nat)|]. apply rtc_refl. }
  eexists. split; [exact H|]. split; [reflexivity|].
  destruct (run_is_synchronized 1 w _ H) as (Hl & _). destruct (Hl 0%nat eq_refl) as (Hf & Hu & _).
  split; [exact Hf|exact Hu].
Defined.
