(* ===== verification/StressSearch.v ===== *)
(** * StressSearch: the search for the highest load that passes

    [src/tests/manager_stress_test.cpp]: what a run reports, [buildRamp],
    [binaryRefine], [findMaxSingle], [scaledPair], [findMaxMixed] and [main].

    The runs are numbered: the world says what happens in each of them, and the
    history holds the load and the verdict of every run so far.  Nothing is
    assumed on how verdicts of different runs relate. *)

From S2P Require Import Prelude CFloat Grpc StressOptions StressStats.

(** The load of a run and whether it passed. *)
Definition history : Type := list (Z * Z * bool).

(** ** What a run prints *)

(** [printSide] and [printGrpcCodes]: the figures of a line, the codes in the
    order of the map. *)
Record side_report := mk_side_report {
  r_total : Z; r_success : Z; r_failure : Z; r_success_rate : f64; r_rps : f64;
  r_p50 : f64; r_p95 : f64; r_p99 : f64; r_codes : list (Z * Z) }.

Definition code_le (x y : Z * Z) : Prop := x.1 <= y.1.
#[export] Instance code_le_dec : RelDecision code_le.
Proof. intros x y. unfold code_le. apply _. Defined.

Definition printSide (s : SideStats) (seconds : f64) : res side_report :=
  v50 ← percentile (success_latencies_ms s) p50;
  v95 ← percentile (success_latencies_ms s) p95;
  v99 ← percentile (success_latencies_ms s) p99;
  mret (mk_side_report (total s) (success s) (failure s) (successRate s) (rps s seconds)
          v50 v95 v99 (merge_sort code_le (map_to_list (grpc_codes s)))).

(** [printRunResult]: the verdict and a line for each side with a load. *)
Definition printRunResult (o : Options.t) (s : RunStats) (wc qc : Z)
    : res (bool * option side_report * option side_report) :=
  verdict ← judge o s wc qc;
  let side n r := if 0 <? n then l ← printSide r (seconds s); mret (Some l) else mret None in
  w ← side wc (worker s);
  q ← side qc (query s);
  mret (passed verdict, w, q).

Definition runAndPrint (o : Options.t) (world : nat -> observed) (h : history) (wc qc : Z)
    : res (bool * history) :=
  s ← runLoad o (world (length h)) wc qc;
  _ ← printRunResult o s wc qc;
  verdict ← judge o s wc qc;
  mret (passed verdict, h ++ [(wc, qc, passed verdict)]).

(** ** The ramp of loads *)

(** The loop of [buildRamp]; 32 turns are enough for an [int]. *)
Fixpoint ramp (fuel : nat) (value max_concurrency : Z) : list Z :=
  match fuel with
  | O => []
  | S fuel =>
      if value <? max_concurrency
      then value :: (if Z.quot max_concurrency 2 <? value then []
                     else ramp fuel (value * 2) max_concurrency)
      else []
  end.

Definition buildRamp (max_concurrency : Z) : list Z :=
  let values := ramp 32 1 max_concurrency in
  match last values with
  | Some v => if v =? max_concurrency then values else values ++ [max_concurrency]
  | None => [max_concurrency]
  end.

(** ** One side at a time *)

Section Single.
(** A run of one side under the given load. *)
Variable attempt : history -> Z -> res (bool * history).

(** The loop of [binaryRefine]; its length halves in every turn, so 32 turns are
    enough for [int]s ([find_max_single_is_locally_maximal] has a result). *)
Fixpoint refine (fuel : nat) (left right best : Z) (h : history) : res (Z * history) :=
  if left <=? right then
    match fuel with
    | O => Undefined
    | S fuel =>
        let mid := left + Z.quot (right - left) 2 in
        '(b, h) ← attempt h mid;
        if (b : bool) then refine fuel (mid + 1) right mid h
        else refine fuel left (mid - 1) best h
    end
  else Done (best, h).

Definition binaryRefine (low_pass high_fail : Z) (h : history) : res (Z * history) :=
  refine 32 (low_pass + 1) (high_fail - 1) low_pass h.

(** The loop of [findMaxSingle] over the ramp. *)
Fixpoint climb (values : list Z) (best previous : Z) (h : history) : res (Z * history) :=
  match values with
  | [] => Done (best, h)
  | value :: values =>
      '(b, h) ← attempt h value;
      if (b : bool) then climb values value value h else binaryRefine previous value h
  end.
End Single.

Definition side_attempt (o : Options.t) (world : nat -> observed) (worker_side : bool) (h : history)
    (n : Z) : res (bool * history) :=
  if worker_side then runAndPrint o world h n 0 else runAndPrint o world h 0 n.

Definition findMaxSingle (o : Options.t) (world : nat -> observed) (worker_side : bool) (h : history)
    : res (Z * history) :=
  let cap := if worker_side then Options.max_worker_concurrency o
             else Options.max_query_concurrency o in
  climb (side_attempt o world worker_side) (buildRamp cap) 0 0 h.

(** ** Both sides *)

(** [static_cast<int>(std::floor(n * scale))]. *)
Definition scaled (n : Z) (scale : f64) : res Z :=
  z ← or_undefined (f_floor (f64_mul (f64_of_Z n) scale));
  z ← or_undefined (i32_checked z);
  mret (Z.max 1 z).

Definition scaledPair (worker_max query_max : Z) (scale : f64) : res (Z * Z) :=
  if fle scale fzero then Done (0, 0)
  else
    w ← scaled worker_max scale;
    q ← scaled query_max scale;
    mret (w, q).

Definition middle (left right : f64) : f64 := f64_div (f64_add left right) (f64_of_Z 2).

Section Mixed.
Variable attempt : history -> Z -> Z -> res (bool * history).
Variables worker_max query_max : Z.

(** The loop of [findMaxMixed]. *)
Fixpoint bisect (turns : nat) (left right best_scale : f64) (h : history) : res (f64 * history) :=
  match turns with
  | O => Done (best_scale, h)
  | S turns =>
      let mid := middle left right in
      '(w, q) ← scaledPair worker_max query_max mid;
      '(b, h) ← attempt h w q;
      if (b : bool) then bisect turns mid right mid h else bisect turns left mid best_scale h
  end.

Definition first_left : f64 := f64_lit 5 100.
Definition first_right : f64 := f64_of_Z 1.

Definition findMaxMixed (h : history) : res (Z * Z * history) :=
  if (worker_max <=? 0) || (query_max <=? 0) then Done (0, 0, h)
  else
    '(best_scale, h) ← bisect 8 first_left first_right fzero h;
    p ← scaledPair worker_max query_max best_scale;
    mret (p, h).
End Mixed.

(** ** main *)

(** The exit code; an exception that leaves [main] ends the process. *)
Definition main (argv : list string) (world : nat -> observed) : res Z :=
  match parseArgs argv Options.initial with
  | Help => Done 0
  | Bad => Done 2
  | Parsed o =>
      let run wc qc :=
        '(b, _) ← runAndPrint o world [] wc qc; mret (if (b : bool) then 0 else 1) in
      if String.eqb (Options.mode o) "worker" then run (Options.worker_concurrency o) 0
      else if String.eqb (Options.mode o) "query" then run 0 (Options.query_concurrency o)
      else if String.eqb (Options.mode o) "mixed"
      then run (Options.worker_concurrency o) (Options.query_concurrency o)
      else
        '(worker_max, h) ← findMaxSingle o world true [];
        '(query_max, h) ← findMaxSingle o world false h;
        '(w, q, _) ← findMaxMixed (runAndPrint o world) worker_max query_max h;
        _ ← or_undefined (i32_checked (w + q));
        mret (if (0 <? worker_max) && (0 <? query_max) && (0 <? w) && (0 <? q) then 0 else 1)
  end.

(** ** A search of one side *)

Section SingleSpec.
Variable attempt : history -> Z -> res (bool * history).
Variable entry : Z -> bool -> Z * Z * bool.
Variable cap : Z.
(** Every run of a load up to the cap ends, with a verdict that is recorded. *)
Hypothesis attempt_ends : forall h n, 0 < n <= cap -> exists b, attempt h n = Done (b, h ++ [entry n b]).

(** The result of a search from a load that passed to one that failed. *)
Definition found (left right best : Z) (runs : history) : Prop :=
  left - 1 <= best <= right /\
  (best = left - 1 \/ entry best true ∈ runs) /\ (best = right \/ entry (best + 1) false ∈ runs).

Lemma refine_spec k : forall fuel left right h,
  0 < left <= right + 1 -> right <= cap -> right - left + 1 < 2 ^ Z.of_nat k -> (k <= fuel)%nat ->
  exists best runs, refine attempt fuel left right (left - 1) h = Done (best, h ++ runs) /\
    found left right best runs /\ (length runs <= k)%nat.
Proof using attempt_ends.
  induction k as [|k IH]; intros fuel left right h Hl Hr Hk Hf.
  - exists (left - 1), []. split_and!; [|unfold found; lia|done].
    destruct fuel; cbn [refine]; rewrite (proj2 (Z.leb_gt _ _)) by (cbn in Hk; lia); by rewrite app_nil_r.
  - destruct fuel as [|fuel]; [lia|]. cbn [refine].
    destruct (Z.leb_spec left right) as [Hle|Hgt].
    2: { exists (left - 1), []. split_and!; [by rewrite app_nil_r|unfold found; lia|cbn; lia]. }
    rewrite Z.quot_div_nonneg by lia. set (mid := left + (right - left) / 2).
    assert (Hp : 2 ^ Z.of_nat (S k) = 2 * 2 ^ Z.of_nat k)
      by (rewrite Nat2Z.inj_succ; apply Z.pow_succ_r; lia).
    assert (Hm : left <= mid <= right /\ right - mid < 2 ^ Z.of_nat k /\ mid - left < 2 ^ Z.of_nat k)
      by (unfold mid; Z.to_euclidean_division_equations; lia).
    destruct (attempt_ends h mid ltac:(lia)) as [[] ->]; cbn [mbind res_bind].
    + destruct (IH fuel (mid + 1) right (h ++ [entry mid true])) as (b & runs & Hb & Hfd & Hlen);
        [lia..|]. replace (mid + 1 - 1) with mid in Hb by lia. rewrite Hb.
      exists b, (entry mid true :: runs). rewrite <- app_assoc. split_and!; [done| |cbn; lia].
      destruct Hfd as (H1 & H2 & H3). split_and!; [lia|lia|right|].
      * destruct H2 as [->|H2]; [replace (mid + 1 - 1) with mid by lia; left|by right].
      * destruct H3 as [->|H3]; [by left|right; by right].
    + destruct (IH fuel left (mid - 1) (h ++ [entry mid false])) as (b & runs & Hb & Hfd & Hlen);
        [lia..|]. rewrite Hb.
      exists b, (entry mid false :: runs). rewrite <- app_assoc. split_and!; [done| |cbn; lia].
      destruct Hfd as (H1 & H2 & H3). split_and!; [lia|lia| |right].
      * destruct H2 as [->|H2]; [by left|right; by right].
      * destruct H3 as [->|H3]; [replace (mid - 1 + 1) with mid by lia; left|by right].
Qed.

(** One value of the ramp: when it fails, the search between the previous value
    and this one ends it. *)
Lemma climb_fails k previous value values best h :
  0 <= previous < value -> value <= cap -> value - 1 - previous < 2 ^ Z.of_nat k -> (k <= 32)%nat ->
  attempt h value = Done (false, h ++ [entry value false]) ->
  exists b runs, climb attempt (value :: values) best previous h = Done (b, h ++ runs) /\
    previous <= b <= cap /\ (b = previous \/ entry b true ∈ runs) /\
    entry (b + 1) false ∈ runs /\ (length runs <= S k)%nat.
Proof using attempt_ends.
  intros Hp Hv Hk H32 Ha. cbn [climb]. rewrite Ha. cbn [mbind res_bind]. unfold binaryRefine.
  destruct (refine_spec k 32 (previous + 1) (value - 1) (h ++ [entry value false]))
    as (b & runs & Hb & (H1 & H2 & H3) & Hlen); [lia..|].
  replace (previous + 1 - 1) with previous in * by lia. rewrite Hb.
  exists b, (entry value false :: runs). rewrite <- app_assoc.
  split_and!; [done|lia|lia| | |cbn; lia].
  - destruct H2 as [->|H2]; [by left|right; by right].
  - destruct H3 as [->|H3]; [replace (value - 1 + 1) with value by lia; left|by right].
Qed.

(** The value of the ramp before the [i]-th power of 2. *)
Definition before_power (i : nat) : Z := match i with O => 0 | S j => 2 ^ Z.of_nat j end.

Lemma before_power_gap i :
  0 <= before_power i < 2 ^ Z.of_nat i /\
  2 ^ Z.of_nat i - 1 - before_power i < 2 ^ Z.of_nat (pred i).
Proof using.
  destruct i as [|j]; [cbn; lia|]. cbn [before_power pred]. rewrite Nat2Z.inj_succ, Z.pow_succ_r by lia.
  pose proof (Z.pow_pos_nonneg 2 (Z.of_nat j) ltac:(lia) ltac:(lia)). lia.
Qed.

(** What a search is worth: the load it returns passed or is 0, and the next one
    failed or is above the cap. *)
Definition local_maximum (best : Z) (runs : history) : Prop :=
  0 <= best <= cap /\ (best = 0 \/ entry best true ∈ runs) /\
  (best = cap \/ entry (best + 1) false ∈ runs).

Lemma climb_failed i k value values best h :
  value <= cap -> before_power i < value -> value - 1 - before_power i < 2 ^ Z.of_nat k ->
  (k <= 32)%nat -> attempt h value = Done (false, h ++ [entry value false]) ->
  forall old, (before_power i = 0 \/ entry (before_power i) true ∈ old) ->
  exists b runs, climb attempt (value :: values) best (before_power i) h = Done (b, h ++ runs) /\
    local_maximum b (old ++ runs) /\ (length runs <= S k)%nat.
Proof using attempt_ends.
  intros Hv Hp Hk H32 Ha old Hold. pose proof (before_power_gap i).
  destruct (climb_fails k (before_power i) value values best h) as (b & runs & -> & H1 & H2 & H3 & H4);
    [lia..|done|]. exists b, runs. unfold local_maximum. setoid_rewrite elem_of_app.
  split_and!; [done|lia|lia| |by auto|done].
  destruct H2 as [->|H2]; [|by auto]. destruct Hold; auto.
Qed.

(** The last value of the ramp is the cap. *)
Lemma climb_cap i k h old :
  before_power i < cap -> cap - 1 - before_power i < 2 ^ Z.of_nat k -> (k <= 32)%nat ->
  (before_power i = 0 \/ entry (before_power i) true ∈ old) ->
  exists b runs, climb attempt [cap] (before_power i) (before_power i) h = Done (b, h ++ runs) /\
    local_maximum b (old ++ runs) /\ (length runs <= S k)%nat.
Proof using attempt_ends.
  intros Hi Hd Hk Hold. pose proof (before_power_gap i).
  destruct (attempt_ends h cap ltac:(lia)) as [[] Ha]; [|by apply (climb_failed i k)].
  exists cap, [entry cap true]. cbn [climb]. rewrite Ha. cbn. split_and!; [done| |lia].
  unfold local_maximum. split_and!; [lia..| |by left].
  right. apply elem_of_app. right. apply list_elem_of_here.
Qed.

Lemma climb_spec fuel : forall i h old,
  0 < cap < 2 ^ 32 -> 2 ^ Z.of_nat i <= cap -> cap < 2 ^ Z.of_nat (i + fuel) ->
  (before_power i = 0 \/ entry (before_power i) true ∈ old) ->
  exists b runs,
    climb attempt (ramp fuel (2 ^ Z.of_nat i) cap ++ [cap]) (before_power i) (before_power i) h =
      Done (b, h ++ runs) /\
    local_maximum b (old ++ runs) /\ Z.of_nat (length runs + i) <= 2 * Z.log2 cap + 2.
Proof using attempt_ends.
  induction fuel as [|fuel IH]; intros i h old Hc Hi Hf Hold; [rewrite Nat.add_0_r in Hf; lia|].
  assert (Hlog : Z.of_nat i <= Z.log2 cap) by (apply Z.log2_le_pow2; lia).
  assert (Hi32 : (i <= 32)%nat).
  { pose proof (Z.log2_lt_pow2 cap 32 ltac:(lia)). lia. }
  pose proof (before_power_gap i) as [Hb1 Hb2].
  assert (Hpow : 2 ^ Z.of_nat (S i) = 2 * 2 ^ Z.of_nat i) by (rewrite Nat2Z.inj_succ; apply Z.pow_succ_r; lia).
  cbn [ramp]. destruct (Z.ltb_spec (2 ^ Z.of_nat i) cap) as [Hlt|Hge].
  - destruct (attempt_ends h (2 ^ Z.of_nat i) ltac:(lia)) as [[] Ha].
    + assert (Hin : entry (2 ^ Z.of_nat i) true ∈ old ++ [entry (2 ^ Z.of_nat i) true])
        by (apply elem_of_app; right; apply list_elem_of_here).
      rewrite <- app_comm_cons. cbn [climb]. rewrite Ha. cbn [mbind res_bind].
      destruct (Z.ltb_spec (Z.quot cap 2) (2 ^ Z.of_nat i)) as [Hq|Hq];
        rewrite Z.quot_div_nonneg in Hq by lia.
      * destruct (climb_cap (S i) i (h ++ [entry (2 ^ Z.of_nat i) true])
          (old ++ [entry (2 ^ Z.of_nat i) true])) as (b & runs & Hcl & Hmax & Hlen);
          [done|cbn [before_power]; Z.to_euclidean_division_equations; lia|done|by right|].
        cbn [before_power] in Hcl. change ([] ++ [cap]) with [cap]. rewrite Hcl. exists b, (entry (2 ^ Z.of_nat i) true :: runs).
        rewrite <- !app_assoc in *. split_and!; [done|done|cbn; lia].
      * destruct (IH (S i) (h ++ [entry (2 ^ Z.of_nat i) true]) (old ++ [entry (2 ^ Z.of_nat i) true]))
          as (b & runs & Hcl & Hmax & Hlen); [done| | |by right|].
        { rewrite Hpow. Z.to_euclidean_division_equations; lia. }
        { by replace (S i + fuel)%nat with (i + S fuel)%nat by lia. }
        cbn [before_power] in Hcl. rewrite Z.mul_comm, <- Hpow, Hcl. exists b, (entry (2 ^ Z.of_nat i) true :: runs).
        rewrite <- !app_assoc in *. split_and!; [done|done|cbn; lia].
    + rewrite <- app_comm_cons.
      match goal with |- context [climb _ (_ :: ?vs) _ _ _] =>
        destruct (climb_failed i (pred i) (2 ^ Z.of_nat i) vs (before_power i) h
          ltac:(lia) ltac:(lia) Hb2 ltac:(lia) Ha old Hold) as (b & runs & -> & Hmax & Hlen) end.
      exists b, runs. split_and!; [done|done|lia].
  - assert (Hcap : cap = 2 ^ Z.of_nat i) by lia. change ([] ++ [cap]) with [cap].
    destruct (climb_cap i (pred i) h old ltac:(lia) ltac:(lia) ltac:(lia) Hold)
      as (b & runs & -> & Hmax & Hlen).
    exists b, runs. split_and!; [done|done|lia].
Qed.

Lemma ramp_below fuel : forall value v, v ∈ ramp fuel value cap -> v < cap.
Proof using.
  induction fuel as [|fuel IH]; intros value v; cbn [ramp]; [by intros ?%not_elem_of_nil|].
  destruct (Z.ltb_spec value cap); [|by intros ?%not_elem_of_nil].
  intros [->|Hv]%elem_of_cons; [done|]. destruct (_ <? _); [by apply not_elem_of_nil in Hv|by eapply IH].
Qed.

Lemma buildRamp_eq : buildRamp cap = ramp 32 1 cap ++ [cap].
Proof using.
  unfold buildRamp. destruct (last (ramp 32 1 cap)) as [v|] eqn:E.
  - apply last_Some_elem_of, ramp_below in E. by rewrite (proj2 (Z.eqb_neq _ _)) by lia.
  - by apply last_None in E as ->.
Qed.

Lemma climb_buildRamp h :
  0 < cap <= INT_MAX ->
  exists b runs, climb attempt (buildRamp cap) 0 0 h = Done (b, h ++ runs) /\
    local_maximum b runs /\ Z.of_nat (length runs) <= 2 * Z.log2 cap + 2.
Proof using attempt_ends.
  intros Hc. rewrite buildRamp_eq.
  destruct (climb_spec 32 0 h []) as (b & runs & Hr & Hm & Hl); [wrap_unfold; lia| | |by left|].
  - cbn; lia.
  - cbn. wrap_unfold. lia.
  - exists b, runs. cbn [before_power] in Hr. change (2 ^ Z.of_nat 0) with 1 in Hr. rewrite Hr.
    rewrite Nat.add_0_r in Hl. done.
Qed.
End SingleSpec.

(** ** A run ends *)

(** Fewer than 2 ^ 53 turns in a run: what one can count in a [double]. *)
Definition countable_world (world : nat -> observed) : Prop :=
  forall n, Z.of_nat (length (concat (worker_turns (world n)))) < 2 ^ 53 /\
            Z.of_nat (length (concat (query_turns (world n)))) < 2 ^ 53.

Lemma length_measured w turns : (length (measured w turns) <= length turns)%nat.
Proof.
  unfold measured. etrans; [apply length_filter|].
  induction turns as [|t turns IH]; cbn; [done|]. destruct (_ <? _); cbn; lia.
Qed.

Lemma length_side_requests w k turns :
  (length (side_requests w k turns) <= length (concat turns))%nat.
Proof.
  unfold side_requests. generalize (Z.to_nat k) as n. clear k.
  induction turns as [|ts turns IH]; intros n.
  - induction (seq 0 n) as [|i l IH]; [done|]. cbn [flat_map]. by rewrite length_app, IH.
  - destruct n as [|n]; [cbn; lia|]. cbn [seq flat_map]. rewrite length_app. cbn [concat].
    rewrite length_app. pose proof (length_measured w ts). specialize (IH n).
    rewrite <- seq_shift, flat_map_concat_map, map_map, <- flat_map_concat_map.
    by apply Nat.add_le_mono.
Qed.

Lemma accounts_latencies ts r :
  accounts ts r -> (length (success_latencies_ms r) <= length ts)%nat.
Proof. intros (_ & _ & -> & _). rewrite length_map. apply length_filter. Qed.

Lemma runLoad_ends o world wc qc :
  0 <= wc -> 0 <= qc -> wc + qc <= INT_MAX -> exists s, runLoad o world wc qc = Done s.
Proof.
  intros Hw Hq Hs. unfold runLoad, side_results.
  rewrite (proj2 (i32_checked_Some _ _)) by (split; [reflexivity|wrap_unfold; lia]).
  cbn [or_undefined mbind res_bind]. rewrite !(proj2 (Z.ltb_ge _ _)) by lia. by eexists.
Qed.

Lemma printSide_ends s seconds :
  Z.of_nat (length (success_latencies_ms s)) < 2 ^ 53 -> exists l, printSide s seconds = Done l.
Proof.
  intros Hs. unfold printSide.
  destruct (percentile_defined (success_latencies_ms s) p50) as [a ->]; [set_solver|done|].
  destruct (percentile_defined (success_latencies_ms s) p95) as [b ->]; [set_solver|done|].
  destruct (percentile_defined (success_latencies_ms s) p99) as [c ->]; [set_solver|done|].
  by eexists.
Qed.

Lemma judge_ends o s wc qc :
  Z.of_nat (length (success_latencies_ms (worker s))) < 2 ^ 53 ->
  Z.of_nat (length (success_latencies_ms (query s))) < 2 ^ 53 -> exists v, judge o s wc qc = Done v.
Proof.
  intros Hw Hq. unfold judge.
  destruct (percentile_defined (success_latencies_ms (worker s)) p95) as [a ->]; [set_solver|done|].
  destruct (percentile_defined (success_latencies_ms (query s)) p95) as [b ->]; [set_solver|done|].
  by eexists.
Qed.

Lemma runAndPrint_ends o world h wc qc :
  countable_world world -> 0 <= wc -> 0 <= qc -> wc + qc <= INT_MAX ->
  exists b, runAndPrint o world h wc qc = Done (b, h ++ [(wc, qc, b)]).
Proof.
  intros Hc Hw Hq Hs. unfold runAndPrint.
  destruct (runLoad_ends o (world (length h)) wc qc Hw Hq Hs) as [s Es]. rewrite Es. cbn [mbind res_bind].
  apply runLoad_inv in Es as (_ & _ & Hws%accounts_latencies & Hqs%accounts_latencies).
  destruct (Hc (length h)) as [Hcw Hcq].
  assert (Hlw : Z.of_nat (length (success_latencies_ms (worker s))) < 2 ^ 53)
    by (pose proof (length_side_requests (run_window o (started (world (length h)))) wc
          (worker_turns (world (length h)))); lia).
  assert (Hlq : Z.of_nat (length (success_latencies_ms (query s))) < 2 ^ 53)
    by (pose proof (length_side_requests (run_window o (started (world (length h)))) qc
          (query_turns (world (length h)))); lia).
  unfold printRunResult. destruct (judge_ends o s wc qc Hlw Hlq) as [v ->]. cbn [mbind res_bind].
  destruct (printSide_ends (worker s) (seconds s) Hlw) as [l1 ->].
  destruct (printSide_ends (query s) (seconds s) Hlq) as [l2 ->].
  destruct (0 <? wc), (0 <? qc); cbn; by eexists.
Qed.

(** ** The search of one side *)

Definition side_entry (worker_side : bool) (n : Z) (b : bool) : Z * Z * bool :=
  if worker_side then (n, 0, b) else (0, n, b).

Definition cap_of (o : Options.t) (worker_side : bool) : Z :=
  if worker_side then Options.max_worker_concurrency o else Options.max_query_concurrency o.

(** C30. The search for the highest load of one side ends after at most
    [2 * log2 cap + 2] runs, however the verdicts of the runs fall, and returns a
    local maximum of what it saw: a load that passed, or 0, whose successor
    failed unless it is the cap.  If the verdicts are those of a predicate that
    every lower load inherits, the result is the highest load that passes. *)
Theorem find_max_single_maximal o world worker_side h :
  let cap := cap_of o worker_side in
  countable_world world -> 0 < cap <= INT_MAX ->
  exists best runs,
    findMaxSingle o world worker_side h = Done (best, h ++ runs) /\
    local_maximum (side_entry worker_side) cap best runs /\
    Z.of_nat (length runs) <= 2 * Z.log2 cap + 2 /\
    forall passes : Z -> bool,
      (forall n b, side_entry worker_side n b ∈ runs -> b = passes n) ->
      (forall m n, 0 < m <= n -> passes n = true -> passes m = true) ->
      forall n, 0 < n <= cap -> passes n = true <-> n <= best.
Proof.
  intros cap Hw Hc.
  destruct (climb_buildRamp (side_attempt o world worker_side) (side_entry worker_side) cap) with (h := h)
    as (best & runs & Hr & Hm & Hl); [|done|].
  { intros h' n Hn. unfold side_attempt, side_entry. destruct worker_side; apply runAndPrint_ends; done || lia. }
  exists best, runs. split_and!; [by destruct worker_side|done|done|].
  intros passes Hp Hdown n Hn. destruct Hm as (Hb & Hbest & Hnext). split; intros H.
  - destruct Hnext as [->|Hnext]; [lia|]. apply Hp in Hnext.
    destruct (Z.le_gt_cases n best) as [|Hgt]; [done|]. exfalso.
    rewrite (Hdown (best + 1) n ltac:(lia) H) in Hnext. done.
  - destruct Hbest as [->|Hbest]; [lia|]. apply Hp in Hbest. apply (Hdown n best); [lia|done].
Qed.

(** ** The search of both sides *)

(** The ends of the interval after [k] turns, whatever the verdicts were. *)
Fixpoint intervals (k : nat) : list (f64 * f64) :=
  match k with
  | O => [(first_left, first_right)]
  | S k => flat_map (fun '(l, r) => [(middle l r, r); (l, middle l r)]) (intervals k)
  end.

(** A scale above 0 and at most 1. *)
Definition proper_scale (x : f64) : bool :=
  match x with S754_finite false m e => (-60 <=? e) && (e <=? 0) && (Zpos m <=? 2 ^ (- e)) | _ => false end.

Lemma middles_proper :
  forallb (fun k => forallb (fun '(l, r) => proper_scale (middle l r)) (intervals k)) (seq 0 8) = true.
Proof. by vm_compute. Qed.

Lemma proper_scale_at_most x : proper_scale x = true -> at_most 1 (-60) x /\ fle x fzero = false.
Proof.
  destruct x as [| | |[] m e]; try done. cbn. intros H. to_props.
  split_and!; [lia..|done].
Qed.

Lemma scaled_ends n x :
  0 < n <= INT_MAX -> proper_scale x = true -> exists k, scaled n x = Done k /\ 1 <= k <= n.
Proof.
  intros Hn Hx. apply proper_scale_at_most in Hx as [Hx _]. unfold scaled.
  destruct (floor_ceil_at_most n (-60 + -60) (f64_mul (f64_of_Z n) x)) as (a & b & -> & _ & Ha & Hb).
  { apply f64_mul_at_most; [apply f64_of_Z_at_most; wrap_unfold; lia|done|lia|wrap_unfold; lia]. }
  cbn [or_undefined mbind res_bind].
  rewrite (proj2 (i32_checked_Some a a)) by (split; [done|wrap_unfold; lia]).
  cbn. exists (Z.max 1 a). split; [done|lia].
Qed.

Section MixedSpec.
Variable attempt : history -> Z -> Z -> res (bool * history).
Variables worker_max query_max : Z.
Hypothesis worker_range : 0 < worker_max <= INT_MAX.
Hypothesis query_range : 0 < query_max <= INT_MAX.
Hypothesis attempt_ends : forall h w q,
  1 <= w <= worker_max -> 1 <= q <= query_max ->
  exists b, attempt h w q = Done (b, h ++ [(w, q, b)]).

Lemma scaledPair_ends x :
  proper_scale x = true ->
  exists w q, scaledPair worker_max query_max x = Done (w, q) /\ 1 <= w <= worker_max /\ 1 <= q <= query_max.
Proof using worker_range query_range.
  intros Hx. unfold scaledPair. destruct (proper_scale_at_most x Hx) as [_ ->].
  destruct (scaled_ends worker_max x worker_range Hx) as (w & -> & Hw).
  destruct (scaled_ends query_max x query_range Hx) as (q & -> & Hq). by exists w, q.
Qed.

(** The best scale so far is 0, or its pair passed. *)
Definition best_passed (best : f64) (runs : history) : Prop :=
  best = fzero \/
  exists w q, proper_scale best = true /\ scaledPair worker_max query_max best = Done (w, q) /\
              (w, q, true) ∈ runs.

Lemma bisect_spec turns : forall k left right best h old,
  (k + turns = 8)%nat -> (left, right) ∈ intervals k -> best_passed best old ->
  exists best' runs,
    bisect attempt worker_max query_max turns left right best h = Done (best', h ++ runs) /\
    best_passed best' (old ++ runs) /\ length runs = turns /\
    Forall (fun '(w, q, _) => 1 <= w <= worker_max /\ 1 <= q <= query_max) runs.
Proof using attempt_ends worker_range query_range.
  induction turns as [|turns IH]; intros k left right best h old Hk Hin Hb; cbn [bisect].
  { exists best, []. by rewrite !app_nil_r. }
  assert (Hm : proper_scale (middle left right) = true).
  { pose proof middles_proper as H. rewrite forallb_forall in H.
    specialize (H k ltac:(apply in_seq; lia)). rewrite forallb_forall in H.
    by specialize (H (left, right) (proj1 (list_elem_of_In _ _) Hin)). }
  destruct (scaledPair_ends _ Hm) as (w & q & Es & Hw & Hq). rewrite Es. cbn [mbind res_bind].
  destruct (attempt_ends h w q Hw Hq) as [b Hatt]. rewrite Hatt. cbn [mbind res_bind].
  set (left' := if b then middle left right else left).
  set (right' := if b then right else middle left right).
  set (best1 := if b then middle left right else best).
  destruct (IH (S k) left' right' best1 (h ++ [(w, q, b)]) (old ++ [(w, q, b)]))
    as (best' & runs & Hr & Hp & Hl & Hf); [lia| | |].
  - cbn [intervals]. apply list_elem_of_In, in_flat_map. exists (left, right).
    split; [by apply list_elem_of_In|]. destruct b; [by left|right; by left].
  - unfold best1. destruct b.
    + right. exists w, q. split_and!; [done..|]. apply elem_of_app. right. apply list_elem_of_here.
    + destruct Hb as [->|(w' & q' & H1 & H2 & H3)]; [by left|right].
      exists w', q'. split_and!; [done..|]. apply elem_of_app. by left.
  - exists best', ((w, q, b) :: runs). rewrite <- !app_assoc in *.
    unfold left', right', best1 in Hr. destruct b; rewrite Hr.
    all: split_and!; [done|done|cbn; lia|constructor; [lia|done]].
Qed.

Lemma findMaxMixed_spec h :
  exists w q runs,
    findMaxMixed attempt worker_max query_max h = Done (w, q, h ++ runs) /\ length runs = 8%nat /\
    ((w, q) = (0, 0) \/ 1 <= w <= worker_max /\ 1 <= q <= query_max /\ (w, q, true) ∈ runs).
Proof using attempt_ends worker_range query_range.
  unfold findMaxMixed. rewrite !(proj2 (Z.leb_gt _ _)) by lia. cbn [orb].
  destruct (bisect_spec 8 0 first_left first_right fzero h []) as (best & runs & -> & Hb & Hl & Hf);
    [lia|apply list_elem_of_here|by left|]. cbn [mbind res_bind].
  destruct Hb as [->|(w & q & Hp & -> & Hin)].
  - exists 0, 0, runs. by split_and!; [| |left].
  - exists w, q, runs. split_and!; [done|done|right]. cbn in Hin.
    rewrite Forall_forall in Hf. specialize (Hf _ Hin). cbn in Hf. tauto.
Qed.
End MixedSpec.

(** The search for the highest mixed load ends after eight runs; its result is a
    mixed load that passed a run, not above the two single results, or nothing. *)
Theorem find_max_mixed_passed o world worker_max query_max h :
  countable_world world -> 0 < worker_max -> 0 < query_max -> worker_max + query_max <= INT_MAX ->
  exists w q runs,
    findMaxMixed (runAndPrint o world) worker_max query_max h = Done (w, q, h ++ runs) /\
    length runs = 8%nat /\
    ((w, q) = (0, 0) \/ 1 <= w <= worker_max /\ 1 <= q <= query_max /\ (w, q, true) ∈ runs).
Proof.
  intros Hc Hw Hq Hs. apply findMaxMixed_spec; [lia..|].
  intros h' w q Hw' Hq'. apply runAndPrint_ends; done || lia.
Qed.

(** ** A search that finds five *)

(** A thread whose single request succeeds, or fails. *)
Definition good_turns : list turn := [mk_turn 1000000000 1000000000 status_ok 1005000000 1005000000].
Definition bad_turns : list turn := [mk_turn 1000000000 1000000000 refused 1005000000 1005000000].

(** The runs under 1, 2, 4, 8, 6 and 5 workers, the fourth and the fifth failing. *)
Definition five_world (n : nat) : observed :=
  mk_observed 0 (replicate 8 (if (n =? 3)%nat || (n =? 4)%nat then bad_turns else good_turns))
    (replicate 8 good_turns) 2000000000.

Definition eight : Options.t :=
  Options.set_max_query_concurrency 8 (Options.set_max_worker_concurrency 8 Options.initial).

Lemma five_world_countable : countable_world five_world.
Proof. intros n. unfold five_world. destruct (_ || _); vm_compute; split; reflexivity. Qed.

Lemma find_max_single_maximal_witness :
  exists best runs, findMaxSingle eight five_world true [] = Done (best, runs) /\ best = 5 /\
    (5, 0, true) ∈ runs /\ (6, 0, false) ∈ runs /\ length runs = 6%nat.
Proof.
  destruct (find_max_single_maximal eight five_world true [] five_world_countable
    ltac:(vm_compute; split; [reflexivity|discriminate])) as (best & runs & E & (_ & Hb & Hn) & _).
  exists best, runs. split; [exact E|]. vm_compute in E. injection E as <- <-.
  split; [reflexivity|]. split; [by destruct Hb|]. split; [by destruct Hn|reflexivity].
Defined.

Lemma find_max_mixed_passed_witness :
  exists w q runs, findMaxMixed (runAndPrint eight five_world) 5 8 [] = Done (w, q, runs) /\
    length runs = 8%nat /\ (w, q, true) ∈ runs.
Proof.
  destruct (find_max_mixed_passed eight five_world 5 8 [] five_world_countable)
    as (w & q & runs & E & Hl & Hr); [lia..|vm_compute; discriminate|].
  exists w, q, runs. split; [exact E|]. split; [exact Hl|].
  destruct Hr as [Hz|(_ & _ & Hin)]; [|exact Hin]. exfalso.
  injection Hz as -> ->. vm_compute in E. discriminate.
Defined.
