(* ===== verification/StressSamples.v ===== *)
(** * StressSamples: the messages of the stress test

    [workerName], [workerIp] and [makeMonitorInfo] of
    [src/tests/manager_stress_test.cpp].  A message is a function of the worker's
    number, an [int], and of the sequence number, a [uint64_t]; the unsigned
    arithmetic of the counters is written with its wrap-around. *)

From S2P Require Import Prelude CFloat CString ManagerConfig Messages HostManager.
From Stdlib Require Import Ascii.

(** Unsigned addition and multiplication in 64 bits. *)
Notation "x +u y" := (u64_add x y) (at level 50, left associativity).
Notation "x *u y" := (u64_wrap (x * y)) (at level 40, left associativity).

(** [std::min] and [std::max] of floating point numbers. *)
Definition fmin (a b : spec_float) : spec_float := if flt b a then b else a.
Definition fmax (a b : spec_float) : spec_float := if flt a b then b else a.

(** [std::setw(n) << std::setfill('0')]. *)
Fixpoint zeros (n : nat) : string :=
  match n with O => "" | S n => String "0" (zeros n) end.
Definition zero_padded (width : nat) (s : string) : string :=
  zeros (width - String.length s) +++ s.

Definition workerName (id : Z) : string := "stress-worker-" +++ zero_padded 4 (to_string id).

Definition workerIp (id : Z) : string :=
  "10.250." +++ to_string (Z.rem (Z.quot id 200) 200) +++ "." +++ to_string (10 + Z.rem id 200).

Section Sample.
Variables (worker_id sequence : Z).

(** [static_cast<uint64_t>(worker_id)], also where an [int] meets a [uint64_t]. *)
Definition u64_of_int (z : Z) : Z := u64_wrap z.

Definition cycle_number : Z := (sequence +u u64_of_int worker_id) mod 60.
Definition cycle : f32 := f32_of_Z cycle_number.

Definition lit32 (n d : positive) : f32 := f32_lit n d.
Definition lit64 (n d : positive) : f64 := f64_lit n d.

(** [c + cycle * s] in [float]; in [double], with [cycle] promoted. *)
Definition line32 (c : f32) (s : f32) (cycle : f32) : f32 := f32_add c (f32_mul cycle s).
Definition line64 (c s : f64) (cycle : f32) : f64 := f64_add c (f64_mul (f64_of_f32 cycle) s).

Definition cpu_percent_of (cycle : f32) : f32 :=
  fmin (f32_of_Z 95) (line32 (f32_of_Z 20) (lit32 7 10) cycle).
Definition mem_percent_of (cycle : f32) : f32 :=
  fmin (f32_of_Z 90) (line32 (f32_of_Z 35) (lit32 1 2) cycle).

(** [x * 0.nf]. *)
Definition hundredths (n : positive) (x : f32) : f32 := f32_mul x (lit32 n 100).

Definition cpu_of (cycle : f32) : CpuStat.t :=
  let cpu := cpu_percent_of cycle in
  CpuStat.mk "cpu" cpu (hundredths 55 cpu) (hundredths 25 cpu) (hundredths 1 cpu) (f32_sub (f32_of_Z 100) cpu)
    (hundredths 12 cpu) (hundredths 2 cpu) (hundredths 5 cpu).

Definition load_of (cycle : f32) : CpuLoad.t :=
  CpuLoad.mk (line32 (lit32 4 10) (lit32 3 100) cycle)
    (line32 (lit32 35 100) (lit32 25 1000) cycle) (line32 (lit32 3 10) (lit32 2 100) cycle).

Definition mem_of (cycle : f32) : MemInfo.t :=
  let percent := mem_percent_of cycle in
  let total := f32_of_Z 32768 in
  let used := f32_div (f32_mul total percent) (f32_of_Z 100) in
  MemInfo.mk total (f32_sub total used) (f32_sub total (hundredths 75 used)) (f32_of_Z 512) (f32_of_Z 4096)
    fzero (hundredths 60 used) (hundredths 20 used) (hundredths 30 used) (hundredths 10 used) (hundredths 25 used) (hundredths 10 used) (f32_of_Z 64) (f32_of_Z 4)
    (hundredths 25 used) (hundredths 8 used) (f32_of_Z 768) (f32_of_Z 512) (f32_of_Z 256) percent.

Definition net_of (cycle : f32) : NetInfo.t :=
  NetInfo.mk "eth0" (line32 (f32_of_Z 600000) (f32_of_Z 10000) cycle)
    (line32 (f32_of_Z 900000) (f32_of_Z 12000) cycle) (f32_add (f32_of_Z 800) cycle)
    (f32_add (f32_of_Z 1000) cycle) 0 0 0 0.

(** [2.0 * 1024 * 1024 + cycle * 1024]: the product is a [float]. *)
Definition byte_rate (mega : f64) (cycle : f32) : f64 :=
  f64_add (f64_mul (f64_mul mega (f64_of_Z 1024)) (f64_of_Z 1024))
    (f64_of_f32 (f32_mul cycle (f32_of_Z 1024))).

Definition disk_of (cycle : f32) : DiskInfo.t :=
  let d := f64_of_f32 cycle in
  (DiskInfo.mk "sda" (100000 +u sequence) (80000 +u sequence) (2000000 +u sequence *u 8)
    (1500000 +u sequence *u 8) (20000 +u sequence) (24000 +u sequence) (sequence mod 3)
    (30000 +u sequence) (45000 +u sequence)
    (byte_rate (f64_of_Z 2) cycle) (byte_rate (lit64 3 2) cycle)
    (f64_add (f64_of_Z 120) d) (f64_add (f64_of_Z 90) d)
    (line64 (lit64 12 10) (lit64 1 100) cycle) (line64 (lit64 15 10) (lit64 1 100) cycle)
    (fmin (f64_of_Z 90) (line64 (f64_of_Z 20) (lit64 6 10) cycle))).

(** [worker_id % n], as an [int] and as an unsigned number. *)
Definition id_mod (n : Z) : Z := Z.rem worker_id n.
Definition every (n : Z) : bool := id_mod n =? 0.
Definition u_id : Z := u64_of_int worker_id.

Definition mysql_base : Z := 5000000 +u u_id *u 100000.
Definition mysql_delta : Z := sequence *u 1500.
Definition buffer_reads : Z := 900 +u u_id *u 5 +u sequence / 10.

(** [base / b + delta * n / 100]. *)
Definition share (base b delta n : Z) : Z := base / b +u delta *u n / 100.

Definition mysql_of (cycle : f32) : MysqlInfo.t :=
  let ip := workerIp worker_id in
  let part b n := share mysql_base b mysql_delta n in
  (MysqlInfo.mk (ip +++ ":3306") ip 3306 true "8.0.36" (if every 5 then "replica" else "primary")
    2000 (u64_of_int (100 + id_mod 80) +u sequence mod 25)
    (u64_of_int (6 + id_mod 12) +u sequence mod 4)
    (u64_of_int (Z.quot worker_id 4) +u sequence / 1000)
    (mysql_base +u mysql_delta) (part 2 65) (part 8 12) (part 10 10) (part 20 3) (part 6 16)
    (mysql_base / 250 +u mysql_delta / 100)
    (100 +u u_id +u sequence / 20)
    (buffer_reads *u 500) buffer_reads (lit64 992 10)
    (80 +u u_id *u 2 +u sequence / 15) (line64 (lit64 12 10) (lit64 2 100) cycle)
    (every 5) (every 5)
    (if every 5 then line64 (f64_of_Z 1) (lit64 5 100) cycle else fzero)).

Definition maxmemory : Z := 8 * 1024 * 1024 * 1024.
Definition used_memory : Z :=
  (2 *u 1024 *u 1024 *u 1024 +u u64_of_int (id_mod 64) *u 16 *u 1024 *u 1024 +u sequence *u 1024 *u 1024).
Definition redis_base : Z := 8000000 +u u_id *u 100000.
Definition redis_delta : Z := sequence *u 2000.
Definition hits : Z := share redis_base 2 redis_delta 88.
Definition misses : Z := share redis_base 25 redis_delta 7.

(** [static_cast<double>(a) / static_cast<double>(b) * 100.0]. *)
Definition percent_of (a b : Z) : f64 := f64_mul (f64_div (f64_of_Z a) (f64_of_Z b)) (f64_of_Z 100).

Definition redis_of (cycle : f32) : RedisInfo.t :=
  let ip := workerIp worker_id in
  (RedisInfo.mk (ip +++ ":6379") ip 6379 true "7.2.4" (if every 4 then "slave" else "master")
    (172800 +u sequence) (u64_of_int (180 + id_mod 120) +u sequence mod 40)
    (if every 17 && (sequence mod 10 =? 0) then 1 else 0) 10000
    used_memory maxmemory (line64 (lit64 112 100) (lit64 2 1000) cycle)
    (percent_of used_memory maxmemory)
    (redis_base +u redis_delta) (line64 (f64_of_Z 1200) (f64_of_Z 12) cycle)
    hits misses (percent_of hits (hits +u misses))
    (9000 +u u_id *u 10 +u sequence *u 5) (u64_of_int (id_mod 3) *u (sequence / 100))
    (if every 97 then sequence / 200 else 0) (if every 31 then sequence / 25 else 0)
    (redis_base *u 128 +u redis_delta *u 180) (redis_base *u 256 +u redis_delta *u 320)
    (every 4) (every 4) (if every 4 then 0 else u64_of_int (1 + id_mod 2))
    (if every 4 then line64 (f64_of_Z 1) (lit64 3 100) cycle else fzero)
    (20 +u u64_of_int (id_mod 10) +u sequence / 30)).

Definition softirq_of (cycle : f32) (core : Z) : SoftIrq.t :=
  let tenth := f32_mul cycle (lit32 1 10) in
  SoftIrq.mk ("cpu" +++ to_string core) cycle (f32_add (f32_of_Z 10) cycle)
    (f32_add (f32_of_Z 5) cycle) (f32_add (f32_of_Z 6) cycle)
    (f32_add (f32_of_Z 1) tenth) tenth (f32_mul cycle (lit32 2 10))
    (line32 (f32_of_Z 2) (lit32 3 10) cycle) tenth (line32 (f32_of_Z 1) (lit32 2 10) cycle).

Definition makeMonitorInfo : MonitorInfo.t :=
  let hostname := workerName worker_id in
  MonitorInfo.mk hostname (Some (HostInfo.mk hostname (workerIp worker_id)))
    (map (softirq_of cycle) [0; 1; 2; 3]) (Some (load_of cycle)) [cpu_of cycle]
    (Some (mem_of cycle)) [net_of cycle] [disk_of cycle] [mysql_of cycle] [redis_of cycle].
End Sample.

(** ** Every sample is in range

    The measurements are functions of the cycle, which has sixty values. *)

Definition in_range (lo hi x : spec_float) : bool := fle lo x && fle x hi.

Definition sample_in_range (n : Z) : bool :=
  let c := f32_of_Z n in
  let cpu := cpu_of c in
  let percent := in_range fzero (f32_of_Z 100) in
  let percent64 := in_range fzero (f64_of_Z 100) in
  percent (CpuStat.cpu_percent cpu) && percent (CpuStat.idle_percent cpu) &&
  fle (f32_add (CpuStat.usr_percent cpu) (CpuStat.system_percent cpu)) (CpuStat.cpu_percent cpu) &&
  percent (MemInfo.used_percent (mem_of c)) &&
  fle fzero (MemInfo.free (mem_of c)) && fle fzero (MemInfo.avail (mem_of c)) &&
  percent64 (DiskInfo.util_percent (disk_of 0 c)) &&
  in_range (f64_of_Z 35) (f64_of_Z 76) (calculateScore (makeMonitorInfo 0 n)).

Lemma cycle_number_range worker_id sequence : 0 <= cycle_number worker_id sequence < 60.
Proof. apply Z.mod_pos_bound. lia. Qed.

Lemma cycles_in_range :
  forallb (fun n => sample_in_range (Z.of_nat n)) (seq 0 60) = true.
Proof. by vm_compute. Qed.

Lemma score_of_cycle worker_id sequence :
  calculateScore (makeMonitorInfo worker_id sequence) =
  calculateScore (makeMonitorInfo 0 (cycle_number worker_id sequence)).
Proof.
  assert (E : cycle_number 0 (cycle_number worker_id sequence) = cycle_number worker_id sequence).
  { pose proof (cycle_number_range worker_id sequence) as H. unfold cycle_number at 1, u64_of_int.
    change (u64_wrap 0) with 0. unfold u64_add. rewrite Z.add_0_r, u64_wrap_small by lia.
    by apply Z.mod_small. }
  assert (Hd : forall s s' c, max_disk_util [disk_of s c] = max_disk_util [disk_of s' c]) by done.
  unfold calculateScore, makeMonitorInfo, cycle. rewrite E. cbn [MonitorInfo.disk_info].
  by rewrite (Hd sequence (cycle_number worker_id sequence)).
Qed.

(** The samples of the stress test are plausible for every worker and every
    sequence number, wrapped around or not: percentages are numbers from 0 to
    100, user and system time stay within the CPU time, no part of the memory is
    negative, and the score that the manager gives the host is between 35 and
    76. *)
Theorem stress_samples_in_range worker_id sequence :
  let i := makeMonitorInfo worker_id sequence in
  exists cpu mem disk,
    MonitorInfo.cpu_stat i = [cpu] /\ MonitorInfo.mem_info i = Some mem /\
    MonitorInfo.disk_info i = [disk] /\
    in_range fzero (f32_of_Z 100) (CpuStat.cpu_percent cpu) = true /\
    in_range fzero (f32_of_Z 100) (CpuStat.idle_percent cpu) = true /\
    fle (f32_add (CpuStat.usr_percent cpu) (CpuStat.system_percent cpu)) (CpuStat.cpu_percent cpu) = true /\
    in_range fzero (f32_of_Z 100) (MemInfo.used_percent mem) = true /\
    fle fzero (MemInfo.free mem) = true /\ fle fzero (MemInfo.avail mem) = true /\
    in_range fzero (f64_of_Z 100) (DiskInfo.util_percent disk) = true /\
    in_range (f64_of_Z 35) (f64_of_Z 76) (calculateScore i) = true.
Proof.
  intros i. exists (cpu_of (cycle worker_id sequence)), (mem_of (cycle worker_id sequence)),
    (disk_of sequence (cycle worker_id sequence)).
  do 3 (split; [reflexivity|]). unfold i. rewrite score_of_cycle.
  pose proof (cycle_number_range worker_id sequence) as Hc. pose proof cycles_in_range as H.
  rewrite forallb_forall in H.
  specialize (H (Z.to_nat (cycle_number worker_id sequence)) ltac:(apply in_seq; lia)).
  rewrite Z2Nat.id in H by lia. unfold sample_in_range in H.
  do 7 (apply andb_true_iff in H as [H ?]). by split_and!.
Qed.

(** ** Every worker is a host of its own *)

Lemma read_digits_zeros n s : read_digits 0 (zeros n +++ s) = read_digits 0 s.
Proof. induction n as [|n IH]; [done|]. cbn [zeros]. rewrite append_cons. cbn. apply IH. Qed.

Lemma worker_names_differ id id' s s' :
  0 <= id -> 0 <= id' ->
  workerName id +++ String "_" s = workerName id' +++ String "_" s' -> id = id'.
Proof.
  unfold workerName, zero_padded. intros Hi Hi' H. rewrite !append_assoc in H.
  apply (inj (String.append "stress-worker-")) in H.
  apply (f_equal (fun t => (read_digits 0 t).1)) in H. rewrite !read_digits_zeros in H.
  by rewrite !read_digits_app with (n := _) in H by (done || by apply to_string_digits).
Qed.

Lemma stress_host_id worker_id sequence :
  hostID (makeMonitorInfo worker_id sequence) = workerName worker_id +++ "_" +++ workerIp worker_id.
Proof. done. Qed.

(** Two samples of the stress test come from the same host of the manager only
    when they come from the same worker. *)
Theorem stress_hosts_differ id id' sequence sequence' :
  0 <= id -> 0 <= id' ->
  hostID (makeMonitorInfo id sequence) = hostID (makeMonitorInfo id' sequence') -> id = id'.
Proof. intros Hi Hi'. rewrite !stress_host_id. by apply worker_names_differ. Qed.

Lemma stress_hosts_differ_witness : 7 = 7 /\ hostID (makeMonitorInfo 7 1) = hostID (makeMonitorInfo 7 2).
Proof. split; [by apply (stress_hosts_differ 7 7 1 2)|by vm_compute]. Defined.

(** ** The counters of a worker never go back *)

Definition mysql_counters (m : MysqlInfo.t) : list Z :=
  [MysqlInfo.aborted_connects m; MysqlInfo.questions m; MysqlInfo.com_select m;
   MysqlInfo.com_insert m; MysqlInfo.com_update m; MysqlInfo.com_delete m; MysqlInfo.com_commit m;
   MysqlInfo.com_rollback m; MysqlInfo.slow_queries m;
   MysqlInfo.innodb_buffer_pool_read_requests m; MysqlInfo.innodb_buffer_pool_reads m;
   MysqlInfo.innodb_row_lock_waits m].

Definition redis_counters (r : RedisInfo.t) : list Z :=
  [RedisInfo.uptime_in_seconds r; RedisInfo.total_commands_processed r; RedisInfo.keyspace_hits r;
   RedisInfo.keyspace_misses r; RedisInfo.expired_keys r; RedisInfo.evicted_keys r;
   RedisInfo.rejected_connections r; RedisInfo.total_error_replies r;
   RedisInfo.total_net_input_bytes r; RedisInfo.total_net_output_bytes r].

(** Below this bound nothing wraps around. *)
Definition small_run (worker_id sequence : Z) : Prop :=
  0 <= worker_id < 2 ^ 31 /\ 0 <= sequence < 2 ^ 40.

Lemma mul_small a b : 0 <= a * b < 2 ^ 64 -> u64_wrap (a * b) = a * b.
Proof. apply u64_wrap_small. Qed.

Lemma add_small a b : 0 <= a < 2 ^ 63 -> 0 <= b < 2 ^ 63 -> u64_add a b = a + b.
Proof. intros. apply u64_wrap_small. lia. Qed.

(** Removes wrap-arounds from the inside out. *)
Ltac flat x :=
  lazymatch x with context [u64_wrap _] => fail | context [u64_add _ _] => fail | _ => idtac end.
Ltac no_wrap :=
  repeat match goal with
  | |- context [u64_wrap (?a * ?b)] =>
      flat a; flat b; rewrite (mul_small a b) by (Z.to_euclidean_division_equations; lia)
  | |- context [u64_add ?a ?b] =>
      flat a; flat b; rewrite (add_small a b) by (Z.to_euclidean_division_equations; lia)
  end.

Section Small.
Variables (id s : Z).
Hypothesis Hsmall : small_run id s.

Lemma u_id_small : u_id id = id.
Proof using Hsmall. apply u64_wrap_small. unfold small_run in Hsmall. lia. Qed.

Lemma mysql_base_small : mysql_base id = 5000000 + id * 100000.
Proof using Hsmall.
  unfold mysql_base, small_run in *. rewrite u_id_small. by no_wrap.
Qed.

Lemma redis_base_small : redis_base id = 8000000 + id * 100000.
Proof using Hsmall.
  unfold redis_base, small_run in *. rewrite u_id_small. by no_wrap.
Qed.

Lemma mysql_delta_small : mysql_delta s = s * 1500.
Proof using Hsmall. unfold small_run in *. apply mul_small; lia. Qed.

Lemma redis_delta_small : redis_delta s = s * 2000.
Proof using Hsmall. unfold small_run in *. apply mul_small; lia. Qed.

Lemma buffer_reads_small : buffer_reads id s = 900 + id * 5 + s / 10.
Proof using Hsmall.
  unfold buffer_reads, small_run in *. rewrite u_id_small. by no_wrap.
Qed.

Lemma share_small base b delta n :
  0 <= base < 2 ^ 62 -> 0 < b -> 0 <= delta < 2 ^ 51 -> 0 <= n < 100 ->
  share base b delta n = base / b + delta * n / 100.
Proof using.
  intros Hb Hp Hd Hn. unfold share. rewrite (u64_wrap_small (delta * n)) by nia.
  assert (0 <= base / b <= base).
  { split; [apply Z.div_pos; lia|apply Z.div_le_upper_bound; nia]. }
  assert (0 <= delta * n / 100 < 2 ^ 51).
  { split; [apply Z.div_pos; nia|apply Z.div_lt_upper_bound; nia]. }
  apply add_small; lia.
Qed.
End Small.

Lemma share_grows base b delta delta' n :
  0 <= base < 2 ^ 62 -> 0 < b -> 0 <= delta <= delta' -> delta' < 2 ^ 51 -> 0 <= n < 100 ->
  share base b delta n <= share base b delta' n.
Proof.
  intros. rewrite !share_small by lia. apply Z.add_le_mono_l, Z.div_le_mono; [lia|nia].
Qed.

Ltac counter :=
  first [apply share_grows; lia
        |no_wrap; Z.to_euclidean_division_equations; lia].

Lemma mysql_counters_grow id s s' c c' :
  small_run id s -> small_run id s' -> s <= s' ->
  Forall2 Z.le (mysql_counters (mysql_of id s c)) (mysql_counters (mysql_of id s' c')).
Proof.
  intros H H' Hle. unfold mysql_counters, mysql_of.
  cbn [MysqlInfo.aborted_connects MysqlInfo.questions MysqlInfo.com_select MysqlInfo.com_insert
    MysqlInfo.com_update MysqlInfo.com_delete MysqlInfo.com_commit MysqlInfo.com_rollback
    MysqlInfo.slow_queries MysqlInfo.innodb_buffer_pool_read_requests
    MysqlInfo.innodb_buffer_pool_reads MysqlInfo.innodb_row_lock_waits].
  rewrite (u_id_small id s H), (mysql_base_small id s H), (mysql_delta_small id s H),
    (mysql_delta_small id s' H'), (buffer_reads_small id s H), (buffer_reads_small id s' H').
  destruct H as [Hi Hs], H' as [_ Hs'].
  assert (Hq : u64_of_int (Z.quot id 4) = id / 4).
  { unfold u64_of_int. rewrite Z.quot_div_nonneg by lia.
    apply u64_wrap_small. Z.to_euclidean_division_equations; lia. }
  rewrite Hq. repeat (apply Forall2_cons; split); [counter..|constructor].
Qed.

Lemma redis_counters_grow id s s' c c' :
  small_run id s -> small_run id s' -> s <= s' ->
  Forall2 Z.le (redis_counters (redis_of id s c)) (redis_counters (redis_of id s' c')).
Proof.
  intros H H' Hle. unfold redis_counters, redis_of, hits, misses.
  cbn [RedisInfo.uptime_in_seconds RedisInfo.total_commands_processed RedisInfo.keyspace_hits
    RedisInfo.keyspace_misses RedisInfo.expired_keys RedisInfo.evicted_keys
    RedisInfo.rejected_connections RedisInfo.total_error_replies
    RedisInfo.total_net_input_bytes RedisInfo.total_net_output_bytes].
  rewrite (u_id_small id s H), (redis_base_small id s H), (redis_delta_small id s H),
    (redis_delta_small id s' H').
  destruct H as [Hi Hs], H' as [_ Hs'].
  assert (Hq : u64_of_int (id_mod id 3) = id mod 3 /\ 0 <= id mod 3 < 3).
  { unfold u64_of_int, id_mod. rewrite Z.rem_mod_nonneg by lia. split; [|apply Z.mod_pos_bound; lia].
    apply u64_wrap_small. pose proof (Z.mod_pos_bound id 3). lia. }
  destruct Hq as [-> Hq]. set (r := id mod 3) in *.
  repeat (apply Forall2_cons; split); [| | | | | |destruct (every id 97)|destruct (every id 31)| | |constructor];
    try counter.
  assert (Hd : 0 <= s / 100 <= s' / 100 /\ s' / 100 < 2 ^ 40) by (Z.to_euclidean_division_equations; lia).
  rewrite !mul_small by nia. apply Z.mul_le_mono_nonneg_l; lia.
Qed.

(** Between two messages of a worker no counter of its MySQL and Redis instances
    goes back, so the manager never takes one for a restarted server. *)
Theorem stress_counters_grow worker_id s s' :
  small_run worker_id s -> small_run worker_id s' -> s <= s' ->
  exists m m' r r',
    MonitorInfo.mysql_info (makeMonitorInfo worker_id s) = [m] /\
    MonitorInfo.mysql_info (makeMonitorInfo worker_id s') = [m'] /\
    MonitorInfo.redis_info (makeMonitorInfo worker_id s) = [r] /\
    MonitorInfo.redis_info (makeMonitorInfo worker_id s') = [r'] /\
    Forall2 Z.le (mysql_counters m) (mysql_counters m') /\
    Forall2 Z.le (redis_counters r) (redis_counters r').
Proof.
  intros H H' Hle. do 4 eexists. do 4 (split; [reflexivity|]).
  split; [by apply mysql_counters_grow|by apply redis_counters_grow].
Qed.

Lemma stress_counters_grow_witness :
  exists r r', MonitorInfo.redis_info (makeMonitorInfo 5 100) = [r] /\
    MonitorInfo.redis_info (makeMonitorInfo 5 1000) = [r'] /\
    Forall2 Z.le (redis_counters r) (redis_counters r').
Proof.
  destruct (stress_counters_grow 5 100 1000) as (m & m' & r & r' & _ & _ & Hr & Hr' & _ & Hle);
    [unfold small_run; lia..|lia|]. exists r, r'. split; [exact Hr|]. split; [exact Hr'|exact Hle].
Defined.
