(* ===== verification/SimulatedWorkers.v ===== *)
(** * SimulatedWorkers: the program that plays several workers

    [src/tests/simulated_workers_push.cpp]: the random sample of a worker and a
    round, the rounds of a worker, the command line and [main].

    The generator [std::mt19937] with [std::uniform_real_distribution] is a
    parameter: a state, its seeding, and a draw between two bounds.  The
    arithmetic on [int] is checked: an overflow is undefined. *)

From S2P Require Import Prelude CFloat CString ManagerConfig Messages HostManager Grpc StressSamples.

Section Generator.
Context {R : Type}.
Variable seed : Z -> R.
Variable nextFloat : R -> f32 -> f32 -> f32 * R.

(** Code that draws numbers and computes with [int]s. *)
Definition drawing (A : Type) : Type := R -> res (A * R).
#[local] Instance drawing_ret : MRet drawing := fun A a r => Done (a, r).
#[local] Instance drawing_bind : MBind drawing := fun A B f x r =>
  '(a, r) ← x r; f a r.

Definition draw (lo hi : f32) : drawing f32 := fun r => Done (nextFloat r lo hi).
Definition int (z : Z) : drawing Z := fun r => v ← or_undefined (i32_checked z); mret (v, r).

Definition n32 (z : Z) : f32 := f32_of_Z z.
Definition n64 (z : Z) : f64 := f64_of_Z z.
Definition widened (x : f32) : f64 := f64_of_f32 x.

(** [c + worker_id * a], from left to right, in [float] and in [double]. *)
Definition plus32 (c : f32) (z : Z) (a : f32) : f32 := f32_add c (f32_mul (n32 z) a).
Definition plus64 (c : f64) (z : Z) (a : f64) : f64 := f64_add c (f64_mul (n64 z) a).

Definition worker_name (id : Z) : string := "worker-" +++ zero_padded 2 (to_string id).
Definition worker_ip (id : Z) : string := "10.10.0." +++ to_string (100 + id).

Section OneSample.
Variables worker_id round : Z.

Definition add_cpu (name : string) (base : f32) : drawing CpuStat.t :=
  x ← draw (n32 (-5)) (n32 5);
  let cpu_percent := fmin (n32 98) (fmax (n32 1) (f32_add base x)) in
  u ← draw (f32_lit 45 100) (f32_lit 60 100);
  s ← draw (f32_lit 20 100) (f32_lit 35 100);
  n ← draw fzero (f32_lit 3 100);
  i ← draw fzero (f32_lit 2 100);
  q ← draw (f32_lit 1 100) (f32_lit 4 100);
  let usr := f32_mul cpu_percent u in
  let system := f32_mul cpu_percent s in
  let nice := f32_mul cpu_percent n in
  let irq := f32_mul cpu_percent i in
  let soft_irq := f32_mul cpu_percent q in
  let io_wait := fmax fzero
    (f32_sub (f32_sub (f32_sub (f32_sub (f32_sub cpu_percent usr) system) nice) irq) soft_irq) in
  mret (CpuStat.mk name cpu_percent usr system nice (f32_sub (n32 100) cpu_percent) io_wait irq
          soft_irq).

Definition fillCpuStat : drawing (list CpuStat.t) :=
  let base := plus32 (plus32 (n32 18) worker_id (n32 8)) (Z.rem round 4) (n32 3) in
  let core n := add_cpu ("cpu" +++ to_string n) (plus32 base n (f32_lit 3 2)) in
  all ← add_cpu "cpu" base;
  c0 ← core 0; c1 ← core 1; c2 ← core 2; c3 ← core 3;
  mret [all; c0; c1; c2; c3].

Definition fillCpuLoad : drawing CpuLoad.t :=
  let base := plus32 (plus32 (f32_lit 4 10) worker_id (f32_lit 1 4)) (Z.rem round 3) (f32_lit 15 100) in
  a ← draw fzero (f32_lit 25 100);
  b ← draw fzero (f32_lit 20 100);
  c ← draw fzero (f32_lit 15 100);
  mret (CpuLoad.mk (f32_add base a) (f32_add base b) (f32_add base c)).

Definition fillMemory : drawing MemInfo.t :=
  let total := n32 32768 in
  x ← draw (n32 (-2)) (n32 2);
  let used_percent := fmin (n32 92)
    (f32_add (plus32 (plus32 (n32 25) worker_id (n32 8)) round (f32_lit 12 10)) x) in
  let used := f32_div (f32_mul total used_percent) (n32 100) in
  let free := f32_sub total used in
  k ← draw (f32_lit 12 100) (f32_lit 20 100);
  let cached := f32_mul total k in
  b ← draw (f32_lit 1 100) (f32_lit 3 100);
  let buffers := f32_mul total b in
  swap ← draw fzero (n32 128);
  dirty ← draw (n32 20) (n32 200);
  writeback ← draw fzero (n32 20);
  mret (MemInfo.mk total free (fmin total (f32_add (f32_add free cached) buffers)) buffers cached swap
          (hundredths 55 used) (hundredths 20 used) (hundredths 35 used) (hundredths 10 used)
          (hundredths 20 used) (hundredths 10 used) dirty writeback (hundredths 32 used)
          (hundredths 8 used) (hundredths 3 total) (hundredths 2 total) (hundredths 1 total)
          used_percent).

Definition fillNet : drawing NetInfo.t :=
  a ← draw fzero (n32 80);
  b ← draw fzero (n32 120);
  c ← draw fzero (n32 50);
  e ← draw fzero (n32 70);
  mret (NetInfo.mk "eth0"
    (f32_add (plus32 (plus32 (n32 600) worker_id (n32 95)) round (n32 20)) a)
    (f32_add (plus32 (plus32 (n32 900) worker_id (n32 130)) round (n32 35)) b)
    (f32_add (plus32 (n32 500) worker_id (n32 20)) c)
    (f32_add (plus32 (n32 700) worker_id (n32 30)) e)
    (if (worker_id =? 5) && (Z.rem round 4 =? 0) then 1 else 0) 0
    (if (worker_id =? 4) && (Z.rem round 5 =? 0) then 2 else 0) 0).

(** [c + worker_id * a + round * b] in [int], then [uint64_t]. *)
Definition counter (c a b : Z) : drawing Z :=
  v ← int (c + worker_id * a + round * b); mret (u64_of_int v).

Definition byte_rate_of (mega : f64) (per_worker : Z) (hi : f32) : drawing f64 :=
  w ← int (worker_id * per_worker * 1024);
  x ← draw fzero hi;
  mret (f64_add (f64_add (f64_mul (f64_mul mega (n64 1024)) (n64 1024)) (n64 w)) (widened x)).

(** [c + worker_id * a + nextFloat(0, hi)] in [double]. *)
Definition level (c a : f64) (hi : f32) : drawing f64 :=
  x ← draw fzero hi; mret (f64_add (plus64 c worker_id a) (widened x)).

Definition fillDisk : drawing DiskInfo.t :=
  reads ← counter 100000 1000 80;
  writes ← counter 80000 900 70;
  sectors_read ← counter 2000000 10000 4096;
  sectors_written ← counter 1500000 9000 3072;
  read_time ← counter 20000 500 30;
  write_time ← counter 24000 450 25;
  io_time ← counter 30000 300 20;
  weighted ← counter 45000 500 40;
  rb ← byte_rate_of (n64 2) 128 (n32 262144);
  wb ← byte_rate_of (f64_lit 3 2) 96 (n32 204800);
  ri ← level (n64 100) (n64 8) (n32 20);
  wi ← level (n64 80) (n64 7) (n32 15);
  rl ← level (n64 1) (f64_lit 2 10) (f32_lit 8 10);
  wl ← level (f64_lit 14 10) (f64_lit 25 100) (n32 1);
  u ← draw fzero (n32 6);
  mret (DiskInfo.mk "sda" reads writes sectors_read sectors_written read_time write_time
    (u64_of_int (Z.rem round 3)) io_time weighted rb wb ri wi rl wl
    (fmin (n64 95) (f64_add (plus64 (plus64 (n64 10) worker_id (n64 7)) round (f64_lit 3 2)) (widened u)))).

Definition soft_irq_of (core : Z) : drawing SoftIrq.t :=
  hi ← draw fzero (n32 1);
  timer ← draw (n32 1) (n32 4);
  net_tx ← draw (f32_lit 1 2) (n32 3);
  net_rx ← draw (f32_lit 1 2) (n32 4);
  block ← draw fzero (f32_lit 3 2);
  irq_poll ← draw fzero (f32_lit 8 10);
  tasklet ← draw fzero (n32 1);
  sched ← draw (f32_lit 1 2) (f32_lit 5 2);
  hrtimer ← draw fzero (n32 1);
  rcu ← draw (f32_lit 1 2) (n32 2);
  mret (SoftIrq.mk ("cpu" +++ to_string core) hi timer net_tx net_rx block irq_poll tasklet sched
          hrtimer rcu).

Definition fillSoftIrq : drawing (list SoftIrq.t) :=
  c0 ← soft_irq_of 0; c1 ← soft_irq_of 1; c2 ← soft_irq_of 2; c3 ← soft_irq_of 3;
  mret [c0; c1; c2; c3].

Definition u_worker : Z := u64_of_int worker_id.
Definition u_round : Z := u64_of_int round.
Definition w_every (n : Z) : bool := Z.rem worker_id n =? 0.

Definition fillMysql : drawing MysqlInfo.t :=
  let host := worker_ip worker_id in
  let base := 1000000 +u u_worker *u 50000 in
  let delta := u_round *u 1200 in
  let buffer_reads := 600 +u u_worker *u 20 +u u_round *u 2 in
  connected ← int (80 + worker_id * 7 + Z.rem round 20);
  running ← int (4 + Z.rem worker_id 8 + Z.rem round 5);
  aborted ← int (Z.quot worker_id 3 + Z.quot round 20);
  hit ← draw fzero (f32_lit 7 10);
  lock ← level (n64 1) (f64_lit 15 100) (f32_lit 8 10);
  lag ← (if w_every 5 then x ← draw fzero (f32_lit 5 2); mret (widened x) else mret fzero);
  mret (MysqlInfo.mk (host +++ ":3306") host 3306 true "8.0.36"
    (if w_every 5 then "replica" else "primary") 2000 (u64_of_int connected) (u64_of_int running)
    (u64_of_int aborted) (base +u delta)
    (share base 2 delta 65) (share base 8 delta 12) (share base 10 delta 10) (share base 20 delta 3)
    (share base 6 delta 16) (base / 200 +u delta / 100)
    (20 +u u_worker *u 2 +u u64_of_int (Z.quot round 4)) (buffer_reads *u 450) buffer_reads
    (f64_add (n64 99) (widened hit)) (40 +u u_worker *u 3 +u u64_of_int (Z.quot round 3)) lock
    (w_every 5) (w_every 5) lag).

Definition fillRedis : drawing RedisInfo.t :=
  let host := worker_ip worker_id in
  let used := 1800 *u 1024 *u 1024 +u u_worker *u 96 *u 1024 *u 1024 +u u_round *u 16 *u 1024 *u 1024 in
  let base := 2000000 +u u_worker *u 70000 in
  let delta := u_round *u 1500 in
  let hits := share base 2 delta 85 in
  let misses := share base 20 delta 8 in
  clients ← int (120 + worker_id * 5 + Z.rem round 30);
  frag ← draw fzero (f32_lit 18 100);
  ops ← level (n64 800) (n64 18) (n32 120);
  last_io ← (if w_every 4 then x ← draw fzero (n32 3); mret (widened x) else mret fzero);
  mret (RedisInfo.mk (host +++ ":6379") host 6379 true "7.2.4"
    (if w_every 4 then "slave" else "master") (86400 +u u_round *u 2) (u64_of_int clients)
    (if w_every 6 && (Z.rem round 5 =? 0) then 1 else 0) 10000 used maxmemory
    (f64_add (f64_lit 108 100) (widened frag)) (percent_of used maxmemory) (base +u delta) ops hits misses
    (percent_of hits (hits +u misses)) (4000 +u u_worker *u 20 +u u_round *u 6)
    (u64_of_int (Z.rem worker_id 3) *u u64_of_int (Z.quot round 10))
    (u64_of_int (if w_every 7 then Z.quot round 30 else 0))
    (u64_of_int (if w_every 5 then Z.quot round 8 else 0))
    (base *u 128 +u delta *u 180) (base *u 256 +u delta *u 320) (w_every 4) (w_every 4)
    (if w_every 4 then 0 else u64_of_int (1 + Z.rem worker_id 2)) last_io
    (5 +u u_worker +u u64_of_int (Z.quot round 6))).

(** The parts in the order in which they draw. *)
Definition fill : drawing MonitorInfo.t :=
  let hostname := worker_name worker_id in
  cpu ← fillCpuStat;
  load ← fillCpuLoad;
  mem ← fillMemory;
  net ← fillNet;
  disk ← fillDisk;
  soft_irq ← fillSoftIrq;
  mysql ← fillMysql;
  redis ← fillRedis;
  mret (MonitorInfo.mk hostname (Some (HostInfo.mk hostname (worker_ip worker_id))) soft_irq (Some load)
          cpu (Some mem) [net] [disk] [mysql] [redis]).

Definition makeMonitorInfo : res MonitorInfo.t :=
  s ← or_undefined (i32_checked (worker_id * 1000 + round));
  '(info, _) ← fill (seed (u32_wrap s));
  mret info.
End OneSample.
End Generator.

(** ** The rounds of a worker *)

(** [parsePositiveInt] and [parseNonNegativeInt] with a fallback. *)
Definition parsePositiveInt (value : string) (fallback : Z) : Z :=
  match strtol value with
  | Some (parsed, rest) => if negb (is_empty rest) || (parsed <=? 0) then fallback else i32_wrap parsed
  | None => fallback
  end.

Definition parseNonNegativeInt (value : string) (fallback : Z) : Z :=
  match strtol value with
  | Some (parsed, rest) => if negb (is_empty rest) || (parsed <? 0) then fallback else i32_wrap parsed
  | None => fallback
  end.

Section Rounds.
Context {R : Type}.
Variable seed : Z -> R.
Variable nextFloat : R -> f32 -> f32 -> f32 * R.
(** The status that each push gets. *)
Variable answer : Z -> MonitorInfo.t -> Z -> Status.

Definition pushOnce (worker_id round : Z) : res bool :=
  info ← makeMonitorInfo seed nextFloat worker_id round;
  mret (ok (answer worker_id info round)).

(** What a worker has done: still running, or ended, with its successes and
    failures. *)
Inductive progress := Running (success failure : Z) | Ended (success failure : Z).

(** [turns] turns of the loop of [runWorker], from [round] on. *)
Fixpoint runWorker (turns : nat) (worker_id rounds round success failure : Z) : res progress :=
  match turns with
  | O => Done (Running success failure)
  | S turns =>
      if (rounds =? 0) || (round <=? rounds) then
        pushed ← pushOnce worker_id round;
        let success := if (pushed : bool) then success + 1 else success in
        let failure := if (pushed : bool) then failure else failure + 1 in
        if negb (rounds =? 0) && (round =? rounds) then Done (Ended success failure)
        else
          round ← or_undefined (i32_checked (round + 1));
          runWorker turns worker_id rounds round success failure
      else Done (Ended success failure)
  end.

(** ** main *)

Record arguments := mk_arguments {
  manager_address : string; worker_count : Z; interval_seconds : Z; rounds : Z }.

Definition read_arguments (args : list string) : arguments :=
  let arg n := args !! n in
  mk_arguments (default "localhost:50051" (arg 0%nat))
    (match arg 1%nat with Some s => parsePositiveInt s 5 | None => 5 end)
    (match arg 2%nat with Some s => parsePositiveInt s 2 | None => 2 end)
    (match arg 3%nat with Some s => parseNonNegativeInt s 5 | None => 5 end).

(** The workers [1 .. n], all of which must end for the joins to return; the
    counters are shared and atomic, so only the sums matter, and they wrap. *)
Fixpoint run_workers (turns : nat) (ids : list Z) (rounds success failure : Z) : res progress :=
  match ids with
  | [] => Done (Ended success failure)
  | id :: ids =>
      p ← runWorker turns id rounds 1 0 0;
      match p with
      | Ended s f => run_workers turns ids rounds (i32_wrap (success + s)) (i32_wrap (failure + f))
      | Running s f => Done (Running (i32_wrap (success + s)) (i32_wrap (failure + f)))
      end
  end.

Definition worker_ids (n : Z) : list Z := map (fun k => Z.of_nat (S k)) (seq 0 (Z.to_nat n)).

(** The exit code after [turns] turns of every worker, [None] when one is still
    running.  A vector of a negative capacity throws. *)
Definition main (turns : nat) (args : list string) : res (option Z) :=
  if match args with arg :: _ => String.eqb arg "--help" | [] => false end then Done (Some 0)
  else
    let a := read_arguments args in
    if worker_count a <? 0 then Throws
    else
      p ← run_workers turns (worker_ids (worker_count a)) (rounds a) 0 0;
      mret (match p with
            | Ended _ failure => Some (if failure =? 0 then 0 else 1)
            | Running _ _ => None
            end).
End Rounds.

(** ** Drawing code that ends *)

Section Draws.
Context {R : Type}.
Variable nextFloat : R -> f32 -> f32 -> f32 * R.
#[local] Existing Instance drawing_ret.
#[local] Existing Instance drawing_bind.

(** Every run of [x] gives a result, and the result satisfies [P]. *)
Definition gives {A} (x : drawing (R := R) A) (P : A -> Prop) : Prop :=
  forall r, exists a r', x r = Done (a, r') /\ P a.

Lemma gives_ret {A} (a : A) (P : A -> Prop) : P a -> gives (mret a) P.
Proof using. intros Ha r. by exists a, r. Qed.

Lemma gives_bind {A B} (x : drawing A) (f : A -> drawing B) (P : A -> Prop) (Q : B -> Prop) :
  gives x P -> (forall a, P a -> gives (f a) Q) -> gives (x ≫= f) Q.
Proof using.
  intros Hx Hf r. destruct (Hx r) as (a & r1 & E & Ha). destruct (Hf a Ha r1) as (b & r2 & E2 & Hb).
  exists b, r2. split; [|done]. unfold mbind, drawing_bind. rewrite E. exact E2.
Qed.

Lemma gives_draw lo hi : gives (draw nextFloat lo hi) (fun _ => True).
Proof using. intros r. unfold draw. destruct (nextFloat r lo hi) as [x r']. eauto. Qed.

Lemma gives_int z : INT_MIN <= z <= INT_MAX -> gives (int z) (fun v => v = z).
Proof using.
  intros Hz r. exists z, r. split; [|done]. unfold int.
  by rewrite (proj2 (i32_checked_Some z z)).
Qed.

Ltac draws :=
  repeat first
    [ eapply gives_bind; [apply gives_draw|intros ? _]
    | eapply gives_bind; [apply gives_int; wrap_unfold; Z.to_euclidean_division_equations; lia|intros ? ->] ].
Ltac drawn := draws; by apply (gives_ret _ (fun _ => True)).

(** Whatever the generator draws, a simulated CPU percentage is a number from 1
    to 98 and the I/O wait is not below 0. *)
Definition cpu_in_range (c : CpuStat.t) : Prop :=
  fle (n32 1) (CpuStat.cpu_percent c) = true /\ fle (CpuStat.cpu_percent c) (n32 98) = true /\
  fle fzero (CpuStat.io_wait_percent c) = true.

Lemma clamped x lo hi :
  is_nan lo = false -> is_nan hi = false -> fle lo hi = true ->
  fle lo (fmin hi (fmax lo x)) = true /\ fle (fmin hi (fmax lo x)) hi = true.
Proof using.
  intros Hlo Hhi Hle. unfold fmin, fmax. destruct (flt lo x) eqn:E1.
  - destruct (flt_not_nan _ _ E1) as [_ Hx].
    destruct (flt x hi) eqn:E2; [by split; apply flt_fle|]. by split; [|apply fle_refl].
  - destruct (flt lo hi) eqn:E2; (split; [try apply fle_refl|]); try done. by apply fle_refl.
Qed.

Lemma fmax_zero x : fle fzero (fmax fzero x) = true.
Proof using. unfold fmax. destruct (flt fzero x) eqn:E; [by apply flt_fle|done]. Qed.

Lemma add_cpu_gives name base : gives (add_cpu nextFloat name base) cpu_in_range.
Proof using.
  unfold add_cpu. draws. apply gives_ret. unfold cpu_in_range.
  cbn [CpuStat.cpu_percent CpuStat.io_wait_percent].
  destruct (clamped (f32_add base a) (n32 1) (n32 98)) as [H1 H2]; [done..|].
  split_and!; [done|done|apply fmax_zero].
Qed.

Lemma fillCpuStat_gives worker_id round :
  gives (fillCpuStat nextFloat worker_id round) (Forall cpu_in_range).
Proof using.
  unfold fillCpuStat. do 5 (eapply gives_bind; [apply add_cpu_gives|intros ? ?]).
  apply gives_ret. by rewrite !Forall_cons.
Qed.

Lemma gives_any {A} (x : drawing A) P : gives x P -> gives x (fun _ => True).
Proof using. intros H r. destruct (H r) as (a & r' & E & _). eauto. Qed.

(** The numbers of a worker and a round for which no [int] overflows. *)
Section Small.
Variables worker_id round : Z.
Hypothesis worker_small : 1 <= worker_id <= 1000.
Hypothesis round_small : 1 <= round <= 500000.

Lemma counter_gives c a b :
  0 <= c + worker_id * a + round * b <= INT_MAX -> gives (counter worker_id round c a b) (fun _ => True).
Proof using. intros H. unfold counter. eapply gives_bind; [apply gives_int; wrap_unfold; lia|]. intros; by apply gives_ret. Qed.

Lemma byte_rate_gives mega p hi :
  0 <= p <= 128 -> gives (byte_rate_of nextFloat worker_id mega p hi) (fun _ => True).
Proof using worker_small.
  intros Hp. unfold byte_rate_of.
  eapply gives_bind; [apply gives_int; wrap_unfold; nia|]. intros ? _. drawn.
Qed.

Lemma level_gives c a hi : gives (level nextFloat worker_id c a hi) (fun _ => True).
Proof using. unfold level. drawn. Qed.

Lemma fillDisk_gives : gives (fillDisk nextFloat worker_id round) (fun _ => True).
Proof using worker_small round_small.
  unfold fillDisk.
  do 8 (eapply gives_bind; [apply counter_gives; wrap_unfold; lia|intros ? _]).
  do 2 (eapply gives_bind; [apply byte_rate_gives; lia|intros ? _]).
  do 4 (eapply gives_bind; [apply level_gives|intros ? _]).
  drawn.
Qed.

Lemma soft_irq_gives core : gives (soft_irq_of nextFloat core) (fun _ => True).
Proof using. unfold soft_irq_of. drawn. Qed.

Lemma optional_draw_gives (b : bool) hi :
  gives (if b then x ← draw nextFloat fzero hi; mret (widened x) else mret fzero) (fun _ => True).
Proof using. destruct b; draws; by apply gives_ret. Qed.

Lemma fillMysql_gives : gives (fillMysql nextFloat worker_id round) (fun _ => True).
Proof using worker_small round_small.
  unfold fillMysql. cbv zeta. draws. eapply gives_bind; [apply level_gives|intros ? _].
  eapply gives_bind; [apply optional_draw_gives|intros ? _]. by apply gives_ret.
Qed.

Lemma fillRedis_gives : gives (fillRedis nextFloat worker_id round) (fun _ => True).
Proof using worker_small round_small.
  unfold fillRedis. cbv zeta. draws. eapply gives_bind; [apply level_gives|intros ? _].
  eapply gives_bind; [apply optional_draw_gives|intros ? _]. by apply gives_ret.
Qed.

(** What a message is good for: its host, its CPUs and nothing overflowed. *)
Definition message_of (m : MonitorInfo.t) : Prop :=
  hostID m = worker_name worker_id +++ "_" +++ worker_ip worker_id /\
  Forall cpu_in_range (MonitorInfo.cpu_stat m).

Lemma fill_gives : gives (fill nextFloat worker_id round) message_of.
Proof using worker_small round_small.
  unfold fill. cbv zeta.
  eapply gives_bind; [apply fillCpuStat_gives|intros cpu Hcpu].
  eapply gives_bind; [unfold fillCpuLoad; drawn|intros ? _].
  eapply gives_bind; [unfold fillMemory; drawn|intros ? _].
  eapply gives_bind; [unfold fillNet; drawn|intros ? _].
  eapply gives_bind; [apply fillDisk_gives|intros ? _].
  eapply gives_bind.
  { unfold fillSoftIrq. do 4 (eapply gives_bind; [apply soft_irq_gives|intros ? _]).
    by apply (gives_ret _ (fun _ => True)). }
  intros ? _. eapply gives_bind; [apply fillMysql_gives|intros ? _].
  eapply gives_bind; [apply fillRedis_gives|intros ? _]. by apply gives_ret.
Qed.

Lemma makeMonitorInfo_gives (seed : Z -> R) :
  exists m, makeMonitorInfo seed nextFloat worker_id round = Done m /\ message_of m.
Proof using worker_small round_small.
  unfold makeMonitorInfo. rewrite (proj2 (i32_checked_Some _ _)) by (split; [reflexivity|wrap_unfold; lia]).
  cbn [or_undefined mbind res_bind].
  destruct (fill_gives (seed (u32_wrap (worker_id * 1000 + round)))) as (m & r' & -> & Hm).
  by exists m.
Qed.
End Small.

Lemma bind_at {A B} (x : drawing (R := R) A) (f : A -> drawing B) r a r' :
  x r = Done (a, r') -> (x ≫= f) r = f a r'.
Proof using. intros E. unfold mbind, drawing_bind. by rewrite E. Qed.

(** A run that goes on for ever ([rounds] 0) reaches a round whose counters
    overflow an [int]: from round 524288 on the first worker has no message. *)
Theorem simulated_rounds_overflow (seed : Z -> R) : makeMonitorInfo seed nextFloat 1 524288 = Undefined.
Proof using.
  unfold makeMonitorInfo. change (or_undefined (i32_checked (1 * 1000 + 524288))) with (Done (525288 : Z)).
  cbn [mbind res_bind]. set (r := seed _). unfold fill. cbv zeta.
  destruct (fillCpuStat_gives 1 524288 r) as (cpu & r1 & E1 & _).
  assert (Hl : gives (fillCpuLoad nextFloat 1 524288) (fun _ => True))
    by (unfold fillCpuLoad; drawn).
  assert (Hm : gives (fillMemory nextFloat 1 524288) (fun _ => True))
    by (unfold fillMemory; drawn).
  assert (Hn : gives (fillNet nextFloat 1 524288) (fun _ => True))
    by (unfold fillNet; drawn).
  destruct (Hl r1) as (load & r2 & E2 & _), (Hm r2) as (mem & r3 & E3 & _), (Hn r3) as (net & r4 & E4 & _).
  by rewrite (bind_at _ _ _ _ _ E1), (bind_at _ _ _ _ _ E2), (bind_at _ _ _ _ _ E3),
    (bind_at _ _ _ _ _ E4).
Qed.
End Draws.

(** ** Every worker pushes every round *)

Section Counting.
Context {R : Type}.
Variable seed : Z -> R.
Variable nextFloat : R -> f32 -> f32 -> f32 * R.
Variable answer : Z -> MonitorInfo.t -> Z -> Status.

Lemma pushOnce_ends worker_id round :
  1 <= worker_id <= 1000 -> 1 <= round <= 500000 ->
  exists m, message_of worker_id m /\
    pushOnce seed nextFloat answer worker_id round = Done (ok (answer worker_id m round)).
Proof using.
  intros Hw Hr. destruct (makeMonitorInfo_gives nextFloat worker_id round Hw Hr seed) as (m & E & Hm).
  exists m. split; [done|]. unfold pushOnce. by rewrite E.
Qed.

(** The pushes of a worker from [round] to [rounds] that were not answered OK. *)
Definition failed_pushes (worker_id round rounds : Z) : Prop :=
  exists n, round <= n <= rounds /\ pushOnce seed nextFloat answer worker_id n = Done false.

Lemma runWorker_spec k : forall turns worker_id rounds round s f,
  1 <= worker_id <= 1000 -> 1 <= round -> rounds <= 500000 -> Z.of_nat k = rounds - round ->
  (k < turns)%nat ->
  exists s' f',
    runWorker seed nextFloat answer turns worker_id rounds round s f = Done (Ended (s + s') (f + f')) /\
    s' + f' = rounds - round + 1 /\ 0 <= s' /\ 0 <= f' /\
    (f' = 0 <-> ~ failed_pushes worker_id round rounds).
Proof using.
  induction k as [|k IH]; intros turns worker_id rounds round s f Hw Hr Hb Hk Ht;
    (destruct turns as [|turns]; [lia|]); cbn [runWorker];
    (rewrite (proj2 (Z.eqb_neq rounds 0)), (proj2 (Z.leb_le round rounds)) by lia); cbn [orb negb andb];
    destruct (pushOnce_ends worker_id round ltac:(lia) ltac:(lia)) as (m & _ & E);
    destruct (ok (answer worker_id m round)); rewrite E; cbn [mbind res_bind].
  - rewrite (proj2 (Z.eqb_eq round rounds)) by lia. exists 1, 0. rewrite Z.add_0_r. split_and!; try lia; [done|].
    split; [|done]. intros _ (n & Hn & Hf). replace n with round in Hf by lia. by rewrite E in Hf.
  - rewrite (proj2 (Z.eqb_eq round rounds)) by lia. exists 0, 1. rewrite Z.add_0_r. split_and!; try lia; [done|].
    split; [done|]. intros Hn. exfalso. apply Hn. exists round. split; [lia|done].
  - rewrite (proj2 (Z.eqb_neq round rounds)) by lia.
    rewrite (proj2 (i32_checked_Some _ _)) by (split; [reflexivity|wrap_unfold; lia]).
    cbn [or_undefined mbind res_bind].
    destruct (IH turns worker_id rounds (round + 1) (s + 1) f) as (s' & f' & -> & Hs & H1 & H2 & Hf); [lia..|].
    exists (1 + s'), f'. split_and!; [do 2 f_equal; lia|lia..|]. rewrite Hf. split; intros Hn (n & Hin & Hp).
    + apply Hn. exists n. split; [|done]. destruct (Z.eq_dec n round) as [->|]; [by rewrite E in Hp|lia].
    + apply Hn. exists n. split; [lia|done].
  - rewrite (proj2 (Z.eqb_neq round rounds)) by lia.
    rewrite (proj2 (i32_checked_Some _ _)) by (split; [reflexivity|wrap_unfold; lia]).
    cbn [or_undefined mbind res_bind].
    destruct (IH turns worker_id rounds (round + 1) s (f + 1)) as (s' & f' & -> & Hs & H1 & H2 & Hf); [lia..|].
    exists s', (1 + f'). split_and!; [do 2 f_equal; lia|lia..|]. split; [lia|].
    intros Hn. exfalso. apply Hn. exists round. split; [lia|done].
Qed.

Lemma run_workers_spec ids : forall turns rounds s f,
  Forall (fun id => 1 <= id <= 1000) ids -> 1 <= rounds <= 500000 -> (Z.to_nat rounds <= turns)%nat ->
  0 <= s -> 0 <= f -> s + f + Z.of_nat (length ids) * rounds <= INT_MAX ->
  exists s' f',
    run_workers seed nextFloat answer turns ids rounds s f = Done (Ended (s + s') (f + f')) /\
    s' + f' = Z.of_nat (length ids) * rounds /\ 0 <= s' /\ 0 <= f' /\
    (f' = 0 <-> forall id, id ∈ ids -> ~ failed_pushes id 1 rounds).
Proof using.
  induction ids as [|id ids IH]; intros turns rounds s f Hids Hr Ht Hs Hf Hmax; cbn [run_workers length] in *.
  - exists 0, 0. rewrite !Z.add_0_r. split_and!; try lia; [done|]. split; [|done].
    by intros _ id ?%not_elem_of_nil.
  - apply Forall_cons in Hids as [Hid Hids].
    destruct (runWorker_spec (Z.to_nat (rounds - 1)) turns id rounds 1 0 0) as (s1 & f1 & -> & Hsum & H1 & H2 & Hz);
      [lia..|]. cbn [mbind res_bind]. rewrite !Z.add_0_l.
    rewrite !i32_wrap_small by (wrap_unfold; nia).
    destruct (IH turns rounds (s + s1) (f + f1)) as (s2 & f2 & -> & Hsum2 & H3 & H4 & Hz2); [done|lia..|].
    exists (s1 + s2), (f1 + f2). split_and!; [do 2 f_equal; lia|lia..|]. split.
    + intros H0 id' [->|Hin]%elem_of_cons; [apply Hz; lia|]. apply Hz2; [lia|done].
    + intros Hall. assert (f1 = 0) by (apply Hz, Hall, list_elem_of_here).
      assert (f2 = 0) by (apply Hz2; intros; by apply Hall, list_elem_of_further). lia.
Qed.

Lemma worker_ids_range n : n <= 1000 -> Forall (fun id => 1 <= id <= 1000) (worker_ids n).
Proof using.
  intros Hn. unfold worker_ids. apply Forall_map, Forall_forall. intros k Hk%list_elem_of_In%in_seq. lia.
Qed.

Lemma elem_of_worker_ids id n : id ∈ worker_ids n <-> 1 <= id <= n.
Proof using.
  unfold worker_ids. rewrite list_elem_of_In, in_map_iff. setoid_rewrite in_seq. split.
  - intros (k & <- & Hk). lia.
  - intros Hid. exists (Z.to_nat (id - 1)). lia.
Qed.

(** The simulated workers end: with up to 1000 workers and 500000 rounds every
    worker pushes each of its rounds, and the exit code is 0 exactly when every
    push was answered OK. *)
Theorem simulated_workers_end turns args :
  let a := read_arguments args in
  hd_error args <> Some "--help" -> 1 <= worker_count a <= 1000 -> 1 <= rounds a <= 500000 ->
  (Z.to_nat (rounds a) <= turns)%nat ->
  exists code, main seed nextFloat answer turns args = Done (Some code) /\
    (code = 0 \/ code = 1) /\
    (code = 0 <-> forall id, 1 <= id <= worker_count a -> ~ failed_pushes id 1 (rounds a)).
Proof using.
  intros a Hh Hc Hr Ht.
  destruct (run_workers_spec (worker_ids (worker_count a)) turns (rounds a) 0 0)
    as (s & f & E & Hs & H1 & H2 & Hz); [apply worker_ids_range; lia|lia..| |].
  { unfold worker_ids. rewrite length_map, length_seq. wrap_unfold. nia. }
  assert (Em : main seed nextFloat answer turns args = Done (Some (if f =? 0 then 0 else 1))).
  { unfold main. fold a. rewrite (proj2 (Z.ltb_ge _ _)), E by lia.
    destruct args as [|arg args]; [done|]. destruct (String.eqb_spec arg "--help") as [->|]; [|done].
    by destruct Hh. }
  exists (if f =? 0 then 0 else 1). split; [done|].
  setoid_rewrite elem_of_worker_ids in Hz. rewrite <- Hz.
  destruct (Z.eqb_spec f 0); split; (lia || by intuition).
Qed.
End Counting.

(** A generator that draws the upper bound, and two workers that push three
    rounds, the second of which loses one. *)
Lemma simulated_workers_end_witness :
  let nextFloat (u : unit) (lo hi : f32) := (hi, tt) in
  let answer id (_ : MonitorInfo.t) n :=
    if (id =? 2) && (n =? 3) then mk_Status UNAVAILABLE "" else status_ok in
  exists code, main (fun _ => tt) nextFloat answer 3 ["manager:1"; "2"; "1"; "3"] = Done (Some code) /\
    code = 1.
Proof.
  intros nextFloat answer.
  destruct (simulated_workers_end (fun _ => tt) nextFloat answer 3 ["manager:1"; "2"; "1"; "3"])
    as (code & E & Hc & _); [done|vm_compute; split; discriminate..|vm_compute; lia|].
  exists code. split; [exact E|]. destruct Hc as [Hz|Hone]; [|exact Hone].
  exfalso. rewrite Hz in E. vm_compute in E. discriminate.
Defined.
