(* ===== verification/LoadTools.v ===== *)
(** * LoadTools: the two load programs against the manager

    [src/tests/simulated_workers_push.cpp] and
    [src/tests/manager_stress_test.cpp] call the services of [GrpcServer] and
    [QueryService].  Neither sets metadata on its calls nor a scope in its
    requests; what they send is modelled here, and what the services answer. *)

From S2P Require Import Prelude CFloat CString Messages ManagerConfig Dispatcher Grpc HostManager GrpcServer QueryRecords QueryManager QueryDispatch QueryService StressOptions StressStats StressSearch StressSamples SimulatedWorkers.

(** ** The requests *)

(** [runQueryOnce]: the request of each kind; [now] is the system clock in
    nanoseconds, and only the seconds of the time stamps are read. *)
Definition no_scope : QueryScope := mk_QueryScope "" "" "".

Definition fillTimeRange (now query_window_seconds : Z) : ProtoTimeRange :=
  mk_ProtoTimeRange (Z.quot (now - nanoseconds query_window_seconds) 1000000000)
    (Z.quot now 1000000000).

Definition rank_request (o : Options.t) : QueryScoreRankRequest :=
  mk_QueryScoreRankRequest DESC (mk_Pagination 1 (Options.page_size o)) no_scope.

Definition performance_request (o : Options.t) (now : Z) : QueryDetailRequest :=
  mk_QueryDetailRequest (Options.query_server o) (fillTimeRange now (Options.query_window_seconds o))
    (mk_Pagination 1 (Options.page_size o)) no_scope.

Section Server.
Context {Q : Type} `{MPMCQueue Q (ManagerTask callback_args)} (hash : string -> Z).

(** The metadata of a call whose client set none: whatever the library adds,
    there is no worker identity in it. *)
Definition anonymous (metadata : ServerContext) : Prop :=
  metadataValue (Some metadata) "x-monitor-worker-id" = "".

(** How a call that pushes a message ends for the client: with the status of the
    service, in whatever state it is, or with an error of the transport. *)
Inductive push_status (request : MonitorInfo.t) (st : Status) : Prop :=
| push_served metadata now (s : service Q) :
    anonymous metadata -> st = (SetMonitorInfo hash (Some metadata) (Some request) now s).1 ->
    push_status request st
| push_lost : ok st = false -> push_status request st.

Lemma push_refused request st : push_status request st -> ok st = false.
Proof using.
  intros [metadata now s Ha ->|Hl]; [|done]. unfold SetMonitorInfo.
  assert (E : worker_id (worker_identity (Some metadata)) = "") by exact Ha. by rewrite E.
Qed.
End Server.

Section Queries.
Variables (ck : clock) (mysql : nat -> statement -> stmt_run).
Variables (queryManager : option manager) (connected : bool) (cfg : ManagerConfig).
Variables (serialize : QueryLatestScoreResponse -> option string)
          (parse : string -> option QueryLatestScoreResponse).

(** What the service answers to a handler's result: the status itself without a
    dispatcher, else that of the submitted task. *)
Inductive answered_with {A} (r : res (Status * A)) (st : Status) : Prop :=
| answered_directly a : r = Done (st, a) -> answered_with r st
| answered_by_task sizes enqueued in_time what response m response' m' :
    dispatchQuery cfg sizes enqueued in_time what r (Some response) m = Done (st, response', m') ->
    answered_with r st.

(** A status of [runQueryOnce]. *)
Inductive query_status (o : Options.t) (st : Status) : Prop :=
| rank_served :
    Options.query_kind o = "rank" ->
    answered_with (QueryScoreRank ck mysql queryManager connected (rank_request o)) st ->
    query_status o st
| performance_served now :
    Options.query_kind o = "performance" ->
    answered_with (QueryPerformance ck mysql queryManager connected (performance_request o now)) st ->
    query_status o st
| latest_served cache :
    Options.query_kind o <> "rank" -> Options.query_kind o <> "performance" ->
    answered_with
      ('(st, response, _) ← QueryLatestScore ck mysql queryManager connected serialize parse no_scope cache;
       mret (st, response)) st ->
    query_status o st
| query_lost : ok st = false -> query_status o st.

(** Without a scope a handler refuses, and a task cannot turn that into OK. *)
Lemma refused_answer {A} (r : res (Status * A)) st0 a st :
  r = Done (st0, a) -> ok st0 = false -> answered_with r st -> ok st = false.
Proof using.
  intros -> H0 [a' [= <- _]|sizes enqueued in_time what response m response' m' E]; [done|].
  unfold dispatchQuery in E. cbn [task_outcome mbind res_bind] in E. revert E.
  unfold Submit.submitQueryTask. repeat case_match; intros [= <- _ _]; try done; cbn in *; simplify_eq; done.
Qed.

Lemma no_scope_refused {B} (empty : B) k :
  exists st, with_scope queryManager no_scope empty k = Done (st, empty) /\ ok st = false.
Proof using. unfold with_scope. destruct (ready_manager queryManager); by eexists. Qed.

Lemma query_refused o st : query_status o st -> ok st = false.
Proof using.
  intros [_ Ha|now _ Ha|cache _ _ Ha|]; [| | |done].
  - destruct (no_scope_refused empty_page (fun m sc =>
      answer_page (mk_Pagination 1 (Options.page_size o)) summary_message
        (queryServerScoreRank ck mysql m connected sc DESC))) as (s0 & E & H0).
    by eapply refused_answer.
  - unfold QueryPerformance, detail_handler in Ha. cbn [scope performance_request] in Ha.
    match type of Ha with answered_with (with_scope _ _ ?e ?k) _ =>
      destruct (no_scope_refused e k) as (s0 & E & H0) end.
    by eapply refused_answer.
  - eapply refused_answer; [| |exact Ha]; [reflexivity|reflexivity].
Qed.
End Queries.

(** ** The stress test *)

Section StressTest.
Context {Q : Type} `{MPMCQueue Q (ManagerTask callback_args)} (hash : string -> Z).
Variables (ck : clock) (mysql : nat -> statement -> stmt_run).
Variables (queryManager : option manager) (connected : bool) (cfg : ManagerConfig).
Variables (serialize : QueryLatestScoreResponse -> option string)
          (parse : string -> option QueryLatestScoreResponse).

(** A world in which the manager answers: the calls of thread [i] push messages
    of worker [i + 1]. *)
Definition served_by_manager (o : Options.t) (world : observed) : Prop :=
  (forall i ts t, worker_turns world !! i = Some ts -> t ∈ ts ->
     exists sequence, push_status (Q := Q) hash
       (StressSamples.makeMonitorInfo (Z.of_nat (S i)) sequence) (reply t)) /\
  (forall ts t, ts ∈ query_turns world -> t ∈ ts ->
     query_status ck mysql queryManager connected cfg serialize parse o (reply t)).

Lemma elem_of_requests w n turns t :
  t ∈ side_requests w n turns -> exists i ts, turns !! i = Some ts /\ t ∈ ts.
Proof using.
  unfold side_requests. intros (i & _ & Hin)%list_elem_of_In%in_flat_map.
  apply list_elem_of_In in Hin. unfold measured in Hin. apply list_elem_of_filter in Hin as [_ Hin].
  destruct (turns !! i) as [ts|] eqn:Et; cbn in Hin; [|by apply not_elem_of_nil in Hin].
  exists i, ts. split; [done|]. clear Et. induction ts as [|t' ts IH]; cbn [requests_made] in Hin; [by apply not_elem_of_nil in Hin|].
  destruct (_ <? _); [|by apply not_elem_of_nil in Hin].
  apply elem_of_cons in Hin as [->|Hin]; [apply list_elem_of_here|].
  by apply list_elem_of_further, IH.
Qed.

Lemma judge_inv o s wc qc v :
  judge o s wc qc = Done v ->
  exists wp qp, passed v = side_ok o wc (worker s) (successRate (worker s)) wp &&
                           side_ok o qc (query s) (successRate (query s)) qp.
Proof using.
  unfold judge. destruct (percentile (success_latencies_ms (worker s)) _) as [wp| |]; [|done..]. cbn [mbind res_bind].
  destruct (percentile (success_latencies_ms (query s)) _) as [qp| |]; [|done..]. cbn [mbind res_bind]. intros [= <-]. by exists wp, qp.
Qed.

Lemma runAndPrint_inv o world h wc qc b h' :
  runAndPrint o world h wc qc = Done (b, h') ->
  exists s v, runLoad o (world (length h)) wc qc = Done s /\ judge o s wc qc = Done v /\ b = passed v.
Proof using.
  unfold runAndPrint. destruct (runLoad _ _ _ _) as [s| |]; [|done..]. cbn [mbind res_bind].
  destruct (printRunResult o s wc qc); [|done..]. cbn [mbind res_bind].
  destruct (judge o s wc qc) as [v| |] eqn:Ej; [|done..]. intros [= <- _]. by exists s, v.
Qed.

(** No run with a load passes. *)
Lemma run_fails o world h wc qc :
  (forall n, served_by_manager o (world n)) -> countable_world world ->
  fgt (Options.min_success_rate o) fzero = true ->
  0 <= wc -> 0 <= qc -> 0 < wc + qc <= INT_MAX ->
  runAndPrint o world h wc qc = Done (false, h ++ [(wc, qc, false)]).
Proof using.
  intros Hs Hc Hm Hw Hq Hsum.
  destruct (runAndPrint_ends o world h wc qc Hc Hw Hq ltac:(lia)) as [b E]. rewrite E.
  enough (b = false) as -> by done.
  apply runAndPrint_inv in E as (s & v & El & Ej & ->).
  apply runLoad_inv in El as (_ & _ & Haw & Haq). apply judge_inv in Ej as (wp & qp & ->).
  destruct (Hs (length h)) as [Hpush Hquery].
  apply andb_false_iff. destruct (Z.eq_dec wc 0) as [Hw0|Hw0].
  - right. apply accounts_no_success in Haq as (H1 & _ & H2); [apply no_success_fails; done || lia|].
    apply Forall_forall. intros t (i & ts & Hi & Ht)%elem_of_requests.
    eapply query_refused, (Hquery ts); [|done]. by eapply list_elem_of_lookup_2.
  - left. apply accounts_no_success in Haw as (H1 & _ & H2); [by apply no_success_fails|].
    apply Forall_forall. intros t (i & ts & Hi & Ht)%elem_of_requests.
    destruct (Hpush i ts t Hi Ht) as [n Hn]. by eapply push_refused.
Qed.

Lemma buildRamp_head cap : 0 < cap -> exists vs, buildRamp cap = 1 :: vs.
Proof using.
  intros Hc. rewrite buildRamp_eq. cbn [ramp]. destruct (Z.ltb_spec 1 cap) as [|Hle].
  - eexists. by rewrite <- app_comm_cons.
  - replace cap with 1 by lia. by eexists.
Qed.

Lemma findMaxSingle_fails o world worker_side h :
  (forall n, served_by_manager o (world n)) -> countable_world world ->
  fgt (Options.min_success_rate o) fzero = true -> 0 < cap_of o worker_side ->
  exists runs, findMaxSingle o world worker_side h = Done (0, h ++ runs).
Proof using.
  intros Hs Hc Hm Hcap. unfold findMaxSingle. fold (cap_of o worker_side).
  destruct (buildRamp_head _ Hcap) as [vs ->]. cbn [climb].
  assert (E : side_attempt o world worker_side h 1 = Done (false, h ++ [side_entry worker_side 1 false])).
  { unfold side_attempt, side_entry. destruct worker_side; apply run_fails; done || wrap_unfold; lia. }
  rewrite E. by eexists.
Qed.

(** C29. With a success rate above zero to reach, which is the default, the stress
    test cannot pass against this manager.  Its pushes carry no worker identity
    and its queries no scope, so the manager refuses all of them; whatever it does
    otherwise, and however many calls are lost on the way, in every mode with at
    least one worker and one query thread and caps of at least one the program
    ends with exit code 1. *)
Theorem stress_test_never_passes argv o world :
  parseArgs argv Options.initial = Parsed o ->
  fgt (Options.min_success_rate o) fzero = true ->
  0 < Options.worker_concurrency o -> 0 < Options.query_concurrency o ->
  Options.worker_concurrency o + Options.query_concurrency o <= INT_MAX ->
  0 < Options.max_worker_concurrency o -> 0 < Options.max_query_concurrency o ->
  countable_world world -> (forall n, served_by_manager o (world n)) ->
  StressSearch.main argv world = Done 1.
Proof using.
  intros Ea Hm Hw Hq Hsum Hcw Hcq Hc Hs. unfold StressSearch.main. rewrite Ea.
  destruct (String.eqb _ "worker").
  { by rewrite run_fails by (done || lia). }
  destruct (String.eqb _ "query").
  { by rewrite run_fails by (done || lia). }
  destruct (String.eqb _ "mixed").
  { by rewrite run_fails by (done || lia). }
  destruct (findMaxSingle_fails o world true [] Hs Hc Hm Hcw) as [r1 ->]. cbn [mbind res_bind].
  destruct (findMaxSingle_fails o world false ([] ++ r1) Hs Hc Hm Hcq) as [r2 ->]. done.
Qed.
End StressTest.

(** One push and one query that the manager refuses in every run. *)
Definition refused_query : Status := mk_Status UNAUTHENTICATED "缺少查询租户或团队作用域".
Definition refusing_world (_ : nat) : observed :=
  mk_observed 0 [bad_turns]
    [[mk_turn 1000000000 1000000000 refused_query 1005000000 1005000000]] 11000000000.

Lemma stress_test_never_passes_witness :
  let serialize (_ : QueryLatestScoreResponse) : option string := None in
  StressSearch.main [] refusing_world = Done 1 /\
  served_by_manager (Q := Z * list (ManagerTask callback_args)) (fun _ => 0) a_clock empty_db None true
    (loadManagerConfigFromEnv (fun _ => None) 4) serialize (fun _ => None) Options.initial (refusing_world 0).
Proof.
  intros serialize.
  assert (Hs : forall n, served_by_manager (Q := Z * list (ManagerTask callback_args)) (fun _ => 0)
    a_clock empty_db None true (loadManagerConfigFromEnv (fun _ => None) 4) serialize (fun _ => None) Options.initial (refusing_world n)).
  { intros n. split.
    - intros i ts t Hi Ht. exists 1. destruct i as [|i]; [|done]. injection Hi as <-.
      apply list_elem_of_singleton in Ht as ->.
      apply (push_served _ _ _ [("user-agent", "grpc-c++")] 0 new_service); reflexivity.
    - intros ts t ->%list_elem_of_singleton ->%list_elem_of_singleton.
      apply (latest_served _ _ _ _ _ _ _ _ _ None); [done..|]. by eapply answered_directly. }
  split; [|apply Hs].
  apply (stress_test_never_passes (fun _ => 0) a_clock empty_db None true (loadManagerConfigFromEnv (fun _ => None) 4)
    serialize (fun _ => None) [] Options.initial refusing_world); try reflexivity; try (cbn; lia).
  - vm_compute. discriminate.
  - intros n. vm_compute. split; reflexivity.
  - exact Hs.
Defined.

(** The rate is a condition: 0 is accepted for [--min-success-rate], and then the
    test passes although every call was refused. *)
Theorem refused_calls_pass_at_rate_zero :
  Forall (fun mode =>
    StressSearch.main ["--mode"; mode; "--min-success-rate"; "0"] refusing_world = Done 0)
    ["worker"; "query"; "mixed"].
Proof. repeat constructor; by vm_compute. Qed.

(** ** The simulated workers *)

(** The simulated workers get nowhere with this manager either: when they end,
    the exit code is 1. *)
Theorem simulated_workers_are_refused {Q} `{MPMCQueue Q (ManagerTask callback_args)} hash
    {R} (seed : Z -> R) nextFloat answer turns args :
  let a := read_arguments args in
  (forall id m n, push_status (Q := Q) hash m (answer id m n)) ->
  hd_error args <> Some "--help" -> 1 <= worker_count a <= 1000 -> 1 <= rounds a <= 500000 ->
  (Z.to_nat (rounds a) <= turns)%nat ->
  SimulatedWorkers.main seed nextFloat answer turns args = Done (Some 1).
Proof.
  intros a Hans Hh Hc Hr Ht.
  destruct (simulated_workers_end seed nextFloat answer turns args Hh Hc Hr Ht) as (code & -> & Hcode & Hz).
  destruct Hcode as [->| ->]; [|done]. exfalso. subst a.
  apply (proj1 Hz eq_refl 1 ltac:(lia)). exists 1. split; [lia|].
  destruct (pushOnce_ends seed nextFloat answer 1 1 ltac:(lia) ltac:(lia)) as (m & _ & E).
  by rewrite E, (push_refused hash m (answer 1 m 1)).
Qed.

Lemma simulated_workers_are_refused_witness :
  SimulatedWorkers.main (fun _ => tt) (fun (u : unit) lo hi => (hi, tt)) (fun _ _ _ => refused) 5 [] =
    Done (Some 1).
Proof.
  apply (simulated_workers_are_refused (Q := Z * list (ManagerTask callback_args)) (fun _ => 0)).
  - intros id m n. apply (push_served _ _ _ [] 0 new_service); reflexivity.
  - discriminate.
  - vm_compute. split; discriminate.
  - vm_compute. split; discriminate.
  - vm_compute. lia.
Defined.
