(* ===== verification/WorkerTests.v ===== *)
(** * WorkerTests: the test programs of the worker

    [src/worker/test]: the user lookup of [TestUserMonitor.cpp], the readers of
    the two kernel tables ([TestKmodCpuStat.c], [TestKmodSoftirq.c]), and the
    traffic test [TestNetEbpf.cc]. *)

From S2P Require Import Prelude CString KernelDriver KernelCollectors NetStats EbpfLoader Streams HostMonitors.
From Stdlib Require Import Ascii.

(** ** TestUserMonitor.cpp *)
Module TestUserMonitor.

(** [n] fields up to a colon each; [None] when one cannot be read. *)
Fixpoint fields (n : nat) (ss : istream) : option (list string) :=
  match n with
  | O => Some []
  | S n =>
      let '(field, ss) := getline ":" ss in
      if fail ss then None else rest ← fields n ss; Some (default "" field :: rest)
  end.

(** The turn of the loop for a line: all seven fields must be there. *)
Definition user_of (line : string) : option (string * Z) :=
  match fields 7 (istringstream line) with
  | Some (userName :: _ :: uidStr :: _) => uid ← stoull uidStr; Some (userName, u32_wrap uid)
  | _ => None
  end.

Fixpoint find_user (uid : Z) (lines : list string) : string :=
  match lines with
  | [] => ""
  | line :: lines =>
      match user_of line with
      | Some (userName, parsedUid) => if parsedUid =? uid then userName else find_user uid lines
      | None => find_user uid lines
      end
  end.

Definition getUserName (passwd : option string) (uid : Z) : option string :=
  match passwd with
  | None => Some ""
  | Some contents =>
      lines ← getlines (S (String.length contents)) newline (istringstream contents);
      Some (find_user uid lines)
  end.
End TestUserMonitor.

(** ** TestKmodCpuStat.c and TestKmodSoftirq.c *)

Module TestKmod.
(** The lines of a table: entries up to the first empty name, at most
    [MAX_CPUS]; the number printed as the total is their number. *)
Definition cpu_rows (stats : list CpuStatCollector.cpu_stat) : list (string * list Z) :=
  map (fun e => (c_str (CpuStatCollector.cpu_name e),
    [CpuStatCollector.user e; CpuStatCollector.nice e; CpuStatCollector.system e;
     CpuStatCollector.idle e; CpuStatCollector.iowait e; CpuStatCollector.irq e;
     CpuStatCollector.softirq e; CpuStatCollector.steal e]))
    (scan CpuStatCollector.cpu_name MAX_CPUS stats).

Definition softirq_rows (stats : list SoftirqCollector.softirq_stat) : list (string * list Z) :=
  map (fun e => (c_str (SoftirqCollector.cpu_name e),
    [SoftirqCollector.hi e; SoftirqCollector.timer e; SoftirqCollector.net_tx e;
     SoftirqCollector.net_rx e; SoftirqCollector.sched e]))
    (scan SoftirqCollector.cpu_name MAX_CPUS stats).

(** The device and the mapping, and the tables that the reader finds. *)
Record device (A : Type) := mk_device { opens : bool; maps : bool; tables : nat -> list A }.
Arguments mk_device {A}.
Arguments opens {A}.
Arguments maps {A}.
Arguments tables {A}.

(** [main] of the CPU test: the exit code and what each sample prints.  [count]
    is [atoi] of the first argument. *)
Definition main_cpu (argv : list string) (d : device CpuStatCollector.cpu_stat)
    : Z * list (list (string * list Z)) :=
  let count := match argv with arg :: _ => atoi arg | [] => 5 end in
  if negb (opens d) then (1, [])
  else if negb (maps d) then (1, [])
  else (0, map (fun sample => cpu_rows (tables d sample)) (seq 0 (Z.to_nat count))).

Definition main_softirq (d : device SoftirqCollector.softirq_stat)
    : Z * list (list (string * list Z)) :=
  if negb (opens d) then (1, [])
  else if negb (maps d) then (1, [])
  else (0, map (fun sample => softirq_rows (tables d sample)) [0%nat; 1%nat]).
End TestKmod.

(** ** TestNetEbpf.cc *)
Module TestNetEbpf.

(** [get_all_ifindexes] leaves out the loopback interface. *)
Definition get_all_ifindexes (sys : system) : list Z :=
  match net_entries sys with
  | None => []
  | Some entries =>
      omap (fun name =>
              if String.prefix "." name then None
              else if String.eqb name "lo" then None
              else let ifindex := if_nametoindex sys name in
                   if 0 <? ifindex then Some ifindex else None) entries
  end.

(** The received and sent bytes of the previous turn; the array has 64 elements
    and is indexed by the interface. *)
Notation previous := (list (Z * Z)).
Definition no_previous : previous := replicate 64 (0, 0).

Record line := mk_line { ifname : string; rx_rate : Z; tx_rate : Z; rx_pkts : Z; tx_pkts : Z }.

(** The loop over the entries of the map, in its order. *)
Fixpoint report (sys : system) (entries : list (Z * net_stats)) (prev : previous)
    : res (list line * previous) :=
  match entries with
  | [] => mret ([], prev)
  | (key, stats) :: entries =>
      match if_indextoname sys key with
      | None => report sys entries prev
      | Some name =>
          p ← or_undefined (prev !! Z.to_nat key);
          let rate now before := u64_sub now before / 2 in
          let l := mk_line name (rate (rcv_bytes stats) p.1) (rate (snd_bytes stats) p.2)
                     (rcv_packets stats) (snd_packets stats) in
          '(ls, prev) ← report sys entries (<[Z.to_nat key := (rcv_bytes stats, snd_bytes stats)]> prev);
          mret (l :: ls, prev)
      end
  end.

(** The loop of [main] until a signal ends it: the entries of the map in each
    turn. *)
Fixpoint monitoring (sys : system) (turns : list (list (Z * net_stats))) (prev : previous)
    : res (list (list line)) :=
  match turns with
  | [] => mret []
  | entries :: turns =>
      '(ls, prev) ← report sys entries prev;
      rest ← monitoring sys turns prev;
      mret (ls :: rest)
  end.

Section Main.
Context {K : Type} `{TrafficControl K}.

(** The turn of the attaching loop for one interface. *)
Definition attach_interface (sys : system) (skel : skeleton) (l : loop K) (ifindex : Z) : loop K :=
  match if_indextoname sys ifindex with
  | None => l
  | Some ifname =>
      let evs := events l ++ [Shell ("tc qdisc add dev " +++ ifname +++ " clsact 2>/dev/null")] in
      let idx := i32_wrap ifindex in
      let '(err, k) := bpf_tc_hook_create idx BPF_TC_INGRESS (kernel l) in
      if negb (err =? 0) && negb (err =? - EEXIST) then mk_loop k (attached l) evs
      else
        let '(err, k) := bpf_tc_attach idx BPF_TC_INGRESS (mk_opts (ingress_fd skel) 0 0) k in
        let att := if negb (err =? 0) then attached l else attached l ++ [ifindex] in
        let '(_, k) := bpf_tc_attach idx BPF_TC_EGRESS (mk_opts (egress_fd skel) 0 0) k in
        mk_loop k att evs
  end.

(** [main]: the exit code, the kernel, the events and the reports.  Detaching is
    the monitor's, with empty options. *)
Definition main (sys : system) (k : K) (turns : list (list (Z * net_stats)))
    : res (Z * K * list event * list (list line)) :=
  match open_skeleton sys with
  | None => mret (1, k, [], [])
  | Some skel =>
      if negb (load_err skel =? 0) then mret (1, k, [Opened; Destroyed], [])
      else
        let l := foldl (attach_interface sys skel) (mk_loop k [] [Opened]) (get_all_ifindexes sys) in
        match attached l with
        | [] => mret (1, kernel l, events l ++ [Destroyed], [])
        | att =>
            reports ← monitoring sys turns no_previous;
            mret (0, foldl detach_interface (kernel l) att, events l ++ [Destroyed], reports)
        end
  end.
End Main.
End TestNetEbpf.

(** ** The user lookup against the monitor's *)

Section Users.
Import TestUserMonitor.

(** A line whose seven fields can be read. *)
Definition seven_fields (line : string) : Prop := is_Some (fields 7 (istringstream line)).

Lemma user_of_agrees line : seven_fields line -> user_of line = UserMonitor.user_of line.
Proof.
  intros [fs E]. unfold user_of. rewrite E. unfold UserMonitor.user_of. cbn [fields] in E.
  destruct (getline ":" (istringstream line)) as [f1 s1]. destruct (fail s1); [done|].
  destruct (getline ":" s1) as [f2 s2]. destruct (fail s2); [done|].
  destruct (getline ":" s2) as [f3 s3]. destruct (fail s3); [done|].
  destruct (getline ":" s3) as [f4 s4]. destruct (fail s4); [done|].
  destruct (getline ":" s4) as [f5 s5]. destruct (fail s5); [done|].
  destruct (getline ":" s5) as [f6 s6]. destruct (fail s6); [done|].
  destruct (getline ":" s6) as [f7 s7]. destruct (fail s7); [done|].
  by injection E as <-.
Qed.

Lemma find_user_agrees uid lines :
  Forall seven_fields lines -> find_user uid lines = UserMonitor.find_user uid lines.
Proof.
  induction 1 as [|line lines Hl _ IH]; [done|]. cbn [find_user UserMonitor.find_user].
  rewrite <- (user_of_agrees line Hl). destruct (user_of line) as [[name u]|]; [|done]. by destruct (u =? uid).
Qed.

(** On a file whose lines all have seven fields that can be read, the test
    program and [UserMonitor] find the same name. *)
Theorem test_user_agrees contents uid :
  (forall lines, getlines (S (String.length contents)) newline (istringstream contents) = Some lines ->
     Forall seven_fields lines) ->
  getUserName (Some contents) uid = UserMonitor.getUsernameByUid (Some contents) uid.
Proof.
  intros H. unfold getUserName, UserMonitor.getUsernameByUid.
  destruct (getlines _ _ _) as [lines|]; [|done]. cbn. by rewrite find_user_agrees by auto.
Qed.

Definition root_line : string := "root:x:0:0:root:/root:/bin/bash" +++ String newline "".

Lemma test_user_agrees_witness :
  getUserName (Some root_line) 0 = UserMonitor.getUsernameByUid (Some root_line) 0 /\
  getUserName (Some root_line) 0 = Some "root".
Proof.
  split; [|by vm_compute]. apply test_user_agrees. intros lines H. vm_compute in H. injection H as <-.
  constructor; [|constructor]. by eexists.
Defined.

(** An empty shell is a field that cannot be read: the monitor names the user,
    the test program does not. *)
Lemma test_misses_empty_shell :
  let file := "svc:x:7:7:svc:/srv:" +++ String newline "" in
  getUserName (Some file) 7 = Some "" /\ UserMonitor.getUsernameByUid (Some file) 7 = Some "svc".
Proof. by vm_compute. Qed.
End Users.

(** ** What the table readers print *)

(** The columns that the tests print. *)
Definition first_eight (row : string * list Z) : string * list Z := (row.1, take 8 row.2).
Definition five_of_ten (row : string * list Z) : string * list Z :=
  (row.1, take 4 row.2 ++ take 1 (drop 7 row.2)).

Lemma cpu_rows_view t : TestKmod.cpu_rows t = map first_eight (cpu_stat_view <$> scan CpuStatCollector.cpu_name MAX_CPUS t).
Proof. unfold TestKmod.cpu_rows. rewrite <- list_fmap_compose. done. Qed.

Lemma softirq_rows_view t : TestKmod.softirq_rows t = map five_of_ten (softirq_view <$> scan SoftirqCollector.cpu_name MAX_CPUS t).
Proof. unfold TestKmod.softirq_rows. rewrite <- list_fmap_compose. done. Qed.

(** After a refresh of the module the tests print a line for each of the first
    256 possible CPUs, with its own counters, and their number. *)
Theorem kmod_tests_print_cpus k :
  Forall cpu_number (possible k) ->
  (forall t, cpu_stat_table t -> exists t', CpuStatCollector.update_cpu_stats k t = Some t' /\
     TestKmod.cpu_rows t' = map (fun c => first_eight (cpu_stat_of k c)) (take MAX_CPUS (possible k))) /\
  (forall t, softirq_table t -> exists t', SoftirqCollector.update_softirq_stats k t = Some t' /\
     TestKmod.softirq_rows t' = map (fun c => five_of_ten (softirq_of k c)) (take MAX_CPUS (possible k))).
Proof.
  intros Hk. split; intros t Ht.
  - destruct (update_cpu_stats_spec k t MAX_CPUS Hk Ht ltac:(done)) as (t' & E & _ & Hv).
    exists t'. split; [done|]. by rewrite cpu_rows_view, Hv, <- list_fmap_compose.
  - destruct (update_softirq_stats_spec k t MAX_CPUS Hk Ht ltac:(done)) as (t' & E & _ & Hv).
    exists t'. split; [done|]. by rewrite softirq_rows_view, Hv, <- list_fmap_compose.
Qed.

Lemma kmod_tests_print_cpus_witness :
  exists t', SoftirqCollector.update_softirq_stats sample_kernel
               (replicate MAX_CPUS SoftirqCollector.zero_softirq_stat) = Some t' /\
    map fst (TestKmod.softirq_rows t') = ["cpu0"; "cpu1"].
Proof.
  destruct (kmod_tests_print_cpus sample_kernel sample_kernel_numbers) as [_ H].
  destruct (H (replicate MAX_CPUS SoftirqCollector.zero_softirq_stat)) as (t' & E & Hr).
  - split; [done|]. by apply Forall_replicate.
  - exists t'. split; [exact E|]. rewrite Hr. vm_compute. reflexivity.
Defined.

(** ** The traffic report and its array *)

Section Report.
Import TestNetEbpf.
Variable sys : system.

(** An interface that is reported. *)
Definition shown (e : Z * net_stats) : Prop := is_Some (if_indextoname sys e.1).

(** While every reported interface has an index below 64 the report has a line
    for each; an index from 64 on is an access outside the array. *)
Theorem report_needs_small_indexes entries : forall prev,
  length prev = 64%nat ->
  (Forall (fun e => shown e -> 0 <= e.1 < 64) entries ->
   exists ls prev', report sys entries prev = Prelude.Done (ls, prev') /\ length prev' = 64%nat /\
     map (fun l => (rx_pkts l, tx_pkts l)) ls =
     omap (fun e => _ ← if_indextoname sys e.1; Some (rcv_packets e.2, snd_packets e.2)) entries) /\
  (Exists (fun e => shown e /\ 64 <= e.1) entries -> report sys entries prev = Undefined).
Proof using.
  induction entries as [|[key stats] entries IH]; intros prev Hp.
  { split; [by exists [], prev|]. by intros ?%Exists_nil. }
  cbn [report]. rewrite omap_cons_app, Forall_cons, Exists_cons. cbn [fst snd]. unfold shown at 1 3. cbn [fst].
  destruct (if_indextoname sys key) as [name|] eqn:En.
  - destruct (decide (Z.to_nat key < 64)%nat) as [Hk|Hk].
    + destruct (lookup_lt_is_Some_2 prev (Z.to_nat key) ltac:(lia)) as [p Ep]. rewrite Ep.
      cbn [or_undefined mbind res_bind].
      set (prev1 := <[_ := _]> prev). assert (Hp1 : length prev1 = 64%nat) by (unfold prev1; by rewrite length_insert).
      destruct (IH prev1 Hp1) as [H1 H2]. split.
      * intros [_ Hall]. destruct (H1 Hall) as (ls & prev' & -> & Hl & Hm). cbn [mbind res_bind].
        do 2 eexists. split; [reflexivity|]. split; [done|]. cbn. by rewrite Hm.
      * intros [[_ H64]|Hex]; [lia|]. by rewrite (H2 Hex).
    + split; [intros [H0 _]; specialize (H0 ltac:(by eexists)); lia|]. intros _.
      rewrite (proj2 (lookup_ge_None prev _)) by lia. done.
  - destruct (IH prev Hp) as [H1 H2]. cbn. split; [intros [_ Hall]; by apply H1|].
    intros [[[? [=]] _]|Hex]. by apply H2.
Qed.
End Report.

(** Interface 70 of a host with many virtual interfaces. *)
Definition veth_system : system :=
  mk_system None (Some ["eth0"; "veth9"]) (fun n => if String.eqb n "eth0" then 2 else 70)
    (fun i => if i =? 2 then Some "eth0" else if i =? 70 then Some "veth9" else None).

Lemma report_needs_small_indexes_witness :
  TestNetEbpf.report veth_system [(2, mk_net_stats 10 1 0 0); (70, mk_net_stats 5 1 0 0)]
    TestNetEbpf.no_previous = Undefined /\
  TestNetEbpf.get_all_ifindexes veth_system = [2; 70].
Proof.
  split; [|reflexivity].
  destruct (report_needs_small_indexes veth_system [(2, mk_net_stats 10 1 0 0); (70, mk_net_stats 5 1 0 0)]
    TestNetEbpf.no_previous eq_refl) as [_ H].
  apply H. right. left. split; [by eexists|cbn; lia].
Defined.

(** ** Attaching and detaching *)

(** The names and the numbers of the listed interfaces belong together. *)
Definition names_agree (sys : system) : Prop :=
  forall entries name, net_entries sys = Some entries -> name ∈ entries ->
    0 < if_nametoindex sys name -> if_indextoname sys (if_nametoindex sys name) = Some name.

Section Attaching.
Context {K : Type} `{TrafficControlLaws K}.
Variables (sys : system) (skel : skeleton).
Hypothesis names : names_agree sys.

Lemma attach_interface_agrees (l : loop K) i :
  if_indextoname sys i <> Some "lo" ->
  TestNetEbpf.attach_interface sys skel l i = attach_interface sys skel l i.
Proof using.
  unfold TestNetEbpf.attach_interface, attach_interface, TCQdiscCreateClsact. intros Hi.
  destruct (if_indextoname sys i) as [name|]; [|done].
  destruct (String.eqb_spec name "lo") as [->|]; done.
Qed.

(** The test program attaches what the monitor attaches. *)
Lemma attach_all_agrees (l : loop K) :
  foldl (TestNetEbpf.attach_interface sys skel) l (TestNetEbpf.get_all_ifindexes sys) =
  foldl (attach_interface sys skel) l (GetAllIfIndexes sys).
Proof using All.
  unfold TestNetEbpf.get_all_ifindexes, GetAllIfIndexes.
  destruct (net_entries sys) as [entries|] eqn:Ee; [|done].
  assert (Hn : forall name, name ∈ entries -> 0 < if_nametoindex sys name ->
    if_indextoname sys (if_nametoindex sys name) = Some name) by eauto.
  clear Ee. revert l. induction entries as [|name entries IH]; intros l; [done|].
  rewrite !omap_cons_app. cbv beta. destruct (String.prefix "." name) eqn:Ep; [cbn; apply IH; set_solver|].
  specialize (Hn name (list_elem_of_here _ _)) as Hname.
  destruct (Z.ltb_spec 0 (if_nametoindex sys name)) as [Hpos|Hpos].
  2: { destruct (String.eqb name "lo"); cbn; apply IH; set_solver. }
  specialize (Hname Hpos). destruct (String.eqb_spec name "lo") as [->|Hlo];
    match goal with |- context [option_list (Some ?i) ++ ?r] => change (option_list (Some i) ++ r) with (i :: r) end;
    try change (option_list None) with (@nil Z); cbn [app foldl].
  - assert (E : attach_interface sys skel l (if_nametoindex sys "lo") = l); [unfold attach_interface; by rewrite Hname|]. rewrite E. apply IH. set_solver.
  - rewrite attach_interface_agrees by (rewrite Hname; congruence). apply IH. set_solver.
Qed.

(** What [main] leaves behind on a system that opens [skel]: no skeleton; and
    the filters it added, when it ran at all. *)
Theorem net_test_leaves_filters k turns code k' evs reports :
  open_skeleton sys = Some skel ->
  TestNetEbpf.main sys k turns = Prelude.Done (code, k', evs, reports) ->
  open_skeletons 0 evs = Some 0%nat /\
  (code = 0 -> (length (filters k) < length (filters k'))%nat /\ length reports = length turns).
Proof using All.
  intros Es. unfold TestNetEbpf.main. rewrite Es.
  destruct (load_err skel =? 0); cbn [negb]; [|by intros [= <- <- <- <-]].
  rewrite attach_all_agrees.
  destruct (attach_all_spec sys skel (GetAllIfIndexes sys) (mk_loop k [] [Opened]))
    as [(es & He & Ho) (new & att & Hn & Ha & Hf)].
  set (l := foldl _ _ _) in *. cbn [attached kernel events app] in *.
  assert (Hopen : open_skeletons 0 (events l ++ [Destroyed]) = Some 0%nat).
  { rewrite He. change (open_skeletons 1 (es ++ [Destroyed]) = Some 0%nat).
    by rewrite (open_skeletons_app _ _ _ _ (Ho 1%nat)). }
  rewrite Ha. destruct att as [|i att]; [by intros [= <- <- <- <-]|].
  destruct (TestNetEbpf.monitoring _ _ _) as [rs| |] eqn:Em; [|done..]. intros [= <- <- <- <-].
  split; [done|]. intros _. change (detach_interface (kernel l) i) with (foldl detach_interface (kernel l) [i]).
  rewrite !detach_filters, Hn, length_app. split.
  - apply Forall_cons in Hf as [(f & Hin & _) _]. destruct new; [by apply elem_of_nil in Hin|cbn; lia].
  - revert Em. generalize TestNetEbpf.no_previous as prev. revert rs. clear.
    induction turns as [|entries turns IH]; intros rs prev; cbn [TestNetEbpf.monitoring]; [by intros [= <-]|].
    destruct (TestNetEbpf.report _ _ _) as [[ls prev']| |]; [|done..]. cbn [mbind res_bind].
    destruct (TestNetEbpf.monitoring _ _ _) as [rest| |] eqn:Er; [|done..]. intros [= <-].
    cbn. f_equal. by eapply IH.
Qed.
End Attaching.

(** The sample system of [EbpfLoader] with one turn of the report: the two
    filters are still there at the end. *)
Definition left_filters : list filter_entry :=
  [mk_filter 2 BPF_TC_EGRESS (mk_opts 7 1 2); mk_filter 2 BPF_TC_INGRESS (mk_opts 6 1 1)].

Lemma net_test_leaves_filters_witness :
  let evs := [Opened; Shell "tc qdisc add dev eth0 clsact 2>/dev/null"; Destroyed] in
  let reports := [[TestNetEbpf.mk_line "eth0" 5 2 1 1]] in
  TestNetEbpf.main sample_system ([] : list filter_entry) [[(2, mk_net_stats 10 1 4 1)]] =
    Prelude.Done (0, left_filters, evs, reports) /\
  open_skeletons 0 evs = Some 0%nat /\ (0 < length left_filters)%nat.
Proof.
  intros evs reports.
  assert (E : TestNetEbpf.main sample_system ([] : list filter_entry) [[(2, mk_net_stats 10 1 4 1)]] =
    Prelude.Done (0, left_filters, evs, reports)) by (vm_compute; reflexivity).
  split; [exact E|].
  assert (Hn : names_agree sample_system).
  { intros entries name [= <-] Hin Hpos.
    repeat (apply elem_of_cons in Hin as [->|Hin]; [vm_compute in Hpos |- *; congruence|]).
    by apply not_elem_of_nil in Hin. }
  destruct (net_test_leaves_filters sample_system (mk_skeleton 0 5 6 7) Hn _ _ _ _ _ _ eq_refl E) as [Ho Hk].
  split; [exact Ho|]. exact (proj1 (Hk eq_refl)).
Defined.
