(* ===== verification/ManagerMain.v ===== *)
(** * ManagerMain: the process of the manager

    [src/manager/src/main.cpp]: the components it creates from the
    configuration and how they are wired -- the service hands messages to the
    dispatcher, whose ingest workers call [HostManager::onDataReceived], whose
    writers store the samples -- and a run of the whole write path as a step
    relation over the components' own operations.  Also the line of
    [ManagerMetrics::print] and the client of [RpcClient.cpp]. *)

From S2P Require Import Prelude CFloat CString ManagerConfig Messages Dispatcher Grpc QueryDispatch Pools HostManager GrpcServer MysqlWriter HostThreads QueryManager.

Definition kDefaultListenAddress : string := "0.0.0.0:50051".

Definition listenAddress (argv : list string) : string :=
  default kDefaultListenAddress (argv !! 1%nat).

(** The options of the gRPC server: completion queues, least and most pollers. *)
Record server_options := mk_options { num_cqs : Z; min_pollers : Z; max_pollers : Z }.

(** ** ManagerMetrics::print, and the client for tests *)

(** The line that the metrics thread writes every [metrics_log_interval]. *)
Definition metrics_line (m : ManagerMetrics)
    (queueSize businessThreads mysqlWriteAvailable mysqlQueryAvailable redisAvailable : Z) : string :=
  "[manager.metrics] worker_requests=" +++ to_string (worker_requests m) +++
  " query_requests=" +++ to_string (query_requests m) +++
  " queue_size=" +++ to_string queueSize +++
  " business_threads=" +++ to_string businessThreads +++
  " mysql_write_available=" +++ to_string mysqlWriteAvailable +++
  " mysql_query_available=" +++ to_string mysqlQueryAvailable +++
  " redis_available=" +++ to_string redisAvailable +++
  " queue_rejected=" +++ to_string (queue_rejected m) +++
  " dropped_monitor_samples=" +++ to_string (dropped_monitor_samples m) +++
  " task_timeouts=" +++ to_string (task_timeouts m) +++
  " task_errors=" +++ to_string (task_errors m) +++
  " mysql_errors=" +++ to_string (mysql_errors m) +++
  " redis_errors=" +++ to_string (redis_errors m) +++
  " pool_timeouts=" +++ to_string (Dispatcher.pool_timeouts m) +++
  " pool_reconnects=" +++ to_string (Dispatcher.pool_reconnects m).

(** [RpcClient::getMonitorInfo]: [stub] is the remote call, which fills the
    message; the result, and the message of the caller when there is one. *)
Definition getMonitorInfo (stub : MonitorInfo.t -> Status * MonitorInfo.t)
    (info : option MonitorInfo.t) : bool * option MonitorInfo.t :=
  match info with
  | None => (false, None)
  | Some i => let '(status, i) := stub i in (ok status, Some i)
  end.

Section Process.
Context {Q : Type} `{MPMCQueue Q (ManagerTask callback_args)}.

(** The components; [redisPool]: none when Redis is disabled. *)
Record process_state := mk_process {
  address : string; managerConfig : ManagerConfig;
  mysqlWritePool : Pools.pool * Pools.world; mysqlQueryPool : Pools.pool * Pools.world;
  redisPool : option (Pools.pool * Pools.world);
  service : GrpcServer.service Q; hostManager : HostThreads.threads;
  queryManager : QueryManager.manager; options : server_options }.

(** [main] up to [BuildAndStart], with the environment, the number of hardware
    threads, the clock and the answers of the three servers. *)
Definition start_pool (k : Pools.kind) (min max ttl now : Z) (answers : list bool)
    : Pools.pool * Pools.world :=
  Pools.start k (Pools.make_pool min max ttl) now (Pools.new_world answers).

Definition main (argv : list string) (env : environment) (hardware now : Z)
    (write_answers query_answers redis_answers : list bool) : process_state :=
  let cfg := loadManagerConfigFromEnv env hardware in
  let dispatcher := Ingest.set_running (make_dispatcher (R := callback_args) (Q := Q) cfg) true in
  {| address := listenAddress argv;
     managerConfig := cfg;
     mysqlWritePool := start_pool Pools.mysql_kind (mysql_write_pool_min cfg)
       (mysql_write_pool_max cfg) (mysql_idle_ttl cfg) now write_answers;
     mysqlQueryPool := start_pool Pools.mysql_kind (mysql_query_pool_min cfg)
       (mysql_query_pool_max cfg) (mysql_idle_ttl cfg) now query_answers;
     redisPool := if redis_enabled cfg
       then Some (start_pool Pools.redis_kind (redis_pool_min cfg) (redis_pool_max cfg)
                    (redis_idle_ttl cfg) now redis_answers)
       else None;
     service := setDataReceivedCallback (setDispatcher (Some dispatcher) new_service);
     hostManager := HostThreads.start cfg (HostManager.mk_state ∅ ∅ [] [] 0);
     queryManager := (QueryManager.init true QueryManager.new_manager).2;
     options := mk_options (grpc_num_cqs cfg) (grpc_min_pollers cfg) (grpc_max_pollers cfg) |}.

(** [server->Wait()] after [BuildAndStart], which gives no server when the
    address cannot be bound: the pointer is not tested. *)
Definition wait (server : option unit) : res unit :=
  match server with Some u => Done u | None => Undefined end.
End Process.
Arguments process_state : clear implicits.

(** ** The write path *)

Section WritePath.
Context {Q : Type} `{MPMCQueueLaws Q (ManagerTask callback_args)}.
Variable hash : string -> Z.
Variable escape : string -> string.
Variable show : f64 -> string.
Variables (show32 : f32 -> string) (show64 : f64 -> string) (strftime : Z -> string).
Variable db : string -> select_outcome.
Variable cfg : ManagerConfig.
Variable redis : bool.

(** The service with its dispatcher, the host manager, the calls that arrived
    ([received]) and those the ingest workers passed on ([calls]). *)
Record system := mk_system {
  srv : GrpcServer.service Q; hosts : HostThreads.threads;
  received : list (WorkerIdentity * MonitorInfo.t); calls : list call }.

(** A worker of shard [i] takes a task. *)
Definition take_task (i : nat) (d : dispatcher Q) : option (callback_args * dispatcher Q) :=
  q ← ingestShards_ d !! i;
  match mpmc_read q with
  | Some (t, q') => Some (run t, set_shards d (<[i := q']> (ingestShards_ d)))
  | None => None
  end.

(** The steps: a call of [SetMonitorInfo]; an ingest worker that takes a task
    and runs it, where [connected] tells whether the write pool gave a connection
    for the registry query; a step of the threads of the host manager; the call
    of [stop]. *)
Inductive system_step : system -> system -> Prop :=
| sys_push s context request now :
    system_step s
      (mk_system (SetMonitorInfo hash context (Some request) now (srv s)).2 (hosts s)
         (received s ++ [(worker_identity context, request)]) (calls s))
| sys_ingest s d i info w d' now connected t' :
    dispatcher_ (srv s) = Some d -> take_task i d = Some ((info, w), d') ->
    rtc (arrive_step cfg) (hosts s) t' ->
    host t' = onDataReceived db escape show cfg connected redis now info w (host (hosts s)) ->
    system_step s
      (mk_system (setDispatcher (Some d') (srv s)) t' (received s) (calls s ++ [mk_call now info w]))
| sys_own s t' :
    own_step escape show32 show64 strftime (hosts s) t' ->
    system_step s (mk_system (srv s) t' (received s) (calls s))
| sys_stop s :
    caller (hosts s) = COutside ->
    system_step s (mk_system (srv s) (lower (hosts s)) (received s) (calls s)).

(** *** The pieces of a step *)

(** What an ingest worker does to the host manager are steps of a thread that
    received a message. *)
Lemma receive_arrives t connected now info w :
  exists t', rtc (arrive_step cfg) t t' /\
    host t' = onDataReceived db escape show cfg connected redis now info w (host t).
Proof using.
  unfold onDataReceived. destruct (resolveWorkerScope _ _ _ _) as [sc|]; cycle 1.
  { eexists. split; [apply rtc_once, t_refuse|done]. }
  destruct (is_empty _); [exists t; by split|].
  eexists. split; [eapply rtc_l; [apply t_store|apply rtc_once, t_enqueue]|]. reflexivity.
Qed.

Lemma arrive_keeps t t' :
  rtc (arrive_step cfg) t t' -> writers t' = writers t /\ sent t' = sent t.
Proof using.
  intros Hr. apply (rtc_invariant (arrive_step cfg)
    (fun x => writers x = writers t /\ sent x = sent t) t t'); [|done|done].
  intros a b [Hw Hs] Hst. by destruct Hst.
Qed.

(** The tasks on all shards. *)
Definition queued (t : ManagerTask callback_args) (s : GrpcServer.service Q) : Prop :=
  exists d i q, dispatcher_ s = Some d /\ ingestShards_ d !! i = Some q /\ t ∈ mpmc_items q.

Lemma push_queued context request now s t :
  queued t (SetMonitorInfo hash context (Some request) now s).2 ->
  queued t s \/ run t = (request, worker_identity context).
Proof using All.
  unfold SetMonitorInfo. destruct (is_empty _); [by left|]. destruct (is_empty _); [by left|].
  destruct (dispatcher_ s) as [d|] eqn:Ed, (callback_ s) eqn:Ec; cbn;
    try (intros (d' & i & q & Hd & Hq); cbn in Hd; left; exists d', i, q; rewrite Ed; done).
  unfold submitMonitorTask, enqueueIngest. destruct (_ || _); cbn.
  { intros (d' & i & q & [= <-] & Hq). left. exists d, i, q. by rewrite Ed. }
  destruct (write_shard hash d _) as [d1|] eqn:Ew; cbn;
    intros (d' & i & q & [= <-] & Hq & Ht); [|left; exists d, i, q; by rewrite Ed].
  unfold write_shard in Ew. destruct (ingestShards_ d !! _) as [q0|] eqn:Eq; [|done]. cbn in Ew.
  destruct (mpmc_write q0 _) as [q1|] eqn:Ew1; [|done]. injection Ew as <-.
  apply list_lookup_insert_Some in Hq as [(<- & <- & _)|[_ Hq]];
    [|left; exists d, i, q; by rewrite Ed].
  apply mpmc_write_items in Ew1 as [Ei _].
  eapply eq_ind in Ht; [|exact Ei].
  apply elem_of_app in Ht as [Ht|Ht]; [left; eexists d, _, q0; by rewrite Ed|].
  apply list_elem_of_singleton in Ht as ->. by right.
Qed.

Lemma take_queued s d i a d' :
  dispatcher_ s = Some d -> take_task i d = Some (a, d') ->
  (forall t, queued t (setDispatcher (Some d') s) -> queued t s) /\ exists t0, queued t0 s /\ run t0 = a.
Proof using All.
  intros Hd. unfold take_task. destruct (ingestShards_ d !! i) as [q|] eqn:Eq; [|done]. cbn.
  destruct (mpmc_read q) as [[t0 q']|] eqn:Er; [|done]. intros [= <- <-].
  apply mpmc_read_items in Er as [Ei _]. split.
  - intros t (d1 & j & q1 & [= <-] & Hj & Ht). cbn in Hj.
    apply list_lookup_insert_Some in Hj as [(<- & <- & _)|[_ Hj]]; [|by exists d, j, q1].
    exists d, i, q. split_and!; [done|done|]. rewrite Ei. by right.
  - exists t0. split; [|done]. exists d, i, q. split_and!; [done|done|]. rewrite Ei. by left.
Qed.

(** *** The invariant *)

Variable registry : string -> option registration.
Hypothesis db_registry : forall id,
  db (registry_query escape id) =
    Rows (match registry id with
          | Some r => if active r then [registry_row r] else []
          | None => []
          end).
Hypothesis ids_ok : server_id_ok registry.

(** A sample of one of the calls. *)
Definition of_calls (cs : list call) (d : HostMonitoringData) : Prop :=
  exists c, c ∈ cs /\ from_call registry c d.

(** A statement that the writer makes for a sample. *)
Definition written_for (d : HostMonitoringData) (st : insert) : Prop :=
  exists w, st ∈ (sample_inserts show32 show64 strftime d w).1.

Definition text_of_calls (cs : list call) (text : string) : Prop :=
  exists d st, of_calls cs d /\ written_for d st /\ text = statement_text escape st.

Definition hosts_inv (cs : list call) (t : threads) : Prop :=
  from_calls registry cs (host t) /\
  Forall (fun w => forall d, in_hand w = Some d -> of_calls cs d) (writers t) /\
  Forall (text_of_calls cs) (sent t).

Definition system_inv (s : system) : Prop :=
  (forall t, queued t (srv s) -> ((run t).2, (run t).1) ∈ received s) /\
  (forall c, c ∈ calls s -> (identity c, message c) ∈ received s) /\
  hosts_inv (calls s) (hosts s).

Lemma written_scoped d st : written_for d st -> scoped_insert d st.
Proof using.
  intros [w Hst]. pose proof (sample_inserts_scoped show32 show64 strftime d w) as Hall.
  rewrite Forall_forall in Hall. by apply Hall.
Qed.

Lemma of_calls_weaken cs c d : of_calls cs d -> of_calls (cs ++ [c]) d.
Proof using. intros (c' & ? & ?). exists c'. rewrite elem_of_app. auto. Qed.

Lemma from_calls_stores cs st st' :
  from_calls registry cs st ->
  (forall d, d ∈ mysqlWriteQueue_ st' -> d ∈ mysqlWriteQueue_ st) ->
  (forall id hs, hostScores_ st' !! id = Some hs -> hostScores_ st !! id = Some hs) ->
  from_calls registry cs st'.
Proof using. intros [Hq Hs] H1 H2. split; [by intros d Hd%H1%Hq|]. by intros id hs Hh%H2%Hs. Qed.

Lemma hosts_inv_writer cs t i w st :
  hosts_inv cs t -> from_calls registry cs st -> (forall d, in_hand w = Some d -> of_calls cs d) ->
  hosts_inv cs (set_writer i w st t).
Proof using. intros (H1 & H2 & H3) Hst Hw. split_and!; cbn; [done|by apply Forall_insert|done]. Qed.

(** What [writeToMysql] sends. *)
Lemma writeToMysql_sends pool conn d m w sts m' w' :
  writeToMysql escape show32 show64 strftime pool conn d m w = (sts, m', w') ->
  Forall (fun text => exists st, written_for d st /\ text = statement_text escape st) sts.
Proof using.
  intros E. apply (f_equal (fun x => x.1.1)) in E. cbn [fst] in E. subst sts.
  unfold writeToMysql. destruct pool; [|done]. destruct conn; [|done]. cbn [negb].
  destruct (is_empty (tenant_id (scope d)) || _ || _); [done|].
  destruct (sample_inserts _ _ _ _ _) as [l w1] eqn:El. cbn [fst]. apply Forall_map, Forall_forall.
  intros st Hst. exists st. split; [|done]. exists w. by rewrite El.
Qed.

Lemma take_turn_scores t w st : take_turn t = (w, st) -> hostScores_ st = hostScores_ (host t).
Proof using.
  unfold take_turn, mysqlWriteLoop_turn. destruct (mysqlWriteQueue_ (host t)); [|by intros [= _ <-]].
  destruct (running_ t); by intros [= _ <-].
Qed.

Lemma hosts_inv_own cs t t' :
  hosts_inv cs t -> own_step escape show32 show64 strftime t t' -> hosts_inv cs t'.
Proof using.
  intros Hinv Hs. pose proof Hinv as (H1 & H2 & H3).
  destruct Hs as [t now Hp|t i w st Hi Ht|t i d Hi Hx|t i d pool conn sts m w Hi Hw
    |t Hc Hp|t i Hc Hi|t i Hc Hl].
  - unfold process_step. destruct (process t); [done|done| |done]. split_and!; try done.
    eapply from_calls_stores; [exact H1|done|]. cbn. intros id hs. unfold remove_stale.
    by intros [? _]%map_lookup_filter_Some.
  - pose proof (take_turn_scores _ _ _ Ht) as Es.
    apply take_turn_cases in Ht as [(d & -> & Eq & _)|(Eq & -> & ->)].
    + apply hosts_inv_writer; [done| |].
      * eapply from_calls_stores; [exact H1|intros d' Hd; rewrite Eq; by right|].
        intros id hs. by rewrite Es.
      * intros d' [= <-]. apply H1. rewrite Eq. by left.
    + apply hosts_inv_writer; [done..|]. by destruct (running_ t).
  - apply hosts_inv_writer; [done..|]. exact (Forall_lookup_1 _ _ _ _ H2 Hi).
  - pose proof (Forall_lookup_1 _ _ _ _ H2 Hi d eq_refl) as Hd.
    split_and!; cbn; [done|by apply Forall_insert|]. apply Forall_app. split; [done|].
    eapply Forall_impl; [by eapply writeToMysql_sends|]. intros text (st & Hst & ->). by exists d, st.
  - by split_and!.
  - by split_and!.
  - split_and!; [done|constructor|done].
Qed.

Lemma system_inv_step s s' :
  system_inv s ->
  system_step s s' -> system_inv s'.
Proof using All.
  intros (Hq & Hc & Hh) Hs. destruct Hs as [s ctx r now|s d i info w d' now conn t' Hd Ht Hr Eh|s t' Ho|s Hcl].
  - split_and!; cbn; [|intros c Hin; apply elem_of_app; left; by apply Hc|done].
    intros t Hin. apply elem_of_app. apply push_queued in Hin as [Hin|E]; [left; by apply Hq|].
    right. rewrite E. by left.
  - destruct (take_queued _ _ _ _ _ Hd Ht) as [Hold (t0 & Ht0 & E0)].
    split_and!; cbn.
    + intros t Hin. by apply Hq, Hold.
    + intros c [Hin|Hin]%elem_of_app; [by apply Hc|]. apply list_elem_of_singleton in Hin as ->. cbn.
      apply Hq in Ht0. by rewrite E0 in Ht0.
    + destruct Hh as (H1 & H2 & H3). destruct (arrive_keeps _ _ Hr) as [Ew Es].
      split_and!; [| rewrite Ew | rewrite Es].
      * rewrite Eh. destruct conn; [by apply (receive_from_calls _ _ _ _ db_registry ids_ok)|].
        eapply from_calls_stores; [by apply from_calls_weaken| |].
        -- unfold onDataReceived, resolveWorkerScope. by destruct (is_empty (worker_id w)).
        -- unfold onDataReceived, resolveWorkerScope. by destruct (is_empty (worker_id w)).
      * eapply Forall_impl; [exact H2|]. intros x Hx d0 Hd0. by apply of_calls_weaken, Hx.
      * eapply Forall_impl; [exact H3|]. intros x (d0 & st & Hd0 & Hst & Ex).
        exists d0, st. split; [by apply of_calls_weaken|done].
  - split_and!; [done|done|]. by eapply hosts_inv_own.
  - by split_and!.
Qed.

(** A free writer stores the first sample of the queue. *)
Lemma store_run s d q :
  writers (hosts s) !! 0%nat = Some WWait ->
  Forall (fun w => is_writing w = false) (writers (hosts s)) ->
  mysqlWriteQueue_ (host (hosts s)) = d :: q ->
  is_empty (tenant_id (scope d)) || is_empty (team_id (scope d)) || is_empty (cluster_id (scope d)) = false ->
  exists s', rtc system_step s s' /\ received s' = received s /\
    sent (hosts s') = sent (hosts s) ++
      map (statement_text escape)
        (sample_inserts show32 show64 strftime d (statics (hosts s))).1.
Proof using.
  intros Hi Hx Hq Hd.
  destruct (writeToMysql escape show32 show64 strftime true true d (metrics (hosts s)) (statics (hosts s)))
    as [[sts m'] w'] eqn:E.
  assert (Es : sts = map (statement_text escape)
      (sample_inserts show32 show64 strftime d (statics (hosts s))).1).
  { apply (f_equal (fun x => x.1.1)) in E. cbn [fst] in E. subst sts.
    unfold writeToMysql. cbn [negb]. rewrite Hd. by destruct (sample_inserts _ _ _ _ _). }
  eexists. split; [|split].
  - eapply rtc_l; [eapply sys_own, (t_take _ _ _ _ _ 0%nat); [exact Hi|]|].
    { unfold take_turn, mysqlWriteLoop_turn. rewrite Hq. reflexivity. }
    eapply rtc_l; [eapply sys_own, (t_lock _ _ _ _ _ 0%nat d)|].
    { cbn. apply list_lookup_insert_eq. by eapply lookup_lt_Some. }
    { cbn. by apply Forall_insert. }
    eapply rtc_l; [eapply sys_own, (t_write _ _ _ _ _ 0%nat d true true _ m' w'); [|exact E]|apply rtc_refl].
    cbn. apply list_lookup_insert_eq. rewrite length_insert. by eapply lookup_lt_Some.
  - done.
  - cbn. by rewrite Es.
Qed.
End WritePath.

(** ** The running process *)

Section Running.
Context {Q : Type} `{MPMCQueueLaws Q (ManagerTask callback_args)}.
Variable hash : string -> Z.
Variable escape : string -> string.
Variable show : f64 -> string.
Variables (show32 : f32 -> string) (show64 : f64 -> string) (strftime : Z -> string).
Variable db : string -> select_outcome.
Variable registry : string -> option registration.
Hypothesis db_registry : forall id,
  db (registry_query escape id) =
    Rows (match registry id with
          | Some r => if active r then [registry_row r] else []
          | None => []
          end).
Hypothesis ids_ok : server_id_ok registry.

(** The components as [main] leaves them, and a run from there. *)
Definition initial (p : process_state Q) : system := mk_system (service p) (hostManager p) [] [].

Definition running_step (p : process_state Q) : system -> system -> Prop :=
  system_step hash escape show show32 show64 strftime db (managerConfig p)
    (redis_enabled (managerConfig p)).

Lemma initial_inv argv env hardware now a1 a2 a3 :
  system_inv escape show32 show64 strftime registry (initial (main argv env hardware now a1 a2 a3)).
Proof using All.
  split; [|split; [|split; [|split]]].
  - intros t (d & i & q & [= <-] & Hq & Ht). cbn in Hq.
    apply lookup_replicate in Hq as [-> _]. rewrite mpmc_new_items in Ht. by apply not_elem_of_nil in Ht.
  - intros c Hc. by apply not_elem_of_nil in Hc.
  - split; [intros d Hd; by apply not_elem_of_nil in Hd|]. intros id hs Hl.
    change ((∅ : gmap string HostScore) !! id = Some hs) in Hl. by rewrite lookup_empty in Hl.
  - cbn. by apply Forall_replicate.
  - constructor.
Qed.

(** A statement that was sent stores a sample of a call that was received. *)
Lemma sent_from_calls argv env hardware now a1 a2 a3 s text :
  let p := main argv env hardware now a1 a2 a3 in
  rtc (running_step p) (initial p) s -> text ∈ sent (hosts s) ->
  exists c d st, (identity c, message c) ∈ received s /\ from_call registry c d /\
    written_for show32 show64 strftime d st /\ text = statement_text escape st.
Proof using All.
  intros p Hr Ht.
  assert (Hi : system_inv escape show32 show64 strftime registry s).
  { eapply (rtc_invariant (running_step p) (system_inv escape show32 show64 strftime registry));
      [| |exact Hr].
    - intros x y Hx Hs. by eapply system_inv_step.
    - apply initial_inv. }
  destruct Hi as (_ & Hc & _ & _ & Hs). rewrite Forall_forall in Hs.
  destruct (Hs text Ht) as (d & st & (c & Hin & Hfc) & Hst & ->).
  exists c, d, st. by split_and!; [apply Hc|..].
Qed.

(** C3. Only registered workers write, and only under their registration.  In
    every state that the started manager reaches, however pushes, ingest workers,
    writers, the cleaner and [stop] interleave, every statement sent to MySQL
    comes from a message that was pushed with the identity of an active worker
    and its token, and its first five columns hold the tenant, team, cluster and
    server of that registration and the identifier of the message's host. *)
Theorem stored_rows_are_registered argv env hardware now a1 a2 a3 s text :
  let p := main argv env hardware now a1 a2 a3 in
  rtc (running_step p) (initial p) s -> text ∈ sent (hosts s) ->
  exists w r sc st cs vs,
    (w, r) ∈ received s /\ registered_scope registry w = Some sc /\
    text = statement_text escape st /\ columns st = scope_columns ++ cs /\
    values st = [Quoted (tenant_id sc); Quoted (team_id sc); Quoted (cluster_id sc);
                 Bare (if server_id sc =? 0 then "NULL" else to_string (server_id sc));
                 Quoted (hostID r)] ++ vs /\
    length cs = length vs.
Proof using All.
  intros p Hr Ht. destruct (sent_from_calls argv env hardware now a1 a2 a3 s text Hr Ht)
    as (c & d & st & Hin & (Hsc & Hh & _) & Hst & ->).
  destruct (written_scoped _ _ _ _ _ Hst) as (cs & vs & Ecs & Evs & El).
  exists (identity c), (message c), (scope d), st, cs, vs. split_and!; try done.
  rewrite Evs. unfold scope_values. by rewrite Hh.
Qed.
End Running.

(** The registry of one worker, asked with the escaping of [escape_quotes]. *)
Definition quoted_db (q : string) : select_outcome :=
  Rows (if String.eqb q (registry_query escape_quotes "worker-a")
        then [registry_row (mk_registration one_scope "token-a" true)] else []).

Lemma quoted_db_registry id :
  quoted_db (registry_query escape_quotes id) =
    Rows (match one_worker id with
          | Some r => if active r then [registry_row r] else []
          | None => []
          end).
Proof.
  unfold quoted_db, one_worker. destruct (decide (id = "worker-a")) as [->|Hne].
  - by rewrite !String.eqb_refl.
  - rewrite (proj2 (String.eqb_neq id "worker-a")) by done.
    destruct (String.eqb_spec (registry_query escape_quotes id) (registry_query escape_quotes "worker-a"))
      as [E|]; [|done].
    destruct Hne. unfold registry_query, quoteSqlString in E.
    apply (inj (String.append _)), (inj (String.append _)) in E.
    apply append_cancel_r, (inj (String.append "'")) in E.
    by apply append_cancel_r, escape_quotes_inj in E.
Qed.

(** A worker that is registered pushes a message to a started manager, an ingest
    worker passes it on, and a writer stores it. *)
Definition fresh_process : process_state (Z * list (ManagerTask callback_args)) :=
  main [] empty_env 4 0 [] [] [].

Definition one_running_step : system -> system -> Prop :=
  running_step (fun _ => 3) escape_quotes (fun _ => "0") (fun _ => "0") (fun _ => "0") (fun _ => "t")
    quoted_db fresh_process.

Definition after_push : system :=
  mk_system (SetMonitorInfo (fun _ => 3) worker_call (Some sample_info) 5 (service fresh_process)).2
    (hostManager fresh_process) [(worker_identity worker_call, sample_info)] [].

Lemma a_stored_row :
  exists s text, rtc one_running_step (initial fresh_process) s /\
    received s = [(worker_identity worker_call, sample_info)] /\ text ∈ sent (hosts s).
Proof.
  assert (R1 : one_running_step (initial fresh_process) after_push)
    by apply (sys_push _ _ _ _ _ _ _ _ _ (initial fresh_process)).
  destruct (take_task 3 (default running_dispatcher (dispatcher_ (srv after_push)))) as [[a d']|] eqn:Et;
    [|by vm_compute in Et].
  assert (Ea : a = (sample_info, worker_identity worker_call)) by (vm_compute in Et; by injection Et as <- _).
  subst a.
  destruct (receive_arrives escape_quotes (fun _ => "0") quoted_db (managerConfig fresh_process)
    (redis_enabled (managerConfig fresh_process)) (hosts after_push) true 5 sample_info
    (worker_identity worker_call)) as (t' & Ha & Eh).
  destruct (arrive_keeps _ _ _ Ha) as [Ew Es].
  set (s2 := mk_system (setDispatcher (Some d') (srv after_push)) t' (received after_push)
    [mk_call 5 sample_info (worker_identity worker_call)]).
  assert (R2 : one_running_step after_push s2).
  { by eapply (sys_ingest _ _ _ _ _ _ _ _ _ after_push). }
  assert (Em : map scope (mysqlWriteQueue_ (host t')) = [one_scope]) by (rewrite Eh; by vm_compute).
  destruct (mysqlWriteQueue_ (host t')) as [|d q] eqn:Eq; [done|]. injection Em as Ed _.
  destruct (store_run (fun _ => 3) escape_quotes (fun _ => "0") (fun _ => "0") (fun _ => "0") (fun _ => "t")
    quoted_db (managerConfig fresh_process) (redis_enabled (managerConfig fresh_process)) s2 d q)
    as (s3 & R3 & Er & Est); [cbn; by rewrite Ew|cbn; rewrite Ew; by apply Forall_replicate|done|by rewrite Ed|].
  destruct (sample_inserts (fun _ => "0") (fun _ => "0") (fun _ => "t") d (statics (hosts s2))).1
    as [|st sts] eqn:Ei.
  { exfalso. unfold sample_inserts in Ei. destruct (performance_insert _ _ _ _ _).
    repeat destruct (inserts _ _ _). done. }
  exists s3, (statement_text escape_quotes st). split; [|split].
  - eapply rtc_l; [exact R1|]. eapply rtc_l; [exact R2|exact R3].
  - by rewrite Er.
  - rewrite Est. apply elem_of_app. right. by left.
Qed.

Lemma stored_rows_are_registered_witness :
  exists s text st vs, rtc one_running_step (initial fresh_process) s /\ text ∈ sent (hosts s) /\
    text = statement_text escape_quotes st /\
    values st = [Quoted "tenant"; Quoted "team"; Quoted "cluster"; Bare "7"; Quoted "web_10.0.0.1"] ++ vs.
Proof.
  destruct a_stored_row as (s & text & Hr & Hrec & Ht).
  destruct (stored_rows_are_registered (fun _ => 3) escape_quotes (fun _ => "0") (fun _ => "0") (fun _ => "0")
    (fun _ => "t") quoted_db one_worker quoted_db_registry one_worker_ids_ok
    [] empty_env 4 0 [] [] [] s text Hr Ht) as (w & r & sc & st & cs & vs & Hin & Hsc & -> & _ & Hv & _).
  exists s, (statement_text escape_quotes st), st, vs. split; [exact Hr|]. split; [exact Ht|]. split; [done|].
  rewrite Hrec in Hin. apply list_elem_of_singleton in Hin. injection Hin as -> ->.
  assert (sc = one_scope) as -> by (vm_compute in Hsc; by injection Hsc as <-). exact Hv.
Defined.
