(* ===== verification/Lifetimes.v ===== *)
(** * Lifetimes: the end of the manager's process

    What [main] ([src/manager/src/main.cpp]) does after [server->Wait()]: the
    threads it joins, and the destruction of its local objects in the opposite
    order of their declarations.  Objects hold plain pointers to each other, so
    the order is what keeps a running thread from an object that is gone.  Also
    the thread that prints the metrics. *)

From S2P Require Import Prelude.

(** ** The local objects and who uses whom *)

Inductive component :=
| Config | Metrics | TheDispatcher | WritePool | QueryPool | RedisPool | TheRedisCache | Service
| Hosts | Queries | QueryServer | Server.

#[export] Instance component_eq_dec : EqDecision component.
Proof. solve_decision. Defined.

(** The declarations of [main]; [redis]: the cache is enabled. *)
Definition declared (redis : bool) : list component :=
  [Config; Metrics; TheDispatcher; WritePool; QueryPool] ++
  (if redis then [RedisPool; TheRedisCache] else []) ++
  [Service; Hosts; Queries; QueryServer; Server].

(** What code of a component reaches through its pointers and callbacks; the
    tasks of the dispatcher call the host manager and the query service. *)
Definition uses (redis : bool) (c : component) : list component :=
  let cache := if redis then [TheRedisCache] else [] in
  match c with
  | Config | Metrics => []
  | TheDispatcher => [Metrics; Hosts; QueryServer]
  | WritePool | QueryPool | RedisPool => [Metrics]
  | TheRedisCache => [RedisPool; Metrics]
  | Service => [TheDispatcher; Hosts]
  | Hosts => [Metrics; WritePool] ++ cache
  | Queries => [QueryPool; Config; Metrics]
  | QueryServer => [Queries; TheDispatcher] ++ cache
  | Server => [Service; QueryServer]
  end.

(** Everything that can be reached in at most [fuel] pointers. *)
Fixpoint reach (fuel : nat) (redis : bool) (c : component) : list component :=
  c :: match fuel with O => [] | S fuel => uses redis c ≫= reach fuel redis end.

Inductive thread :=
| GrpcThreads | MetricsThread | DispatcherWorkers | HostThreads
| WriteHealth | QueryHealth | RedisHealth.

#[export] Instance thread_eq_dec : EqDecision thread.
Proof. solve_decision. Defined.

Definition entry (redis : bool) (t : thread) : list component :=
  match t with
  | GrpcThreads => [Server]
  | MetricsThread =>
      [Config; Metrics; TheDispatcher; WritePool; QueryPool] ++ (if redis then [TheRedisCache] else [])
  | DispatcherWorkers => [TheDispatcher]
  | HostThreads => [Hosts]
  | WriteHealth => [WritePool]
  | QueryHealth => [QueryPool]
  | RedisHealth => [RedisPool]
  end.

Definition started (redis : bool) : list thread :=
  [GrpcThreads; MetricsThread; DispatcherWorkers; HostThreads; WriteHealth; QueryHealth] ++
  (if redis then [RedisHealth] else []).

(** ** The end of main *)

(** A thread has been joined, or the memory of an object is gone. *)
Inductive event := Join (t : thread) | Free (c : component).

(** A destructor joins the threads of its object first; [stop] of the dispatcher
    has nothing left to join when it was called before. *)
Definition joined_by (c : component) : list thread :=
  match c with
  | TheDispatcher => [DispatcherWorkers]
  | Hosts => [HostThreads]
  | WritePool => [WriteHealth]
  | QueryPool => [QueryHealth]
  | RedisPool => [RedisHealth]
  | _ => []
  end.

Definition destroy (c : component) : list event := map Join (joined_by c) ++ [Free c].

(** [Wait] returns when the calls have ended; then the two joins of [main], and
    the destructors. *)
Definition destructors (redis : bool) : list event := reverse (declared redis) ≫= destroy.

Definition shutdown (redis : bool) : list event :=
  [Join GrpcThreads; Join MetricsThread; Join DispatcherWorkers] ++ destructors redis.

Record process := mk_process { alive : list component; running : list thread }.

Definition at_wait (redis : bool) : process := mk_process (declared redis) (started redis).

Definition happen (p : process) (e : event) : process :=
  match e with
  | Join t => mk_process (alive p) (filter (fun x => x <> t) (running p))
  | Free c => mk_process (filter (fun x => x <> c) (alive p)) (running p)
  end.

(** No running thread can reach an object that is gone; the longest chain of
    pointers has five. *)
Definition safe (redis : bool) (p : process) : bool :=
  forallb (fun t =>
    forallb (fun c => bool_decide (c ∈ alive p)) (entry redis t ≫= reach 6 redis)) (running p).

(** What is reached with that fuel is closed under [uses]. *)
Lemma reach_closed redis t :
  forallb (fun c => bool_decide (uses redis c ⊆ (entry redis t ≫= reach 6 redis)))
    (entry redis t ≫= reach 6 redis) = true.
Proof. destruct redis, t; by vm_compute. Qed.

(** The end of the process is safe: at every point between the return of
    [Wait] and the last destructor no thread that still runs can reach an object
    that has been destroyed, with and without Redis; at the end no thread runs
    and no object is left. *)
Theorem shutdown_safe redis n :
  safe redis (foldl happen (at_wait redis) (take n (shutdown redis))) = true /\
  foldl happen (at_wait redis) (shutdown redis) = mk_process [] [].
Proof.
  split; [|by destruct redis; vm_compute].
  assert (Hall : forallb (fun k => safe redis (foldl happen (at_wait redis) (take k (shutdown redis))))
    (seq 0 (S (length (shutdown redis)))) = true) by (by destruct redis; vm_compute).
  rewrite forallb_forall in Hall.
  destruct (decide (n <= length (shutdown redis))%nat) as [Hn|Hn].
  - apply Hall, list_elem_of_In, elem_of_seq. lia.
  - rewrite take_ge by lia. rewrite <- (take_ge (shutdown redis) (length (shutdown redis))) by lia.
    apply Hall, list_elem_of_In, elem_of_seq. lia.
Qed.

(** Without the call of [dispatcher.stop] in [main] a worker could still call the
    host manager when that is gone: the dispatcher is declared before it. *)
Lemma shutdown_needs_stop redis :
  exists n, safe redis (foldl happen (at_wait redis)
    (take n ([Join GrpcThreads; Join MetricsThread] ++ destructors redis))) = false.
Proof. exists 7%nat. by destruct redis; vm_compute. Qed.

(** ** The thread that prints the metrics *)

Inductive metrics_pc := AtTest | Sleeping | Printing | Returned.

Record metrics_thread := mk_metrics { pc : metrics_pc; printed : nat }.

(** A step of the thread; the flag is only read before the sleep. *)
Definition metrics_step (running : bool) (t : metrics_thread) : metrics_thread :=
  match pc t with
  | AtTest => mk_metrics (if running then Sleeping else Returned) (printed t)
  | Sleeping => mk_metrics Printing (printed t)
  | Printing => mk_metrics AtTest (S (printed t))
  | Returned => t
  end.

(** Once the flag is lowered the thread returns within three of its steps, so
    that [main] joins it, and prints one more line at most. *)
Theorem metrics_thread_ends t :
  let t' := Nat.iter 3 (metrics_step false) t in
  pc t' = Returned /\ (printed t <= printed t' <= S (printed t))%nat.
Proof. destruct t as [[] k]; cbn; (split; [done|lia]). Qed.

(** While the flag is up it prints a line in every round of three steps. *)
Lemma metrics_thread_prints k n :
  Nat.iter (3 * k) (metrics_step true) (mk_metrics AtTest n) = mk_metrics AtTest (k + n).
Proof.
  induction k as [|k IH]; [done|]. replace (3 * S k)%nat with (3 + 3 * k)%nat by lia.
  by rewrite Nat.iter_add, IH.
Qed.
