(* ===== verification/Isolation.v ===== *)
(** * Isolation: what a tenant's queries can depend on

    The write path of [ManagerMain] and the queries of [QueryManager] over one
    MySQL server: the statements that the running manager sends are the history
    that the queries are answered from.  The theorem is noninterference: the
    samples of workers registered outside a scope change no answer inside it,
    neither of the queries nor of the gRPC handlers of [QueryService]. *)

From S2P Require Import Prelude QueryService CFloat CString ManagerConfig Messages Dispatcher Grpc QueryDispatch HostManager GrpcServer MysqlWriter HostThreads QueryRecords QueryManager Sql SqlServer ManagerMain.

Section TenantIsolation.
Context {Q : Type} `{MPMCQueueLaws Q (ManagerTask callback_args)}.
Variable hash : string -> Z.
Variable escape : string -> string.
Context `{ServerLaws escape}.
Variable show : f64 -> string.
Variables (show32 : f32 -> string) (show64 : f64 -> string) (strftime : Z -> string).
Hypothesis Hshow : prints_numbers show32 show64.
Variable db : string -> select_outcome.
Variable registry : string -> option registration.
Hypothesis db_registry : forall id,
  db (registry_query escape id) =
    Rows (match registry id with
          | Some r => if active r then [registry_row r] else []
          | None => []
          end).
Hypothesis ids_ok : server_id_ok registry.

(** The scope of a registration is inside the scope of a query, as the server
    compares texts; a query without a cluster is one of the whole team. *)
Definition covers (qs : QueryScope) (sc : WorkerScope) : bool :=
  collates (HostManager.tenant_id sc) (QueryRecords.tenant_id qs) &&
  collates (HostManager.team_id sc) (QueryRecords.team_id qs) &&
  (is_empty (QueryRecords.cluster_id qs) ||
   collates (HostManager.cluster_id sc) (QueryRecords.cluster_id qs)).

(** A statement of a sample that a worker of the scope pushed. *)
Definition own_statement (s : system (Q := Q)) (qs : QueryScope) (text : string) : Prop :=
  exists c d st,
    (identity c, message c) ∈ received s /\ from_call registry c d /\ covers qs (scope d) = true /\
    written_for show32 show64 strftime d st /\ text = statement_text escape st.

(** The stored row of a sample holds the scope of its registration. *)
Lemma stored_scope d st r qs :
  written_for show32 show64 strftime d st -> stores st r -> in_scope qs r = covers qs (scope d).
Proof using.
  intros Hw Hr. destruct (written_scoped _ _ _ _ _ Hw) as (cs & vs & Ecs & Evs & _).
  assert (Hv : forall c v, value_of c (mk_insert "" (scope_columns ++ cs) (scope_values d ++ vs)) =
    Some (Quoted v) -> r c = Some v).
  { intros c v Hc. apply Hr. unfold value_of in *. by rewrite Ecs, Evs. }
  unfold in_scope, satisfies, scope_conds, covers, forallb, cond_holds, cell_is. cbn [app].
  rewrite (Hv "tenant_id" (HostManager.tenant_id (scope d))),
    (Hv "team_id" (HostManager.team_id (scope d))) by reflexivity.
  destruct (is_empty (QueryRecords.cluster_id qs)).
  - by rewrite !andb_true_r.
  - rewrite (Hv "cluster_id" (HostManager.cluster_id (scope d))) by reflexivity.
    by rewrite andb_true_r, andb_assoc.
Qed.

Lemma kept_all keep (l : list string) : Forall (fun x => keep x = true) l -> kept keep l = l.
Proof using.
  unfold kept. induction 1 as [|x l Hx Hl IH]; [done|]. by rewrite filter_cons, decide_True, IH.
Qed.

(** C1. Tenants are isolated from end to end.  Take any state that the started
    manager reaches, whatever the tables held before, and drop from what it sent
    to MySQL any statements, but none of a sample pushed by a worker that is
    registered in the scope of a query: each of the eleven queries of that scope
    gives the same answer as before, error texts and counts included, and each
    of the eleven gRPC handlers the same status and response to every request of
    that scope, from the same cache of the latest scores. *)
Theorem tenants_are_isolated argv env hardware now a1 a2 a3 s before keep ck m connected qs sort
    queryManager serialize parse :
  let p := main argv env hardware now a1 a2 a3 in
  rtc (running_step hash escape show show32 show64 strftime db p) (initial p) s ->
  Forall (fun text => keep text = true) before ->
  (forall text, text ∈ sent (hosts s) -> own_statement s qs text -> keep text = true) ->
  let all := execute (before ++ sent (hosts s)) in
  let fewer := execute (before ++ kept keep (sent (hosts s))) in
  same_answers ck m connected qs all fewer sort /\
  same_replies ck queryManager connected qs all fewer serialize parse sort.
Proof using All.
  intros p Hr Hb Hk all fewer.
  enough (Ha : agree_on (issued ck qs) all fewer) by (split; [by apply queries_agree|by apply handlers_agree]).
  unfold all, fewer. rewrite <- (kept_all keep before) at 2 by done.
  unfold kept. rewrite <- filter_app. apply (kept_agree (escape := escape)).
  intros text t r [Hin|Hin]%elem_of_app Hi Hsc.
  { rewrite Forall_forall in Hb. by apply Hb. }
  apply Hk; [done|].
  destruct (sent_from_calls hash escape show show32 show64 strftime db registry db_registry ids_ok
    argv env hardware now a1 a2 a3 s text Hr Hin) as (c & d & st & Hc & Hd & Hw & ->).
  exists c, d, st. split_and!; try done.
  assert (Hok : insert_ok st = true).
  { destruct Hw as [w Hst]. pose proof (sample_inserts_ok show32 show64 strftime Hshow d w) as Hall.
    rewrite Forall_forall in Hall. by apply Hall. }
  destruct (inserted_stores st t r Hok Hi) as [_ Hst].
  by rewrite <- (stored_scope d st r qs Hw Hst).
Qed.
End TenantIsolation.

(** ** A run with one worker, and a query of another tenant *)

Definition other_scope : QueryScope := mk_QueryScope "other" "team" "".
Definition own_scope : QueryScope := mk_QueryScope "T" "a" "C".

(** A stored sample is seen by its tenant, in any spelling, and by no other. *)
Example small_server_answers :
  let history := map (statement_text escape_quotes)
    (sample_inserts (fun _ => "0") (fun _ => "0") (fun _ => "t") (sample_data "web") new_writer).1 in
  let seen_by qs := match queryLatestServerScores a_clock (execute history) ready true qs with
                    | Done (a, _) => map s_server_name (records a)
                    | _ => ["none"]
                    end in
  (seen_by own_scope, seen_by other_scope) = (["web"], []).
Proof. by vm_compute. Qed.

Lemma tenants_are_isolated_witness :
  exists s text, rtc one_running_step (initial fresh_process) s /\ text ∈ sent (hosts s) /\
    let reply history := QueryLatestScore a_clock (execute history) (Some ready) true
      (fun _ => None) (fun _ => None) other_scope None in
    reply (sent (hosts s)) = reply [].
Proof.
  destruct a_stored_row as (s & text & Hr & Hrec & Ht). exists s, text.
  split; [exact Hr|]. split; [exact Ht|].
  assert (Hk : forall l, kept (fun _ => false) l = []) by (by induction l).
  destruct (tenants_are_isolated (fun _ => 3) escape_quotes (fun _ => "0") (fun _ => "0")
    (fun _ => "0") (fun _ => "t") (conj (fun _ => eq_refl) (fun _ => eq_refl)) quoted_db one_worker
    quoted_db_registry one_worker_ids_ok [] empty_env 4 0 [] [] [] s [] (fun _ => false)
    a_clock ready true other_scope id (Some ready) (fun _ => None) (fun _ => None)
    Hr (Forall_nil_2 _)) as (_ & _ & _ & _ & _ & Hl).
  { intros x _ (c & d & st & Hin & (Hsc & _) & Hcov & _). exfalso.
    rewrite Hrec in Hin. apply list_elem_of_singleton in Hin. injection Hin as Ei _.
    assert (E : registered_scope one_worker (worker_identity worker_call) = Some one_scope)
      by (by vm_compute).
    rewrite Ei, E in Hsc. injection Hsc as Es. rewrite <- Es in Hcov. by vm_compute in Hcov. }
  specialize (Hl None). cbn [app] in Hl. rewrite Hk in Hl. exact Hl.
Defined.
